(** * M5PaperUI: a retained-mode UI framework for an e-paper device

    Shallow embedding of [src/main.cpp] and the properties of its
    dirty-rectangle engine, touch dispatch, text layout and pixel packing.

    Conventions of the embedding.
    - C++ [int] values are integers of [Z]; the arithmetic of the source is
      carried out on [Z], i.e. under the assumption that no signed overflow
      happens (C++ leaves it undefined).  Unsigned 16-bit members are reduced
      modulo 2^16 where the source assigns to them.
    - Objects live in a heap, a finite map from addresses to nodes.  A C++
      pointer is an [option loc]; [None] is [NULL].
    - A method that only touches [this] is a function on nodes; a method that
      follows pointers is a function on heaps returning [option]: [None]
      stands for a dereference of a null or dangling pointer, or for a
      computation that needs more fuel than it was given.
    - Virtual calls are resolved on the dynamic class stored in the node.
    - The sprite library is external: what it measures of a text is given
      by the class [TextMetrics], what its drawing calls paint by the class
      [SpriteGraphics].
    - The classes of the source declare a member [initialised] each
      ([UiObj], [UiLabel], [UiFrame], [UiModal], [UiImage], [UiHwImage]);
      a derived class hides the member of its base.  The embedding keeps one
      field per declaration. *)

From Stdlib Require Import ZArith Lia Bool Ascii.
From stdpp Require Import base option list gmap strings.

Local Open Scope Z_scope.

(** ** Geometry *)

Module Area.
Record t : Type := mk { x : Z; y : Z; width : Z; height : Z }.
Definition zero : t := mk 0 0 0 0.
End Area.
Abbreviation area := Area.t.

(** ** Data model *)

Abbreviation loc := nat.

(** [UiObj::layer_t], in declaration order. *)
Inductive layer_t : Type :=
  LAYER_BG | LAYER_LOWER | LAYER_CENTRE | LAYER_UPPER | LAYER_TOP | LAYER_OVERLAY.

Definition layer_index (l : layer_t) : Z :=
  match l with
  | LAYER_BG => 0 | LAYER_LOWER => 1 | LAYER_CENTRE => 2
  | LAYER_UPPER => 3 | LAYER_TOP => 4 | LAYER_OVERLAY => 5
  end.

(** Modelled from the spec: the pixel surface of a node ([TFT_eSprite], a
    class of an external library) is an owned buffer with one byte per
    pixel, sized to the bounds.  The embedding keeps what the source reads
    from it: the sprite dimensions and [frameBuffer(1)], [None] when no
    sprite has been created. *)
Record TFT_eSprite : Type := mkSprite {
  sprite_width : Z;
  sprite_height : Z;
  frameBuffer : option (list Z)
}.

Definition noSprite : TFT_eSprite := mkSprite 0 0 None.

(** [createSprite(w, h, 1)]: nothing happens on a sprite that already exists
    or for a dimension below one; otherwise a zeroed buffer is allocated. *)
Definition createSprite (w h : Z) (s : TFT_eSprite) : TFT_eSprite :=
  match frameBuffer s with
  | Some _ => s
  | None =>
      if (w <? 1) || (h <? 1) then s
      else mkSprite w h (Some (replicate (Z.to_nat (w * h)) 0))
  end.

Definition deleteSprite (s : TFT_eSprite) : TFT_eSprite :=
  mkSprite (sprite_width s) (sprite_height s) None.

(** Members of [class UiObj]. *)
Record UiObjData : Type := mkObj {
  x : Z;
  y : Z;
  width : Z;
  height : Z;
  parent : option loc;
  surface : TFT_eSprite;
  updated : bool;
  exposed : bool;
  hardwareDraw : bool;
  unbuffered : bool;
  visible : bool;
  initialised : bool;
  visibilityChanged : bool;
  newParent : bool;
  drawn : bool;
  layer : layer_t;
  updateArea : area;
  exposeArea : area
}.

Inductive hAlign : Type := ALIGN_LEFT | ALIGN_CENTRE | ALIGN_RIGHT.
Inductive vAlign : Type := ALIGN_TOP | ALIGN_MIDDLE | ALIGN_BOTTOM.

(** Members of [class UiLabel] (the font pointer and the floating-point
    line spacing are left out: no modelled function reads them). *)
Record UiLabelData : Type := mkLabel {
  text : string;
  label_initialised : bool;
  hasOutline : bool;
  hasFill : bool;
  borderRounded : bool;
  fillRounded : bool;
  customFont : bool;
  autosize : bool;
  resizeNeeded : bool;
  borderRoundingRadius : Z;
  fillRoundingRadius : Z;
  outlineColour : Z;
  outlineThickness : Z;
  fillColour : Z;
  textColour : Z;
  textSize : Z;
  xPad : Z;
  yPad : Z;
  hasPreRender : bool;
  vAlignment : vAlign;
  hAlignment : hAlign
}.

(** Members of [class UiFrame]. *)
Record UiFrameData : Type := mkFrame {
  objects : list loc;
  frame_initialised : bool;
  hwFrame : bool;
  itemsChanged : bool;
  backgroundColour : Z
}.

(** What a button or an icon may be bound to: one of the three handlers a
    modal binds to itself with [std::bind], or a callback of the
    application, known by a number. *)
Inductive handler : Type :=
| ModalClose (m : loc)
| ModalOk (m : loc)
| ModalCancel (m : loc)
| AppCallback (id : nat).

(** Members of [class UiButton].  [callback] is the raw function pointer
    ([None] is [NULL]), [stdCallback] the [std::function]. *)
Record UiButtonData : Type := mkButton {
  callback : option handler;
  stdCallback : option handler;
  useStdFunction : bool
}.

(** Members of [class UiModal]. *)
Record UiModalData : Type := mkModal {
  result : Z;
  modal_initialised : bool;
  titlebar : loc;
  content : loc;
  closeButton : loc;
  okButton : loc;
  cancelButton : loc
}.

(** The dynamic class of an object together with the members its class
    adds to [UiObj]. *)
Inductive UiClass : Type :=
| IsLabel (l : UiLabelData)
| IsButton (l : UiLabelData) (b : UiButtonData)
| IsFrame (l : UiLabelData) (f : UiFrameData)
| IsIcon (l : UiLabelData) (f : UiFrameData) (cb : option handler)
| IsModal (l : UiLabelData) (f : UiFrameData) (m : UiModalData)
| IsManager (l : UiLabelData) (f : UiFrameData) (modal : option loc)
| IsImage (image_initialised : bool)
| IsHwImage (hwimage_initialised : bool).

Record node : Type := mkNode { base : UiObjData; cls : UiClass }.

Abbreviation heap := (gmap loc node).

(** The [UiFrame] part of an object, for the classes derived from it. *)
Definition frameOf (c : UiClass) : option UiFrameData :=
  match c with
  | IsFrame _ f | IsIcon _ f _ | IsModal _ f _ | IsManager _ f _ => Some f
  | _ => None
  end.

(** The [UiLabel] part of an object. *)
Definition labelOf (c : UiClass) : option UiLabelData :=
  match c with
  | IsLabel l | IsButton l _ | IsFrame l _ | IsIcon l _ _
  | IsModal l _ _ | IsManager l _ _ => Some l
  | _ => None
  end.

Definition withLabel (l : UiLabelData) (c : UiClass) : UiClass :=
  match c with
  | IsLabel _ => IsLabel l
  | IsButton _ b => IsButton l b
  | IsFrame _ f => IsFrame l f
  | IsIcon _ f cb => IsIcon l f cb
  | IsModal _ f m => IsModal l f m
  | IsManager _ f md => IsManager l f md
  | other => other
  end.

(** Storage as [new] returns it, before a constructor has run: the
    members a constructor does not assign keep the values found here. *)
Record storage : Type := mkStorage {
  raw_obj : UiObjData;
  raw_label : UiLabelData;
  raw_frame : UiFrameData;
  raw_button : UiButtonData;
  raw_modal : UiModalData
}.

(** *** Assignments to single members *)

Definition set_x (v : Z) (o : UiObjData) : UiObjData :=
  mkObj v (y o) (width o) (height o) (parent o) (surface o) (updated o)
    (exposed o) (hardwareDraw o) (unbuffered o) (visible o) (initialised o)
    (visibilityChanged o) (newParent o) (drawn o) (layer o) (updateArea o)
    (exposeArea o).

Definition set_y (v : Z) (o : UiObjData) : UiObjData :=
  mkObj (x o) v (width o) (height o) (parent o) (surface o) (updated o)
    (exposed o) (hardwareDraw o) (unbuffered o) (visible o) (initialised o)
    (visibilityChanged o) (newParent o) (drawn o) (layer o) (updateArea o)
    (exposeArea o).

Definition set_width (v : Z) (o : UiObjData) : UiObjData :=
  mkObj (x o) (y o) v (height o) (parent o) (surface o) (updated o)
    (exposed o) (hardwareDraw o) (unbuffered o) (visible o) (initialised o)
    (visibilityChanged o) (newParent o) (drawn o) (layer o) (updateArea o)
    (exposeArea o).

Definition set_height (v : Z) (o : UiObjData) : UiObjData :=
  mkObj (x o) (y o) (width o) v (parent o) (surface o) (updated o)
    (exposed o) (hardwareDraw o) (unbuffered o) (visible o) (initialised o)
    (visibilityChanged o) (newParent o) (drawn o) (layer o) (updateArea o)
    (exposeArea o).

Definition set_surface (v : TFT_eSprite) (o : UiObjData) : UiObjData :=
  mkObj (x o) (y o) (width o) (height o) (parent o) v (updated o)
    (exposed o) (hardwareDraw o) (unbuffered o) (visible o) (initialised o)
    (visibilityChanged o) (newParent o) (drawn o) (layer o) (updateArea o)
    (exposeArea o).

Definition set_updated (v : bool) (o : UiObjData) : UiObjData :=
  mkObj (x o) (y o) (width o) (height o) (parent o) (surface o) v
    (exposed o) (hardwareDraw o) (unbuffered o) (visible o) (initialised o)
    (visibilityChanged o) (newParent o) (drawn o) (layer o) (updateArea o)
    (exposeArea o).

Definition set_exposed (v : bool) (o : UiObjData) : UiObjData :=
  mkObj (x o) (y o) (width o) (height o) (parent o) (surface o) (updated o)
    v (hardwareDraw o) (unbuffered o) (visible o) (initialised o)
    (visibilityChanged o) (newParent o) (drawn o) (layer o) (updateArea o)
    (exposeArea o).

Definition set_hardwareDraw (v : bool) (o : UiObjData) : UiObjData :=
  mkObj (x o) (y o) (width o) (height o) (parent o) (surface o) (updated o)
    (exposed o) v (unbuffered o) (visible o) (initialised o)
    (visibilityChanged o) (newParent o) (drawn o) (layer o) (updateArea o)
    (exposeArea o).

Definition set_unbuffered (v : bool) (o : UiObjData) : UiObjData :=
  mkObj (x o) (y o) (width o) (height o) (parent o) (surface o) (updated o)
    (exposed o) (hardwareDraw o) v (visible o) (initialised o)
    (visibilityChanged o) (newParent o) (drawn o) (layer o) (updateArea o)
    (exposeArea o).

Definition set_visible (v : bool) (o : UiObjData) : UiObjData :=
  mkObj (x o) (y o) (width o) (height o) (parent o) (surface o) (updated o)
    (exposed o) (hardwareDraw o) (unbuffered o) v (initialised o)
    (visibilityChanged o) (newParent o) (drawn o) (layer o) (updateArea o)
    (exposeArea o).

Definition set_visibilityChanged (v : bool) (o : UiObjData) : UiObjData :=
  mkObj (x o) (y o) (width o) (height o) (parent o) (surface o) (updated o)
    (exposed o) (hardwareDraw o) (unbuffered o) (visible o) (initialised o)
    v (newParent o) (drawn o) (layer o) (updateArea o) (exposeArea o).

Definition set_updateArea (v : area) (o : UiObjData) : UiObjData :=
  mkObj (x o) (y o) (width o) (height o) (parent o) (surface o) (updated o)
    (exposed o) (hardwareDraw o) (unbuffered o) (visible o) (initialised o)
    (visibilityChanged o) (newParent o) (drawn o) (layer o) v (exposeArea o).

Definition set_exposeArea (v : area) (o : UiObjData) : UiObjData :=
  mkObj (x o) (y o) (width o) (height o) (parent o) (surface o) (updated o)
    (exposed o) (hardwareDraw o) (unbuffered o) (visible o) (initialised o)
    (visibilityChanged o) (newParent o) (drawn o) (layer o) (updateArea o) v.

Definition set_layer (v : layer_t) (o : UiObjData) : UiObjData :=
  mkObj (x o) (y o) (width o) (height o) (parent o) (surface o) (updated o)
    (exposed o) (hardwareDraw o) (unbuffered o) (visible o) (initialised o)
    (visibilityChanged o) (newParent o) (drawn o) v (updateArea o) (exposeArea o).

(** [this->member = v] on the [UiObj] part of a node. *)
Definition onBase (f : UiObjData -> UiObjData) (n : node) : node :=
  mkNode (f (base n)) (cls n).

(** A [UiLabel] method on a node of a class derived from [UiLabel]. *)
Definition onLabel (f : UiObjData * UiLabelData -> UiObjData * UiLabelData)
    (n : node) : node :=
  match labelOf (cls n) with
  | Some l => let '(o', l') := f (base n, l) in mkNode o' (withLabel l' (cls n))
  | None => n
  end.

(** A [UiLabel] method that may fail to return, on a node of a class
    derived from [UiLabel]. *)
Definition onLabelM
    (f : UiObjData * UiLabelData -> option (UiObjData * UiLabelData))
    (n : node) : option node :=
  match labelOf (cls n) with
  | Some l => t ← f (base n, l); Some (mkNode (fst t) (withLabel (snd t) (cls n)))
  | None => Some n
  end.

(** ** Raw byte buffers *)

(** A buffer pointer: [None] is [NULL]. *)
Abbreviation buffer := (option (list Z)).

(** [buf[i]] as an rvalue; an index outside the buffer is an error. *)
Definition peek (buf : list Z) (i : Z) : option Z :=
  if i <? 0 then None else buf !! Z.to_nat i.

(** [buf[i] = v]; an index outside the buffer is an error. *)
Definition poke (buf : list Z) (i v : Z) : option (list Z) :=
  if (0 <=? i) && (i <? Z.of_nat (length buf))
  then Some (<[Z.to_nat i := v]> buf) else None.

(** [memcpy(dest + doff, src + soff, n)].  A negative [n] becomes a huge
    [size_t]; that and every access outside a buffer is an error. *)
Definition memcpy (dest : list Z) (doff : Z) (src : buffer) (soff n : Z)
  : option (list Z) :=
  if n =? 0 then Some dest
  else
    s ← src;
    if (0 <? n) && (0 <=? soff) && (soff + n <=? Z.of_nat (length s))
       && (0 <=? doff) && (doff + n <=? Z.of_nat (length dest))
    then Some (take (Z.to_nat doff) dest
               ++ take (Z.to_nat n) (drop (Z.to_nat soff) s)
               ++ drop (Z.to_nat (doff + n)) dest)
    else None.

(** ** class UiObj *)

Module UiObj.

Definition initDefaults (o : UiObjData) : UiObjData :=
  mkObj (x o) (y o) (width o) (height o) None (surface o) true
    false (hardwareDraw o) (unbuffered o) true true
    false false false LAYER_CENTRE Area.zero (exposeArea o).

(** [UiObj()] on the raw storage [o]: [exposeArea] is the one member that
    neither the constructor nor a default member initialiser sets. *)
Definition ctor (o : UiObjData) : UiObjData :=
  initDefaults
    (mkObj 0 0 0 0 None noSprite false false false true true false false
       false false LAYER_CENTRE (updateArea o) (exposeArea o)).

Definition init (x0 y0 w h : Z) (unbuf : bool) (o : UiObjData) : UiObjData :=
  let o1 := set_surface noSprite (set_height h (set_width w (set_y y0 (set_x x0 o)))) in
  let o2 :=
    if negb unbuf && (0 <? w) && (0 <? h)
    then set_unbuffered false (set_surface (createSprite w h (surface o1)) o1)
    else set_unbuffered true o1 in
  initDefaults (set_hardwareDraw unbuf o2).

Definition createBuffer (w h : Z) (o : UiObjData) : UiObjData :=
  if unbuffered o then
    let o1 := set_height h (set_width w o) in
    set_hardwareDraw false
      (set_unbuffered false
         (set_surface (createSprite (width o1) (height o1) (surface o1)) o1))
  else o.

Definition setParent (p : option loc) (o : UiObjData) : UiObjData :=
  mkObj (x o) (y o) (width o) (height o) p (surface o) (updated o)
    (exposed o) (hardwareDraw o) (unbuffered o) (visible o) (initialised o)
    (visibilityChanged o) true (drawn o) (layer o) (updateArea o)
    (exposeArea o).

Definition getArea (o : UiObjData) : area :=
  Area.mk (x o) (y o) (width o) (height o).

Definition childOffset (o : UiObjData) (a : area) : area :=
  match parent o with
  | None => a
  | Some _ =>
      Area.mk (Area.x a - x o) (Area.y a - y o) (Area.width a) (Area.height a)
  end.

Definition show (o : UiObjData) : UiObjData :=
  set_visibilityChanged true (set_visible true o).

(** The loop of [topLevel] follows the parent pointers until it meets an
    object without a parent; [fuel] bounds the number of steps. *)
Fixpoint topLevel (fuel : nat) (st : heap) (p : loc) : option loc :=
  match fuel with
  | O => None
  | S n =>
      o ← st !! p;
      match parent (base o) with
      | None => Some p
      | Some q => topLevel n st q
      end
  end.

Fixpoint getAbsolutePos (fuel : nat) (st : heap) (p : loc) : option area :=
  match fuel with
  | O => None
  | S n =>
      o ← st !! p;
      match parent (base o) with
      | Some q =>
          parentArea ← getAbsolutePos n st q;
          Some (Area.mk (x (base o) + Area.x parentArea)
                  (y (base o) + Area.y parentArea)
                  (width (base o)) (height (base o)))
      | None => Some (getArea (base o))
      end
  end.

(** The non-overridden [expose]: the object records the request. *)
Definition expose (xArea : area) (o : UiObjData) : UiObjData :=
  set_exposeArea xArea (set_exposed true o).

(** [hide]; [vexpose] is the virtual [expose] of the top-level object. *)
Definition hide (vexpose : heap -> loc -> area -> option heap)
    (fuel : nat) (st : heap) (p : loc) : option heap :=
  o ← st !! p;
  if visible (base o) then
    let st1 :=
      <[p := onBase (fun b => set_visibilityChanged true (set_visible false b)) o]> st in
    top ← topLevel fuel st1 p;
    vexpose st1 top (getArea (base o))
  else Some st.

(** [move(x, y, relative)]; [vexpose] is the virtual [expose] of the
    parent. *)
Definition move (vexpose : heap -> loc -> area -> option heap)
    (st : heap) (p : loc) (x0 y0 : Z) (relative : bool) : option heap :=
  o ← st !! p;
  st1 ← match parent (base o) with
        | Some q => vexpose st q (getArea (base o))
        | None => Some st
        end;
  o1 ← st1 !! p;
  let o2 :=
    if relative
    then onBase (fun b => set_y (y b + y0) (set_x (x b + x0) b)) o1
    else onBase (fun b => set_y y0 (set_x x0 b)) o1 in
  let st2 := <[p := o2]> st1 in
  match parent (base o2) with
  | Some q => vexpose st2 q (getArea (base o2))
  | None => Some st2
  end.

Definition resetStatus (o : UiObjData) : UiObjData :=
  let o1 :=
    if drawn o then
      mkObj (x o) (y o) (width o) (height o) (parent o) (surface o) false
        false (hardwareDraw o) (unbuffered o) (visible o) (initialised o)
        (visibilityChanged o) (newParent o) false (layer o) (updateArea o)
        (exposeArea o)
    else o in
  mkObj (x o1) (y o1) (width o1) (height o1) (parent o1) (surface o1)
    (updated o1) (exposed o1) (hardwareDraw o1) (unbuffered o1) (visible o1)
    (initialised o1) false false (drawn o1) (layer o1) (updateArea o1)
    (exposeArea o1).

(** The row loop of [copyToParent]. *)
Fixpoint copyRows (fuel : nat) (row h w : Z) (this : UiObjData)
    (ownBuf : buffer) (bw : Z) (dest : list Z) : option (list Z) :=
  match fuel with
  | O => None
  | S n =>
      if row <? h then
        dest' ← memcpy dest ((row + y this) * bw + x this)
                  ownBuf (row * width this) w;
        copyRows n (row + 1) h w this ownBuf bw dest'
      else Some dest
  end.

Definition copyToParent (st : heap) (p : loc) : option heap :=
  o ← st !! p;
  q ← parent (base o);
  po ← st !! q;
  let buf := surface (base po) in
  let ownBuf := frameBuffer (surface (base o)) in
  match frameBuffer buf with
  | None => Some st
  | Some dest =>
      let h := Z.min (height (base o)) (sprite_height buf - y (base o)) in
      let w := Z.min (width (base o)) (sprite_width buf - x (base o)) in
      dest' ← copyRows (S (Z.to_nat h)) 0 h w (base o) ownBuf (sprite_width buf) dest;
      Some (<[q := onBase (set_surface
                     (mkSprite (sprite_width buf) (sprite_height buf) (Some dest')))
                   po]> st)
  end.

(** One output byte of [packToGrey] from two source pixels. *)
Definition packByte (hi lo : Z) : Z :=
  Z.lor (Z.shiftl (Z.land hi 15) 4) (Z.land lo 15).

(** The inner loop of [packToGrey]: [for (x = 0; x < w; x += 2)]. *)
Fixpoint packRow (fuel : nat) (col w : Z) (ownBuf : list Z) (ownBufOffset : Z)
    (outBuf : list Z) (outBufOffset : Z) : option (list Z) :=
  match fuel with
  | O => None
  | S n =>
      if col <? w then
        hi ← peek ownBuf ownBufOffset;
        lo ← peek ownBuf (ownBufOffset + 1);
        outBuf' ← poke outBuf outBufOffset (packByte hi lo);
        packRow n (col + 2) w ownBuf (ownBufOffset + 2) outBuf' (outBufOffset + 1)
      else Some outBuf
  end.

(** The outer loop of [packToGrey]: [for (y = 0; y < renderArea.height; y++)]. *)
Fixpoint packRows (fuel : nat) (row : Z) (renderArea topRange : area)
    (this : UiObjData) (ownBuf outBuf : list Z) : option (list Z) :=
  match fuel with
  | O => None
  | S n =>
      if row <? Area.height renderArea then
        let ownBufOffset :=
          (row + Area.y renderArea) * width this + Area.x renderArea in
        let outBufOffset :=
          Z.quot ((row + y this - Area.y topRange) * Area.width topRange
                  + x this - Area.x topRange) 2 in
        outBuf' ← packRow (S (Z.to_nat (Area.width renderArea))) 0
                    (Area.width renderArea) ownBuf ownBufOffset outBuf outBufOffset;
        packRows n (row + 1) renderArea topRange this ownBuf outBuf'
      else Some outBuf
  end.

(** [packToGrey(renderArea)]; [screenBuffer] is the global output buffer,
    the result is its new value. *)
Definition packToGrey (fuel : nat) (st : heap) (p : loc) (renderArea : area)
    (screenBuffer : buffer) : option buffer :=
  o ← st !! p;
  absoluteRange ← getAbsolutePos fuel st p;
  top ← topLevel fuel st p;
  topObj ← st !! top;
  let topRange := updateArea (base topObj) in
  match frameBuffer (surface (base o)), screenBuffer with
  | Some ownBuf, Some outBuf =>
      outBuf' ← packRows (S (Z.to_nat (Area.height renderArea))) 0 renderArea
                  topRange (base o) ownBuf outBuf;
      Some (Some outBuf')
  | _, _ => Some screenBuffer
  end.

Definition greyToColour16 (grey : Z) : Z :=
  Z.lor (Z.shiftl (Z.land grey 3) 3) (Z.shiftl (Z.land grey 12) 6).

(** [within(area)]. *)
Definition within (o : UiObjData) (a : area) : bool :=
  if (x o <=? Area.x a) && (Area.x a <? x o + width o)
     && (y o <=? Area.y a) && (Area.y a <? y o + height o)
  then (Area.x a + Area.width a <=? x o + width o)
       && (Area.y a + Area.height a <=? y o + height o)
  else false.

(** [clip(area1, area2)]. *)
Definition clip (area1 area2 : area) : area :=
  let rx := Z.max (Area.x area1) (Area.x area2) in
  let ry := Z.max (Area.y area1) (Area.y area2) in
  Area.mk rx ry
    (Z.min (Area.x area1 + Area.width area1) (Area.x area2 + Area.width area2) - rx)
    (Z.min (Area.y area1 + Area.height area1) (Area.y area2 + Area.height area2) - ry).

(** [clip(area1, area2, others...)]: the first two areas are clipped, then
    the result with the remaining ones. *)
Fixpoint clipAll (area1 area2 : area) (others : list area) : area :=
  match others with
  | [] => clip area1 area2
  | a :: rest => clipAll (clip area1 area2) a rest
  end.

(** The body the two overloads of [overlap] share, on the absolute area of
    the object and the area it is compared with. *)
Definition overlapOf (thisArea otherArea : area) : area :=
  if (Area.x thisArea + Area.width thisArea <? Area.x otherArea)
     || (Area.x otherArea + Area.width otherArea <? Area.x thisArea)
     || (Area.y thisArea + Area.height thisArea <? Area.y otherArea)
     || (Area.y otherArea + Area.height otherArea <? Area.y thisArea)
  then Area.zero
  else
    Area.mk (Z.max (Area.x thisArea) (Area.x otherArea))
      (Z.max (Area.y thisArea) (Area.y otherArea))
      (Z.min (Area.x thisArea + Area.width thisArea)
         (Area.x otherArea + Area.width otherArea)
       - Z.max (Area.x thisArea) (Area.x otherArea))
      (Z.min (Area.y thisArea + Area.height thisArea)
         (Area.y otherArea + Area.height otherArea)
       - Z.max (Area.y thisArea) (Area.y otherArea)).

(** [overlap(otherObj)]. *)
Definition overlap (fuel : nat) (st : heap) (p otherObj : loc) : option area :=
  thisArea ← getAbsolutePos fuel st p;
  otherArea ← getAbsolutePos fuel st otherObj;
  Some (overlapOf thisArea otherArea).

(** [overlap(area)]. *)
Definition overlapArea (fuel : nat) (st : heap) (p : loc) (a : area) : option area :=
  thisArea ← getAbsolutePos fuel st p;
  Some (overlapOf thisArea a).

Definition offsetToParent (st : heap) (p : loc) : option area :=
  o ← st !! p;
  match parent (base o) with
  | Some q =>
      po ← st !! q;
      let parentArea := getArea (base po) in
      Some (Area.mk (x (base o) + Area.x parentArea)
              (y (base o) + Area.y parentArea)
              (width (base o)) (height (base o)))
  | None => Some (getArea (base o))
  end.

End UiObj.

(** ** Strings and text metrics *)

(** The [String] class of the Arduino core is external; the embedding keeps
    the four operations [UiLabel] uses.  Their index parameters are
    [unsigned int]: an [int] argument is reduced modulo 2^32 at the call. *)
Module ArduinoString.

Definition to_unsigned (i : Z) : Z := i mod 2 ^ 32.

Definition length (s : string) : Z := Z.of_nat (String.length s).

Fixpoint indexFrom (c : ascii) (s : string) (i : Z) : Z :=
  match s with
  | EmptyString => -1
  | String d rest => if Ascii.eqb d c then i else indexFrom c rest (i + 1)
  end.

(** [indexOf(c)]: the position of the first [c] of the string, or -1. *)
Definition indexOf (c : ascii) (s : string) : Z := indexFrom c s 0.

(** [charAt(i)]: NUL for a position outside the string. *)
Definition charAt (s : string) (i : Z) : ascii :=
  let u := to_unsigned i in
  if u <? length s then default Ascii.zero (String.get (Z.to_nat u) s)
  else Ascii.zero.

(** [substring(left, right)]: the bounds are put in order, [right] is capped
    by the length, a [left] beyond the end gives the empty string. *)
Definition substring (s : string) (left right : Z) : string :=
  let l0 := to_unsigned left in
  let r0 := to_unsigned right in
  let l := Z.min l0 r0 in
  let r := Z.max l0 r0 in
  if length s <=? l then EmptyString
  else
    let r' := Z.min r (length s) in
    String.substring (Z.to_nat l) (Z.to_nat (r' - l)) s.

End ArduinoString.

(** Modelled from the spec: the text-metrics service (the glyph rasteriser
    behind [surface.textWidth] and [surface.fontHeight], which is not part of
    the source) measures a text and gives the line height for the current
    font selection. *)
Class TextMetrics : Type := {
  textWidth : string -> Z;
  fontHeight : Z
}.

(** A metrics service with glyphs of one width. *)
Definition fixedPitch (glyph lineH : Z) : TextMetrics :=
  {| textWidth := fun s => glyph * ArduinoString.length s; fontHeight := lineH |}.

(** Modelled from the spec: the drawing calls of the sprite library
    ([TFT_eSprite], not part of the source).  Each call gives the sprite
    with the pixels painted: [fillSprite(colour)],
    [fillRect(x, y, w, h, colour)], [fillRoundRect(x, y, w, h, r, colour)],
    [drawRect(x, y, w, h, colour)], [drawRoundRect(x, y, w, h, r, colour)]
    and [drawString(text, x, y)].  The text is drawn with the current font
    selection, as [TextMetrics] measures with it, and in the colour
    [setTextColor] has set, which is the first argument here. *)
Class SpriteGraphics : Type := {
  fillSprite : Z -> TFT_eSprite -> TFT_eSprite;
  fillRect : Z -> Z -> Z -> Z -> Z -> TFT_eSprite -> TFT_eSprite;
  fillRoundRect : Z -> Z -> Z -> Z -> Z -> Z -> TFT_eSprite -> TFT_eSprite;
  drawRect : Z -> Z -> Z -> Z -> Z -> TFT_eSprite -> TFT_eSprite;
  drawRoundRect : Z -> Z -> Z -> Z -> Z -> Z -> TFT_eSprite -> TFT_eSprite;
  drawString : Z -> string -> Z -> Z -> TFT_eSprite -> TFT_eSprite
}.

(** The pixels from index [i] on, in rows of [sw] pixels: those in the
    rectangle [(x0, y0, w, h)] take the low byte of the colour. *)
Fixpoint paintCells (sw x0 y0 w h c i : Z) (buf : list Z) : list Z :=
  match buf with
  | [] => []
  | v :: rest =>
      (if (x0 <=? i mod sw) && (i mod sw <? x0 + w)
          && (y0 <=? i / sw) && (i / sw <? y0 + h)
       then c mod 256 else v)
      :: paintCells sw x0 y0 w h c (i + 1) rest
  end.

(** The pixels of the rectangle [(x0, y0, w, h)] that lie on the sprite take
    the low byte of the colour. *)
Definition paintRect (x0 y0 w h c : Z) (s : TFT_eSprite) : TFT_eSprite :=
  mkSprite (sprite_width s) (sprite_height s)
    (paintCells (sprite_width s) x0 y0 w h c 0 <$> frameBuffer s).

(** A rasteriser for the examples: rounded corners are drawn square, an
    outline is four edges one pixel thick, and a text is a solid box of its
    measured size. *)
Definition blockGraphics `{TextMetrics} : SpriteGraphics :=
  {| fillSprite := fun c s => paintRect 0 0 (sprite_width s) (sprite_height s) c s;
     fillRect := paintRect;
     fillRoundRect := fun x0 y0 w h _ c => paintRect x0 y0 w h c;
     drawRect := fun x0 y0 w h c s =>
       paintRect (x0 + w - 1) y0 1 h c
         (paintRect x0 y0 1 h c
            (paintRect x0 (y0 + h - 1) w 1 c (paintRect x0 y0 w 1 c s)));
     drawRoundRect := fun x0 y0 w h _ c s =>
       paintRect (x0 + w - 1) y0 1 h c
         (paintRect x0 y0 1 h c
            (paintRect x0 (y0 + h - 1) w 1 c (paintRect x0 y0 w 1 c s)));
     drawString := fun c txt x0 y0 => paintRect x0 y0 (textWidth txt) fontHeight c |}.

(** ** class UiLabel *)

Module UiLabel.

(** The state a label method works on: the [UiObj] members and its own. *)
Definition this_t : Type := UiObjData * UiLabelData.

Definition u16 (v : Z) : Z := v mod 65536.

Definition setOutline (colour thickness roundingRadius : Z) (t : this_t) : this_t :=
  let '(o, l) := t in
  let colour := u16 colour in
  let thickness := u16 thickness in
  let roundingRadius := u16 roundingRadius in
  let l1 :=
    if 0 <? thickness then
      mkLabel (text l) (label_initialised l) true (hasFill l)
        (0 <? roundingRadius) (fillRounded l) (customFont l) (autosize l)
        (resizeNeeded l)
        (if 0 <? roundingRadius then roundingRadius else borderRoundingRadius l)
        (fillRoundingRadius l) (UiObj.greyToColour16 colour) thickness
        (fillColour l) (textColour l) (textSize l) (xPad l) (yPad l)
        (hasPreRender l) (vAlignment l) (hAlignment l)
    else
      mkLabel (text l) (label_initialised l) false (hasFill l)
        (borderRounded l) (fillRounded l) (customFont l) (autosize l)
        (resizeNeeded l) (borderRoundingRadius l)
        (fillRoundingRadius l) (outlineColour l) (outlineThickness l)
        (fillColour l) (textColour l) (textSize l) (xPad l) (yPad l)
        (hasPreRender l) (vAlignment l) (hAlignment l) in
  (set_updated true o,
   mkLabel (text l1) (label_initialised l1) (hasOutline l1) (hasFill l1)
     (borderRounded l1) (fillRounded l1) (customFont l1) (autosize l1)
     true (borderRoundingRadius l1)
     (fillRoundingRadius l1) (outlineColour l1) (outlineThickness l1)
     (fillColour l1) (textColour l1) (textSize l1) (xPad l1) (yPad l1)
     (hasPreRender l1) (vAlignment l1) (hAlignment l1)).

(** [init(x, y, width, height, text, unbuffered)]. *)
Definition init (x0 y0 w h : Z) (txt : string) (unbuf : bool) (t : this_t) : this_t :=
  let '(o, l) := t in
  let o1 := UiObj.init x0 y0 w h unbuf o in
  let l1 :=
    mkLabel txt true false false
      (borderRounded l) (fillRounded l) false false
      false (borderRoundingRadius l)
      (fillRoundingRadius l) (outlineColour l) (outlineThickness l)
      (fillColour l) (UiObj.greyToColour16 15) 3 10 10
      (hasPreRender l) (vAlignment l) (hAlignment l) in
  let '(o2, l2) := setOutline 1 10 0 (o1, l1) in
  (set_updated true o2,
   mkLabel (text l2) (label_initialised l2) (hasOutline l2) (hasFill l2)
     (borderRounded l2) (fillRounded l2) (customFont l2) (autosize l2)
     (resizeNeeded l2) (borderRoundingRadius l2)
     (fillRoundingRadius l2) (outlineColour l2) (outlineThickness l2)
     (fillColour l2) (textColour l2) (textSize l2) (xPad l2) (yPad l2)
     false ALIGN_MIDDLE ALIGN_CENTRE).

(** [UiLabel()]. *)
Definition ctor_default (t : this_t) : this_t :=
  let '(o, l) := t in
  (UiObj.ctor o,
   mkLabel (text l) false (hasOutline l) (hasFill l)
     (borderRounded l) (fillRounded l) (customFont l) (autosize l)
     (resizeNeeded l) (borderRoundingRadius l)
     (fillRoundingRadius l) (outlineColour l) (outlineThickness l)
     (fillColour l) (textColour l) (textSize l) (xPad l) (yPad l)
     (hasPreRender l) (vAlignment l) (hAlignment l)).

(** [UiLabel(x, y, width, height, text)] on the raw storage [t]. *)
Definition ctor (x0 y0 w h : Z) (txt : string) (unbuf : bool) (t : this_t) : this_t :=
  let '(o, l) := t in
  init x0 y0 w h txt unbuf (UiObj.ctor o, l).

Definition resize (w h : Z) (o : UiObjData) : UiObjData :=
  let o1 := set_height h (set_width w o) in
  set_updated true
    (set_surface (createSprite w h (deleteSprite (surface o1))) o1).

Definition set_autosize_flags (a r : bool) (l : UiLabelData) : UiLabelData :=
  mkLabel (text l) (label_initialised l) (hasOutline l) (hasFill l)
    (borderRounded l) (fillRounded l) (customFont l) a
    r (borderRoundingRadius l)
    (fillRoundingRadius l) (outlineColour l) (outlineThickness l)
    (fillColour l) (textColour l) (textSize l) (xPad l) (yPad l)
    (hasPreRender l) (vAlignment l) (hAlignment l).

(** [autoResize(init)]. *)
Definition autoResize `{TextMetrics} (init0 : bool) (t : this_t) : this_t :=
  let '(o, l) := t in
  let l1 := set_autosize_flags true false l in
  let w := textWidth (text l1) + xPad l1 * 2 + outlineThickness l1 * 2 in
  let h := fontHeight + yPad l1 * 2 + outlineThickness l1 * 2 in
  let o1 := set_height h (set_width w o) in
  let o2 :=
    if init0 then UiObj.createBuffer (width o1) (height o1) o1
    else resize (width o1) (height o1) o1 in
  (set_updated true o2, l1).

(** [init(x, y, text)], the initialisation of an autosizing label. *)
Definition init_autosize `{TextMetrics} (x0 y0 : Z) (txt : string) (t : this_t) : this_t :=
  let '(o, l) := t in
  let o1 := set_surface noSprite (UiObj.init x0 y0 0 0 false o) in
  let '(o2, l2) := init x0 y0 0 0 txt false (o1, l) in
  autoResize true (o2, set_autosize_flags true (resizeNeeded l2) l2).

(** [UiLabel(x, y, text)] on the raw storage [t]. *)
Definition ctor_autosize `{TextMetrics} (x0 y0 : Z) (txt : string) (t : this_t) : this_t :=
  let '(o, l) := t in
  init_autosize x0 y0 txt (UiObj.ctor o, l).

Definition setFill (colour roundingRadius : Z) (t : this_t) : this_t :=
  let '(o, l) := t in
  let colour := u16 colour in
  let roundingRadius := u16 roundingRadius in
  (set_updated true o,
   mkLabel (text l) (label_initialised l) (hasOutline l) true
     (borderRounded l) (0 <? roundingRadius) (customFont l) (autosize l)
     (resizeNeeded l) (borderRoundingRadius l)
     (if 0 <? roundingRadius then roundingRadius else fillRoundingRadius l)
     (outlineColour l) (outlineThickness l)
     (UiObj.greyToColour16 colour) (textColour l) (textSize l) (xPad l) (yPad l)
     (hasPreRender l) (vAlignment l) (hAlignment l)).

Definition setText (txt : string) (t : this_t) : this_t :=
  let '(o, l) := t in
  (set_updated true o,
   mkLabel txt (label_initialised l) (hasOutline l) (hasFill l)
     (borderRounded l) (fillRounded l) (customFont l) (autosize l)
     true (borderRoundingRadius l)
     (fillRoundingRadius l) (outlineColour l) (outlineThickness l)
     (fillColour l) (textColour l) (textSize l) (xPad l) (yPad l)
     (hasPreRender l) (vAlignment l) (hAlignment l)).

Definition noBorder (t : this_t) : this_t :=
  let '(o, l) := t in
  (set_updated true o,
   mkLabel (text l) (label_initialised l) false (hasFill l)
     (borderRounded l) (fillRounded l) (customFont l) (autosize l)
     true (borderRoundingRadius l)
     (fillRoundingRadius l) (outlineColour l) (outlineThickness l)
     (fillColour l) (textColour l) (textSize l) (xPad l) (yPad l)
     (hasPreRender l) (vAlignment l) (hAlignment l)).

Definition set_hasPreRender (v : bool) (l : UiLabelData) : UiLabelData :=
  mkLabel (text l) (label_initialised l) (hasOutline l) (hasFill l)
    (borderRounded l) (fillRounded l) (customFont l) (autosize l)
    (resizeNeeded l) (borderRoundingRadius l)
    (fillRoundingRadius l) (outlineColour l) (outlineThickness l)
    (fillColour l) (textColour l) (textSize l) (xPad l) (yPad l)
    v (vAlignment l) (hAlignment l).

Definition setPadding (xp yp : Z) (l : UiLabelData) : UiLabelData :=
  mkLabel (text l) (label_initialised l) (hasOutline l) (hasFill l)
    (borderRounded l) (fillRounded l) (customFont l) (autosize l)
    true (borderRoundingRadius l)
    (fillRoundingRadius l) (outlineColour l) (outlineThickness l)
    (fillColour l) (textColour l) (textSize l) (u16 xp) (u16 yp)
    (hasPreRender l) (vAlignment l) (hAlignment l).

Definition textAreaWidth (t : this_t) : Z :=
  width (fst t) - xPad (snd t) * 2 - outlineThickness (snd t) * 2.

(** The [do ... while] of [lineLimit]: step back at least once, then on to
    the nearest space, not further than the start of the line. *)
Fixpoint stepBack (fuel : nat) (txt : string) (lineStart lineEnd : Z) : option Z :=
  match fuel with
  | O => None
  | S n =>
      let lineEnd := lineEnd - 1 in
      if negb (Ascii.eqb (ArduinoString.charAt txt lineEnd) " "%char)
         && (lineStart <? lineEnd)
      then stepBack n txt lineStart lineEnd
      else Some lineEnd
  end.

(** The [while (true)] of [lineLimit]. *)
Fixpoint shrink `{TextMetrics} (fuel : nat) (t : this_t) (txt : string)
    (lineStart lineEnd : Z) : option Z :=
  match fuel with
  | O => None
  | S n =>
      let lineWidth := textWidth (ArduinoString.substring txt lineStart lineEnd) in
      if (lineWidth <=? textAreaWidth t) || (lineEnd - lineStart <=? 1)
      then Some lineEnd
      else
        lineEnd' ← stepBack (S (Z.to_nat (lineEnd - lineStart))) txt lineStart lineEnd;
        shrink n t txt lineStart lineEnd'
  end.

(** [lineLimit(text, offset)]. *)
Definition lineLimit `{TextMetrics} (t : this_t) (txt : string) (offset : Z) : option Z :=
  let lineStart := offset in
  let lineEnd := ArduinoString.indexOf "010"%char txt in
  let lineEnd := if lineEnd =? -1 then ArduinoString.length txt else lineEnd in
  shrink (S (Z.to_nat (lineEnd - lineStart))) t txt lineStart lineEnd.

(** The loop of [drawMultilineText]; the result is the list of the lines
    handed to [drawString], in order. *)
Fixpoint drawLines `{TextMetrics} (fuel : nat) (t : this_t)
    (lineStart lineEnd : Z) : option (list string) :=
  match fuel with
  | O => None
  | S n =>
      if ArduinoString.to_unsigned lineEnd <? ArduinoString.length (text (snd t)) then
        lineEnd' ← lineLimit t (text (snd t)) lineStart;
        rest ← drawLines n t lineEnd' lineEnd';
        Some (ArduinoString.substring (text (snd t)) lineStart lineEnd' :: rest)
      else Some []
  end.

Definition drawMultilineText `{TextMetrics} (fuel : nat) (t : this_t)
  : option (list string) :=
  drawLines fuel t 0 0.

(** [getTextHPos(text)]. *)
Definition getTextHPos `{TextMetrics} (t : this_t) (txt : string) : Z :=
  let tw := textWidth txt in
  if textAreaWidth t <? tw then xPad (snd t) + outlineThickness (snd t)
  else
    match hAlignment (snd t) with
    | ALIGN_LEFT => xPad (snd t) + outlineThickness (snd t)
    | ALIGN_CENTRE => Z.quot (width (fst t)) 2 - Z.quot tw 2
    | ALIGN_RIGHT => width (fst t) - tw - xPad (snd t) - outlineThickness (snd t)
    end.

(** [lineSpacing] is 0.5 in every label that passes the [initialised] test
    of [draw]: [init] is the only place that assigns either member.  The
    products with it are computed in [float] and truncated when they are
    stored in an [int]; for a line height below 2^23 the [float] results are
    exact, and the values stored are the quotients below. *)

(** [fontHeight + fontHeight * lineSpacing], stored in an [int]. *)
Definition spacedHeight (fh : Z) : Z := Z.quot (3 * fh) 2.

(** The loop of [getMultilineHeight]. *)
Fixpoint heightLoop `{TextMetrics} (fuel : nat) (t : this_t)
    (lineStart height0 : Z) : option Z :=
  match fuel with
  | O => None
  | S n =>
      if ArduinoString.length (text (snd t)) <=? ArduinoString.to_unsigned lineStart
      then Some height0
      else
        lineEnd ← lineLimit t (text (snd t)) lineStart;
        heightLoop n t lineEnd (height0 + spacedHeight fontHeight)
  end.

(** [getMultilineHeight()]; the last statement is
    [height -= fontHeight * lineSpacing]. *)
Definition getMultilineHeight `{TextMetrics} (fuel : nat) (t : this_t) : option Z :=
  h ← heightLoop fuel t 0 0;
  Some (Z.quot (2 * h - fontHeight) 2).

(** [getTextPos()]. *)
Definition getTextPos `{TextMetrics} (fuel : nat) (t : this_t) : option area :=
  let '(o, l) := t in
  let tw := textWidth (text l) in
  ph ← (if textAreaWidth t <? tw then getMultilineHeight fuel t else Some fontHeight);
  let pw := if textAreaWidth t <? tw then textAreaWidth t else tw in
  let px :=
    match hAlignment l with
    | ALIGN_LEFT => xPad l + outlineThickness l
    | ALIGN_CENTRE => Z.quot (width o) 2 - Z.quot pw 2
    | ALIGN_RIGHT => width o - pw - xPad l - outlineThickness l
    end in
  let py :=
    match vAlignment l with
    | ALIGN_TOP => yPad l + outlineThickness l
    | ALIGN_MIDDLE => Z.quot (height o) 2 - Z.quot ph 2 + 1
    | ALIGN_BOTTOM => height o - ph - yPad l - outlineThickness l
    end in
  Some (Area.mk px py pw ph).

(** [drawFill()] on the surface [s]. *)
Definition drawFill {G : SpriteGraphics} (t : this_t) (s : TFT_eSprite) : TFT_eSprite :=
  let '(o, l) := t in
  if hasFill l then
    if fillRounded l
    then fillRoundRect 0 0 (width o) (height o) (fillRoundingRadius l) (fillColour l) s
    else fillRect 0 0 (width o) (height o) (fillColour l) s
  else s.

(** One turn of the loop of [drawOutline]. *)
Definition outlineRing {G : SpriteGraphics} (t : this_t) (s : TFT_eSprite) (i : Z)
  : TFT_eSprite :=
  let '(o, l) := t in
  let s1 :=
    if fillRounded l
    then drawRoundRect i i (width o - i * 2) (height o - i * 2)
           (fillRoundingRadius l) (outlineColour l) s
    else drawRect i i (width o - i * 2) (height o - i * 2) (outlineColour l) s in
  drawRoundRect i i (width o - i * 2) (height o - i * 2) 10 (outlineColour l) s1.

(** [drawOutline()] on the surface [s]:
    [for (i = 0; i < outlineThickness; i++)]. *)
Definition drawOutline {G : SpriteGraphics} (t : this_t) (s : TFT_eSprite) : TFT_eSprite :=
  if hasOutline (snd t)
  then foldl (outlineRing t) s (seqZ 0 (outlineThickness (snd t)))
  else s.

(** The calls of [drawString] in the loop of [drawMultilineText], for the
    lines the loop goes through: each line at its own horizontal position,
    [lineY] further down than the one before. *)
Fixpoint paintLines `{TextMetrics} {G : SpriteGraphics} (t : this_t) (lines : list string)
    (y0 lineY : Z) (s : TFT_eSprite) : TFT_eSprite :=
  match lines with
  | [] => s
  | line :: rest =>
      paintLines t rest y0 (lineY + spacedHeight fontHeight)
        (drawString (textColour (snd t)) line (getTextHPos t line) (y0 + lineY) s)
  end.

(** [drawText()] on the surface [s]. *)
Definition drawText `{TextMetrics} {G : SpriteGraphics} (fuel : nat) (t : this_t)
    (s : TFT_eSprite) : option TFT_eSprite :=
  let '(o, l) := t in
  match text l with
  | EmptyString => Some s
  | _ =>
      textArea ← getTextPos fuel t;
      if width o - xPad l * 2 <? textWidth (text l) then
        lines ← drawMultilineText fuel t;
        Some (paintLines t lines (Area.y textArea) 0 s)
      else
        Some (drawString (textColour l) (text l) (Area.x textArea) (Area.y textArea) s)
  end.

(** [draw()]; [fuel] bounds the loops over the lines of the text. *)
Definition draw `{TextMetrics} {G : SpriteGraphics} (fuel : nat) (t : this_t)
  : option this_t :=
  let '(o, l) := t in
  if negb (label_initialised l) then Some t
  else if hasPreRender l then Some (o, set_hasPreRender false l)
  else
    let t1 :=
      if autosize l && resizeNeeded l then
        autoResize false
          (if (width o =? 0) || (height o =? 0) then autoResize true t else t)
      else t in
    let s1 := drawFill t1 (fillSprite (UiObj.greyToColour16 0) (surface (fst t1))) in
    s2 ← drawText fuel t1 s1;
    Some (set_surface (drawOutline t1 s2) (fst t1), snd t1).

(** [preRender()]. *)
Definition preRender `{TextMetrics} {G : SpriteGraphics} (fuel : nat) (t : this_t)
  : option this_t :=
  if negb (label_initialised (snd t)) then Some t
  else
    t1 ← draw fuel t;
    Some (fst t1, set_hasPreRender true (snd t1)).

End UiLabel.

(** ** class UiFrame *)

Definition withFrame (f : UiFrameData) (c : UiClass) : UiClass :=
  match c with
  | IsFrame l _ => IsFrame l f
  | IsIcon l _ cb => IsIcon l f cb
  | IsModal l _ m => IsModal l f m
  | IsManager l _ md => IsManager l f md
  | other => other
  end.

Module UiFrame.

Definition this_t : Type := UiObjData * UiLabelData * UiFrameData.

(** [init(x, y, width, height, hwFrame)]. *)
Definition init (x0 y0 w h : Z) (hw : bool) (t : this_t) : this_t :=
  let '(o, l, f) := t in
  let '(o1, l1) := UiLabel.init x0 y0 w h EmptyString hw (o, l) in
  let o2 := set_hardwareDraw hw o1 in
  let '(o3, l3) := UiLabel.setOutline 10 2 10 (o2, l1) in
  (o3,
   mkLabel (text l3) (label_initialised l3) (hasOutline l3) (hasFill l3)
     (borderRounded l3) (fillRounded l3) (customFont l3) (autosize l3)
     (resizeNeeded l3) (borderRoundingRadius l3)
     10 (outlineColour l3) (outlineThickness l3)
     (fillColour l3) (textColour l3) (textSize l3) (xPad l3) (yPad l3)
     (hasPreRender l3) (vAlignment l3) (hAlignment l3),
   mkFrame (objects f) true hw (itemsChanged f) (UiObj.greyToColour16 1)).

(** [UiFrame(x, y, width, height, hwFrame)] on the raw storage [t]; the
    vector of children starts empty. *)
Definition ctor (x0 y0 w h : Z) (hw : bool) (t : this_t) : this_t :=
  let '(o, l, f) := t in
  let '(o1, l1) := UiLabel.ctor_default (o, l) in
  init x0 y0 w h hw
    (o1, l1, mkFrame [] false (hwFrame f) (itemsChanged f) (backgroundColour f)).

(** [UiFrame()]. *)
Definition ctor_default (t : this_t) : this_t :=
  let '(o, l, f) := t in
  let '(o1, l1) := UiLabel.ctor_default (o, l) in
  (o1, l1, mkFrame [] false (hwFrame f) (itemsChanged f) (backgroundColour f)).

(** [add(obj)]: the three statements, one heap update each. *)
Definition add (st : heap) (p obj : loc) : option heap :=
  o ← st !! p;
  f ← frameOf (cls o);
  let st1 :=
    <[p := mkNode (base o)
             (withFrame (mkFrame (objects f ++ [obj]) (frame_initialised f)
                           (hwFrame f) (itemsChanged f) (backgroundColour f))
                (cls o))]> st in
  c ← st1 !! obj;
  let st2 := <[obj := onBase (UiObj.setParent (Some p)) c]> st1 in
  o' ← st2 !! p;
  f' ← frameOf (cls o');
  Some (<[p := mkNode (base o')
                 (withFrame (mkFrame (objects f') (frame_initialised f')
                               (hwFrame f') true (backgroundColour f'))
                    (cls o'))]> st2).

(** [isObjectChanged(obj)]; [visUpdated] is the virtual [isUpdated]. *)
Definition isObjectChanged (visUpdated : heap -> loc -> option bool)
    (st : heap) (obj : loc) : option bool :=
  c ← st !! obj;
  if initialised (base c) then
    u ← visUpdated st obj;
    Some ((u && visible (base c)) || visibilityChanged (base c) || newParent (base c))
  else Some false.

(** The loop of [isUpdated]: it returns at the first changed child. *)
Fixpoint anyChanged (visUpdated : heap -> loc -> option bool)
    (st : heap) (objs : list loc) : option bool :=
  match objs with
  | [] => Some false
  | obj :: rest =>
      b ← isObjectChanged visUpdated st obj;
      if b : bool then Some true else anyChanged visUpdated st rest
  end.

Definition isUpdated (visUpdated : heap -> loc -> option bool)
    (st : heap) (p : loc) : option bool :=
  o ← st !! p;
  f ← frameOf (cls o);
  if negb (frame_initialised f) then Some false
  else if itemsChanged f || visibilityChanged (base o) || newParent (base o)
  then Some true
  else anyChanged visUpdated st (objects f).

Definition withinArea (checkArea : area) (obj : UiObjData) : bool :=
  (Area.x checkArea <=? x obj)
  && (x obj + width obj <=? Area.x checkArea + Area.width checkArea)
  && (Area.y checkArea <=? y obj)
  && (y obj + height obj <=? Area.y checkArea + Area.height checkArea).

Definition overlaps (obj1 obj2 : UiObjData) : bool :=
  negb ((x obj1 + width obj1 <? x obj2)
        || (x obj2 + width obj2 <? x obj1)
        || (y obj1 + height obj1 <? y obj2)
        || (y obj2 + height obj2 <? y obj1)).

(** The loop of [updateBelow(obj)] over the children [objs]. *)
Fixpoint updateBelowLoop (st : heap) (obj : loc) (objs : list loc) : option heap :=
  match objs with
  | [] => Some st
  | child :: rest =>
      o1 ← st !! obj;
      c ← st !! child;
      if overlaps (base o1) (base c)
      then updateBelowLoop (<[child := onBase (set_visibilityChanged true) c]> st) obj rest
      else updateBelowLoop st obj rest
  end.

Definition updateBelow (st : heap) (p obj : loc) : option heap :=
  o ← st !! p;
  f ← frameOf (cls o);
  updateBelowLoop st obj (objects f).

(** First loop of [getUpdateArea]: every child that has just been hidden
    marks what overlaps it. *)
Fixpoint hiddenLoop (st : heap) (p : loc) (objs : list loc) : option heap :=
  match objs with
  | [] => Some st
  | obj :: rest =>
      c ← st !! obj;
      if initialised (base c) && visibilityChanged (base c) && negb (visible (base c))
      then st' ← updateBelow st p obj; hiddenLoop st' p rest
      else hiddenLoop st p rest
  end.

(** Body of the second loop of [getUpdateArea] for a changed child. *)
Definition accumulate (ua : area) (obj : UiObjData) : area :=
  let ux := if Area.x ua =? -1 then x obj else Z.min (Area.x ua) (x obj) in
  let uy := if Area.y ua =? -1 then y obj else Z.min (Area.y ua) (y obj) in
  Area.mk ux uy
    (Z.max (Area.width ua) (width obj + x obj - ux))
    (Z.max (Area.height ua) (height obj + y obj - uy)).

(** Second loop of [getUpdateArea]. *)
Fixpoint accumulateLoop (visUpdated : heap -> loc -> option bool)
    (st : heap) (ua : area) (objs : list loc) : option area :=
  match objs with
  | [] => Some ua
  | obj :: rest =>
      b ← isObjectChanged visUpdated st obj;
      c ← st !! obj;
      accumulateLoop visUpdated st (if b : bool then accumulate ua (base c) else ua) rest
  end.

(** No negative origin: an area that starts left of or above 0 is moved to
    the origin. *)
Definition clampOrigin (ua : area) : area :=
  if (Area.x ua <? 0) || (Area.y ua <? 0)
  then Area.mk 0 0 (Area.width ua) (Area.height ua) else ua.

(** [((w + 3) >> 2) << 2]. *)
Definition alignWidth (w : Z) : Z := Z.shiftl (Z.shiftr (w + 3) 2) 2.

Definition alignHw (hw : bool) (ua : area) : area :=
  if hw then Area.mk (Area.x ua) (Area.y ua) (alignWidth (Area.width ua)) (Area.height ua)
  else ua.

(** [getUpdateArea()]: the new heap and the returned area. *)
Definition getUpdateArea (visUpdated : heap -> loc -> option bool)
    (st : heap) (p : loc) : option (heap * area) :=
  o ← st !! p;
  f ← frameOf (cls o);
  if negb (frame_initialised f) then Some (st, Area.zero)
  else
    u ← isUpdated visUpdated st p;
    if negb u then Some (<[p := onBase (set_updateArea Area.zero) o]> st, Area.zero)
    else
      let st1 := <[p := onBase (set_updateArea (Area.mk (-1) (-1) 0 0)) o]> st in
      st2 ← hiddenLoop st1 p (objects f);
      o2 ← st2 !! p;
      if visibilityChanged (base o2) then
        let ua := Area.mk 0 0 (width (base o2)) (height (base o2)) in
        Some (<[p := onBase (set_updateArea ua) o2]> st2, ua)
      else
        acc ← accumulateLoop visUpdated st2 (updateArea (base o2)) (objects f);
        let ua := alignHw (hwFrame f) (clampOrigin acc) in
        Some (<[p := onBase (set_updateArea ua) o2]> st2, ua).

(** The loop of [expose]; [vexpose] is the virtual [expose] of a child. *)
Fixpoint exposeLoop (vexpose : heap -> loc -> area -> option heap)
    (st : heap) (xArea : area) (objs : list loc) : option heap :=
  match objs with
  | [] => Some st
  | obj :: rest =>
      c ← st !! obj;
      if visible (base c) && withinArea xArea (base c)
      then
        st' ← vexpose st obj (UiObj.childOffset (base c) xArea);
        exposeLoop vexpose st' xArea rest
      else exposeLoop vexpose st xArea rest
  end.

Definition expose (vexpose : heap -> loc -> area -> option heap)
    (st : heap) (p : loc) (xArea : area) : option heap :=
  o ← st !! p;
  f ← frameOf (cls o);
  if hwFrame f || bool_decide (parent (base o) = None)
  then exposeLoop vexpose st xArea (objects f)
  else Some (<[p := onBase (UiObj.expose xArea) o]> st).

(** The bounds test of [touchEvent]: the object is visible and the point
    lies on it, all four edges included. *)
Definition underPoint (px py : Z) (obj : UiObjData) : bool :=
  visible obj
  && (x obj <=? px) && (px <=? x obj + width obj)
  && (y obj <=? py) && (py <=? y obj + height obj).

(** The test of the inner loop of [touchEvent] for the layer [l]. *)
Definition hit (l px py : Z) (obj : UiObjData) : bool :=
  (layer_index (layer obj) =? l) && visible obj
  && (layer_index (layer obj) =? l)
  && (x obj <=? px) && (px <=? x obj + width obj)
  && (y obj <=? py) && (py <=? y obj + height obj).

(** Inner loop of [touchEvent]: the first child of the layer under the
    point. *)
Fixpoint findHit (st : heap) (l px py : Z) (objs : list loc) : option (option loc) :=
  match objs with
  | [] => Some None
  | obj :: rest =>
      c ← st !! obj;
      if hit l px py (base c) then Some (Some obj) else findHit st l px py rest
  end.

(** Outer loop of [touchEvent] over the layers still to visit. *)
Fixpoint scanLayers (st : heap) (px py : Z) (objs : list loc) (layers : list Z)
  : option (option loc) :=
  match layers with
  | [] => Some None
  | l :: below =>
      r ← findHit st l px py objs;
      match r with
      | Some obj => Some (Some obj)
      | None => scanLayers st px py objs below
      end
  end.

(** [for (layer = LAYER_OVERLAY; layer >= 0; layer--)]. *)
Definition layersDown : list Z := [5; 4; 3; 2; 1; 0].

(** [touchEvent(x, y)]; [vtouch] is the virtual [touchEvent] of a child. *)
Definition touchEvent (vtouch : heap -> loc -> Z -> Z -> option (heap * bool))
    (st : heap) (p : loc) (px py : Z) : option (heap * bool) :=
  o ← st !! p;
  f ← frameOf (cls o);
  if negb (frame_initialised f) then Some (st, false)
  else
    r ← scanLayers st px py (objects f) layersDown;
    match r with
    | Some obj =>
        c ← st !! obj;
        vtouch st obj (px - x (base c)) (py - y (base c))
    | None => Some (st, false)
    end.

(** The loop of [resetStatus]; [vreset] is the virtual [resetStatus] of a
    child. *)
Fixpoint resetLoop (vreset : heap -> loc -> option heap)
    (st : heap) (objs : list loc) : option heap :=
  match objs with
  | [] => Some st
  | obj :: rest => st' ← vreset st obj; resetLoop vreset st' rest
  end.

(** [resetStatus()]. *)
Definition resetStatus (vreset : heap -> loc -> option heap)
    (st : heap) (p : loc) : option heap :=
  o ← st !! p;
  f ← frameOf (cls o);
  let o1 :=
    if drawn (base o)
    then mkNode (base o)
           (withFrame (mkFrame (objects f) (frame_initialised f) (hwFrame f)
                         false (backgroundColour f))
              (cls o))
    else o in
  resetLoop vreset (<[p := onBase UiObj.resetStatus o1]> st) (objects f).

End UiFrame.

(** ** class UiButton *)

Module UiButton.

Definition BUTTON_RELEASED : Z := 101.

(** [UiButton::setOutline], which hides the one of [UiLabel] (the member
    [borderColour] it also sets is not read by any modelled function). *)
Definition setOutline (colour thickness roundingRadius : Z)
    (t : UiLabel.this_t) : UiLabel.this_t :=
  let '(o, l) := t in
  (set_updated true o,
   mkLabel (text l) (label_initialised l) true (hasFill l)
     (borderRounded l) (fillRounded l) (customFont l) (autosize l)
     (resizeNeeded l) (UiLabel.u16 roundingRadius)
     (fillRoundingRadius l) (outlineColour l) (UiLabel.u16 thickness)
     (fillColour l) (textColour l) (textSize l) (xPad l) (yPad l)
     (hasPreRender l) (vAlignment l) (hAlignment l)).

(** [UiButton(x, y, text, callback)] with a function pointer. *)
Definition ctor `{TextMetrics} (x0 y0 : Z) (txt : string) (cb : option handler)
    (t : UiLabel.this_t) (b : UiButtonData) : UiLabel.this_t * UiButtonData :=
  let t1 := UiLabel.ctor_autosize x0 y0 txt t in
  (UiLabel.setFill 2 5 (setOutline 15 5 5 t1),
   mkButton cb (stdCallback b) false).

(** [UiButton(x, y, text, callback)] with a [std::function]; the function
    pointer [callback] is not assigned. *)
Definition ctor_std `{TextMetrics} (x0 y0 : Z) (txt : string) (cb : option handler)
    (t : UiLabel.this_t) (b : UiButtonData) : UiLabel.this_t * UiButtonData :=
  let t1 := UiLabel.ctor_autosize x0 y0 txt t in
  (UiLabel.setFill 2 5 (setOutline 15 5 5 t1),
   mkButton (callback b) cb true).

Definition touchEvent (call : handler -> loc -> Z -> heap -> option (heap * bool))
    (st : heap) (p : loc) (px py : Z) : option (heap * bool) :=
  o ← st !! p;
  match cls o with
  | IsButton l b =>
      if negb (label_initialised l) || bool_decide (callback b = None)
      then Some (st, false)
      else if useStdFunction b
      then h ← stdCallback b; call h p BUTTON_RELEASED st
      else h ← callback b; call h p BUTTON_RELEASED st
  | _ => None
  end.

End UiButton.

(** ** Callbacks *)

(** The callbacks of the application are not part of the framework: they
    may change the heap at will and report whether the display is to be
    updated. *)
Class Application : Type := {
  appCallback : nat -> loc -> Z -> heap -> option (heap * bool)
}.

(** An application whose callbacks do nothing and ask for a redraw. *)
Definition idleApplication : Application :=
  {| appCallback := fun _ _ _ st => Some (st, true) |}.

(** ** class UiModal *)

Module UiModal.

Definition setResult (r : Z) (n : node) : option node :=
  match cls n with
  | IsModal l f m =>
      Some (mkNode (base n)
              (IsModal l f (mkModal r (modal_initialised m) (titlebar m) (content m)
                              (closeButton m) (okButton m) (cancelButton m))))
  | _ => None
  end.

Definition press (r : Z) (vexpose : heap -> loc -> area -> option heap)
    (fuel : nat) (st : heap) (m : loc) : option (heap * bool) :=
  n ← st !! m;
  n' ← setResult r n;
  st' ← UiObj.hide vexpose fuel (<[m := n']> st) m;
  Some (st', true).

Definition closePressed := press 0.
Definition okPressed := press 0.
Definition cancelPressed := press 1.

(** The addresses [new] returns for the five children of a modal. *)
Record children : Type := mkChildren {
  at_titlebar : loc;
  at_content : loc;
  at_closeButton : loc;
  at_okButton : loc;
  at_cancelButton : loc
}.

(** [new UiButton(x, y, text, std::function)] on the raw storage [raw]. *)
Definition newStdButton `{TextMetrics} (raw : storage)
    (x0 y0 : Z) (txt : string) (cb : handler) : node :=
  let '(o, l, b) :=
    UiButton.ctor_std x0 y0 txt (Some cb) (raw_obj raw, raw_label raw)
      (raw_button raw) in
  mkNode o (IsButton l b).

(** [new UiLabel(x, y, width, height, text)] on the raw storage [raw]. *)
Definition newLabelAt (raw : storage) (x0 y0 w h : Z) (txt : string) : node :=
  let '(o, l) :=
    UiLabel.ctor x0 y0 w h txt false (raw_obj raw, raw_label raw) in
  mkNode o (IsLabel l).

(** [createElements()] for the modal at [md]; [fuel] is for the two calls
    of [preRender]. *)
Definition createElements `{TextMetrics} {G : SpriteGraphics} (fuel : nat)
    (raw : storage) (kids : children) (st : heap) (md : loc) : option heap :=
  m ← st !! md;
  let m1 := onLabel (UiLabel.setOutline 15 4 10) m in
  let w := width (base m1) in
  let h := height (base m1) in
  let tb := onLabel (UiLabel.setOutline 15 4 10) (newLabelAt raw 0 0 w 30 EmptyString) in
  let cl := newStdButton raw (w - 50) 0 "X" (ModalClose md) in
  let ok := newStdButton raw 100 (h - 100) "OK" (ModalOk md) in
  let cn := newStdButton raw (w - 100) (h - 100) "Cancel" (ModalCancel md) in
  let ct :=
    onLabel UiLabel.noBorder
      (newLabelAt raw 0 30 w (h - 30 - height (base ok)) EmptyString) in
  m2 ← match cls m1 with
       | IsModal l f d =>
           Some (mkNode (base m1)
                   (IsModal l f
                      (mkModal (result d) (modal_initialised d) (at_titlebar kids)
                         (at_content kids) (at_closeButton kids)
                         (at_okButton kids) (at_cancelButton kids))))
       | _ => None
       end;
  let st1 : heap :=
    <[at_cancelButton kids := cn]>
      (<[at_okButton kids := ok]>
         (<[at_closeButton kids := cl]>
            (<[at_content kids := ct]>
               (<[at_titlebar kids := tb]> (<[md := m2]> st))))) in
  st2 ← UiFrame.add st1 md (at_closeButton kids);
  st3 ← UiFrame.add st2 md (at_titlebar kids);
  st4 ← UiFrame.add st3 md (at_content kids);
  st5 ← UiFrame.add st4 md (at_okButton kids);
  st6 ← UiFrame.add st5 md (at_cancelButton kids);
  cn' ← st6 !! at_cancelButton kids;
  cn2 ← onLabelM (UiLabel.preRender fuel) cn';
  let st7 := <[at_cancelButton kids := cn2]> st6 in
  ok' ← st7 !! at_okButton kids;
  ok2 ← onLabelM (UiLabel.preRender fuel) ok';
  Some (<[at_okButton kids := ok2]> st7).

Definition setInitialised (n : node) : option node :=
  match cls n with
  | IsModal l f m =>
      Some (mkNode (base n)
              (IsModal l f (mkModal (result m) true (titlebar m) (content m)
                              (closeButton m) (okButton m) (cancelButton m))))
  | _ => None
  end.

(** [new UiModal(x, y, width, height)] at the address [md]; [vhide] is
    [hide]. *)
Definition ctor `{TextMetrics} {G : SpriteGraphics} (fuel : nat)
    (vhide : heap -> loc -> option heap)
    (raw : storage) (kids : children) (x0 y0 w h : Z) (st : heap) (md : loc)
  : option heap :=
  let '(o, l, f) :=
    UiFrame.ctor x0 y0 w h false (raw_obj raw, raw_label raw, raw_frame raw) in
  st1 ← createElements fuel raw kids
          (<[md := mkNode o (IsModal l f (raw_modal raw))]> st) md;
  m1 ← st1 !! md;
  m2 ← setInitialised m1;
  m3 ← setResult (-1) m2;
  vhide (<[md := m3]> st1) md.

(** [new UiModal()]. *)
Definition ctor_default `{TextMetrics} {G : SpriteGraphics} (fuel : nat)
    (vhide : heap -> loc -> option heap)
    (raw : storage) (kids : children) (st : heap) (md : loc) : option heap :=
  let '(o, l, f) :=
    UiFrame.init 50 200 400 300 false
      (UiFrame.ctor_default (raw_obj raw, raw_label raw, raw_frame raw)) in
  st1 ← createElements fuel raw kids
          (<[md := mkNode o (IsModal l f (raw_modal raw))]> st) md;
  m1 ← st1 !! md;
  m2 ← setResult (-1) m1;
  m3 ← setInitialised m2;
  st2 ← vhide (<[md := m3]> st1) md;
  m4 ← st2 !! md;
  Some (<[md := onBase (set_layer LAYER_OVERLAY) m4]> st2).

(** [msgbox(title, message)]; [vhide] and [vmove] are [hide] and [move]. *)
Definition msgbox (vhide : heap -> loc -> option heap)
    (vmove : heap -> loc -> Z -> Z -> bool -> option heap)
    (st : heap) (md : loc) (title message : string) : option heap :=
  m ← st !! md;
  match cls m with
  | IsModal _ _ d =>
      tb ← st !! titlebar d;
      let st1 := <[titlebar d := onLabel (UiLabel.setText title) tb]> st in
      ct ← st1 !! content d;
      let st2 := <[content d := onLabel (UiLabel.setText message) ct]> st1 in
      st3 ← vhide st2 (cancelButton d);
      ok ← st3 !! okButton d;
      let st4 := <[okButton d := onBase UiObj.show ok]> st3 in
      m4 ← st4 !! md;
      ok4 ← st4 !! okButton d;
      st5 ← vmove st4 (okButton d)
              (Z.quot (width (base m4) - width (base ok4) - 10) 2)
              (height (base m4) - height (base ok4) - 10) false;
      m5 ← st5 !! md;
      m6 ← setResult (-1) m5;
      Some (<[md := onBase UiObj.show m6]> st5)
  | _ => None
  end.

(** [confirm(title, message)]; [vmove] is [move]. *)
Definition confirm (vmove : heap -> loc -> Z -> Z -> bool -> option heap)
    (st : heap) (md : loc) (title message : string) : option heap :=
  m ← st !! md;
  match cls m with
  | IsModal _ _ d =>
      tb ← st !! titlebar d;
      let st1 := <[titlebar d := onLabel (UiLabel.setText title) tb]> st in
      ct ← st1 !! content d;
      let st2 := <[content d := onLabel (UiLabel.setText message) ct]> st1 in
      cn ← st2 !! cancelButton d;
      let st3 := <[cancelButton d := onBase UiObj.show cn]> st2 in
      ok ← st3 !! okButton d;
      let st4 := <[okButton d := onBase UiObj.show ok]> st3 in
      m4 ← st4 !! md;
      ok4 ← st4 !! okButton d;
      st5 ← vmove st4 (cancelButton d) (Z.quot (width (base m4)) 2)
              (height (base m4) - height (base ok4) - 10) false;
      m5 ← st5 !! md;
      ok5 ← st5 !! okButton d;
      st6 ← vmove st5 (okButton d) (Z.quot (width (base m5)) 4)
              (height (base m5) - height (base ok5) - 10) false;
      m6 ← st6 !! md;
      m7 ← setResult (-1) m6;
      Some (<[md := onBase UiObj.show m7]> st6)
  | _ => None
  end.

End UiModal.

(** A call through a function pointer or a [std::function]. *)
Definition runHandler `{Application} (vexpose : heap -> loc -> area -> option heap)
    (fuel : nat) (h : handler) (sender : loc) (event : Z) (st : heap)
  : option (heap * bool) :=
  match h with
  | ModalClose m => UiModal.closePressed vexpose fuel st m
  | ModalOk m => UiModal.okPressed vexpose fuel st m
  | ModalCancel m => UiModal.cancelPressed vexpose fuel st m
  | AppCallback id => appCallback id sender event st
  end.


(** ** class UiIcon *)

Module UiIcon.

Definition touchEvent (call : handler -> loc -> Z -> heap -> option (heap * bool))
    (st : heap) (p : loc) (px py : Z) : option (heap * bool) :=
  o ← st !! p;
  match cls o with
  | IsIcon l f cb =>
      match cb with
      | Some h => if negb (frame_initialised f) then Some (st, false) else call h p 1 st
      | None => Some (st, false)
      end
  | _ => None
  end.

End UiIcon.

(** ** class UiManager *)

Module UiManager.

Definition setModal (md : option loc) (n : node) : option node :=
  match cls n with
  | IsManager l f _ => Some (mkNode (base n) (IsManager l f md))
  | _ => None
  end.

(** [addModal(modal)]; [newModal] is [new UiModal()] at the address
    [fresh]. *)
Definition addModal (newModal : heap -> loc -> option heap)
    (st : heap) (p : loc) (arg : option loc) (fresh : loc) : option heap :=
  o ← st !! p;
  match cls o with
  | IsManager _ _ (Some _) => Some st
  | IsManager _ _ None =>
      st1 ← match arg with
            | Some _ => Some st
            | None => newModal st fresh
            end;
      let md := default fresh arg in
      o1 ← st1 !! p;
      o2 ← setModal (Some md) o1;
      UiFrame.add (<[p := o2]> st1) p md
  | _ => None
  end.

(** [new UiManager(parentSurface)] at the address [p], for a canvas of
    [w] by [h] pixels. *)
Definition ctor `{TextMetrics} {G : SpriteGraphics} (fuel : nat)
    (vhide : heap -> loc -> option heap)
    (raw : storage) (kids : UiModal.children) (w h : Z)
    (st : heap) (p fresh : loc) : option heap :=
  let '(o, l, f) :=
    UiFrame.init 0 0 w h true
      (UiFrame.ctor_default (raw_obj raw, raw_label raw, raw_frame raw)) in
  let '(o1, l1) := UiLabel.setOutline 0 0 0 (o, l) in
  addModal (UiModal.ctor_default fuel vhide raw kids)
    (<[p := mkNode o1 (IsManager l1 f None)]> st) p None fresh.

(** [msgbox(title, message)]. *)
Definition msgbox (vhide : heap -> loc -> option heap)
    (vmove : heap -> loc -> Z -> Z -> bool -> option heap)
    (st : heap) (p : loc) (title message : string) : option heap :=
  o ← st !! p;
  match cls o with
  | IsManager _ _ (Some md) => UiModal.msgbox vhide vmove st md title message
  | _ => None
  end.

(** [confirm(title, message)]. *)
Definition confirm (vmove : heap -> loc -> Z -> Z -> bool -> option heap)
    (st : heap) (p : loc) (title message : string) : option heap :=
  o ← st !! p;
  match cls o with
  | IsManager _ _ (Some md) => UiModal.confirm vmove st md title message
  | _ => None
  end.

Definition touchEvent (vtouch : heap -> loc -> Z -> Z -> option (heap * bool))
    (st : heap) (p : loc) (px py : Z) : option (heap * bool) :=
  o ← st !! p;
  match cls o with
  | IsManager l f (Some md) =>
      m ← st !! md;
      if visible (base m) then
        if (x (base m) <? px) && (px <? x (base m) + width (base m))
           && (y (base m) <? py) && (py <? y (base m) + height (base m))
        then vtouch st md (px - x (base m)) (py - y (base m))
        else Some (st, false)
      else UiFrame.touchEvent vtouch st p px py
  | IsManager l f None => UiFrame.touchEvent vtouch st p px py
  | _ => None
  end.

End UiManager.

(** ** class UiHwImage *)

Module UiHwImage.

(** [String::lastIndexOf(c)] of the Arduino core: the position of the last
    [c] of the string, or -1. *)
Fixpoint lastIndexFrom (c : ascii) (s : string) (i found : Z) : Z :=
  match s with
  | EmptyString => found
  | String d rest => lastIndexFrom c rest (i + 1) (if Ascii.eqb d c then i else found)
  end.

Definition lastIndexOf (c : ascii) (s : string) : Z := lastIndexFrom c s 0 (-1).

(** [getFileExtension(filename)]; [substring(from)] of the Arduino core is
    [substring(from, length())]. *)
Definition getFileExtension (filename : string) : string :=
  let dotIndex := lastIndexOf "."%char filename in
  if dotIndex =? -1 then EmptyString
  else ArduinoString.substring filename (dotIndex + 1) (ArduinoString.length filename).

(** [isWebUrl(filename)]; [startsWith] of the Arduino core tests for a
    prefix. *)
Definition isWebUrl (filename : string) : bool :=
  String.prefix "http://" filename || String.prefix "https://" filename.

End UiHwImage.

(** ** Virtual calls *)

(** [obj->isUpdated()]. *)
Fixpoint isUpdated (fuel : nat) (st : heap) (p : loc) : option bool :=
  match fuel with
  | O => None
  | S n =>
      o ← st !! p;
      match cls o with
      | IsLabel _ | IsButton _ _ | IsImage _ => Some (updated (base o))
      | IsHwImage _ => Some false
      | IsFrame _ _ | IsIcon _ _ _ | IsModal _ _ _ | IsManager _ _ _ =>
          UiFrame.isUpdated (isUpdated n) st p
      end
  end.

(** [obj->expose(xArea)]. *)
Fixpoint expose (fuel : nat) (st : heap) (p : loc) (xArea : area) : option heap :=
  match fuel with
  | O => None
  | S n =>
      o ← st !! p;
      match cls o with
      | IsFrame _ _ | IsIcon _ _ _ | IsModal _ _ _ | IsManager _ _ _ =>
          UiFrame.expose (expose n) st p xArea
      | _ => Some (<[p := onBase (UiObj.expose xArea) o]> st)
      end
  end.

(** [obj->hide()]. *)
Definition hide (fuel : nat) (st : heap) (p : loc) : option heap :=
  UiObj.hide (expose fuel) fuel st p.

(** [obj->move(x, y, relative)]. *)
Definition move (fuel : nat) (st : heap) (p : loc) (x0 y0 : Z) (relative : bool)
  : option heap :=
  UiObj.move (expose fuel) st p x0 y0 relative.

(** [obj->touchEvent(x, y)]. *)
Fixpoint touchEvent `{Application} (fuel : nat) (st : heap) (p : loc) (px py : Z)
  : option (heap * bool) :=
  match fuel with
  | O => None
  | S n =>
      o ← st !! p;
      match cls o with
      | IsLabel _ | IsImage _ | IsHwImage _ => Some (st, false)
      | IsButton _ _ => UiButton.touchEvent (runHandler (expose n) n) st p px py
      | IsIcon _ _ _ => UiIcon.touchEvent (runHandler (expose n) n) st p px py
      | IsFrame _ _ | IsModal _ _ _ => UiFrame.touchEvent (touchEvent n) st p px py
      | IsManager _ _ _ => UiManager.touchEvent (touchEvent n) st p px py
      end
  end.

(** [frame->getUpdateArea()] for an object of a class derived from
    [UiFrame]. *)
Definition getUpdateArea (fuel : nat) (st : heap) (p : loc) : option (heap * area) :=
  UiFrame.getUpdateArea (isUpdated fuel) st p.

(** [obj->resetStatus()]. *)
Fixpoint resetStatus (fuel : nat) (st : heap) (p : loc) : option heap :=
  match fuel with
  | O => None
  | S n =>
      o ← st !! p;
      match cls o with
      | IsFrame _ _ | IsIcon _ _ _ | IsModal _ _ _ | IsManager _ _ _ =>
          UiFrame.resetStatus (resetStatus n) st p
      | _ => Some (<[p := onBase UiObj.resetStatus o]> st)
      end
  end.

(** ** Objects for the examples *)

(** Storage filled with zeroes, except for the function pointer
    [callback] of a button, which holds some address. *)
Definition rawObj : UiObjData :=
  mkObj 0 0 0 0 None noSprite false false false true true false false false
    false LAYER_CENTRE Area.zero Area.zero.

Definition rawLabel : UiLabelData :=
  mkLabel EmptyString false false false false false false false false
    0 0 0 0 0 0 0 0 0 false ALIGN_TOP ALIGN_LEFT.

Definition rawFrame : UiFrameData := mkFrame [] false false false 0.

Definition blank : storage :=
  mkStorage rawObj rawLabel rawFrame
    (mkButton (Some (AppCallback 0)) None false)
    (mkModal 0 false 0%nat 0%nat 0%nat 0%nat 0%nat).

(** [new UiLabel(x, y, width, height, text)]. *)
Definition newLabel (x0 y0 w h : Z) (txt : string) : node :=
  let '(o, l) := UiLabel.ctor x0 y0 w h txt false (rawObj, rawLabel) in
  mkNode o (IsLabel l).

(** [new UiFrame(x, y, width, height, hwFrame)]. *)
Definition newFrame (x0 y0 w h : Z) (hw : bool) : node :=
  let '(o, l, f) := UiFrame.ctor x0 y0 w h hw (rawObj, rawLabel, rawFrame) in
  mkNode o (IsFrame l f).

(** A frame at address 0 with two labels, the one further right added
    first:
    [f = new UiFrame(0, 0, 200, 20); f->add(new UiLabel(100, 0, 50, 10, e));
     f->add(new UiLabel(0, 0, 10, 10, e))], [e] being the empty text. *)
Definition twoLabels : heap :=
  let st : heap :=
    <[2%nat := newLabel 0 0 10 10 EmptyString]>
      (<[1%nat := newLabel 100 0 50 10 EmptyString]>
         (<[0%nat := newFrame 0 0 200 20 false]> ∅)) in
  default ∅ (st1 ← UiFrame.add st 0%nat 1%nat; UiFrame.add st1 0%nat 2%nat).

(** ** Packing, as a function on pixel lists *)

(** What the inner loop of [packToGrey] writes for a row of pixels: one
    byte per pair. *)
Fixpoint packPairs (px : list Z) : list Z :=
  match px with
  | hi :: lo :: rest => UiObj.packByte hi lo :: packPairs rest
  | _ => []
  end.

(** Unpacking, after the words of the specification: every byte gives its
    high nibble, then its low nibble. *)
Definition unpackByte (b : Z) : list Z := [Z.shiftr b 4; Z.land b 15].

Definition unpack (bytes : list Z) : list Z := concat (map unpackByte bytes).

(** A 4-bit grey value. *)
Definition nibble (v : Z) : Prop := 0 <= v <= 15.

(** A one-row node of eight pixels that is its own top-level object:
    the scenario of the packing example. *)
Definition eightPixels : heap :=
  let '(o, l) := UiLabel.ctor 0 0 8 1 EmptyString false (rawObj, rawLabel) in
  let o1 :=
    set_updateArea (Area.mk 0 0 8 1)
      (set_surface (mkSprite 8 1 (Some [0; 15; 3; 12; 7; 8; 1; 14])) o) in
  <[0%nat := mkNode o1 (IsLabel l)]> ∅.

(** ** Heaps that differ in exposure only *)

(** [n'] is [n] up to the members [exposed] and [exposeArea]. *)
Definition sameButExposure (n n' : node) : Prop :=
  cls n' = cls n
  /\ base n' = set_exposeArea (exposeArea (base n')) (set_exposed (exposed (base n')) (base n)).

(** The same addresses are allocated and every object is the same up to
    [exposed] and [exposeArea]. *)
Definition exposureOnly (st st' : heap) : Prop :=
  forall q : loc,
    match st !! q with
    | Some n => exists n', st' !! q = Some n' /\ sameButExposure n n'
    | None => st' !! q = None
    end.

(** A hardware frame without a buffer at address 0, holding the label at
    address 1:
    [f = new UiFrame(0, 0, 8, 4, true); f->add(new UiLabel(2, 1, 5, 2, e))],
    [e] being the empty text. *)
Definition hwFrameWithLabel : heap :=
  let st : heap :=
    <[1%nat := newLabel 2 1 5 2 EmptyString]>
      (<[0%nat := newFrame 0 0 8 4 true]> ∅) in
  default ∅ (UiFrame.add st 0%nat 1%nat).

(** ** Children of a frame under [expose] *)

(** A child that answers [expose] by recording the request: its parent
    pointer is set, as [add] sets it, and it is not a frame that draws to
    hardware. *)
Definition recordsExposure (n : node) : bool :=
  bool_decide (parent (base n) <> None)
  && match frameOf (cls n) with
     | Some f => negb (hwFrame f)
     | None => true
     end.

(** What [expose(xArea)] of the container does to such a child: a visible
    child that lies within [xArea] records the area, translated to its own
    coordinates; any other child is left alone. *)
Definition exposeChild (xArea : area) (n : node) : node :=
  if visible (base n) && UiFrame.withinArea xArea (base n)
  then onBase (UiObj.expose (Area.mk (Area.x xArea - x (base n))
                               (Area.y xArea - y (base n))
                               (Area.width xArea) (Area.height xArea))) n
  else n.

(** The label of [hwFrameWithLabel] after [label->hide()]. *)
Definition hiddenLabel : heap := default ∅ (hide 2 hwFrameWithLabel 1%nat).

(** Three nested frames: the hardware frame at address 0 holds the
    buffered frame at address 1, which holds the buffered frame at
    address 2:
    [root = new UiFrame(0, 0, 16, 8, true); f1 = new UiFrame(0, 0, 8, 4);
     f2 = new UiFrame(0, 0, 4, 2); root->add(f1); f1->add(f2)]. *)
Definition nestedFrames : heap :=
  let st : heap :=
    <[2%nat := newFrame 0 0 4 2 false]>
      (<[1%nat := newFrame 0 0 8 4 false]>
         (<[0%nat := newFrame 0 0 16 8 true]> ∅)) in
  default ∅ (st1 ← UiFrame.add st 0%nat 1%nat; UiFrame.add st1 1%nat 2%nat).

(** ** Objects for the touch examples *)

(** [new UiButton(x, y, text, callback)], glyphs 10 wide and 14 high. *)
Definition newButton (x0 y0 : Z) (txt : string) (cb : handler) : node :=
  let '(o, l, b) :=
    UiButton.ctor (H := fixedPitch 10 14) x0 y0 txt (Some cb)
      (rawObj, rawLabel) (mkButton None None false) in
  mkNode o (IsButton l b).

(** [new UiFrame()]. *)
Definition newFrameDefault : node :=
  let '(o, l, f) := UiFrame.ctor_default (rawObj, rawLabel, rawFrame) in
  mkNode o (IsFrame l f).

(** A default-constructed frame, never initialised, holding a button:
    [f = new UiFrame(); f->add(new UiButton(0, 0, "OK", cb))]. *)
Definition uninitialisedFrame : heap :=
  let st : heap :=
    <[1%nat := newButton 0 0 "OK" (AppCallback 0)]>
      (<[0%nat := newFrameDefault]> ∅) in
  default ∅ (UiFrame.add st 0%nat 1%nat).

(** A frame with a label and a button on the same spot, the button in the
    overlay layer:
    [f = new UiFrame(0, 0, 80, 60); l = new UiLabel(0, 0, 60, 54, e);
     b = new UiButton(0, 0, "OK", cb); b->layer = LAYER_OVERLAY;
     f->add(l); f->add(b)], [e] being the empty text. *)
Definition overlappingChildren : heap :=
  let st : heap :=
    <[2%nat := onBase (set_layer LAYER_OVERLAY) (newButton 0 0 "OK" (AppCallback 0))]>
      (<[1%nat := newLabel 0 0 60 54 EmptyString]>
         (<[0%nat := newFrame 0 0 80 60 false]> ∅)) in
  default ∅ (st1 ← UiFrame.add st 0%nat 1%nat; UiFrame.add st1 0%nat 2%nat).

(** ** A manager with its message box open *)

(** [mainUi = new UiManager(canvas)] for a canvas of 540 by 960 pixels,
    with glyphs 10 wide and 14 high.  The manager is at address 0, its
    modal at address 1 and the children of the modal at the addresses 2 to
    6. *)
Definition freshManager : heap :=
  default ∅
    (UiManager.ctor (H := fixedPitch 10 14) (G := blockGraphics (H := fixedPitch 10 14))
       1 (hide 3) blank
       (UiModal.mkChildren 2%nat 3%nat 4%nat 5%nat 6%nat) 540 960 ∅ 0%nat 1%nat).

(** [mainUi->msgbox("Hello", "Message here!")]. *)
Definition messageBoxOpen : heap :=
  default ∅ (UiManager.msgbox (hide 3) (move 3) freshManager 0%nat
               "Hello" "Message here!").

(** ** Parts of the objects of a heap *)

Definition nodeAt (st : heap) (p : loc) : node :=
  default (mkNode rawObj (IsImage false)) (st !! p).

Definition labelAt (st : heap) (p : loc) : UiLabelData :=
  default rawLabel (labelOf (cls (nodeAt st p))).

Definition frameAt (st : heap) (p : loc) : UiFrameData :=
  default rawFrame (frameOf (cls (nodeAt st p))).

Definition modalAt (st : heap) (p : loc) : UiModalData :=
  match cls (nodeAt st p) with
  | IsModal _ _ d => d
  | _ => raw_modal blank
  end.

Definition buttonAt (st : heap) (p : loc) : UiButtonData :=
  match cls (nodeAt st p) with
  | IsButton _ b => b
  | _ => raw_button blank
  end.

(** ** Heaps with the same objects *)

(** The same addresses are allocated and hold objects with the same class
    members. *)
Definition sameClasses (st st' : heap) : Prop :=
  forall q : loc, cls <$> st' !! q = cls <$> st !! q.

(** An allocated child that is not a frame. *)
Definition leafChild (st : heap) (c : loc) : Prop :=
  exists n : node, st !! c = Some n /\ frameOf (cls n) = None.

(** A hardware frame that has just been shown:
    [f = new UiFrame(0, 0, 10, 5, true); f->show()]. *)
Definition shownHwFrame : heap :=
  <[0%nat := onBase UiObj.show (newFrame 0 0 10 5 true)]> ∅.

(** ** Containment, after the words of the specification *)

(** The rectangle [ua] contains the bounding box of the child [c]. *)
Definition containsChild (ua : area) (c : UiObjData) : bool :=
  (Area.x ua <=? x c) && (Area.y ua <=? y c)
  && (x c + width c <=? Area.x ua + Area.width ua)
  && (y c + height c <=? Area.y ua + Area.height ua).

(** ** Labels for the text examples *)

(** [new UiLabel(10, 10, "Hi")] with glyphs 10 wide and 14 high, so that
    the text measures 20 by 14. *)
Definition hiLabel : UiLabel.this_t :=
  UiLabel.ctor_autosize (H := fixedPitch 10 14) 10 10 "Hi" (rawObj, rawLabel).

(** [new UiLabel(0, 0, 70, 50, "abcdef")]: with the default padding and
    outline the text area is 30 pixels wide. *)
Definition narrowLabel : UiLabel.this_t :=
  UiLabel.ctor 0 0 70 50 "abcdef" false (rawObj, rawLabel).

(** The text "ab", a newline, "cdefgh". *)
Definition twoLines : string := "ab" +:+ String "010"%char "cdefgh".

(** [new UiLabel(0, 0, 70, 50, twoLines)]. *)
Definition twoLineLabel : UiLabel.this_t :=
  UiLabel.ctor 0 0 70 50 twoLines false (rawObj, rawLabel).

(** ** The chain of containers of an object *)

(** [ancestry st p path]: [path] lists the object at [p], its container,
    the container of that, and so on up to an object without a
    container. *)
Inductive ancestry (st : heap) : loc -> list node -> Prop :=
| ancestry_root (p : loc) (o : node) :
    st !! p = Some o -> parent (base o) = None -> ancestry st p [o]
| ancestry_child (p q : loc) (o : node) (rest : list node) :
    st !! p = Some o -> parent (base o) = Some q -> ancestry st q rest ->
    ancestry st p (o :: rest).

(** The offsets of the objects of a path, added up. *)
Definition sumX (path : list node) : Z := foldr (fun o s => x (base o) + s) 0 path.
Definition sumY (path : list node) : Z := foldr (fun o s => y (base o) + s) 0 path.

(** ** A frame after a drawing pass *)

Definition set_drawn (v : bool) (o : UiObjData) : UiObjData :=
  mkObj (x o) (y o) (width o) (height o) (parent o) (surface o) (updated o)
    (exposed o) (hardwareDraw o) (unbuffered o) (visible o) (initialised o)
    (visibilityChanged o) (newParent o) v (layer o) (updateArea o) (exposeArea o).

(** The objects of [hwFrameWithLabel] with the flag [drawn] set, as
    [render] leaves it. *)
Definition drawnHwFrame : heap := onBase (set_drawn true) <$> hwFrameWithLabel.

(** ** Children of a frame under [updateBelow] *)

(** What [updateBelow(obj)] does to a child: it is flagged if its bounds
    and those of [obj] overlap or touch. *)
Definition markBelow (obj : UiObjData) (m : node) : node :=
  if UiFrame.overlaps obj (base m)
  then onBase (set_visibilityChanged true) m else m.

(** ** Rows of an object in a buffer *)

(** The index of element [i] of row [r] of an object in a buffer with
    rows of [m] elements, for an object that starts [b] rows down and [a]
    elements in. *)
Definition cell (m a b r i : nat) : nat := ((r + b) * m + a + i)%nat.

(** A hardware frame of 16 by 4 holding a label of 6 by 2 at (4, 1) that
    has been painted with the values 1 to 12, after [getUpdateArea()] on
    the frame, which leaves the window (4, 1, 8, 2) in its [updateArea]. *)
Definition paintedLabel : heap :=
  let st : heap :=
    <[1%nat := onBase (set_surface
                         (mkSprite 6 2 (Some [1; 2; 3; 4; 5; 6; 7; 8; 9; 10; 11; 12])))
                 (newLabel 4 1 6 2 EmptyString)]>
      (<[0%nat := newFrame 0 0 16 4 true]> ∅) in
  default ∅ (st1 ← UiFrame.add st 0%nat 1%nat; fst <$> getUpdateArea 1 st1 0%nat).

(** A buffered frame of 8 by 4 holding a label of 6 by 2 at (4, 1) that
    has been painted with the values 1 to 12: the label sticks out of the
    frame by two pixels on the right. *)
Definition clippedLabel : heap :=
  let st : heap :=
    <[1%nat := onBase (set_surface
                         (mkSprite 6 2 (Some [1; 2; 3; 4; 5; 6; 7; 8; 9; 10; 11; 12])))
                 (newLabel 4 1 6 2 EmptyString)]>
      (<[0%nat := newFrame 0 0 8 4 false]> ∅) in
  default ∅ (UiFrame.add st 0%nat 1%nat).

(** ** Lines of a text *)

(** The end of the line [lineLimit] starts from: the first line feed of the
    text, or the end of the text. *)
Definition candidateEnd (txt : string) : Z :=
  if ArduinoString.indexOf "010" txt =? -1
  then ArduinoString.length txt else ArduinoString.indexOf "010" txt.

(** ** A button built on zeroed storage *)

(** [new UiButton(0, 0, "OK", std::function)] at address 0, on storage
    that holds zeroes throughout, with glyphs 10 wide and 14 high. *)
Definition looseButton : heap :=
  <[0%nat := UiModal.newStdButton (H := fixedPitch 10 14)
               (mkStorage rawObj rawLabel rawFrame (mkButton None None false)
                  (raw_modal blank))
               0 0 "OK" (AppCallback 0)]> ∅.

(** ** The size of a pixel buffer *)

(** The buffer of the object, if it has one, is the sprite of the object's
    size and holds one byte for each of its pixels. *)
Definition bufferFits (o : UiObjData) : Prop :=
  forall buf : list Z,
    frameBuffer (surface o) = Some buf ->
    sprite_width (surface o) = width o /\ sprite_height (surface o) = height o
    /\ 0 < width o /\ 0 < height o
    /\ length buf = Z.to_nat (width o * height o).

(** ** Heaps that differ in [visibilityChanged] only *)

(** The same addresses are allocated and every object is the same, except
    that [visibilityChanged] may have been set. *)
Definition flaggedOnly (st st' : heap) : Prop :=
  forall q : loc,
    match st !! q with
    | Some n =>
        exists n',
          st' !! q = Some n' /\ cls n' = cls n
          /\ base n' = set_visibilityChanged (visibilityChanged (base n')) (base n)
          /\ (visibilityChanged (base n) = true -> visibilityChanged (base n') = true)
    | None => st' !! q = None
    end.

(** The test of the first loop of [getUpdateArea]: the child has just been
    hidden. *)
Definition justHidden (n : node) : bool :=
  initialised (base n) && visibilityChanged (base n) && negb (visible (base n)).

(** ** Objects that call nothing *)

(** The object has no function to call on a touch: a button without
    function pointer, an icon without callback, or an object of a class
    that takes no callback. *)
Definition silentNode (n : node) : bool :=
  match cls n with
  | IsButton _ b => bool_decide (callback b = None)
  | IsIcon _ _ cb => bool_decide (cb = None)
  | _ => true
  end.

(** No object of the heap has a function to call. *)
Definition silent (st : heap) : Prop :=
  map_Forall (fun (_ : loc) (n : node) => silentNode n = true) st.

(** The objects a touch on [p] can reach, the children of frames and the
    modal of a manager, are allocated and at most [d] levels deep. *)
Fixpoint finiteBelow (st : heap) (d : nat) (p : loc) : bool :=
  match d with
  | O => false
  | S d' =>
      match st !! p with
      | None => false
      | Some o =>
          match cls o with
          | IsFrame _ f | IsModal _ f _ => forallb (finiteBelow st d') (objects f)
          | IsManager _ f md =>
              forallb (finiteBelow st d') (objects f)
              && match md with
                 | Some m => finiteBelow st d' m
                 | None => true
                 end
          | _ => true
          end
      end
  end.

(** A hardware frame holding a label and, on top of it, a button built on
    zeroed storage with a [std::function]:
    [f = new UiFrame(0, 0, 200, 100, true); f->add(new UiLabel(0, 0, 50, 10, e));
     f->add(new UiButton(0, 0, "OK", fn))], with glyphs 10 wide and 14 high. *)
Definition panelWithLooseButton : heap :=
  let st : heap :=
    <[2%nat := UiModal.newStdButton (H := fixedPitch 10 14)
                 (mkStorage rawObj rawLabel rawFrame (mkButton None None false)
                    (raw_modal blank))
                 0 0 "OK" (AppCallback 0)]>
      (<[1%nat := newLabel 0 0 50 10 EmptyString]>
         (<[0%nat := newFrame 0 0 200 100 true]> ∅)) in
  default ∅ (st1 ← UiFrame.add st 0%nat 1%nat; UiFrame.add st1 0%nat 2%nat).

(** ** A manager built on zeroed storage *)

(** Storage that holds zeroes throughout: every pointer in it is null,
    the function pointer [callback] of a button included. *)
Definition zeroed : storage :=
  mkStorage rawObj rawLabel rawFrame (mkButton None None false) (raw_modal blank).

(** [mainUi = new UiManager(canvas); mainUi->msgbox("Hello", "Message here!")]
    for a canvas of 540 by 960 pixels, with glyphs 10 wide and 14 high,
    where [new] hands out zeroed storage.  The manager is at address 0, its
    modal at address 1 and the children of the modal at the addresses 2 to
    6, the OK button at address 5. *)
Definition zeroedMessageBox : heap :=
  default ∅
    (st ← UiManager.ctor (H := fixedPitch 10 14)
            (G := blockGraphics (H := fixedPitch 10 14)) 1 (hide 3) zeroed
            (UiModal.mkChildren 2%nat 3%nat 4%nat 5%nat 6%nat) 540 960 ∅ 0%nat 1%nat;
     UiManager.msgbox (hide 3) (move 3) st 0%nat "Hello" "Message here!").

(** ** Siblings in a container off the origin *)

(** A frame at (20, 10) of a root frame, holding two labels that overlap:
    [root = new UiFrame(0, 0, 200, 100, true); f = new UiFrame(20, 10, 100, 50);
     root->add(f); f->add(new UiLabel(0, 0, 30, 20, e));
     f->add(new UiLabel(10, 5, 40, 30, e))], [e] being the empty text.  The
    root is at address 0, [f] at address 1 and the labels at the addresses
    2 and 3. *)
Definition offsetSiblings : heap :=
  let st : heap :=
    <[3%nat := newLabel 10 5 40 30 EmptyString]>
      (<[2%nat := newLabel 0 0 30 20 EmptyString]>
         (<[1%nat := newFrame 20 10 100 50 false]>
            (<[0%nat := newFrame 0 0 200 100 true]> ∅))) in
  default ∅ (st1 ← UiFrame.add st 0%nat 1%nat;
             st2 ← UiFrame.add st1 1%nat 2%nat;
             UiFrame.add st2 1%nat 3%nat).

(** ** A label on top of others *)

(** A hardware frame of 100 by 60 at address 0 with four labels: at address
    1 the label (10, 10, 60, 40); at address 2 the label (20, 20, 20, 10),
    which lies entirely within the bounds of the first; at address 3 the
    label (50, 30, 40, 20), which sticks out of them on the right; at
    address 4 the label (75, 15, 20, 10), which lies beside them. *)
Definition stackedLabels : heap :=
  let st : heap :=
    <[4%nat := newLabel 75 15 20 10 EmptyString]>
      (<[3%nat := newLabel 50 30 40 20 EmptyString]>
         (<[2%nat := newLabel 20 20 20 10 EmptyString]>
            (<[1%nat := newLabel 10 10 60 40 EmptyString]>
               (<[0%nat := newFrame 0 0 100 60 true]> ∅)))) in
  default ∅ (st1 ← UiFrame.add st 0%nat 1%nat;
             st2 ← UiFrame.add st1 0%nat 2%nat;
             st3 ← UiFrame.add st2 0%nat 3%nat;
             UiFrame.add st3 0%nat 4%nat).

(** [stackedLabels] after [hide()] on the label at address 1. *)
Definition coverHidden : heap := default ∅ (hide 2 stackedLabels 1%nat).

(** * Properties *)

Lemma nodeAt_lookup (st : heap) (p : loc) :
  match st !! p with Some _ => true | None => false end = true ->
  st !! p = Some (nodeAt st p).
Proof. unfold nodeAt. by destruct (st !! p). Qed.

(** [lookup_at st p H] records [H : st !! p = Some (nodeAt st p)] for an
    allocated address of the closed heap [st], without writing the object
    out. *)
Ltac lookup_at st p H :=
  assert (st !! p = Some (nodeAt st p)) as H
    by (apply nodeAt_lookup; vm_compute; reflexivity).

(** [lookup_node st p H] evaluates the object at [p] of the closed heap
    [st] and records it as [H : st !! p = Some _]. *)
Ltac lookup_node st p H :=
  let r := eval vm_compute in (st !! p) in
  lazymatch r with
  | Some ?n => assert (st !! p = Some n) as H by (vm_compute; reflexivity)
  end.

(** ** Pixel packing *)

Section Packing.

Lemma peek_middle (l1 l2 : list Z) (v : Z) :
  peek (l1 ++ v :: l2) (Z.of_nat (length l1)) = Some v.
Proof.
  unfold peek.
  destruct (Z.ltb_spec (Z.of_nat (length l1)) 0) as [Hneg | _]; [lia |].
  rewrite Nat2Z.id.
  by rewrite list_lookup_middle.
Qed.

Lemma poke_middle (l1 l2 : list Z) (old v : Z) :
  poke (l1 ++ old :: l2) (Z.of_nat (length l1)) v = Some (l1 ++ v :: l2).
Proof.
  unfold poke.
  rewrite length_app; cbn [length].
  destruct (Z.leb_spec 0 (Z.of_nat (length l1))) as [_ | Hneg]; [| lia].
  destruct (Z.ltb_spec (Z.of_nat (length l1))
              (Z.of_nat (length l1 + S (length l2)))) as [_ | Hge]; [| lia].
  cbn [andb]. rewrite Nat2Z.id.
  f_equal.
  rewrite insert_app_r_alt by lia.
  by rewrite Nat.sub_diag.
Qed.

(** The inner loop turns the pixels in front of it into bytes, pair by
    pair, and leaves the rest of both buffers alone. *)
Lemma packRow_pairs (k : nat) :
  forall (px before after written room : list Z) (col w : Z) (fuel : nat),
    length px = (2 * k)%nat ->
    w - col = 2 * Z.of_nat k ->
    (k <= length room)%nat ->
    (k < fuel)%nat ->
    UiObj.packRow fuel col w (before ++ px ++ after) (Z.of_nat (length before))
      (written ++ room) (Z.of_nat (length written))
    = Some (written ++ packPairs px ++ drop k room).
Proof.
  induction k as [| k IH]; intros px before after written room col w fuel Hlen Hw Hroom Hfuel.
  - destruct px; [| discriminate].
    destruct fuel as [| fuel]; [lia |].
    cbn [UiObj.packRow].
    destruct (Z.ltb_spec col w) as [Hlt | _]; [lia |].
    reflexivity.
  - destruct px as [| hi [| lo px]]; cbn [length] in Hlen; try lia.
    destruct room as [| old room]; cbn [length] in Hroom; [lia |].
    destruct fuel as [| fuel]; [lia |].
    cbn [UiObj.packRow].
    destruct (Z.ltb_spec col w) as [_ | Hge]; [| lia].
    cbn [app].
    assert (Hhi : peek (before ++ hi :: lo :: px ++ after)
                    (Z.of_nat (length before)) = Some hi)
      by apply peek_middle.
    assert (Hlo : peek (before ++ hi :: lo :: px ++ after)
                    (Z.of_nat (length before) + 1) = Some lo).
    { replace (before ++ hi :: lo :: px ++ after)
        with ((before ++ [hi]) ++ lo :: px ++ after)
        by (by rewrite <- app_assoc).
      replace (Z.of_nat (length before) + 1)
        with (Z.of_nat (length (before ++ [hi])))
        by (rewrite length_app; cbn [length]; lia).
      apply peek_middle. }
    rewrite Hhi. cbn [mbind option_bind].
    rewrite Hlo. cbn [mbind option_bind].
    rewrite poke_middle. cbn [mbind option_bind].
    pose proof (IH px (before ++ [hi; lo]) after
                  (written ++ [UiObj.packByte hi lo]) room (col + 2) w fuel)
      as Hrest.
    rewrite !length_app, <- !app_assoc in Hrest.
    cbn [length app] in Hrest.
    replace (Z.of_nat (length before + 2)) with (Z.of_nat (length before) + 2)
      in Hrest by lia.
    replace (Z.of_nat (length written + 1)) with (Z.of_nat (length written) + 1)
      in Hrest by lia.
    rewrite Hrest by lia.
    reflexivity.
Qed.

Lemma nibble_cases (v : Z) :
  nibble v ->
  v = 0 \/ v = 1 \/ v = 2 \/ v = 3 \/ v = 4 \/ v = 5 \/ v = 6 \/ v = 7 \/
  v = 8 \/ v = 9 \/ v = 10 \/ v = 11 \/ v = 12 \/ v = 13 \/ v = 14 \/ v = 15.
Proof. unfold nibble. lia. Qed.

Lemma unpackByte_packByte (hi lo : Z) :
  nibble hi -> nibble lo -> unpackByte (UiObj.packByte hi lo) = [hi; lo].
Proof.
  intros Hhi Hlo.
  apply nibble_cases in Hhi. apply nibble_cases in Hlo.
  repeat (destruct Hhi as [-> | Hhi]);
    try subst hi; repeat (destruct Hlo as [-> | Hlo]); try subst lo; reflexivity.
Qed.

Lemma unpack_packPairs (k : nat) :
  forall px : list Z,
    length px = (2 * k)%nat -> Forall nibble px -> unpack (packPairs px) = px.
Proof.
  induction k as [| k IH]; intros px Hlen Hall.
  - by destruct px.
  - destruct px as [| hi [| lo px]]; cbn [length] in Hlen; try lia.
    apply Forall_cons in Hall as [Hhi Hall].
    apply Forall_cons in Hall as [Hlo Hall].
    cbn [packPairs]. unfold unpack. cbn [map concat].
    rewrite unpackByte_packByte by assumption.
    cbn [app]. do 2 f_equal.
    apply IH; [lia | assumption].
Qed.

End Packing.

Lemma packByte_nibble (hi lo : Z) :
  nibble hi -> UiObj.packByte hi lo = Z.lor (Z.shiftl hi 4) (Z.land lo 15).
Proof.
  intros Hhi. unfold UiObj.packByte.
  apply nibble_cases in Hhi.
  repeat (destruct Hhi as [-> | Hhi]); try subst hi; reflexivity.
Qed.

Lemma packPairs_lookup (k : nat) :
  forall (px : list Z) (i : nat) (hi lo : Z),
    length px = (2 * k)%nat ->
    px !! (2 * i)%nat = Some hi -> px !! (2 * i + 1)%nat = Some lo ->
    packPairs px !! i = Some (UiObj.packByte hi lo).
Proof.
  induction k as [| k IH]; intros px i hi lo Hlen Hhi Hlo.
  - destruct px; discriminate.
  - destruct px as [| a [| b px]]; cbn [length] in Hlen; try lia.
    destruct i as [| i].
    + cbn in Hhi, Hlo. by simplify_eq.
    + replace (2 * S i)%nat with (S (S (2 * i))) in Hhi by lia.
      replace (2 * S i + 1)%nat with (S (S (2 * i + 1))) in Hlo by lia.
      cbn in Hhi, Hlo. cbn [packPairs].
      apply (IH px i hi lo); [lia | assumption | assumption].
Qed.

Lemma packPairs_length (k : nat) :
  forall px : list Z, length px = (2 * k)%nat -> length (packPairs px) = k.
Proof.
  induction k as [| k IH]; intros px Hlen.
  - by destruct px.
  - destruct px as [| a [| b px]]; cbn [length] in Hlen; try lia.
    cbn [packPairs length]. f_equal. apply IH. lia.
Qed.

(** C2.  Packing round trip.  For a row [px] of an even number of 4-bit
    values, the pixel-pair loop of [packToGrey], run as [packToGrey] runs it,
    returns; it writes one byte per pair in front of the untouched rest of
    the output buffer; byte [i] is [(px[2i] << 4) | (px[2i+1] & 0xF)]; and
    unpacking the bytes into high and low nibbles gives [px] back.  In
    particular [packToGrey] turns the row [0,15,3,12,7,8,1,14] into the
    bytes [0x0F, 0x3C, 0x78, 0x1E]. *)
Theorem pack_unpack_roundtrip :
  (forall (k : nat) (px room : list Z),
      length px = (2 * k)%nat -> Forall nibble px -> (k <= length room)%nat ->
      exists bytes : list Z,
        UiObj.packRow (S (Z.to_nat (Z.of_nat (length px)))) 0
          (Z.of_nat (length px)) px 0 room 0
        = Some (bytes ++ drop k room)
        /\ length bytes = k
        /\ (forall (i : nat) (hi lo : Z),
               px !! (2 * i)%nat = Some hi -> px !! (2 * i + 1)%nat = Some lo ->
               bytes !! i = Some (Z.lor (Z.shiftl hi 4) (Z.land lo 15)))
        /\ unpack bytes = px)
  /\ UiObj.packToGrey 1 eightPixels 0%nat (Area.mk 0 0 8 1) (Some [0; 0; 0; 0])
     = Some (Some [15; 60; 120; 30]).
Proof.
  split; [| reflexivity].
  intros k px room Hlen Hall Hroom.
  exists (packPairs px).
  split; [| split; [| split]].
  - pose proof (packRow_pairs k px [] [] [] room 0 (Z.of_nat (length px))
                  (S (Z.to_nat (Z.of_nat (length px))))) as Hrun.
    cbn [app length] in Hrun.
    rewrite app_nil_r in Hrun.
    apply Hrun; [assumption | lia | assumption | lia].
  - by apply packPairs_length.
  - intros i hi lo Hhi Hlo.
    rewrite (packPairs_lookup k px i hi lo Hlen Hhi Hlo).
    f_equal. apply packByte_nibble.
    eapply Forall_forall; [exact Hall |].
    eapply list_elem_of_lookup_2. exact Hhi.
  - by apply (unpack_packPairs k).
Qed.

Lemma pack_unpack_roundtrip_witness :
  exists bytes : list Z,
    UiObj.packRow 5 0 4 [9; 6; 15; 0] 0 [7; 7; 7] 0 = Some (bytes ++ [7])
    /\ unpack bytes = [9; 6; 15; 0].
Proof.
  destruct (proj1 pack_unpack_roundtrip 2%nat [9; 6; 15; 0] [7; 7; 7])
    as (bytes & Hrun & _ & _ & Hback).
  - reflexivity.
  - repeat constructor; unfold nibble; lia.
  - simpl; lia.
  - exists bytes. split; [exact Hrun | exact Hback].
Defined.

(** ** Null surfaces *)

Lemma topLevel_some (fuel : nat) :
  forall (st : heap) (p top : loc),
    UiObj.topLevel fuel st p = Some top ->
    is_Some (UiObj.getAbsolutePos fuel st p) /\ is_Some (st !! top).
Proof.
  induction fuel as [| fuel IH]; intros st p top Htop; [discriminate |].
  cbn [UiObj.topLevel UiObj.getAbsolutePos] in *.
  destruct (st !! p) as [o |] eqn:Hp; [| discriminate].
  cbn [mbind option_bind] in *.
  destruct (parent (base o)) as [q |].
  - destruct (IH st q top Htop) as [[pa Hpa] Hin].
    rewrite Hpa. cbn [mbind option_bind]. split; [by eexists | assumption].
  - injection Htop as <-. split; [by eexists | by rewrite Hp].
Qed.

(** C9.  [copyToParent] leaves the heap as it is when the frame buffer of
    the parent is null, and [packToGrey] leaves the screen buffer as it is
    when the frame buffer of the object or the screen buffer is null; both
    return. *)
Theorem null_surface_is_noop :
  (forall (st : heap) (p q : loc) (o po : node),
      st !! p = Some o -> parent (base o) = Some q -> st !! q = Some po ->
      frameBuffer (surface (base po)) = None ->
      UiObj.copyToParent st p = Some st)
  /\ (forall (fuel : nat) (st : heap) (p top : loc) (o : node)
        (renderArea : area) (screenBuffer : buffer),
        st !! p = Some o -> UiObj.topLevel fuel st p = Some top ->
        frameBuffer (surface (base o)) = None \/ screenBuffer = None ->
        UiObj.packToGrey fuel st p renderArea screenBuffer = Some screenBuffer).
Proof.
  split.
  - intros st p q o po Hp Hparent Hq Hnull.
    unfold UiObj.copyToParent.
    rewrite Hp. cbn [mbind option_bind].
    rewrite Hparent. cbn [mbind option_bind].
    rewrite Hq. cbn [mbind option_bind].
    by rewrite Hnull.
  - intros fuel st p top o renderArea screenBuffer Hp Htop Hnull.
    unfold UiObj.packToGrey.
    rewrite Hp. cbn [mbind option_bind].
    destruct (topLevel_some fuel st p top Htop) as [[pa Hpa] [topObj HtopObj]].
    rewrite Hpa. cbn [mbind option_bind].
    rewrite Htop. cbn [mbind option_bind].
    rewrite HtopObj. cbn [mbind option_bind].
    destruct Hnull as [-> | ->]; [reflexivity |].
    by destruct (frameBuffer (surface (base o))).
Qed.

Lemma null_surface_is_noop_witness :
  UiObj.copyToParent hwFrameWithLabel 1%nat = Some hwFrameWithLabel
  /\ UiObj.packToGrey 2 hwFrameWithLabel 1%nat (Area.mk 0 0 4 2) None = Some None
  /\ UiObj.packToGrey 1 hwFrameWithLabel 0%nat (Area.mk 0 0 8 4) (Some [1; 2; 3])
     = Some (Some [1; 2; 3]).
Proof.
  lookup_node hwFrameWithLabel 0%nat ipattern:(Hframe).
  lookup_node hwFrameWithLabel 1%nat ipattern:(Hlabel).
  split; [| split].
  - eapply (proj1 null_surface_is_noop _ _ _ _ _ Hlabel);
      [reflexivity | exact Hframe | reflexivity].
  - eapply (proj2 null_surface_is_noop 2%nat _ _ 0%nat _ _ _ Hlabel);
      [vm_compute; reflexivity | right; reflexivity].
  - eapply (proj2 null_surface_is_noop 1%nat _ _ 0%nat _ _ _ Hframe);
      [vm_compute; reflexivity | left; reflexivity].
Defined.

(** ** Exposure *)

Section Exposure.

Lemma sameButExposure_refl (n : node) : sameButExposure n n.
Proof. split; [reflexivity |]. by destruct n as [[] ?]. Qed.

Lemma sameButExposure_trans (n1 n2 n3 : node) :
  sameButExposure n1 n2 -> sameButExposure n2 n3 -> sameButExposure n1 n3.
Proof.
  intros [Hc12 Hb12] [Hc23 Hb23].
  split; [congruence |].
  rewrite Hb23 at 1. rewrite Hb12. reflexivity.
Qed.

Lemma sameButExposure_expose (xArea : area) (n : node) :
  sameButExposure n (onBase (UiObj.expose xArea) n).
Proof. split; reflexivity. Qed.

Lemma exposureOnly_refl (st : heap) : exposureOnly st st.
Proof.
  intros q. destruct (st !! q) as [n |] eqn:Hq; [| reflexivity].
  exists n. split; [reflexivity | apply sameButExposure_refl].
Qed.

Lemma exposureOnly_trans (st1 st2 st3 : heap) :
  exposureOnly st1 st2 -> exposureOnly st2 st3 -> exposureOnly st1 st3.
Proof.
  intros H12 H23 q. specialize (H12 q). specialize (H23 q).
  destruct (st1 !! q) as [n1 |].
  - destruct H12 as (n2 & Hq2 & Hsame12). rewrite Hq2 in H23.
    destruct H23 as (n3 & Hq3 & Hsame23).
    exists n3. split; [assumption |].
    by apply (sameButExposure_trans n1 n2 n3).
  - by rewrite H12 in H23.
Qed.

Lemma exposureOnly_record (st : heap) (p : loc) (o : node) (xArea : area) :
  st !! p = Some o ->
  exposureOnly st (<[p := onBase (UiObj.expose xArea) o]> st).
Proof.
  intros Hp q.
  destruct (decide (p = q)) as [<- | Hne].
  - rewrite Hp, lookup_insert_eq.
    eexists. split; [reflexivity | apply sameButExposure_expose].
  - rewrite lookup_insert_ne by assumption.
    destruct (st !! q) as [n |]; [| reflexivity].
    exists n. split; [reflexivity | apply sameButExposure_refl].
Qed.

Lemma exposeLoop_exposureOnly (vexpose : heap -> loc -> area -> option heap) :
  (forall st c a st', vexpose st c a = Some st' -> exposureOnly st st') ->
  forall (objs : list loc) (st st' : heap) (xArea : area),
    UiFrame.exposeLoop vexpose st xArea objs = Some st' -> exposureOnly st st'.
Proof.
  intros Hv objs.
  induction objs as [| obj rest IH]; intros st st' xArea Hloop.
  - injection Hloop as <-. apply exposureOnly_refl.
  - cbn [UiFrame.exposeLoop] in Hloop.
    destruct (st !! obj) as [c |]; [| discriminate].
    cbn [mbind option_bind] in Hloop.
    destruct (visible (base c) && UiFrame.withinArea xArea (base c)).
    + destruct (vexpose st obj (UiObj.childOffset (base c) xArea))
        as [st1 |] eqn:Hstep; [| discriminate].
      cbn [mbind option_bind] in Hloop.
      apply (exposureOnly_trans st st1 st').
      * by apply (Hv st obj (UiObj.childOffset (base c) xArea)).
      * by apply (IH st1 st' xArea).
    + by apply (IH st st' xArea).
Qed.

(** Whatever [expose] does, it changes [exposed] and [exposeArea] only. *)
Lemma expose_exposureOnly (fuel : nat) :
  forall (st : heap) (p : loc) (xArea : area) (st' : heap),
    expose fuel st p xArea = Some st' -> exposureOnly st st'.
Proof.
  induction fuel as [| fuel IH]; intros st p xArea st' Hrun; [discriminate |].
  cbn [expose] in Hrun.
  destruct (st !! p) as [o |] eqn:Hp; [| discriminate].
  cbn [mbind option_bind] in Hrun.
  assert (Hframe :
    UiFrame.expose (expose fuel) st p xArea = Some st' -> exposureOnly st st').
  { unfold UiFrame.expose. rewrite Hp. cbn [mbind option_bind].
    destruct (frameOf (cls o)) as [f |]; [| discriminate].
    cbn [mbind option_bind].
    destruct (hwFrame f || bool_decide (parent (base o) = None)).
    - apply exposeLoop_exposureOnly. exact IH.
    - intros [= <-]. by apply exposureOnly_record. }
  destruct (cls o);
    first [ by apply Hframe
          | injection Hrun as <-; by apply exposureOnly_record ].
Qed.

Lemma exposureOnly_lookup (st st' : heap) (q : loc) (n : node) :
  exposureOnly st st' -> st !! q = Some n ->
  exists n', st' !! q = Some n' /\ sameButExposure n n'.
Proof. intros Hsame Hq. specialize (Hsame q). by rewrite Hq in Hsame. Qed.

Lemma sameButExposure_visible (n n' : node) :
  sameButExposure n n' -> visible (base n') = visible (base n).
Proof. intros [_ Hb]. by rewrite Hb. Qed.

Lemma sameButExposure_visibilityChanged (n n' : node) :
  sameButExposure n n' -> visibilityChanged (base n') = visibilityChanged (base n).
Proof. intros [_ Hb]. by rewrite Hb. Qed.

End Exposure.

(** ** Hiding *)

(** C10.  [hide] on an object that is not visible returns the heap it was
    given: no member of any object changes, so [visible] stays false,
    [visibilityChanged] is not set and nothing is exposed.  A call of
    [hide] that changes the heap was made on a visible object, and it
    leaves that object invisible with [visibilityChanged] set. *)
Theorem hide_hidden_is_noop :
  forall (fuel : nat) (st : heap) (p : loc) (o : node),
    st !! p = Some o ->
    (visible (base o) = false -> hide fuel st p = Some st)
    /\ (forall st' : heap,
           hide fuel st p = Some st' -> st' <> st ->
           visible (base o) = true
           /\ exists o', st' !! p = Some o'
                         /\ visible (base o') = false
                         /\ visibilityChanged (base o') = true).
Proof.
  intros fuel st p o Hp.
  unfold hide, UiObj.hide. rewrite Hp. cbn [mbind option_bind].
  destruct (visible (base o)) eqn:Hvis.
  - split; [discriminate |].
    intros st' Hrun _. split; [reflexivity |].
    destruct (UiObj.topLevel fuel _ p) as [top |]; [| discriminate].
    cbn [mbind option_bind] in Hrun.
    apply expose_exposureOnly in Hrun.
    destruct (exposureOnly_lookup _ _ p _ Hrun (lookup_insert_eq _ _ _))
      as (o' & Hp' & Hsame).
    exists o'. split; [assumption |].
    rewrite (sameButExposure_visible _ _ Hsame).
    rewrite (sameButExposure_visibilityChanged _ _ Hsame).
    split; reflexivity.
  - split; [reflexivity |].
    intros st' [= <-] Hne. by destruct Hne.
Qed.

Lemma hide_hidden_is_noop_witness :
  hide 5 hiddenLabel 1%nat = Some hiddenLabel.
Proof.
  lookup_node hiddenLabel 1%nat ipattern:(Hlabel).
  apply (proj1 (hide_hidden_is_noop 5 hiddenLabel 1%nat _ Hlabel)).
  reflexivity.
Defined.

(** ** Exposure of frames *)

Section FrameExposure.

Lemma recordsExposure_expose (fuel : nat) (st : heap) (c : loc) (n : node)
    (xArea : area) :
  st !! c = Some n -> recordsExposure n = true ->
  expose (S fuel) st c xArea = Some (<[c := onBase (UiObj.expose xArea) n]> st).
Proof.
  intros Hc Hrec.
  cbn [expose]. rewrite Hc. cbn [mbind option_bind].
  unfold UiFrame.expose. rewrite Hc. cbn [mbind option_bind].
  unfold recordsExposure in Hrec.
  apply andb_true_iff in Hrec as [Hparent Hhw].
  apply bool_decide_eq_true in Hparent.
  destruct (cls n) as [l | l b | l f | l f cb | l f m | l f md | i | i];
    cbn [frameOf mbind option_bind] in *; try reflexivity;
    destruct (hwFrame f); try discriminate;
    rewrite bool_decide_eq_false_2 by assumption; reflexivity.
Qed.

Lemma exposeChild_idemp (xArea : area) (n : node) :
  exposeChild xArea (exposeChild xArea n) = exposeChild xArea n.
Proof.
  unfold exposeChild.
  destruct (visible (base n) && UiFrame.withinArea xArea (base n)) eqn:Hin.
  - set (n1 := onBase _ n).
    change (visible (base n1) && UiFrame.withinArea xArea (base n1))
      with (visible (base n) && UiFrame.withinArea xArea (base n)).
    rewrite Hin. unfold n1. by destruct n as [[] c].
  - by rewrite Hin.
Qed.

Lemma exposeChild_records (xArea : area) (n : node) :
  recordsExposure (exposeChild xArea n) = recordsExposure n.
Proof.
  unfold exposeChild.
  by destruct (visible (base n) && UiFrame.withinArea xArea (base n)).
Qed.

(** The loop over children that all record their exposure: it returns, and
    the children of the list are the objects it has touched. *)
Lemma exposeLoop_children (fuel : nat) (xArea : area) :
  forall (objs : list loc) (st : heap),
    Forall (fun c => exists n, st !! c = Some n /\ recordsExposure n = true) objs ->
    exists st' : heap,
      UiFrame.exposeLoop (expose (S fuel)) st xArea objs = Some st'
      /\ forall q : loc,
           st' !! q = if bool_decide (q ∈ objs)
                      then exposeChild xArea <$> st !! q else st !! q.
Proof.
  induction objs as [| c rest IH]; intros st Hall.
  - exists st. split; [reflexivity |].
    intros q. by rewrite bool_decide_eq_false_2 by apply not_elem_of_nil.
  - apply Forall_cons in Hall as [(n & Hc & Hrec) Hrest].
    set (st1 := <[c := exposeChild xArea n]> st).
    assert (Hstep :
      UiFrame.exposeLoop (expose (S fuel)) st xArea (c :: rest)
      = UiFrame.exposeLoop (expose (S fuel)) st1 xArea rest).
    { cbn [UiFrame.exposeLoop]. rewrite Hc. cbn [mbind option_bind].
      unfold st1, exposeChild.
      destruct (visible (base n) && UiFrame.withinArea xArea (base n)).
      - rewrite (recordsExposure_expose fuel st c n _ Hc Hrec).
        cbn [mbind option_bind].
        unfold UiObj.childOffset.
        unfold recordsExposure in Hrec.
        apply andb_true_iff in Hrec as [Hparent _].
        apply bool_decide_eq_true in Hparent.
        by destruct (parent (base n)).
      - by rewrite insert_id. }
    destruct (IH st1) as (st' & Hloop & Hlookup).
    { eapply Forall_impl; [exact Hrest |].
      intros c' (n' & Hc' & Hrec'). unfold st1.
      destruct (decide (c = c')) as [<- | Hne].
      - rewrite lookup_insert_eq. eexists. split; [reflexivity |].
        rewrite exposeChild_records. congruence.
      - rewrite lookup_insert_ne by assumption. by exists n'. }
    exists st'. split; [by rewrite Hstep |].
    intros q. rewrite Hlookup. unfold st1.
    destruct (decide (c = q)) as [<- | Hne].
    + rewrite lookup_insert_eq, Hc.
      rewrite (bool_decide_eq_true_2 (c ∈ c :: rest)) by apply list_elem_of_here.
      destruct (bool_decide (c ∈ rest)); cbn [fmap option_fmap option_map];
        [by rewrite exposeChild_idemp | reflexivity].
    + rewrite lookup_insert_ne by assumption.
      destruct (decide (q ∈ rest)) as [Hin | Hout].
      * rewrite !bool_decide_eq_true_2; [reflexivity | by right | assumption].
      * rewrite !bool_decide_eq_false_2; [reflexivity | | assumption].
        intros Hin. apply elem_of_cons in Hin as [-> | Hin]; [by destruct Hne | by destruct Hout].
Qed.

(** A frame that draws to hardware or has no container hands [expose] to
    its children. *)
Lemma expose_distributes (fuel : nat) (st : heap) (p : loc) (o : node)
    (f : UiFrameData) (rect : area) :
  st !! p = Some o -> frameOf (cls o) = Some f ->
  hwFrame f = true \/ parent (base o) = None ->
  Forall (fun c => exists n, st !! c = Some n /\ recordsExposure n = true)
    (objects f) ->
  exists st' : heap,
    expose (S (S fuel)) st p rect = Some st'
    /\ forall q : loc,
         st' !! q = if bool_decide (q ∈ objects f)
                    then exposeChild rect <$> st !! q else st !! q.
Proof.
  intros Hp Hf Hroot Hall.
  destruct (exposeLoop_children fuel rect (objects f) st Hall)
    as (st' & Hloop & Hlookup).
  exists st'. split; [| exact Hlookup].
  assert (Hdist : hwFrame f || bool_decide (parent (base o) = None) = true).
  { destruct Hroot as [-> | Hnone]; [reflexivity |].
    rewrite bool_decide_eq_true_2 by assumption. apply orb_true_r. }
  change (expose (S (S fuel)) st p rect)
    with (o0 ← st !! p;
          match cls o0 with
          | IsFrame _ _ | IsIcon _ _ _ | IsModal _ _ _ | IsManager _ _ _ =>
              UiFrame.expose (expose (S fuel)) st p rect
          | _ => Some (<[p := onBase (UiObj.expose rect) o0]> st)
          end).
  rewrite Hp. cbn [mbind option_bind].
  assert (Hframe : UiFrame.expose (expose (S fuel)) st p rect = Some st').
  { unfold UiFrame.expose. rewrite Hp. cbn [mbind option_bind].
    rewrite Hf. cbn [mbind option_bind]. by rewrite Hdist. }
  destruct (cls o); try discriminate; exact Hframe.
Qed.

End FrameExposure.

(** C3, as amended.  A frame that does not draw to hardware and has a
    container answers [expose(rect)] by recording the request in itself
    ([exposed], [exposeArea = rect]); no other object changes, its container
    included.  A frame that draws to hardware or has no container hands the
    request to its children: of children attached with [add] that are not
    hardware frames, each visible one whose bounds lie within [rect] records
    [rect] translated to its own coordinates, and nothing else changes. *)
Theorem expose_frame_cases :
  forall (fuel : nat) (st : heap) (p : loc) (o : node) (f : UiFrameData)
         (rect : area),
    st !! p = Some o -> frameOf (cls o) = Some f ->
    (hwFrame f = false -> parent (base o) <> None ->
     expose (S fuel) st p rect = Some (<[p := onBase (UiObj.expose rect) o]> st))
    /\ (hwFrame f = true \/ parent (base o) = None ->
        Forall (fun c => exists n, st !! c = Some n /\ recordsExposure n = true)
          (objects f) ->
        exists st' : heap,
          expose (S (S fuel)) st p rect = Some st'
          /\ forall q : loc,
               st' !! q = if bool_decide (q ∈ objects f)
                          then exposeChild rect <$> st !! q else st !! q).
Proof.
  intros fuel st p o f rect Hp Hf. split.
  - intros Hhw Hparent.
    apply recordsExposure_expose; [assumption |].
    unfold recordsExposure. rewrite Hf, Hhw.
    by rewrite bool_decide_eq_true_2.
  - intros Hroot Hall.
    by apply (expose_distributes fuel st p o f rect).
Qed.

Lemma expose_frame_cases_witness :
  (exists o : node,
      nestedFrames !! 2%nat = Some o
      /\ expose 1 nestedFrames 2%nat (Area.mk 0 0 4 2)
         = Some (<[2%nat := onBase (UiObj.expose (Area.mk 0 0 4 2)) o]> nestedFrames))
  /\ (exists st' : heap,
         expose 2 hwFrameWithLabel 0%nat (Area.mk 0 0 8 4) = Some st'
         /\ st' !! 1%nat = exposeChild (Area.mk 0 0 8 4) <$> hwFrameWithLabel !! 1%nat).
Proof.
  lookup_node nestedFrames 2%nat ipattern:(Hinner).
  lookup_node hwFrameWithLabel 0%nat ipattern:(Hroot).
  lookup_node hwFrameWithLabel 1%nat ipattern:(Hlabel).
  split.
  - eexists. split; [exact Hinner |].
    eapply (proj1 (expose_frame_cases 0 _ _ _ _ _ Hinner eq_refl));
      [reflexivity | discriminate].
  - destruct (proj2 (expose_frame_cases 0 _ _ _ _ (Area.mk 0 0 8 4) Hroot eq_refl))
      as (st' & Hrun & Hlookup).
    + left. reflexivity.
    + repeat constructor. eexists. split; [exact Hlabel | reflexivity].
    + exists st'. split; [exact Hrun |]. apply (Hlookup 1%nat).
Defined.

(** C3, the claim as stated fails.  In [nestedFrames] the frame at address
    2 does not draw to hardware and has the frame at address 1 as its
    container.  [expose] on it marks the frame itself and leaves its
    container and the hardware frame above as they were.  [expose] on the
    container, with whatever rectangle, marks the container, and [expose]
    on the hardware frame never marks the frame at address 2: the request
    is not forwarded, neither to the container nor to the nearest ancestor
    that draws to hardware. *)
Lemma expose_not_forwarded :
  (exists (o : node) (f : UiFrameData),
      nestedFrames !! 2%nat = Some o /\ frameOf (cls o) = Some f
      /\ hwFrame f = false /\ parent (base o) = Some 1%nat)
  /\ (exists st' : heap,
         expose 3 nestedFrames 2%nat (Area.mk 0 0 4 2) = Some st'
         /\ (exposed ∘ base) <$> st' !! 2%nat = Some true
         /\ st' !! 1%nat = nestedFrames !! 1%nat
         /\ st' !! 0%nat = nestedFrames !! 0%nat)
  /\ (forall rect' : area,
         expose 3 nestedFrames 2%nat (Area.mk 0 0 4 2)
         <> expose 3 nestedFrames 1%nat rect')
  /\ (forall rect' : area,
         expose 3 nestedFrames 2%nat (Area.mk 0 0 4 2)
         <> expose 3 nestedFrames 0%nat rect').
Proof.
  split; [| split; [| split]].
  - lookup_node nestedFrames 2%nat ipattern:(Hinner).
    do 2 eexists. split; [exact Hinner |]. repeat split.
  - eexists. split; [vm_compute; reflexivity |].
    repeat split; vm_compute; reflexivity.
  - intros rect' Heq.
    apply (f_equal (fun r : option heap =>
                      st ← r; n ← st !! 1%nat; Some (exposed (base n)))) in Heq.
    vm_compute in Heq. discriminate.
  - intros rect' Heq.
    lookup_node nestedFrames 0%nat ipattern:(Hroot).
    lookup_node nestedFrames 1%nat ipattern:(Hmiddle).
    edestruct (expose_distributes 1 nestedFrames 0%nat _ _ rect' Hroot eq_refl)
      as (st' & Hrun & Hlookup).
    { left. reflexivity. }
    { repeat constructor. eexists. split; [exact Hmiddle | reflexivity]. }
    assert (Hmark :
      match expose 3 nestedFrames 2%nat (Area.mk 0 0 4 2) with
      | Some st =>
          match st !! 2%nat with
          | Some n => exposed (base n)
          | None => false
          end
      | None => false
      end = true) by (vm_compute; reflexivity).
    rewrite Heq, Hrun in Hmark. cbv iota beta in Hmark.
    rewrite (Hlookup 2%nat) in Hmark.
    vm_compute in Hmark. discriminate.
Qed.

(** ** Touch dispatch *)

Section TouchDispatch.

Lemma layer_index_range (l : layer_t) : 0 <= layer_index l <= 5.
Proof. destruct l; cbn; lia. Qed.

Lemma layer_index_inj (a b : layer_t) : layer_index a = layer_index b -> a = b.
Proof. destruct a, b; cbn; intros H; try reflexivity; discriminate. Qed.

Lemma hit_underPoint (l px py : Z) (obj : UiObjData) :
  UiFrame.hit l px py obj
  = (layer_index (layer obj) =? l) && UiFrame.underPoint px py obj.
Proof.
  unfold UiFrame.hit, UiFrame.underPoint.
  destruct (layer_index (layer obj) =? l); [| reflexivity].
  cbn [andb]. by rewrite andb_true_r.
Qed.

(** The inner loop finds the first child of the layer under the point. *)
Lemma findHit_first (st : heap) (l px py : Z) :
  forall objs : list loc,
    Forall (fun c => is_Some (st !! c)) objs ->
    (exists (i : nat) (c : loc) (n : node),
        UiFrame.findHit st l px py objs = Some (Some c)
        /\ objs !! i = Some c /\ st !! c = Some n
        /\ UiFrame.hit l px py (base n) = true
        /\ forall (j : nat) (c' : loc) (n' : node),
             (j < i)%nat -> objs !! j = Some c' -> st !! c' = Some n' ->
             UiFrame.hit l px py (base n') = false)
    \/ (UiFrame.findHit st l px py objs = Some None
        /\ forall (c : loc) (n : node),
             c ∈ objs -> st !! c = Some n -> UiFrame.hit l px py (base n) = false).
Proof.
  induction objs as [| obj rest IH]; intros Hvalid.
  - right. split; [reflexivity |].
    intros c n Hin. by apply not_elem_of_nil in Hin.
  - apply Forall_cons in Hvalid as [[n Hobj] Hrest].
    cbn [UiFrame.findHit]. rewrite Hobj. cbn [mbind option_bind].
    destruct (UiFrame.hit l px py (base n)) eqn:Hhit.
    + left. exists 0%nat, obj, n.
      repeat split; try assumption; try reflexivity.
      intros j c' n' Hlt. lia.
    + destruct (IH Hrest) as [(i & c & n0 & Hfind & Hi & Hc & Hhit0 & Hbefore) | [Hfind Hnone]].
      * left. exists (S i), c, n0.
        repeat split; try assumption.
        intros [| j] c' n' Hlt Hj Hc'.
        -- cbn in Hj. injection Hj as <-. congruence.
        -- cbn in Hj. apply (Hbefore j c' n'); [lia | assumption | assumption].
      * right. split; [assumption |].
        intros c n0 Hin Hc.
        apply elem_of_cons in Hin as [-> | Hin]; [congruence |].
        by apply (Hnone c n0).
Qed.

(** The outer loop stops at the first layer of its list with a hit. *)
Lemma scanLayers_first (st : heap) (px py : Z) (objs : list loc) :
  Forall (fun c => is_Some (st !! c)) objs ->
  forall layers : list Z,
    (exists (above below : list Z) (l : Z) (c : loc),
        layers = above ++ l :: below
        /\ UiFrame.scanLayers st px py objs layers = Some (Some c)
        /\ UiFrame.findHit st l px py objs = Some (Some c)
        /\ forall l', l' ∈ above -> UiFrame.findHit st l' px py objs = Some None)
    \/ (UiFrame.scanLayers st px py objs layers = Some None
        /\ forall l', l' ∈ layers -> UiFrame.findHit st l' px py objs = Some None).
Proof.
  intros Hvalid.
  induction layers as [| l below IH].
  - right. split; [reflexivity |].
    intros l' Hin. by apply not_elem_of_nil in Hin.
  - cbn [UiFrame.scanLayers].
    destruct (findHit_first st l px py objs Hvalid)
      as [(i & c & n & Hfind & _) | [Hfind Hnone]];
      rewrite Hfind; cbn [mbind option_bind].
    + left. exists [], below, l, c.
      repeat split; try assumption.
      intros l' Hin. by apply not_elem_of_nil in Hin.
    + destruct IH as [(above & below' & l0 & c & -> & Hscan & Hfind0 & Habove) | [Hscan Hall]].
      * left. exists (l :: above), below', l0, c.
        repeat split; try assumption.
        intros l' Hin.
        apply elem_of_cons in Hin as [-> | Hin]; [assumption | by apply Habove].
      * right. split; [assumption |].
        intros l' Hin.
        apply elem_of_cons in Hin as [-> | Hin]; [assumption | by apply Hall].
Qed.

(** In the order of [layersDown], every layer index above [l] comes before
    [l]. *)
Lemma layersDown_above (above below : list Z) (l l' : Z) :
  UiFrame.layersDown = above ++ l :: below ->
  l < l' <= 5 -> l' ∈ above.
Proof.
  unfold UiFrame.layersDown. intros Hsplit Hrange.
  repeat (destruct above as [| ? above]; cbn in Hsplit;
          [ injection Hsplit as <- <-; rewrite ?elem_of_cons; lia
          | injection Hsplit as <- Hsplit ]).
  by destruct above.
Qed.

Lemma layersDown_all (l : Z) : 0 <= l <= 5 -> l ∈ UiFrame.layersDown.
Proof. intros Hrange. unfold UiFrame.layersDown. rewrite !elem_of_cons. lia. Qed.

Lemma findHit_none (st : heap) (l px py : Z) (objs : list loc) :
  Forall (fun c => is_Some (st !! c)) objs ->
  UiFrame.findHit st l px py objs = Some None ->
  forall (c : loc) (n : node),
    c ∈ objs -> st !! c = Some n -> UiFrame.hit l px py (base n) = false.
Proof.
  intros Hvalid Hfind.
  destruct (findHit_first st l px py objs Hvalid)
    as [(i & c & n & Hfind' & _) | [_ Hnone]]; [congruence | exact Hnone].
Qed.

Lemma findHit_some (st : heap) (l px py : Z) (objs : list loc) (c : loc) :
  Forall (fun c => is_Some (st !! c)) objs ->
  UiFrame.findHit st l px py objs = Some (Some c) ->
  exists (i : nat) (n : node),
    objs !! i = Some c /\ st !! c = Some n
    /\ UiFrame.hit l px py (base n) = true
    /\ forall (j : nat) (c' : loc) (n' : node),
         (j < i)%nat -> objs !! j = Some c' -> st !! c' = Some n' ->
         UiFrame.hit l px py (base n') = false.
Proof.
  intros Hvalid Hfind.
  destruct (findHit_first st l px py objs Hvalid)
    as [(i & c0 & n & Hfind' & Hrest) | [Hfind' _]]; [| congruence].
  assert (c0 = c) as -> by congruence.
  by exists i, n.
Qed.

(** The search of [touchEvent]: either it stops at a child under the point
    that no other child under the point precedes, neither by layer nor,
    within the layer, by insertion order; or no child is under the point. *)
Lemma scanLayers_target (st : heap) (px py : Z) (objs : list loc) :
  Forall (fun c => is_Some (st !! c)) objs ->
  (exists (i : nat) (c : loc) (n : node),
      UiFrame.scanLayers st px py objs UiFrame.layersDown = Some (Some c)
      /\ objs !! i = Some c /\ st !! c = Some n
      /\ UiFrame.underPoint px py (base n) = true
      /\ forall (j : nat) (c' : loc) (n' : node),
           objs !! j = Some c' -> st !! c' = Some n' ->
           UiFrame.underPoint px py (base n') = true ->
           layer_index (layer (base n')) < layer_index (layer (base n))
           \/ (layer (base n') = layer (base n) /\ (i <= j)%nat))
  \/ (UiFrame.scanLayers st px py objs UiFrame.layersDown = Some None
      /\ forall (c : loc) (n : node),
           c ∈ objs -> st !! c = Some n ->
           UiFrame.underPoint px py (base n) = false).
Proof.
  intros Hvalid.
  destruct (scanLayers_first st px py objs Hvalid UiFrame.layersDown)
    as [(above & below & l & c & Hsplit & Hscan & Hfind & Habove) | [Hscan Hall]].
  - left.
    destruct (findHit_some st l px py objs c Hvalid Hfind)
      as (i & n & Hi & Hc & Hhit & Hbefore).
    rewrite hit_underPoint in Hhit.
    apply andb_true_iff in Hhit as [Hlayer Hunder].
    apply Z.eqb_eq in Hlayer.
    exists i, c, n. repeat split; try assumption.
    intros j c' n' Hj Hc' Hunder'.
    pose proof (layer_index_range (layer (base n'))) as Hrange.
    destruct (Z.lt_trichotomy (layer_index (layer (base n')))
                (layer_index (layer (base n)))) as [Hlt | [Heq | Hgt]].
    + by left.
    + right. split; [by apply layer_index_inj |].
      destruct (Nat.le_gt_cases i j) as [Hle | Hlt]; [assumption |].
      pose proof (Hbefore j c' n' Hlt Hj Hc') as Hmiss.
      rewrite hit_underPoint, Hunder', <- Hlayer, Heq, Z.eqb_refl in Hmiss.
      discriminate.
    + assert (Hin : layer_index (layer (base n')) ∈ above).
      { apply (layersDown_above above below l); [assumption | lia]. }
      pose proof (findHit_none st _ px py objs Hvalid (Habove _ Hin) c' n'
                    (list_elem_of_lookup_2 _ _ _ Hj) Hc') as Hmiss.
      rewrite hit_underPoint, Hunder', Z.eqb_refl in Hmiss.
      discriminate.
  - right. split; [assumption |].
    intros c n Hin Hc.
    pose proof (layer_index_range (layer (base n))) as Hrange.
    pose proof (findHit_none st _ px py objs Hvalid
                  (Hall _ (layersDown_all _ Hrange)) c n Hin Hc) as Hmiss.
    rewrite hit_underPoint, Z.eqb_refl in Hmiss.
    exact Hmiss.
Qed.

End TouchDispatch.

(** C4, as amended.  An uninitialised frame answers [touchEvent] with false
    and looks at no child.  An initialised frame looks through the layers
    from OVERLAY down to BG and, within a layer, through its children in
    insertion order; the event goes to the first visible child whose
    bounds, edges included, contain the point, with the point translated to
    the coordinates of the child, and the answer of the child is returned;
    when no child is under the point the answer is false and nothing
    changes.  In particular, of a CENTRE child and an OVERLAY child under
    the same point it is an OVERLAY child that gets the event, and the
    OVERLAY child itself when the two are the only children. *)
Theorem touchEvent_first_hit :
  forall (vtouch : heap -> loc -> Z -> Z -> option (heap * bool))
         (st : heap) (p : loc) (o : node) (f : UiFrameData) (px py : Z),
    st !! p = Some o -> frameOf (cls o) = Some f ->
    (frame_initialised f = false ->
     UiFrame.touchEvent vtouch st p px py = Some (st, false))
    /\ (frame_initialised f = true ->
        Forall (fun c => is_Some (st !! c)) (objects f) ->
        ((exists (i : nat) (c : loc) (n : node),
             objects f !! i = Some c /\ st !! c = Some n
             /\ UiFrame.underPoint px py (base n) = true
             /\ (forall (j : nat) (c' : loc) (n' : node),
                    objects f !! j = Some c' -> st !! c' = Some n' ->
                    UiFrame.underPoint px py (base n') = true ->
                    layer_index (layer (base n')) < layer_index (layer (base n))
                    \/ (layer (base n') = layer (base n) /\ (i <= j)%nat))
             /\ UiFrame.touchEvent vtouch st p px py
                = vtouch st c (px - x (base n)) (py - y (base n)))
         \/ ((forall (c : loc) (n : node),
                 c ∈ objects f -> st !! c = Some n ->
                 UiFrame.underPoint px py (base n) = false)
             /\ UiFrame.touchEvent vtouch st p px py = Some (st, false)))
        /\ (forall (a b : loc) (na nb : node),
               a ∈ objects f -> b ∈ objects f ->
               st !! a = Some na -> st !! b = Some nb ->
               layer (base na) = LAYER_CENTRE -> layer (base nb) = LAYER_OVERLAY ->
               UiFrame.underPoint px py (base na) = true ->
               UiFrame.underPoint px py (base nb) = true ->
               exists (c : loc) (n : node),
                 c ∈ objects f /\ st !! c = Some n
                 /\ layer (base n) = LAYER_OVERLAY
                 /\ UiFrame.touchEvent vtouch st p px py
                    = vtouch st c (px - x (base n)) (py - y (base n))
                 /\ ((forall c', c' ∈ objects f -> c' = a \/ c' = b) -> c = b))).
Proof.
  intros vtouch st p o f px py Hp Hf.
  unfold UiFrame.touchEvent. rewrite Hp. cbn [mbind option_bind].
  rewrite Hf. cbn [mbind option_bind].
  split; [by intros -> |].
  intros -> Hvalid. cbn [negb].
  assert (Hdispatch :
    (exists (i : nat) (c : loc) (n : node),
        objects f !! i = Some c /\ st !! c = Some n
        /\ UiFrame.underPoint px py (base n) = true
        /\ (forall (j : nat) (c' : loc) (n' : node),
               objects f !! j = Some c' -> st !! c' = Some n' ->
               UiFrame.underPoint px py (base n') = true ->
               layer_index (layer (base n')) < layer_index (layer (base n))
               \/ (layer (base n') = layer (base n) /\ (i <= j)%nat))
        /\ (UiFrame.scanLayers st px py (objects f) UiFrame.layersDown
            ≫= λ r : option loc,
                 match r with
                 | Some obj =>
                     st !! obj
                     ≫= λ c0 : node, vtouch st obj (px - x (base c0)) (py - y (base c0))
                 | None => Some (st, false)
                 end)
           = vtouch st c (px - x (base n)) (py - y (base n)))
    \/ ((forall (c : loc) (n : node),
            c ∈ objects f -> st !! c = Some n ->
            UiFrame.underPoint px py (base n) = false)
        /\ (UiFrame.scanLayers st px py (objects f) UiFrame.layersDown
            ≫= λ r : option loc,
                 match r with
                 | Some obj =>
                     st !! obj
                     ≫= λ c0 : node, vtouch st obj (px - x (base c0)) (py - y (base c0))
                 | None => Some (st, false)
                 end)
           = Some (st, false))).
  { destruct (scanLayers_target st px py (objects f) Hvalid)
      as [(i & c & n & Hscan & Hi & Hc & Hunder & Hfirst) | [Hscan Hnone]].
    - left. exists i, c, n. repeat split; try assumption.
      rewrite Hscan. cbn [mbind option_bind]. by rewrite Hc.
    - right. split; [assumption |]. by rewrite Hscan. }
  split; [exact Hdispatch |].
  intros a b na nb Ha Hb Hna Hnb Hla Hlb Hunder_a Hunder_b.
  destruct Hdispatch as [(i & c & n & Hi & Hc & Hunder & Hfirst & Hrun) | [Hnone _]].
  - apply list_elem_of_lookup_1 in Hb as [j Hj].
    assert (Hlayer : layer (base n) = LAYER_OVERLAY).
    { destruct (Hfirst j b nb Hj Hnb Hunder_b) as [Hlt | [Heq _]]; [| congruence].
      rewrite Hlb in Hlt. pose proof (layer_index_range (layer (base n))).
      cbn in Hlt. lia. }
    exists c, n. repeat split; try assumption.
    + by apply (list_elem_of_lookup_2 _ i).
    + intros Honly.
      destruct (Honly c (list_elem_of_lookup_2 _ i _ Hi)) as [-> | ->];
        [| reflexivity].
      rewrite Hna in Hc. injection Hc as <-. rewrite Hla in Hlayer. discriminate.
  - rewrite (Hnone b nb Hb Hnb) in Hunder_b. discriminate.
Qed.

Lemma touchEvent_first_hit_witness :
  exists n : node,
    overlappingChildren !! 2%nat = Some n
    /\ layer (base n) = LAYER_OVERLAY
    /\ UiFrame.touchEvent (touchEvent (H := idleApplication) 2)
         overlappingChildren 0%nat 5 5
       = touchEvent (H := idleApplication) 2 overlappingChildren 2%nat
           (5 - x (base n)) (5 - y (base n)).
Proof.
  lookup_node overlappingChildren 0%nat ipattern:(Hframe).
  lookup_node overlappingChildren 1%nat ipattern:(Hlabel).
  lookup_node overlappingChildren 2%nat ipattern:(Hbutton).
  destruct (proj2 (touchEvent_first_hit
                     (touchEvent (H := idleApplication) 2)
                     _ _ _ _ 5 5 Hframe eq_refl) eq_refl) as [_ Hzorder].
  { repeat constructor; eexists; eassumption. }
  destruct (Hzorder 1%nat 2%nat _ _
              (list_elem_of_here _ _)
              (list_elem_of_further _ _ _ (list_elem_of_here _ _))
              Hlabel Hbutton eq_refl eq_refl eq_refl eq_refl)
    as (c & n & _ & Hc & Hlayer & Hrun & Honly).
  assert (c = 2%nat) as ->.
  { apply Honly. intros c' Hin.
    apply elem_of_cons in Hin as [-> | Hin]; [left; reflexivity |].
    apply elem_of_cons in Hin as [-> | Hin]; [right; reflexivity |].
    destruct (not_elem_of_nil c' Hin). }
  exists n. split; [exact Hc |]. split; [exact Hlayer | exact Hrun].
Defined.

(** C4, the claim as stated fails.  [uninitialisedFrame] is a
    default-constructed frame with one child, a visible button whose bounds
    contain the point (5, 5).  Delivered to the button, the touch is
    answered with true; the frame answers false and does not deliver it. *)
Lemma touchEvent_uninitialised_frame :
  (exists (o b : node) (f : UiFrameData),
      uninitialisedFrame !! 0%nat = Some o /\ frameOf (cls o) = Some f
      /\ objects f = [1%nat]
      /\ uninitialisedFrame !! 1%nat = Some b
      /\ UiFrame.underPoint 5 5 (base b) = true
      /\ touchEvent (H := idleApplication) 3 uninitialisedFrame 1%nat
           (5 - x (base b)) (5 - y (base b))
         = Some (uninitialisedFrame, true))
  /\ touchEvent (H := idleApplication) 4 uninitialisedFrame 0%nat 5 5
     = Some (uninitialisedFrame, false).
Proof.
  lookup_node uninitialisedFrame 0%nat ipattern:(Hframe).
  lookup_node uninitialisedFrame 1%nat ipattern:(Hbutton).
  split.
  - do 3 eexists.
    split; [exact Hframe |]. split; [reflexivity |]. split; [reflexivity |].
    split; [exact Hbutton |]. split; [reflexivity |].
    vm_compute. reflexivity.
  - vm_compute. reflexivity.
Qed.

(** ** The modal dialog *)

Section Modal.

Context `{App : Application}.

Lemma touchEvent_unfold (fuel : nat) (st : heap) (p : loc) (px py : Z) :
  touchEvent (S fuel) st p px py
  = (o ← st !! p;
     match cls o with
     | IsLabel _ | IsImage _ | IsHwImage _ => Some (st, false)
     | IsButton _ _ => UiButton.touchEvent (runHandler (expose fuel) fuel) st p px py
     | IsIcon _ _ _ => UiIcon.touchEvent (runHandler (expose fuel) fuel) st p px py
     | IsFrame _ _ | IsModal _ _ _ => UiFrame.touchEvent (touchEvent fuel) st p px py
     | IsManager _ _ _ => UiManager.touchEvent (touchEvent fuel) st p px py
     end).
Proof. reflexivity. Qed.

Lemma recordsExposure_same (n n' : node) :
  parent (base n') = parent (base n) -> frameOf (cls n') = frameOf (cls n) ->
  recordsExposure n' = recordsExposure n.
Proof. intros Hparent Hframe. unfold recordsExposure. by rewrite Hparent, Hframe. Qed.

(** A handler of the modal, run on a visible modal that hangs below a root
    frame whose children record their exposure: it returns true, stores its
    result code and leaves the modal hidden. *)
Lemma press_hides (r : Z) (fuel : nat) (st : heap) (md p : loc) (m o : node)
    (lm : UiLabelData) (fm f : UiFrameData) (dm : UiModalData) :
  st !! md = Some m -> cls m = IsModal lm fm dm -> visible (base m) = true ->
  parent (base m) = Some p -> st !! p = Some o -> parent (base o) = None ->
  frameOf (cls o) = Some f ->
  Forall (fun c => exists n, st !! c = Some n /\ recordsExposure n = true) (objects f) ->
  exists (st' : heap) (m' : node) (dm' : UiModalData),
    UiModal.press r (expose (S (S fuel))) (S (S fuel)) st md = Some (st', true)
    /\ st' !! md = Some m'
    /\ cls m' = IsModal lm fm dm' /\ result dm' = r
    /\ visible (base m') = false /\ visibilityChanged (base m') = true.
Proof.
  intros Hmd Hcls Hvis Hparent Hp Hroot Hf Hall.
  assert (Hne : p <> md).
  { intros ->. rewrite Hmd in Hp. injection Hp as <-. congruence. }
  set (dm' := mkModal r (modal_initialised dm) (titlebar dm) (content dm)
                (closeButton dm) (okButton dm) (cancelButton dm)).
  set (m1 := mkNode (base m) (IsModal lm fm dm')).
  set (m2 := onBase (fun b => set_visibilityChanged true (set_visible false b)) m1).
  set (st1 := <[md := m2]> (<[md := m1]> st)).
  assert (Hp1 : st1 !! p = Some o).
  { unfold st1. by rewrite !lookup_insert_ne. }
  assert (Hmd1 : st1 !! md = Some m2) by apply lookup_insert_eq.
  assert (Hall1 : Forall (fun c => exists n, st1 !! c = Some n /\ recordsExposure n = true)
                    (objects f)).
  { eapply Forall_impl; [exact Hall |].
    intros c (n & Hc & Hrec). unfold st1.
    destruct (decide (md = c)) as [<- | Hne'].
    - rewrite lookup_insert_eq. exists m2. split; [reflexivity |].
      rewrite <- Hrec. rewrite Hmd in Hc. injection Hc as <-.
      apply recordsExposure_same; [reflexivity |].
      unfold m2, m1. cbn. by rewrite Hcls.
    - rewrite !lookup_insert_ne by assumption. by exists n. }
  destruct (expose_distributes fuel st1 p o f (UiObj.getArea (base m1)) Hp1 Hf
              (or_intror Hroot) Hall1) as (st' & Hrun & Hlookup).
  exists st', m2, dm'.
  split.
  - unfold UiModal.press. rewrite Hmd. cbn [mbind option_bind].
    unfold UiModal.setResult. rewrite Hcls. cbn [mbind option_bind].
    fold dm'. fold m1.
    unfold UiObj.hide. rewrite lookup_insert_eq. cbn [mbind option_bind].
    change (visible (base m1)) with (visible (base m)). rewrite Hvis.
    fold m2. fold st1.
    change (UiObj.topLevel (S (S fuel)) st1 md)
      with (o0 ← st1 !! md;
            match parent (base o0) with
            | None => Some md
            | Some q =>
                o1 ← st1 !! q;
                match parent (base o1) with
                | None => Some q
                | Some q' => UiObj.topLevel fuel st1 q'
                end
            end).
    rewrite Hmd1. cbn [mbind option_bind].
    change (parent (base m2)) with (parent (base m)). rewrite Hparent.
    rewrite Hp1. cbn [mbind option_bind]. rewrite Hroot.
    cbn [mbind option_bind].
    rewrite Hrun. reflexivity.
  - rewrite Hlookup, Hmd1.
    assert (Hsame : exposeChild (UiObj.getArea (base m1)) m2 = m2) by reflexivity.
    split.
    + destruct (bool_decide (md ∈ objects f)); [| reflexivity].
      cbn [fmap option_fmap option_map]. by rewrite Hsame.
    + repeat split.
Qed.

(** Whenever a handler of the modal returns on a visible modal, it has
    returned true, stored its result code and hidden the modal. *)
Lemma press_outcome (r : Z) (fuel : nat) (st st' : heap) (md : loc) (m : node)
    (answer : bool) :
  st !! md = Some m -> visible (base m) = true ->
  UiModal.press r (expose fuel) fuel st md = Some (st', answer) ->
  answer = true
  /\ exists (m' : node) (lm : UiLabelData) (fm : UiFrameData) (dm' : UiModalData),
       st' !! md = Some m' /\ cls m' = IsModal lm fm dm'
       /\ result dm' = r /\ visible (base m') = false.
Proof.
  intros Hmd Hvis Hrun.
  unfold UiModal.press in Hrun. rewrite Hmd in Hrun.
  cbn [mbind option_bind] in Hrun.
  unfold UiModal.setResult in Hrun.
  destruct (cls m) as [| | | | lm fm dm | | |] eqn:Hcls; try discriminate.
  cbn [mbind option_bind] in Hrun.
  unfold UiObj.hide in Hrun. rewrite lookup_insert_eq in Hrun.
  cbn [mbind option_bind base] in Hrun. rewrite Hvis in Hrun.
  destruct (UiObj.topLevel fuel _ md) as [top |]; [| discriminate].
  cbn [mbind option_bind] in Hrun.
  destruct (expose fuel _ top _) as [st1 |] eqn:Hexpose; [| discriminate].
  cbn [mbind option_bind] in Hrun. injection Hrun as <- <-.
  split; [reflexivity |].
  apply expose_exposureOnly in Hexpose.
  destruct (exposureOnly_lookup _ _ md _ Hexpose (lookup_insert_eq _ _ _))
    as (m' & Hmd' & Hsame).
  exists m', lm, fm. eexists.
  split; [exact Hmd' |].
  split; [destruct Hsame as [-> _]; reflexivity |].
  split; [reflexivity |].
  by rewrite (sameButExposure_visible _ _ Hsame).
Qed.

(** The modal of a manager under touch.  While the modal is visible: (1) a
    touch that is not strictly inside the bounds of the modal is answered
    with false and the heap stays as it is, so no child has seen it;
    (2) whenever the handler of the OK button, [okPressed], returns, it has
    returned true, set [result] to 0 and left the modal with
    [visible = false]; (3) it does return when the manager is the root, the
    modal hangs below it and the children of the manager record their
    exposure; (4) under the same conditions a touch inside the modal that
    the frame dispatch of the modal hands to the OK button reaches that
    handler through [UiManager::touchEvent], [UiFrame::touchEvent] and
    [UiButton::touchEvent] only if the function pointer [callback] of the
    button is not null, a member that the constructor [createElements]
    uses does not assign. *)
Theorem modal_captures_touch :
  forall (fuel : nat) (st : heap) (p md : loc) (o m : node)
         (l : UiLabelData) (f : UiFrameData) (px py : Z),
    st !! p = Some o -> cls o = IsManager l f (Some md) ->
    st !! md = Some m -> visible (base m) = true ->
    (~ (x (base m) < px < x (base m) + width (base m)
        /\ y (base m) < py < y (base m) + height (base m)) ->
     touchEvent (S fuel) st p px py = Some (st, false))
    /\ (forall (st' : heap) (answer : bool),
           UiModal.okPressed (expose fuel) fuel st md = Some (st', answer) ->
           answer = true
           /\ exists (m' : node) (lm : UiLabelData) (fm : UiFrameData)
                     (dm' : UiModalData),
                st' !! md = Some m' /\ cls m' = IsModal lm fm dm'
                /\ result dm' = 0 /\ visible (base m') = false)
    /\ (forall (lm : UiLabelData) (fm : UiFrameData) (dm : UiModalData),
           cls m = IsModal lm fm dm ->
           parent (base m) = Some p -> parent (base o) = None ->
           Forall (fun c => exists n, st !! c = Some n /\ recordsExposure n = true)
             (objects f) ->
           (exists (st' : heap) (m' : node) (dm' : UiModalData),
               UiModal.okPressed (expose (S (S fuel))) (S (S fuel)) st md
               = Some (st', true)
               /\ st' !! md = Some m' /\ cls m' = IsModal lm fm dm'
               /\ result dm' = 0 /\ visible (base m') = false)
           /\ (forall (b : node) (lb : UiLabelData) (bb : UiButtonData),
                  x (base m) < px < x (base m) + width (base m) ->
                  y (base m) < py < y (base m) + height (base m) ->
                  frame_initialised fm = true ->
                  UiFrame.scanLayers st (px - x (base m)) (py - y (base m))
                    (objects fm) UiFrame.layersDown = Some (Some (okButton dm)) ->
                  st !! okButton dm = Some b -> cls b = IsButton lb bb ->
                  label_initialised lb = true -> callback bb <> None ->
                  useStdFunction bb = true -> stdCallback bb = Some (ModalOk md) ->
                  exists (st' : heap) (m' : node) (dm' : UiModalData),
                    touchEvent (5 + fuel) st p px py = Some (st', true)
                    /\ st' !! md = Some m' /\ cls m' = IsModal lm fm dm'
                    /\ result dm' = 0 /\ visible (base m') = false)).
Proof.
  intros fuel st p md o m l f px py Hp Hcls Hmd Hvis.
  split; [| split].
  - intros Hout.
    rewrite touchEvent_unfold, Hp. cbn [mbind option_bind]. rewrite Hcls.
    unfold UiManager.touchEvent. rewrite Hp. cbn [mbind option_bind].
    rewrite Hcls, Hmd. cbn [mbind option_bind]. rewrite Hvis.
    destruct ((x (base m) <? px) && (px <? x (base m) + width (base m))
              && (y (base m) <? py) && (py <? y (base m) + height (base m)))
      eqn:Hin; [| reflexivity].
    exfalso. apply Hout.
    rewrite !andb_true_iff, !Z.ltb_lt in Hin. lia.
  - intros st' answer Hrun.
    by apply (press_outcome 0 fuel st st' md m answer).
  - intros lm fm dm Hmcls Hparent Hroot Hall.
    assert (Hf : frameOf (cls o) = Some f) by (by rewrite Hcls).
    destruct (press_hides 0 fuel st md p m o lm fm f dm
                Hmd Hmcls Hvis Hparent Hp Hroot Hf Hall)
      as (st' & m' & dm' & Hpress & Hmd' & Hcls' & Hres & Hvis' & _).
    split.
    + by exists st', m', dm'.
    + intros b lb bb Hx Hy Hinit Hscan Hb Hbcls Hlinit Hcb Hstd Hbound.
      exists st', m', dm'.
      split; [| by repeat split].
      change (5 + fuel)%nat with (S (S (S (S (S fuel))))).
      rewrite touchEvent_unfold, Hp. cbn [mbind option_bind]. rewrite Hcls.
      unfold UiManager.touchEvent. rewrite Hp. cbn [mbind option_bind].
      rewrite Hcls, Hmd. cbn [mbind option_bind]. rewrite Hvis.
      replace ((x (base m) <? px) && (px <? x (base m) + width (base m))
               && (y (base m) <? py) && (py <? y (base m) + height (base m)))
        with true.
      2:{ symmetry. rewrite !andb_true_iff, !Z.ltb_lt. lia. }
      rewrite touchEvent_unfold, Hmd. cbn [mbind option_bind]. rewrite Hmcls.
      unfold UiFrame.touchEvent. rewrite Hmd. cbn [mbind option_bind].
      rewrite Hmcls. cbn [frameOf mbind option_bind].
      rewrite Hinit. cbn [negb]. rewrite Hscan. cbn [mbind option_bind].
      rewrite Hb. cbn [mbind option_bind].
      rewrite touchEvent_unfold, Hb. cbn [mbind option_bind]. rewrite Hbcls.
      unfold UiButton.touchEvent. rewrite Hb. cbn [mbind option_bind].
      rewrite Hbcls, Hlinit. cbn [negb orb].
      rewrite bool_decide_eq_false_2 by assumption.
      rewrite Hstd, Hbound. cbn [mbind option_bind runHandler].
      exact Hpress.
Qed.

End Modal.

Lemma ok_touch_unanswered `{Application} (fuel : nat) (st : heap) (p md : loc)
    (o m b : node) (l lm lb : UiLabelData) (f fm : UiFrameData) (dm : UiModalData)
    (bb : UiButtonData) (px py : Z) :
  st !! p = Some o -> cls o = IsManager l f (Some md) ->
  st !! md = Some m -> cls m = IsModal lm fm dm -> visible (base m) = true ->
  x (base m) < px < x (base m) + width (base m) ->
  y (base m) < py < y (base m) + height (base m) ->
  frame_initialised fm = true ->
  UiFrame.scanLayers st (px - x (base m)) (py - y (base m))
    (objects fm) UiFrame.layersDown = Some (Some (okButton dm)) ->
  st !! okButton dm = Some b -> cls b = IsButton lb bb -> callback bb = None ->
  touchEvent (3 + fuel) st p px py = Some (st, false).
Proof.
  intros Hp Hcls Hmd Hmcls Hvis Hx Hy Hinit Hscan Hb Hbcls Hnull.
  change (3 + fuel)%nat with (S (S (S fuel))).
  rewrite touchEvent_unfold, Hp. cbn [mbind option_bind]. rewrite Hcls.
  unfold UiManager.touchEvent. rewrite Hp. cbn [mbind option_bind].
  rewrite Hcls, Hmd. cbn [mbind option_bind]. rewrite Hvis.
  replace ((x (base m) <? px) && (px <? x (base m) + width (base m))
           && (y (base m) <? py) && (py <? y (base m) + height (base m)))
    with true.
  2:{ symmetry. rewrite !andb_true_iff, !Z.ltb_lt. lia. }
  rewrite touchEvent_unfold, Hmd. cbn [mbind option_bind]. rewrite Hmcls.
  unfold UiFrame.touchEvent. rewrite Hmd. cbn [mbind option_bind].
  rewrite Hmcls. cbn [frameOf mbind option_bind].
  rewrite Hinit. cbn [negb]. rewrite Hscan. cbn [mbind option_bind].
  rewrite Hb. cbn [mbind option_bind].
  rewrite touchEvent_unfold, Hb. cbn [mbind option_bind]. rewrite Hbcls.
  unfold UiButton.touchEvent. rewrite Hb. cbn [mbind option_bind].
  rewrite Hbcls, Hnull.
  rewrite bool_decide_eq_true_2 by reflexivity. rewrite orb_true_r. reflexivity.
Qed.

(** C5, the code departs from the claim.  In [zeroedMessageBox] the message
    box is open and the touch at (250, 450) lies inside the modal, on its
    OK button, which [createElements] has bound to [okPressed] through the
    constructor that takes a [std::function].  That constructor does not
    assign the function pointer [callback], and the guard of
    [UiButton::touchEvent] tests just that pointer: the touch is answered
    with false, [okPressed] is not called, and the modal stays visible
    with [result] -1.  The same holds for every manager whose OK button has
    a null [callback], whatever [std::function] it holds. *)
Theorem ok_touch_leaves_modal_open :
  (exists (m b : node) (lm lb : UiLabelData) (fm : UiFrameData) (dm : UiModalData)
          (bb : UiButtonData),
      zeroedMessageBox !! 1%nat = Some m /\ cls m = IsModal lm fm dm
      /\ visible (base m) = true /\ result dm = -1
      /\ x (base m) < 250 < x (base m) + width (base m)
      /\ y (base m) < 450 < y (base m) + height (base m)
      /\ okButton dm = 5%nat
      /\ UiFrame.scanLayers zeroedMessageBox (250 - x (base m)) (450 - y (base m))
           (objects fm) UiFrame.layersDown = Some (Some 5%nat)
      /\ zeroedMessageBox !! 5%nat = Some b /\ cls b = IsButton lb bb
      /\ label_initialised lb = true /\ visible (base b) = true
      /\ useStdFunction bb = true /\ stdCallback bb = Some (ModalOk 1%nat)
      /\ callback bb = None
      /\ forall (A : Application) (fuel : nat),
           touchEvent (3 + fuel) zeroedMessageBox 0%nat 250 450
           = Some (zeroedMessageBox, false))
  /\ (forall (A : Application) (fuel : nat) (st : heap) (p md : loc) (o m b : node)
             (l lm lb : UiLabelData) (f fm : UiFrameData) (dm : UiModalData)
             (bb : UiButtonData) (px py : Z),
         st !! p = Some o -> cls o = IsManager l f (Some md) ->
         st !! md = Some m -> cls m = IsModal lm fm dm -> visible (base m) = true ->
         x (base m) < px < x (base m) + width (base m) ->
         y (base m) < py < y (base m) + height (base m) ->
         frame_initialised fm = true ->
         UiFrame.scanLayers st (px - x (base m)) (py - y (base m))
           (objects fm) UiFrame.layersDown = Some (Some (okButton dm)) ->
         st !! okButton dm = Some b -> cls b = IsButton lb bb ->
         callback bb = None ->
         touchEvent (3 + fuel) st p px py = Some (st, false)).
Proof.
  split.
  - lookup_at zeroedMessageBox 0%nat ipattern:(Hmanager).
    lookup_at zeroedMessageBox 1%nat ipattern:(Hmodal).
    lookup_at zeroedMessageBox 5%nat ipattern:(Hok).
    assert (Hmcls : cls (nodeAt zeroedMessageBox 0%nat)
                    = IsManager (labelAt zeroedMessageBox 0%nat)
                        (frameAt zeroedMessageBox 0%nat) (Some 1%nat))
      by (vm_compute; reflexivity).
    assert (Hdcls : cls (nodeAt zeroedMessageBox 1%nat)
                    = IsModal (labelAt zeroedMessageBox 1%nat)
                        (frameAt zeroedMessageBox 1%nat) (modalAt zeroedMessageBox 1%nat))
      by (vm_compute; reflexivity).
    assert (Hbcls : cls (nodeAt zeroedMessageBox 5%nat)
                    = IsButton (labelAt zeroedMessageBox 5%nat)
                        (buttonAt zeroedMessageBox 5%nat))
      by (vm_compute; reflexivity).
    assert (Hvisible : visible (base (nodeAt zeroedMessageBox 1%nat)) = true)
      by (vm_compute; reflexivity).
    assert (Hx : x (base (nodeAt zeroedMessageBox 1%nat)) < 250
                 < x (base (nodeAt zeroedMessageBox 1%nat))
                   + width (base (nodeAt zeroedMessageBox 1%nat)))
      by (split; apply Z.ltb_lt; vm_compute; reflexivity).
    assert (Hy : y (base (nodeAt zeroedMessageBox 1%nat)) < 450
                 < y (base (nodeAt zeroedMessageBox 1%nat))
                   + height (base (nodeAt zeroedMessageBox 1%nat)))
      by (split; apply Z.ltb_lt; vm_compute; reflexivity).
    assert (Hokat : okButton (modalAt zeroedMessageBox 1%nat) = 5%nat)
      by (vm_compute; reflexivity).
    assert (Hinit : frame_initialised (frameAt zeroedMessageBox 1%nat) = true)
      by (vm_compute; reflexivity).
    assert (Hscan : UiFrame.scanLayers zeroedMessageBox
                      (250 - x (base (nodeAt zeroedMessageBox 1%nat)))
                      (450 - y (base (nodeAt zeroedMessageBox 1%nat)))
                      (objects (frameAt zeroedMessageBox 1%nat)) UiFrame.layersDown
                    = Some (Some 5%nat))
      by (vm_compute; reflexivity).
    assert (Hnull : callback (buttonAt zeroedMessageBox 5%nat) = None)
      by (vm_compute; reflexivity).
    exists (nodeAt zeroedMessageBox 1%nat), (nodeAt zeroedMessageBox 5%nat),
      (labelAt zeroedMessageBox 1%nat), (labelAt zeroedMessageBox 5%nat),
      (frameAt zeroedMessageBox 1%nat), (modalAt zeroedMessageBox 1%nat),
      (buttonAt zeroedMessageBox 5%nat).
    split; [exact Hmodal |]. split; [exact Hdcls |]. split; [exact Hvisible |].
    split; [vm_compute; reflexivity |].
    split; [exact Hx |]. split; [exact Hy |]. split; [exact Hokat |].
    split; [exact Hscan |]. split; [exact Hok |]. split; [exact Hbcls |].
    split; [vm_compute; reflexivity |]. split; [vm_compute; reflexivity |].
    split; [vm_compute; reflexivity |]. split; [vm_compute; reflexivity |].
    split; [exact Hnull |].
    intros A fuel.
    apply (ok_touch_unanswered fuel zeroedMessageBox 0%nat 1%nat
             (nodeAt zeroedMessageBox 0%nat) (nodeAt zeroedMessageBox 1%nat)
             (nodeAt zeroedMessageBox 5%nat)
             (labelAt zeroedMessageBox 0%nat) (labelAt zeroedMessageBox 1%nat)
             (labelAt zeroedMessageBox 5%nat)
             (frameAt zeroedMessageBox 0%nat) (frameAt zeroedMessageBox 1%nat)
             (modalAt zeroedMessageBox 1%nat) (buttonAt zeroedMessageBox 5%nat)
             250 450 Hmanager Hmcls Hmodal Hdcls Hvisible Hx Hy Hinit).
    + rewrite Hokat. exact Hscan.
    + rewrite Hokat. exact Hok.
    + exact Hbcls.
    + exact Hnull.
  - intros A fuel st p md o m b l lm lb f fm dm bb px py.
    apply ok_touch_unanswered.
Qed.

(** ** The update area of a frame *)

Section UpdateArea.

Lemma sameClasses_refl (st : heap) : sameClasses st st.
Proof. by intros q. Qed.

Lemma sameClasses_trans (st1 st2 st3 : heap) :
  sameClasses st1 st2 -> sameClasses st2 st3 -> sameClasses st1 st3.
Proof. intros H12 H23 q. by rewrite H23, H12. Qed.

Lemma sameClasses_onBase (st : heap) (c : loc) (n : node)
    (g : UiObjData -> UiObjData) :
  st !! c = Some n -> sameClasses st (<[c := onBase g n]> st).
Proof.
  intros Hc q. destruct (decide (c = q)) as [<- | Hne].
  - by rewrite lookup_insert_eq, Hc.
  - by rewrite lookup_insert_ne.
Qed.

Lemma sameClasses_lookup (st st' : heap) (q : loc) (n : node) :
  sameClasses st st' -> st !! q = Some n ->
  exists n', st' !! q = Some n' /\ cls n' = cls n.
Proof.
  intros Hsame Hq. specialize (Hsame q). rewrite Hq in Hsame.
  destruct (st' !! q) as [n' |]; [| discriminate].
  exists n'. split; [reflexivity |]. by injection Hsame.
Qed.

Lemma sameClasses_leafChild (st st' : heap) (c : loc) :
  sameClasses st st' -> leafChild st c -> leafChild st' c.
Proof.
  intros Hsame (n & Hc & Hleaf).
  destruct (sameClasses_lookup st st' c n Hsame Hc) as (n' & Hc' & Hcls).
  exists n'. split; [assumption | by rewrite Hcls].
Qed.

Lemma isUpdated_leaf (fuel : nat) (st : heap) (c : loc) :
  leafChild st c -> is_Some (isUpdated (S fuel) st c).
Proof.
  intros (n & Hc & Hleaf).
  cbn [isUpdated]. rewrite Hc. cbn [mbind option_bind].
  destruct (cls n); try discriminate; by eexists.
Qed.

Lemma isObjectChanged_leaf (fuel : nat) (st : heap) (c : loc) :
  leafChild st c -> is_Some (UiFrame.isObjectChanged (isUpdated (S fuel)) st c).
Proof.
  intros Hleaf.
  destruct (isUpdated_leaf fuel st c Hleaf) as [u Hu].
  destruct Hleaf as (n & Hc & _).
  unfold UiFrame.isObjectChanged. rewrite Hc. cbn [mbind option_bind].
  destruct (initialised (base n)); [| by eexists].
  rewrite Hu. by eexists.
Qed.

Lemma anyChanged_leaves (fuel : nat) (st : heap) (objs : list loc) :
  Forall (leafChild st) objs ->
  is_Some (UiFrame.anyChanged (isUpdated (S fuel)) st objs).
Proof.
  induction objs as [| c rest IH]; intros Hall; [by eexists |].
  apply Forall_cons in Hall as [Hc Hrest].
  cbn [UiFrame.anyChanged].
  destruct (isObjectChanged_leaf fuel st c Hc) as [b ->].
  cbn [mbind option_bind]. destruct b; [by eexists | by apply IH].
Qed.

Lemma accumulateLoop_leaves (fuel : nat) (st : heap) (objs : list loc) :
  Forall (leafChild st) objs ->
  forall ua : area,
    is_Some (UiFrame.accumulateLoop (isUpdated (S fuel)) st ua objs).
Proof.
  induction objs as [| c rest IH]; intros Hall ua; [by eexists |].
  apply Forall_cons in Hall as [Hc Hrest].
  cbn [UiFrame.accumulateLoop].
  destruct (isObjectChanged_leaf fuel st c Hc) as [b ->].
  destruct Hc as (n & -> & _).
  cbn [mbind option_bind]. by apply IH.
Qed.

Lemma updateBelowLoop_returns (obj : loc) (objs : list loc) :
  forall st : heap,
    is_Some (st !! obj) -> Forall (fun c => is_Some (st !! c)) objs ->
    exists st' : heap,
      UiFrame.updateBelowLoop st obj objs = Some st' /\ sameClasses st st'.
Proof.
  induction objs as [| c rest IH]; intros st Hobj Hall.
  - exists st. split; [reflexivity | apply sameClasses_refl].
  - apply Forall_cons in Hall as [[n Hc] Hrest].
    destruct Hobj as [o1 Hobj].
    cbn [UiFrame.updateBelowLoop]. rewrite Hobj. cbn [mbind option_bind].
    rewrite Hc. cbn [mbind option_bind].
    destruct (UiFrame.overlaps (base o1) (base n)).
    + pose proof (sameClasses_onBase st c n (set_visibilityChanged true) Hc)
        as Hstep.
      assert (Hobj' : is_Some (<[c := onBase (set_visibilityChanged true) n]> st !! obj)).
      { destruct (sameClasses_lookup _ _ obj o1 Hstep Hobj) as (o1' & -> & _).
        by eexists. }
      assert (Hrest' : Forall (fun c' => is_Some
                          (<[c := onBase (set_visibilityChanged true) n]> st !! c'))
                         rest).
      { eapply Forall_impl; [exact Hrest |].
        intros c' [n' Hc'].
        destruct (sameClasses_lookup _ _ c' n' Hstep Hc') as (n'' & -> & _).
        by eexists. }
      destruct (IH _ Hobj' Hrest') as (st' & Hloop & Hsame).
      exists st'. split; [assumption |].
      exact (sameClasses_trans _ _ _ Hstep Hsame).
    + apply IH; [by eexists | assumption].
Qed.

Lemma hiddenLoop_returns (p : loc) (f : UiFrameData) (objs : list loc) :
  forall st : heap,
    (exists o : node, st !! p = Some o /\ frameOf (cls o) = Some f) ->
    Forall (fun c => is_Some (st !! c)) (objects f) ->
    Forall (fun c => is_Some (st !! c)) objs ->
    exists st' : heap,
      UiFrame.hiddenLoop st p objs = Some st' /\ sameClasses st st'.
Proof.
  induction objs as [| c rest IH]; intros st Hp Hkids Hall.
  - exists st. split; [reflexivity | apply sameClasses_refl].
  - apply Forall_cons in Hall as [[n Hc] Hrest].
    cbn [UiFrame.hiddenLoop]. rewrite Hc. cbn [mbind option_bind].
    destruct (initialised (base n) && visibilityChanged (base n)
              && negb (visible (base n))).
    + destruct Hp as (o & Hp & Hf).
      assert (Hc' : is_Some (st !! c)) by (by eexists).
      destruct (updateBelowLoop_returns c (objects f) st Hc' Hkids)
        as (st1 & Hbelow & Hstep).
      unfold UiFrame.updateBelow. rewrite Hp. cbn [mbind option_bind].
      rewrite Hf. cbn [mbind option_bind]. rewrite Hbelow.
      cbn [mbind option_bind].
      assert (Hp1 : exists o' : node, st1 !! p = Some o' /\ frameOf (cls o') = Some f).
      { destruct (sameClasses_lookup _ _ p o Hstep Hp) as (o' & Hp' & Hcls).
        exists o'. split; [assumption | by rewrite Hcls]. }
      assert (Hkeep : forall cs : list loc,
                 Forall (fun c' => is_Some (st !! c')) cs ->
                 Forall (fun c' => is_Some (st1 !! c')) cs).
      { intros cs Hcs. eapply Forall_impl; [exact Hcs |].
        intros c' [n' Hn'].
        destruct (sameClasses_lookup _ _ c' n' Hstep Hn') as (n'' & -> & _).
        by eexists. }
      destruct (IH st1 Hp1 (Hkeep _ Hkids) (Hkeep _ Hrest)) as (st' & Hloop & Hsame).
      exists st'. split; [assumption |].
      exact (sameClasses_trans _ _ _ Hstep Hsame).
    + by apply IH.
Qed.

(** [getUpdateArea] returns on a frame whose children are allocated
    objects that are not frames themselves. *)
Lemma getUpdateArea_returns (fuel : nat) (st : heap) (p : loc) (o : node)
    (f : UiFrameData) :
  st !! p = Some o -> frameOf (cls o) = Some f ->
  Forall (leafChild st) (objects f) ->
  is_Some (getUpdateArea (S fuel) st p).
Proof.
  intros Hp Hf Hleaves.
  unfold getUpdateArea, UiFrame.getUpdateArea.
  rewrite Hp. cbn [mbind option_bind]. rewrite Hf. cbn [mbind option_bind].
  destruct (frame_initialised f) eqn:Hinit; cbn [negb]; [| by eexists].
  unfold UiFrame.isUpdated. rewrite Hp. cbn [mbind option_bind].
  rewrite Hf. cbn [mbind option_bind]. rewrite Hinit. cbn [negb].
  assert (Hupd : is_Some
            (if itemsChanged f || visibilityChanged (base o) || newParent (base o)
             then Some true
             else UiFrame.anyChanged (isUpdated (S fuel)) st (objects f))).
  { destruct (itemsChanged f || visibilityChanged (base o) || newParent (base o));
      [by eexists | by apply anyChanged_leaves]. }
  destruct Hupd as [u ->]. cbn [mbind option_bind].
  destruct u; cbn [negb]; [| by eexists].
  set (o1 := onBase (set_updateArea (Area.mk (-1) (-1) 0 0)) o).
  pose proof (sameClasses_onBase st p o (set_updateArea (Area.mk (-1) (-1) 0 0)) Hp)
    as Hstep.
  fold o1 in Hstep.
  assert (Hp1 : exists o' : node,
             <[p := o1]> st !! p = Some o' /\ frameOf (cls o') = Some f).
  { exists o1. split; [apply lookup_insert_eq | exact Hf]. }
  assert (Hkids1 : Forall (fun c => is_Some (<[p := o1]> st !! c)) (objects f)).
  { eapply Forall_impl; [exact Hleaves |].
    intros c Hc.
    destruct (sameClasses_leafChild _ _ c Hstep Hc) as (n' & -> & _). by eexists. }
  destruct (hiddenLoop_returns p f (objects f) (<[p := o1]> st) Hp1 Hkids1 Hkids1)
    as (st2 & Hhidden & Hsame).
  rewrite Hhidden. cbn [mbind option_bind].
  destruct (sameClasses_lookup _ _ p o1 Hsame (lookup_insert_eq _ _ _))
    as (o2 & -> & _).
  cbn [mbind option_bind].
  destruct (visibilityChanged (base o2)); [by eexists |].
  assert (Hleaves2 : Forall (leafChild st2) (objects f)).
  { eapply Forall_impl; [exact Hleaves |].
    intros c Hc.
    apply (sameClasses_leafChild _ _ c Hsame).
    by apply (sameClasses_leafChild _ _ c Hstep). }
  destruct (accumulateLoop_leaves fuel st2 (objects f) Hleaves2 (updateArea (base o2)))
    as [acc ->].
  by eexists.
Qed.

Lemma alignWidth_spec (w : Z) :
  UiFrame.alignWidth w = (w + 3) / 4 * 4
  /\ UiFrame.alignWidth w mod 4 = 0
  /\ w <= UiFrame.alignWidth w.
Proof.
  unfold UiFrame.alignWidth.
  rewrite Z.shiftr_div_pow2, Z.shiftl_mul_pow2 by lia.
  change (2 ^ 2) with 4.
  split; [reflexivity |].
  split; [apply Z.mod_mul; lia |].
  pose proof (Z.div_mod (w + 3) 4). pose proof (Z.mod_pos_bound (w + 3) 4). lia.
Qed.

Lemma clampOrigin_width (ua : area) :
  Area.width (UiFrame.clampOrigin ua) = Area.width ua.
Proof.
  unfold UiFrame.clampOrigin.
  by destruct ((Area.x ua <? 0) || (Area.y ua <? 0)).
Qed.

(** The width [getUpdateArea] returns for a frame that draws to hardware.
    The call returns (at least when the children are objects that are not
    frames), and what it returns is one of three things.  When the frame is
    not initialised or reports no update, it is the zero area.  When its
    own [visibilityChanged] flag is set after the first loop, it is the
    whole frame, [{0, 0, width, height}], with the width as it is.
    Otherwise the width is [((w + 3) div 4) * 4], where [w] is the width
    the second loop accumulates over the changed children, starting from
    the heap the first loop leaves; it is divisible by 4 and not smaller
    than [w]. *)
Theorem hw_update_width :
  forall (fuel : nat) (st : heap) (p : loc) (o : node) (f : UiFrameData),
    st !! p = Some o -> frameOf (cls o) = Some f -> hwFrame f = true ->
    (Forall (leafChild st) (objects f) -> is_Some (getUpdateArea (S fuel) st p))
    /\ forall (st' : heap) (ua : area),
         getUpdateArea fuel st p = Some (st', ua) ->
         ((frame_initialised f = false
           \/ UiFrame.isUpdated (isUpdated fuel) st p = Some false)
          /\ ua = Area.zero)
         \/ (frame_initialised f = true
             /\ exists o' : node,
                  st' !! p = Some o' /\ visibilityChanged (base o') = true
                  /\ ua = Area.mk 0 0 (width (base o')) (height (base o')))
         \/ (exists (st2 : heap) (o2 : node) (acc : area),
                UiFrame.hiddenLoop
                  (<[p := onBase (set_updateArea (Area.mk (-1) (-1) 0 0)) o]> st)
                  p (objects f) = Some st2
                /\ st2 !! p = Some o2
                /\ visibilityChanged (base o2) = false
                /\ UiFrame.accumulateLoop (isUpdated fuel) st2
                     (updateArea (base o2)) (objects f) = Some acc
                /\ Area.width ua = (Area.width acc + 3) / 4 * 4
                /\ Area.width ua mod 4 = 0
                /\ Area.width acc <= Area.width ua).
Proof.
  intros fuel st p o f Hp Hf Hhw.
  split; [by apply (getUpdateArea_returns fuel st p o f) |].
  intros st' ua.
  unfold getUpdateArea, UiFrame.getUpdateArea.
  rewrite Hp. cbn [mbind option_bind]. rewrite Hf. cbn [mbind option_bind].
  destruct (frame_initialised f) eqn:Hinit; cbn [negb].
  2:{ intros [= <- <-]. left. split; [by left | reflexivity]. }
  destruct (UiFrame.isUpdated (isUpdated fuel) st p) as [u |]; [| discriminate].
  cbn [mbind option_bind].
  destruct u; cbn [negb].
  2:{ intros [= <- <-]. left. split; [by right | reflexivity]. }
  destruct (UiFrame.hiddenLoop _ p (objects f)) as [st2 |] eqn:Hhidden;
    [| discriminate].
  cbn [mbind option_bind].
  destruct (st2 !! p) as [o2 |] eqn:Hp2; [| discriminate].
  cbn [mbind option_bind].
  destruct (visibilityChanged (base o2)) eqn:Hvc.
  - intros [= <- <-]. right. left. split; [reflexivity |].
    eexists. split; [apply lookup_insert_eq |]. split; [exact Hvc | reflexivity].
  - destruct (UiFrame.accumulateLoop _ st2 _ (objects f)) as [acc |] eqn:Hacc;
      [| discriminate].
    cbn [mbind option_bind]. intros [= <- <-].
    right. right. exists st2, o2, acc.
    split; [reflexivity |]. split; [exact Hp2 |]. split; [exact Hvc |].
    split; [exact Hacc |].
    rewrite Hhw. cbn [UiFrame.alignHw Area.width].
    rewrite clampOrigin_width.
    apply alignWidth_spec.
Qed.

End UpdateArea.

Lemma hw_update_width_witness :
  exists (st' : heap) (ua : area) (acc : area),
    getUpdateArea 1 hwFrameWithLabel 0%nat = Some (st', ua)
    /\ Area.width acc = 5
    /\ Area.width ua = 8.
Proof.
  lookup_node hwFrameWithLabel 0%nat ipattern:(Hframe).
  destruct (hw_update_width 1 hwFrameWithLabel 0%nat _ _ Hframe eq_refl eq_refl)
    as [_ Hwidth].
  destruct (getUpdateArea 1 hwFrameWithLabel 0%nat) as [[st' ua] |] eqn:Hrun;
    [| vm_compute in Hrun; discriminate Hrun].
  destruct (Hwidth st' ua eq_refl)
    as [[[Hnone | Hnone] _] | [Hwhole | (st2 & o2 & acc & Hhidden & Hp2 & _ & Hacc & Hw & _)]].
  - discriminate Hnone.
  - vm_compute in Hnone. discriminate Hnone.
  - exfalso. destruct Hwhole as (_ & o' & Ho' & Hvc & _).
    vm_compute in Hrun. injection Hrun as <- _.
    vm_compute in Ho'. injection Ho' as <-. discriminate Hvc.
  - exists st', ua, acc. split; [reflexivity |].
    vm_compute in Hhidden. injection Hhidden as <-.
    vm_compute in Hp2. injection Hp2 as <-.
    vm_compute in Hacc. injection Hacc as <-.
    split; [reflexivity | exact Hw].
Defined.

(** C6, the code departs from the claim.  [shownHwFrame] is a frame that
    draws to hardware, 10 pixels wide, whose visibility has just changed:
    [getUpdateArea] returns the whole frame, 10 pixels wide, and 10 is
    neither a multiple of 4 nor [((10 + 3) div 4) * 4 = 12].  The return
    for a frame flagged [visibilityChanged] comes before the statement
    that rounds the width, which the source introduces with the words that
    a hardware frame must be a multiple of 4 pixels wide. *)
Lemma hw_update_width_unaligned :
  exists (o : node) (f : UiFrameData) (st' : heap),
    shownHwFrame !! 0%nat = Some o /\ frameOf (cls o) = Some f
    /\ hwFrame f = true
    /\ getUpdateArea 1 shownHwFrame 0%nat = Some (st', Area.mk 0 0 10 5)
    /\ 10 mod 4 <> 0 /\ (10 + 3) / 4 * 4 <> 10.
Proof.
  lookup_node shownHwFrame 0%nat ipattern:(Hframe).
  do 3 eexists.
  split; [exact Hframe |]. split; [reflexivity |]. split; [reflexivity |].
  split; [vm_compute; reflexivity |].
  split; discriminate.
Qed.

(** One step of the accumulation always contains the child it is given;
    what it can lose is a child taken in before. *)
Lemma accumulate_contains_current (ua : area) (c : UiObjData) :
  containsChild (UiFrame.accumulate ua c) c = true.
Proof.
  unfold containsChild, UiFrame.accumulate. cbn [Area.x Area.y Area.width Area.height].
  destruct (Area.x ua =? -1), (Area.y ua =? -1);
    rewrite !andb_true_iff, !Z.leb_le; lia.
Qed.

(** C1, the code departs from the claim.  In [twoLabels] both labels are
    changed children of the frame.  [getUpdateArea] returns [{0, 0, 50, 10}]
    and stores it in [updateArea]: the label at x = 100, 50 wide, ends at
    x = 150 and is not contained.  The width kept from the first child is
    measured from x = 100 and is not extended when the second child moves
    the origin to x = 0. *)
Theorem getUpdateArea_misses_child :
  exists (st' : heap) (ua : area) (c : node),
    getUpdateArea 2 twoLabels 0%nat = Some (st', ua)
    /\ (updateArea ∘ base) <$> st' !! 0%nat = Some ua
    /\ ua = Area.mk 0 0 50 10
    /\ st' !! 1%nat = Some c
    /\ UiFrame.isObjectChanged (isUpdated 2) twoLabels 1%nat = Some true
    /\ UiFrame.isObjectChanged (isUpdated 2) st' 1%nat = Some true
    /\ x (base c) = 100 /\ width (base c) = 50
    /\ containsChild ua (base c) = false.
Proof.
  do 3 eexists.
  split; [vm_compute; reflexivity |].
  split; [vm_compute; reflexivity |].
  split; [reflexivity |].
  split; [vm_compute; reflexivity |].
  split; [vm_compute; reflexivity |].
  split; [vm_compute; reflexivity |].
  repeat split.
Qed.

(** ** Text layout *)




Section LineLimit.

Context `{M : TextMetrics}.

(** The [do ... while] of [lineLimit] returns, having stepped back by at
    least one position and, on a line of two characters or more, not
    beyond the start of the line. *)
Lemma stepBack_returns (txt : string) (lineStart : Z) (fuel : nat) :
  forall lineEnd : Z,
    (Z.to_nat (lineEnd - lineStart) < fuel)%nat ->
    exists e : Z,
      UiLabel.stepBack fuel txt lineStart lineEnd = Some e
      /\ e < lineEnd /\ (lineStart < lineEnd -> lineStart <= e).
Proof.
  induction fuel as [| fuel IH]; intros lineEnd Hfuel; [lia |].
  cbn [UiLabel.stepBack].
  destruct (negb (Ascii.eqb (ArduinoString.charAt txt (lineEnd - 1)) " ")
            && (lineStart <? lineEnd - 1)) eqn:Hgo.
  - apply andb_true_iff in Hgo as [_ Hlt]. apply Z.ltb_lt in Hlt.
    destruct (IH (lineEnd - 1)) as (e & Hrun & Hbelow & Hstart); [lia |].
    exists e. split; [exact Hrun |]. split; lia.
  - exists (lineEnd - 1). split; [reflexivity |]. split; lia.
Qed.

(** The [while (true)] of [lineLimit] returns a position between the start
    of the line and the candidate end. *)
Lemma shrink_returns (t : UiLabel.this_t) (txt : string) (lineStart : Z)
    (fuel : nat) :
  forall lineEnd : Z,
    (Z.to_nat (lineEnd - lineStart) < fuel)%nat ->
    exists e : Z,
      UiLabel.shrink fuel t txt lineStart lineEnd = Some e
      /\ e <= lineEnd /\ (lineStart <= lineEnd -> lineStart <= e).
Proof.
  induction fuel as [| fuel IH]; intros lineEnd Hfuel; [lia |].
  cbn [UiLabel.shrink].
  destruct ((textWidth (ArduinoString.substring txt lineStart lineEnd)
             <=? UiLabel.textAreaWidth t) || (lineEnd - lineStart <=? 1)) eqn:Hstop.
  - exists lineEnd. split; [reflexivity |]. split; lia.
  - apply orb_false_iff in Hstop as [_ Hlong]. apply Z.leb_gt in Hlong.
    destruct (stepBack_returns txt lineStart (S (Z.to_nat (lineEnd - lineStart)))
                lineEnd) as (e1 & Hback & Hbelow & Hstart); [lia |].
    rewrite Hback. cbn [mbind option_bind].
    destruct (IH e1) as (e & Hrun & Hle & Hge); [lia |].
    exists e. split; [exact Hrun |]. split; lia.
Qed.

(** [lineLimit] itself always returns. *)
Lemma lineLimit_returns (t : UiLabel.this_t) (txt : string) (offset : Z) :
  is_Some (UiLabel.lineLimit t txt offset).
Proof.
  unfold UiLabel.lineLimit.
  destruct (shrink_returns t txt offset
              (S (Z.to_nat ((if ArduinoString.indexOf "010" txt =? -1
                             then ArduinoString.length txt
                             else ArduinoString.indexOf "010" txt) - offset)))
              (if ArduinoString.indexOf "010" txt =? -1
               then ArduinoString.length txt
               else ArduinoString.indexOf "010" txt)) as (e & Hrun & _); [lia |].
  rewrite Hrun. by eexists.
Qed.

End LineLimit.

(** C8, the code departs from the claim.  With glyphs 10 wide, the label
    [narrowLabel] has room for 30 pixels and its text "abcdef" has no
    space: [lineLimit] walks back to the start of the line and returns the
    offset it was given, an empty line, so the line start does not advance
    and [drawMultilineText] does not return, whatever the fuel.  The same
    happens at a newline: [lineLimit] looks for the first newline of the
    whole text, not for the next one after the line start, and on the
    second line of [twoLines] it returns the line start again. *)
Theorem lineLimit_stalls :
  UiLabel.textAreaWidth narrowLabel = 30
  /\ textWidth (TextMetrics := fixedPitch 10 14) "abcdef" = 60
  /\ UiLabel.lineLimit (H := fixedPitch 10 14) narrowLabel "abcdef" 0 = Some 0
  /\ (forall fuel : nat,
         UiLabel.drawMultilineText (H := fixedPitch 10 14) fuel narrowLabel = None)
  /\ UiLabel.lineLimit (H := fixedPitch 10 14) twoLineLabel twoLines 0 = Some 2
  /\ UiLabel.lineLimit (H := fixedPitch 10 14) twoLineLabel twoLines 2 = Some 2
  /\ (forall fuel : nat,
         UiLabel.drawMultilineText (H := fixedPitch 10 14) fuel twoLineLabel = None).
Proof.
  assert (Hfirst : UiLabel.lineLimit (H := fixedPitch 10 14) narrowLabel "abcdef" 0
                   = Some 0) by (vm_compute; reflexivity).
  assert (Hline1 : UiLabel.lineLimit (H := fixedPitch 10 14) twoLineLabel twoLines 0
                   = Some 2) by (vm_compute; reflexivity).
  assert (Hline2 : UiLabel.lineLimit (H := fixedPitch 10 14) twoLineLabel twoLines 2
                   = Some 2) by (vm_compute; reflexivity).
  split; [reflexivity |]. split; [reflexivity |]. split; [exact Hfirst |].
  split; [| split; [exact Hline1 | split; [exact Hline2 |]]].
  - unfold UiLabel.drawMultilineText.
    induction fuel as [| fuel IH]; [reflexivity |].
    cbn [UiLabel.drawLines].
    change (text (snd narrowLabel)) with "abcdef".
    change (ArduinoString.to_unsigned 0 <? ArduinoString.length "abcdef") with true.
    cbn match. rewrite Hfirst. cbn [mbind option_bind]. by rewrite IH.
  - unfold UiLabel.drawMultilineText.
    assert (Hstuck : forall fuel : nat,
               UiLabel.drawLines (H := fixedPitch 10 14) fuel twoLineLabel 2 2 = None).
    { induction fuel as [| fuel IH]; [reflexivity |].
      cbn [UiLabel.drawLines].
      change (text (snd twoLineLabel)) with twoLines.
      change (ArduinoString.to_unsigned 2 <? ArduinoString.length twoLines) with true.
      cbn match. rewrite Hline2. cbn [mbind option_bind]. by rewrite IH. }
    intros [| fuel]; [reflexivity |].
    cbn [UiLabel.drawLines].
    change (text (snd twoLineLabel)) with twoLines.
    change (ArduinoString.to_unsigned 0 <? ArduinoString.length twoLines) with true.
    cbn match. rewrite Hline1. cbn [mbind option_bind]. by rewrite Hstuck.
Qed.

(** * Further properties of the code *)

(** ** Rectangles *)

Section Rectangles.

(** X1.  [clip] computes the intersection of two rectangles: the order of
    the arguments does not matter, clipping a rectangle with itself gives
    it back, the variadic overload gives the same result however the
    clipping is nested, and the result starts no further left or up than
    either argument and ends no further right or down. *)
Theorem clip_is_intersection :
  forall a b c : area,
    UiObj.clip a b = UiObj.clip b a
    /\ UiObj.clip a a = a
    /\ UiObj.clipAll a b [c] = UiObj.clip a (UiObj.clip b c)
    /\ (let r := UiObj.clip a b in
        Area.x a <= Area.x r /\ Area.x b <= Area.x r
        /\ Area.y a <= Area.y r /\ Area.y b <= Area.y r
        /\ Area.x r + Area.width r <= Area.x a + Area.width a
        /\ Area.x r + Area.width r <= Area.x b + Area.width b
        /\ Area.y r + Area.height r <= Area.y a + Area.height a
        /\ Area.y r + Area.height r <= Area.y b + Area.height b).
Proof.
  intros [ax ay aw ah] [bx by' bw bh] [cx cy cw ch].
  unfold UiObj.clipAll, UiObj.clip. cbn.
  repeat split; try lia; f_equal; lia.
Qed.

(** X2.  [clip] does not clamp: for two rectangles of non-negative size the
    width of the result is negative exactly when one of them lies
    strictly to the right of the other, and the height is negative exactly
    when one lies strictly below the other.  The variadic overload reports
    a negative size as soon as two of three rectangles are apart
    horizontally. *)
Theorem clip_of_disjoint_is_negative :
  forall a b : area,
    0 <= Area.width a -> 0 <= Area.width b ->
    0 <= Area.height a -> 0 <= Area.height b ->
    (Area.width (UiObj.clip a b) < 0
     <-> (Area.x a + Area.width a < Area.x b \/ Area.x b + Area.width b < Area.x a))
    /\ (Area.height (UiObj.clip a b) < 0
        <-> (Area.y a + Area.height a < Area.y b
             \/ Area.y b + Area.height b < Area.y a))
    /\ (forall c : area,
           0 <= Area.width c ->
           Area.x a + Area.width a < Area.x b \/ Area.x a + Area.width a < Area.x c
           \/ Area.x b + Area.width b < Area.x c ->
           Area.width (UiObj.clipAll a b [c]) < 0).
Proof.
  intros [ax ay aw ah] [bx by' bw bh]. cbn. intros Haw Hbw Hah Hbh.
  split; [lia |]. split; [lia |].
  intros [cx cy cw ch]. cbn. lia.
Qed.

Lemma clip_of_disjoint_is_negative_witness :
  Area.width (UiObj.clip (Area.mk 0 0 10 10) (Area.mk 20 0 10 10)) < 0
  <-> (0 + 10 < 20 \/ 20 + 10 < 0).
Proof.
  apply (clip_of_disjoint_is_negative (Area.mk 0 0 10 10) (Area.mk 20 0 10 10));
    cbn; lia.
Defined.

Lemma overlapOf_sym (a b : area) : UiObj.overlapOf a b = UiObj.overlapOf b a.
Proof.
  destruct a as [ax ay aw ah], b as [bx by' bw bh]. unfold UiObj.overlapOf. cbn.
  destruct (Z.ltb_spec (ax + aw) bx), (Z.ltb_spec (bx + bw) ax),
    (Z.ltb_spec (ay + ah) by'), (Z.ltb_spec (by' + bh) ay);
    cbn; try reflexivity; f_equal; lia.
Qed.

Lemma getAbsolutePos_size (fuel : nat) (st : heap) (p : loc) (n : node) (a : area) :
  st !! p = Some n -> UiObj.getAbsolutePos fuel st p = Some a ->
  Area.width a = width (base n) /\ Area.height a = height (base n).
Proof.
  intros Hp. destruct fuel as [| fuel]; [discriminate |].
  cbn [UiObj.getAbsolutePos]. rewrite Hp. cbn [mbind option_bind].
  destruct (parent (base n)) as [q |].
  - destruct (UiObj.getAbsolutePos fuel st q) as [pa |]; [| discriminate].
    cbn [mbind option_bind]. intros [= <-]. split; reflexivity.
  - intros [= <-]. split; reflexivity.
Qed.

Lemma overlapOf_size (a b : area) :
  0 <= Area.width a -> 0 <= Area.width b ->
  0 <= Area.height a -> 0 <= Area.height b ->
  0 <= Area.width (UiObj.overlapOf a b) /\ 0 <= Area.height (UiObj.overlapOf a b).
Proof.
  destruct a as [ax ay aw ah], b as [bx by' bw bh]. cbn. intros Haw Hbw Hah Hbh.
  unfold UiObj.overlapOf. cbn.
  destruct (Z.ltb_spec (ax + aw) bx), (Z.ltb_spec (bx + bw) ax),
    (Z.ltb_spec (ay + ah) by'), (Z.ltb_spec (by' + bh) ay); cbn; lia.
Qed.

Lemma overlapOf_shifted (o1 o2 : UiObjData) (dx dy : Z) :
  UiObj.overlapOf
    (Area.mk (x o1 + dx) (y o1 + dy) (width o1) (height o1))
    (Area.mk (x o2 + dx) (y o2 + dy) (width o2) (height o2))
  = if UiFrame.overlaps o1 o2
    then Area.mk (Area.x (UiObj.clip (UiObj.getArea o1) (UiObj.getArea o2)) + dx)
           (Area.y (UiObj.clip (UiObj.getArea o1) (UiObj.getArea o2)) + dy)
           (Area.width (UiObj.clip (UiObj.getArea o1) (UiObj.getArea o2)))
           (Area.height (UiObj.clip (UiObj.getArea o1) (UiObj.getArea o2)))
    else Area.zero.
Proof.
  unfold UiObj.overlapOf, UiFrame.overlaps, UiObj.clip, UiObj.getArea.
  cbn [Area.x Area.y Area.width Area.height].
  replace (x o1 + dx + width o1 <? x o2 + dx) with (x o1 + width o1 <? x o2)
    by (destruct (Z.ltb_spec (x o1 + width o1) (x o2)),
          (Z.ltb_spec (x o1 + dx + width o1) (x o2 + dx)); lia || reflexivity).
  replace (x o2 + dx + width o2 <? x o1 + dx) with (x o2 + width o2 <? x o1)
    by (destruct (Z.ltb_spec (x o2 + width o2) (x o1)),
          (Z.ltb_spec (x o2 + dx + width o2) (x o1 + dx)); lia || reflexivity).
  replace (y o1 + dy + height o1 <? y o2 + dy) with (y o1 + height o1 <? y o2)
    by (destruct (Z.ltb_spec (y o1 + height o1) (y o2)),
          (Z.ltb_spec (y o1 + dy + height o1) (y o2 + dy)); lia || reflexivity).
  replace (y o2 + dy + height o2 <? y o1 + dy) with (y o2 + height o2 <? y o1)
    by (destruct (Z.ltb_spec (y o2 + height o2) (y o1)),
          (Z.ltb_spec (y o2 + dy + height o2) (y o1 + dy)); lia || reflexivity).
  destruct (_ || _ || _ || _); cbn [negb]; [reflexivity |].
  f_equal; lia.
Qed.

(** X3.  [overlap(otherObj)] compares the positions of the two objects on
    the screen, as [getAbsolutePos] gives them.  It does not depend on which
    of the two objects it is called on.  For two objects of the same
    container, or two without container, it agrees with the test [overlaps]
    of [UiFrame] on their bounds: where that test fails the result is the
    zero area, where it succeeds the result is the intersection [clip]
    computes of the bounds, moved by the position of the container on the
    screen.  For objects of non-negative size, neither the width nor the
    height of the result is negative. *)
Theorem overlap_symmetric :
  (forall (fuel : nat) (st : heap) (p q : loc),
      UiObj.overlap fuel st p q = UiObj.overlap fuel st q p)
  /\ (forall (fuel : nat) (st : heap) (p q : loc) (n1 n2 : node) (origin : area),
         st !! p = Some n1 -> st !! q = Some n2 ->
         parent (base n1) = parent (base n2) ->
         match parent (base n1) with
         | Some r => UiObj.getAbsolutePos fuel st r = Some origin
         | None => origin = Area.zero
         end ->
         UiObj.overlap (S fuel) st p q
         = Some (if UiFrame.overlaps (base n1) (base n2)
                 then
                   let c := UiObj.clip (UiObj.getArea (base n1))
                              (UiObj.getArea (base n2)) in
                   Area.mk (Area.x c + Area.x origin) (Area.y c + Area.y origin)
                     (Area.width c) (Area.height c)
                 else Area.zero))
  /\ (forall (fuel : nat) (st : heap) (p q : loc) (n1 n2 : node) (a : area),
         st !! p = Some n1 -> st !! q = Some n2 ->
         0 <= width (base n1) -> 0 <= width (base n2) ->
         0 <= height (base n1) -> 0 <= height (base n2) ->
         UiObj.overlap fuel st p q = Some a ->
         0 <= Area.width a /\ 0 <= Area.height a).
Proof.
  split; [| split].
  - intros fuel st p q. unfold UiObj.overlap.
    destruct (UiObj.getAbsolutePos fuel st p) as [a |],
      (UiObj.getAbsolutePos fuel st q) as [b |]; cbn; try reflexivity.
    by rewrite overlapOf_sym.
  - intros fuel st p q n1 n2 origin Hp Hq Hsame Horigin.
    unfold UiObj.overlap. cbn [UiObj.getAbsolutePos].
    rewrite Hp, Hq. cbn [mbind option_bind]. rewrite <- Hsame.
    destruct (parent (base n1)) as [r |].
    + rewrite Horigin. cbn [mbind option_bind]. f_equal.
      apply overlapOf_shifted.
    + subst origin. cbn [mbind option_bind]. f_equal.
      pose proof (overlapOf_shifted (base n1) (base n2) 0 0) as Hshift.
      unfold UiObj.getArea at 1 2.
      replace (x (base n1)) with (x (base n1) + 0) at 1 by lia.
      replace (y (base n1)) with (y (base n1) + 0) at 1 by lia.
      replace (x (base n2)) with (x (base n2) + 0) at 1 by lia.
      replace (y (base n2)) with (y (base n2) + 0) at 1 by lia.
      exact Hshift.
  - intros fuel st p q n1 n2 a Hp Hq Hw1 Hw2 Hh1 Hh2. unfold UiObj.overlap.
    destruct (UiObj.getAbsolutePos fuel st p) as [a1 |] eqn:Ha1; [| discriminate].
    destruct (UiObj.getAbsolutePos fuel st q) as [a2 |] eqn:Ha2; [| discriminate].
    cbn [mbind option_bind]. intros [= <-].
    destruct (getAbsolutePos_size fuel st p n1 a1 Hp Ha1) as [Hwa Hha].
    destruct (getAbsolutePos_size fuel st q n2 a2 Hq Ha2) as [Hwb Hhb].
    apply overlapOf_size; lia.
Qed.

Lemma overlap_symmetric_witness :
  UiObj.overlap 3 offsetSiblings 2%nat 3%nat = Some (Area.mk 30 15 20 15).
Proof.
  lookup_at offsetSiblings 2%nat ipattern:(Hfirst).
  lookup_at offsetSiblings 3%nat ipattern:(Hsecond).
  assert (Hsame : parent (base (nodeAt offsetSiblings 2%nat))
                  = parent (base (nodeAt offsetSiblings 3%nat)))
    by (vm_compute; reflexivity).
  assert (Horigin : match parent (base (nodeAt offsetSiblings 2%nat)) with
                    | Some r => UiObj.getAbsolutePos 2 offsetSiblings r
                                = Some (Area.mk 20 10 100 50)
                    | None => Area.mk 20 10 100 50 = Area.zero
                    end)
    by (vm_compute; reflexivity).
  rewrite (proj1 (proj2 overlap_symmetric) 2%nat offsetSiblings 2%nat 3%nat _ _ _
             Hfirst Hsecond Hsame Horigin).
  vm_compute. reflexivity.
Defined.

(** X4.  [within] is the containment test [withinArea] of [UiFrame] with
    one more condition, that the corner of the area lies strictly inside
    the object; so an object without extent contains no area.  An area
    that is within the object is what [clip] returns for it and, if its
    size is not negative and the object has no container, what
    [overlap(area)] returns for it.  ([overlap] compares with the position
    of the object on the screen, [within] with its position in its
    container.) *)
Theorem within_contains :
  forall (o c : UiObjData),
    UiObj.within o (UiObj.getArea c)
    = UiFrame.withinArea (UiObj.getArea o) c
      && (x c <? x o + width o) && (y c <? y o + height o)
    /\ (UiObj.within o (UiObj.getArea c) = true ->
        0 < width o /\ 0 < height o
        /\ UiObj.clip (UiObj.getArea o) (UiObj.getArea c) = UiObj.getArea c
        /\ (0 <= width c -> 0 <= height c ->
            forall (fuel : nat) (st : heap) (p : loc) (n : node),
              st !! p = Some n -> base n = o -> parent o = None ->
              UiObj.overlapArea (S fuel) st p (UiObj.getArea c)
              = Some (UiObj.getArea c))).
Proof.
  intros o c. unfold UiObj.within, UiFrame.withinArea, UiObj.clip, UiObj.getArea.
  cbn [Area.x Area.y Area.width Area.height].
  destruct (Z.leb_spec (x o) (x c)), (Z.ltb_spec (x c) (x o + width o)),
    (Z.leb_spec (y o) (y c)), (Z.ltb_spec (y c) (y o + height o)),
    (Z.leb_spec (x c + width c) (x o + width o)),
    (Z.leb_spec (y c + height c) (y o + height o));
    cbn; (split; [reflexivity |]); try discriminate.
  intros _. split; [lia |]. split; [lia |]. split; [f_equal; lia |].
  intros Hw Hh fuel st p n Hp Hbase Hroot.
  unfold UiObj.overlapArea. cbn [UiObj.getAbsolutePos].
  rewrite Hp. cbn [mbind option_bind]. rewrite Hbase, Hroot.
  cbn [mbind option_bind]. f_equal.
  unfold UiObj.overlapOf, UiObj.getArea. cbn [Area.x Area.y Area.width Area.height].
  destruct (Z.ltb_spec (x o + width o) (x c)); [lia |].
  destruct (Z.ltb_spec (x c + width c) (x o)); [lia |].
  destruct (Z.ltb_spec (y o + height o) (y c)); [lia |].
  destruct (Z.ltb_spec (y c + height c) (y o)); [lia |].
  cbn. f_equal; lia.
Qed.

Lemma within_contains_witness :
  UiObj.overlapArea 1 hwFrameWithLabel 0%nat (Area.mk 2 1 5 2) = Some (Area.mk 2 1 5 2).
Proof.
  lookup_at hwFrameWithLabel 0%nat ipattern:(Hframe).
  lookup_at hwFrameWithLabel 1%nat ipattern:(Hlabel).
  assert (Harea : UiObj.getArea (base (nodeAt hwFrameWithLabel 1%nat)) = Area.mk 2 1 5 2)
    by (vm_compute; reflexivity).
  rewrite <- Harea.
  apply (proj2 (proj2 (proj2 (proj2 (within_contains
                                       (base (nodeAt hwFrameWithLabel 0%nat))
                                       (base (nodeAt hwFrameWithLabel 1%nat)))
                                ltac:(vm_compute; reflexivity))))
           ltac:(vm_compute; discriminate) ltac:(vm_compute; discriminate)
           0%nat hwFrameWithLabel 0%nat _ Hframe eq_refl).
  vm_compute. reflexivity.
Defined.

End Rectangles.

(** ** Positions on the screen *)

Section Positions.

Lemma ancestry_nonempty (st : heap) (p : loc) (path : list node) :
  ancestry st p path -> exists o rest, path = o :: rest /\ st !! p = Some o.
Proof. intros H. destruct H; eauto. Qed.

Lemma last_cons_default (l : list node) :
  forall a d : node, List.last (a :: l) d = List.last l a.
Proof.
  induction l as [| b l IH]; intros a d; [reflexivity |].
  change (List.last (a :: b :: l) d) with (List.last (b :: l) d).
  by rewrite (IH b d), (IH b a).
Qed.

(** X5.  The absolute position of an object is the sum of its own offset
    and the offsets of all its containers, with the size of the object
    itself; the walk up the containers ends at the last object of the
    chain, which is what [topLevel] returns.  For a child of an object
    without a container, [offsetToParent] gives the same area. *)
Theorem absolute_position_is_sum_of_offsets :
  forall (st : heap) (p : loc) (o : node) (rest : list node),
    ancestry st p (o :: rest) ->
    forall fuel : nat,
      (length rest < fuel)%nat ->
      UiObj.getAbsolutePos fuel st p
      = Some (Area.mk (sumX (o :: rest)) (sumY (o :: rest))
                (width (base o)) (height (base o)))
      /\ (exists top : loc,
             UiObj.topLevel fuel st p = Some top
             /\ st !! top = Some (List.last rest o))
      /\ ((length rest <= 1)%nat ->
          UiObj.offsetToParent st p = UiObj.getAbsolutePos fuel st p).
Proof.
  intros st p o rest Hchain.
  remember (o :: rest) as path eqn:Hpath.
  revert o rest Hpath.
  induction Hchain as [p o Hp Hroot | p q o tail Hp Hparent Hchain IH];
    intros o' rest' Hpath fuel Hfuel; injection Hpath as <- <-.
  - destruct fuel as [| fuel]; [cbn in Hfuel; lia |].
    cbn [UiObj.getAbsolutePos UiObj.topLevel]. rewrite Hp. cbn [mbind option_bind].
    rewrite Hroot. unfold UiObj.offsetToParent. rewrite Hp. cbn [mbind option_bind].
    rewrite Hroot. unfold sumX, sumY, UiObj.getArea. cbn.
    split; [f_equal; f_equal; lia |]. split; [by exists p |].
    intros _. f_equal; f_equal; lia.
  - destruct fuel as [| fuel]; [cbn in Hfuel; lia |].
    destruct (ancestry_nonempty _ _ _ Hchain) as (po & tail' & -> & Hq).
    cbn [length] in Hfuel.
    assert (Hless : (length tail' < fuel)%nat) by lia.
    destruct (IH po tail' eq_refl fuel Hless) as (Habs & (top & Htop & Hlast) & Hoff).
    cbn [UiObj.getAbsolutePos UiObj.topLevel]. rewrite Hp. cbn [mbind option_bind].
    rewrite Hparent, Habs. cbn [mbind option_bind].
    split; [reflexivity |]. split.
    + exists top. split; [exact Htop |]. by rewrite last_cons_default.
    + intros Hshort. destruct tail' as [| ? ?]; [| cbn in Hshort; lia].
      unfold UiObj.offsetToParent. rewrite Hp. cbn [mbind option_bind].
      rewrite Hparent, Hq. cbn [mbind option_bind].
      unfold sumX, sumY, UiObj.getArea. cbn. f_equal; f_equal; lia.
Qed.

End Positions.

Lemma absolute_position_is_sum_of_offsets_witness :
  UiObj.getAbsolutePos 2 hwFrameWithLabel 1%nat = Some (Area.mk 2 1 5 2).
Proof.
  lookup_node hwFrameWithLabel 1%nat ipattern:(Hlabel).
  lookup_node hwFrameWithLabel 0%nat ipattern:(Hframe).
  match type of Hlabel with
  | _ = Some ?l =>
      match type of Hframe with
      | _ = Some ?f =>
          exact (proj1 (absolute_position_is_sum_of_offsets hwFrameWithLabel 1%nat l [f]
                          (ancestry_child _ 1%nat 0%nat l [f] Hlabel eq_refl
                             (ancestry_root _ 0%nat f Hframe eq_refl))
                          2%nat (le_n 2)))
      end
  end.
Defined.

(** ** Containers *)

Section Containers.

Lemma frameOf_withFrame (c : UiClass) (f f' : UiFrameData) :
  frameOf c = Some f -> frameOf (withFrame f' c) = Some f'.
Proof. destruct c; cbn; intros H; try discriminate; reflexivity. Qed.

Lemma withFrame_withFrame (c : UiClass) (f1 f2 : UiFrameData) :
  withFrame f2 (withFrame f1 c) = withFrame f2 c.
Proof. by destruct c. Qed.

Lemma isUpdated_frame_unfold (fuel : nat) (st : heap) (p : loc) (o : node)
    (f : UiFrameData) :
  st !! p = Some o -> frameOf (cls o) = Some f ->
  isUpdated (S fuel) st p = UiFrame.isUpdated (isUpdated fuel) st p.
Proof.
  intros Hp Hf. cbn [isUpdated]. rewrite Hp. cbn [mbind option_bind].
  destruct (cls o); try discriminate; reflexivity.
Qed.

Lemma isUpdated_leaf_value (fuel : nat) (st : heap) (c : loc) (n : node) :
  st !! c = Some n -> frameOf (cls n) = None ->
  exists u : bool,
    isUpdated (S fuel) st c = Some u /\ (u = true -> updated (base n) = true).
Proof.
  intros Hc Hleaf. cbn [isUpdated]. rewrite Hc. cbn [mbind option_bind].
  destruct (cls n); try discriminate; eauto.
  exists false. split; [reflexivity | discriminate].
Qed.

(** X6.  [add(obj)] appends the object to the children of the frame, makes
    the frame its container and flags both: the frame reports an update
    from then on (if it is initialised), and the new child counts as
    changed whatever its own flags say, even if it is invisible.  No other
    object is touched; in particular a frame that held the object before
    still lists it. *)
Theorem add_attaches_child :
  forall (fuel : nat) (st : heap) (p obj : loc) (o c : node) (f : UiFrameData),
    st !! p = Some o -> frameOf (cls o) = Some f -> st !! obj = Some c ->
    obj <> p ->
    exists (st' : heap) (o' : node) (f' : UiFrameData),
      UiFrame.add st p obj = Some st'
      /\ st' !! p = Some o' /\ base o' = base o /\ frameOf (cls o') = Some f'
      /\ objects f' = objects f ++ [obj] /\ itemsChanged f' = true
      /\ frame_initialised f' = frame_initialised f /\ hwFrame f' = hwFrame f
      /\ st' !! obj = Some (onBase (UiObj.setParent (Some p)) c)
      /\ (forall q : loc, q <> p -> q <> obj -> st' !! q = st !! q)
      /\ (frame_initialised f = true -> isUpdated (S fuel) st' p = Some true)
      /\ (initialised (base c) = true -> frameOf (cls c) = None ->
          UiFrame.isObjectChanged (isUpdated (S fuel)) st' obj = Some true).
Proof.
  intros fuel st p obj o c f Hp Hf Hobj Hne.
  set (f1 := mkFrame (objects f ++ [obj]) (frame_initialised f) (hwFrame f)
               (itemsChanged f) (backgroundColour f)).
  set (f2 := mkFrame (objects f ++ [obj]) (frame_initialised f) (hwFrame f)
               true (backgroundColour f)).
  set (c' := onBase (UiObj.setParent (Some p)) c).
  set (o' := mkNode (base o) (withFrame f2 (cls o))).
  set (st' := <[p := o']> (<[obj := c']> (<[p := mkNode (base o) (withFrame f1 (cls o))]> st))).
  assert (Hadd : UiFrame.add st p obj = Some st').
  { unfold UiFrame.add. rewrite Hp. cbn [mbind option_bind]. rewrite Hf.
    cbn [mbind option_bind]. fold f1.
    rewrite lookup_insert_ne by congruence. rewrite Hobj. cbn [mbind option_bind].
    fold c'. rewrite lookup_insert_ne by congruence. rewrite lookup_insert_eq.
    cbn [mbind option_bind base cls].
    rewrite (frameOf_withFrame _ _ f1 Hf). cbn [mbind option_bind].
    by rewrite withFrame_withFrame. }
  assert (Hp' : st' !! p = Some o') by (unfold st'; by rewrite lookup_insert_eq).
  assert (Hobj' : st' !! obj = Some c').
  { unfold st'. rewrite lookup_insert_ne by congruence. by rewrite lookup_insert_eq. }
  assert (Hf' : frameOf (cls o') = Some f2) by exact (frameOf_withFrame _ _ f2 Hf).
  exists st', o', f2. repeat split; try assumption; try reflexivity.
  - intros q Hqp Hqo. unfold st'. by rewrite !lookup_insert_ne by congruence.
  - intros Hinit. rewrite (isUpdated_frame_unfold fuel st' p o' f2 Hp' Hf').
    unfold UiFrame.isUpdated. rewrite Hp'. cbn [mbind option_bind]. rewrite Hf'.
    cbn [mbind option_bind]. unfold f2. cbn [frame_initialised itemsChanged].
    by rewrite Hinit.
  - intros Hinit Hleaf. unfold UiFrame.isObjectChanged. rewrite Hobj'.
    cbn [mbind option_bind]. change (initialised (base c')) with (initialised (base c)).
    rewrite Hinit.
    destruct (isUpdated_leaf_value fuel st' obj c' Hobj' Hleaf) as (u & -> & _).
    cbn [mbind option_bind]. f_equal. apply orb_true_r.
Qed.

Lemma add_attaches_child_witness :
  exists st' : heap,
    UiFrame.add hwFrameWithLabel 0%nat 1%nat = Some st'
    /\ (objects ∘ frameAt st') 0%nat = [1%nat; 1%nat].
Proof.
  lookup_node hwFrameWithLabel 1%nat ipattern:(Hlabel).
  lookup_node hwFrameWithLabel 0%nat ipattern:(Hframe).
  match type of Hlabel with
  | _ = Some ?l =>
      match type of Hframe with
      | _ = Some (mkNode ?b (IsFrame ?lf ?f)) =>
          destruct (add_attaches_child 0 hwFrameWithLabel 0%nat 1%nat
                      (mkNode b (IsFrame lf f)) l f Hframe eq_refl Hlabel
                      ltac:(discriminate))
            as (st' & o' & f' & Hadd & Hp & _ & Hf' & Hobjects & _)
      end
  end.
  exists st'. split; [exact Hadd |].
  unfold frameAt, nodeAt, compose. rewrite Hp. cbn [default from_option id].
  rewrite Hf'. exact Hobjects.
Defined.

Lemma resetStatus_idemp (o : UiObjData) :
  UiObj.resetStatus (UiObj.resetStatus o) = UiObj.resetStatus o.
Proof. destruct o as [? ? ? ? ? ? ? ? ? ? ? ? ? ? [] ? ? ?]; reflexivity. Qed.

Lemma resetStatus_leaf (fuel : nat) (st : heap) (c : loc) (n : node) :
  st !! c = Some n -> frameOf (cls n) = None ->
  resetStatus (S fuel) st c = Some (<[c := onBase UiObj.resetStatus n]> st).
Proof.
  intros Hc Hleaf. cbn [resetStatus]. rewrite Hc. cbn [mbind option_bind].
  destruct (cls n); try discriminate; reflexivity.
Qed.

(** The loop of [resetStatus] over children that are not frames: it
    returns, and the children of the list are the objects it has reset. *)
Lemma resetLoop_leaves (fuel : nat) :
  forall (objs : list loc) (st : heap),
    Forall (leafChild st) objs ->
    exists st' : heap,
      UiFrame.resetLoop (resetStatus (S fuel)) st objs = Some st'
      /\ forall q : loc,
           st' !! q = if bool_decide (q ∈ objs)
                      then onBase UiObj.resetStatus <$> st !! q else st !! q.
Proof.
  induction objs as [| c rest IH]; intros st Hall.
  - exists st. split; [reflexivity |].
    intros q. by rewrite bool_decide_eq_false_2 by apply not_elem_of_nil.
  - apply Forall_cons in Hall as [(n & Hc & Hleaf) Hrest].
    set (st1 := <[c := onBase UiObj.resetStatus n]> st).
    assert (Hrest1 : Forall (leafChild st1) rest).
    { eapply Forall_impl; [exact Hrest |].
      intros c' Hleaf'.
      exact (sameClasses_leafChild st st1 c'
               (sameClasses_onBase st c n UiObj.resetStatus Hc) Hleaf'). }
    destruct (IH st1 Hrest1) as (st' & Hloop & Hlookup).
    exists st'. split.
    { cbn [UiFrame.resetLoop]. rewrite (resetStatus_leaf fuel st c n Hc Hleaf).
      cbn [mbind option_bind]. exact Hloop. }
    intros q. rewrite Hlookup. unfold st1.
    destruct (decide (c = q)) as [<- | Hne].
    + rewrite lookup_insert_eq, Hc.
      rewrite (bool_decide_eq_true_2 (c ∈ c :: rest)) by apply list_elem_of_here.
      destruct (bool_decide (c ∈ rest)); cbn [fmap option_fmap option_map];
        [| reflexivity].
      f_equal. unfold onBase. cbn [base cls]. by rewrite resetStatus_idemp.
    + rewrite lookup_insert_ne by assumption.
      destruct (decide (q ∈ rest)) as [Hin | Hout].
      * rewrite !bool_decide_eq_true_2; [reflexivity | by right | assumption].
      * rewrite !bool_decide_eq_false_2; [reflexivity | | assumption].
        intros Hin. apply elem_of_cons in Hin as [-> | Hin];
          [by destruct Hne | by destruct Hout].
Qed.

Lemma anyChanged_none (vis : heap -> loc -> option bool) (st : heap) :
  forall objs : list loc,
    Forall (fun c => UiFrame.isObjectChanged vis st c = Some false) objs ->
    UiFrame.anyChanged vis st objs = Some false.
Proof.
  induction objs as [| c rest IH]; intros Hall; [reflexivity |].
  apply Forall_cons in Hall as [Hc Hrest].
  cbn [UiFrame.anyChanged]. rewrite Hc. cbn [mbind option_bind]. by apply IH.
Qed.

(** X7.  [resetStatus] on a frame whose children are not frames returns;
    it resets the frame and every child it lists, and nothing else.  If the
    frame has been drawn, and every child has been drawn or had nothing to
    show (not updated, or invisible), the frame reports no update
    afterwards and its update area is empty: a pass that follows a
    completed one has nothing to redraw. *)
Theorem resetStatus_clears_changes :
  forall (fuel : nat) (st : heap) (p : loc) (o : node) (f : UiFrameData),
    st !! p = Some o -> frameOf (cls o) = Some f ->
    Forall (leafChild st) (objects f) ->
    exists (st' : heap) (o' : node) (f' : UiFrameData),
      resetStatus (S (S fuel)) st p = Some st'
      /\ st' !! p = Some o' /\ base o' = UiObj.resetStatus (base o)
      /\ frameOf (cls o') = Some f' /\ objects f' = objects f
      /\ itemsChanged f' = (if drawn (base o) then false else itemsChanged f)
      /\ (forall q : loc,
             q <> p ->
             st' !! q = if bool_decide (q ∈ objects f)
                        then onBase UiObj.resetStatus <$> st !! q else st !! q)
      /\ (drawn (base o) = true ->
          Forall (fun c => forall n : node,
                      st !! c = Some n ->
                      drawn (base n) = true \/ updated (base n) = false
                      \/ visible (base n) = false) (objects f) ->
          isUpdated (S (S fuel)) st' p = Some false
          /\ exists st'' : heap,
               getUpdateArea (S fuel) st' p = Some (st'', Area.zero)).
Proof.
  intros fuel st p o f Hp Hf Hleaves.
  set (f1 := if drawn (base o)
             then mkFrame (objects f) (frame_initialised f) (hwFrame f) false
                    (backgroundColour f)
             else f).
  set (o1 := onBase UiObj.resetStatus (mkNode (base o) (withFrame f1 (cls o)))).
  set (st1 := <[p := o1]> st).
  assert (Hnotin : p ∉ objects f).
  { intros Hin. rewrite Forall_forall in Hleaves.
    destruct (Hleaves p Hin) as (n & Hn & Hleaf). congruence. }
  assert (Hleaves1 : Forall (leafChild st1) (objects f)).
  { rewrite Forall_forall in Hleaves |- *. intros c Hin.
    destruct (Hleaves c Hin) as (n & Hn & Hleaf). exists n. split; [| exact Hleaf].
    unfold st1. rewrite lookup_insert_ne; [exact Hn |].
    intros ->. by destruct Hnotin. }
  destruct (resetLoop_leaves fuel (objects f) st1 Hleaves1) as (st' & Hloop & Hlookup).
  assert (Hreset : resetStatus (S (S fuel)) st p = Some st').
  { change (resetStatus (S (S fuel)) st p)
      with (o0 ← st !! p;
            match cls o0 with
            | IsFrame _ _ | IsIcon _ _ _ | IsModal _ _ _ | IsManager _ _ _ =>
                UiFrame.resetStatus (resetStatus (S fuel)) st p
            | _ => Some (<[p := onBase UiObj.resetStatus o0]> st)
            end).
    rewrite Hp. cbn [mbind option_bind].
    assert (Hframe : UiFrame.resetStatus (resetStatus (S fuel)) st p = Some st').
    { unfold UiFrame.resetStatus. rewrite Hp. cbn [mbind option_bind]. rewrite Hf.
      cbn [mbind option_bind]. rewrite <- Hloop. f_equal. unfold st1, o1, f1.
      f_equal. destruct (drawn (base o)); [reflexivity |].
      f_equal. destruct o as [b k]. cbn [base cls] in *. f_equal.
      destruct k; cbn in Hf |- *; try discriminate; by injection Hf as ->. }
    destruct (cls o); try discriminate; exact Hframe. }
  assert (Hp' : st' !! p = Some o1).
  { rewrite Hlookup, bool_decide_eq_false_2 by assumption.
    unfold st1. by rewrite lookup_insert_eq. }
  assert (Hf1 : frameOf (cls o1) = Some f1) by exact (frameOf_withFrame _ _ f1 Hf).
  exists st', o1, f1. split; [exact Hreset |]. split; [exact Hp' |].
  split; [reflexivity |]. split; [exact Hf1 |].
  split; [unfold f1; by destruct (drawn (base o)) |].
  split; [unfold f1; by destruct (drawn (base o)) |].
  split.
  { intros q Hq. rewrite Hlookup. unfold st1. by rewrite lookup_insert_ne by congruence. }
  intros Hdrawn Hquiet.
  assert (Hnone : isUpdated (S (S fuel)) st' p = Some false).
  { rewrite (isUpdated_frame_unfold _ st' p o1 f1 Hp' Hf1).
    unfold UiFrame.isUpdated. rewrite Hp'. cbn [mbind option_bind]. rewrite Hf1.
    cbn [mbind option_bind].
    destruct (frame_initialised f1); [| reflexivity]. cbn [negb].
    assert (Hflags : itemsChanged f1 || visibilityChanged (base o1)
                     || newParent (base o1) = false).
    { unfold f1, o1. rewrite Hdrawn. reflexivity. }
    rewrite Hflags.
    replace (objects f1) with (objects f) by (unfold f1; by destruct (drawn (base o))).
    apply anyChanged_none.
    rewrite Forall_forall in Hleaves, Hquiet |- *. intros c Hin.
    destruct (Hleaves c Hin) as (n & Hn & Hleaf).
    assert (Hc' : st' !! c = Some (onBase UiObj.resetStatus n)).
    { rewrite Hlookup, bool_decide_eq_true_2 by assumption. unfold st1.
      rewrite lookup_insert_ne; [by rewrite Hn |]. intros ->. by destruct Hnotin. }
    unfold UiFrame.isObjectChanged. rewrite Hc'. cbn [mbind option_bind].
    destruct (initialised (base (onBase UiObj.resetStatus n))); [| reflexivity].
    destruct (isUpdated_leaf_value fuel st' c _ Hc' Hleaf) as (u & -> & Hu).
    cbn [mbind option_bind]. f_equal.
    destruct u; [| by destruct n as [[? ? ? ? ? ? ? ? ? ? ? ? ? ? [] ? ? ?] ?]].
    specialize (Hu eq_refl). specialize (Hquiet c Hin n Hn).
    destruct n as [[? ? ? ? ? ? upd ? ? ? vis ? ? ? drw ? ? ?] ?].
    cbn in Hu, Hquiet |- *. destruct drw; cbn in Hu |- *; [discriminate |].
    destruct Hquiet as [Hq | [Hq | Hq]]; [discriminate | congruence |].
    rewrite Hq. reflexivity. }
  split; [exact Hnone |].
  unfold getUpdateArea, UiFrame.getUpdateArea. rewrite Hp'. cbn [mbind option_bind].
  rewrite Hf1. cbn [mbind option_bind].
  destruct (frame_initialised f1); cbn [negb]; [| by eexists].
  rewrite <- (isUpdated_frame_unfold _ st' p o1 f1 Hp' Hf1), Hnone.
  cbn [mbind option_bind negb]. by eexists.
Qed.

Lemma resetStatus_clears_changes_witness :
  exists st' : heap,
    resetStatus 2 drawnHwFrame 0%nat = Some st'
    /\ isUpdated 2 st' 0%nat = Some false.
Proof.
  lookup_node drawnHwFrame 1%nat ipattern:(Hlabel).
  lookup_node drawnHwFrame 0%nat ipattern:(Hframe).
  assert (Hleaves : Forall (leafChild drawnHwFrame) [1%nat]).
  { apply Forall_cons. split; [| exact (Forall_nil_2 _)].
    eexists. split; [exact Hlabel | reflexivity]. }
  match type of Hframe with
  | _ = Some (mkNode ?b (IsFrame ?lf ?f)) =>
      destruct (resetStatus_clears_changes 0 drawnHwFrame 0%nat
                  (mkNode b (IsFrame lf f)) f Hframe eq_refl Hleaves)
        as (st' & _ & _ & Hreset & _ & _ & _ & _ & _ & Hquiet)
  end.
  exists st'. split; [exact Hreset |].
  apply Hquiet; [reflexivity |].
  apply Forall_cons. split; [| exact (Forall_nil_2 _)].
  intros n Hn. rewrite Hlabel in Hn. injection Hn as <-. left. reflexivity.
Defined.

End Containers.

(** ** Moving and hiding *)

Section MoveAndHide.

Lemma expose_overwrites (a b : area) (n : node) :
  onBase (UiObj.expose a) (onBase (UiObj.expose b) n) = onBase (UiObj.expose a) n.
Proof. by destruct n as [[] ?]. Qed.

Lemma move_recording (fuel : nat) (st : heap) (c q : loc) (n pn : node)
    (x0 y0 : Z) (relative : bool) :
  st !! c = Some n -> parent (base n) = Some q -> q <> c -> st !! q = Some pn ->
  recordsExposure pn = true ->
  let n' :=
    onBase (fun b => set_y (if relative then y b + y0 else y0)
                       (set_x (if relative then x b + x0 else x0) b)) n in
  move (S fuel) st c x0 y0 relative
  = Some (<[q := onBase (UiObj.expose (UiObj.getArea (base n'))) pn]> (<[c := n']> st)).
Proof.
  intros Hc Hparent Hne Hq Hrec n'. unfold move, UiObj.move.
  rewrite Hc. cbn [mbind option_bind]. rewrite Hparent.
  rewrite (recordsExposure_expose fuel st q pn _ Hq Hrec).
  cbn [mbind option_bind]. rewrite lookup_insert_ne by assumption.
  rewrite Hc. cbn [mbind option_bind].
  set (pn1 := onBase (UiObj.expose (UiObj.getArea (base n))) pn).
  assert (Hmoved :
    (if relative
     then onBase (fun b => set_y (y b + y0) (set_x (x b + x0) b)) n
     else onBase (fun b => set_y y0 (set_x x0 b)) n) = n')
    by (unfold n'; by destruct relative).
  rewrite Hmoved.
  assert (Hparent' : parent (base n') = Some q) by exact Hparent.
  rewrite Hparent'.
  assert (Hq2 : <[c := n']> (<[q := pn1]> st) !! q = Some pn1).
  { rewrite lookup_insert_ne by congruence. by rewrite lookup_insert_eq. }
  rewrite (recordsExposure_expose fuel _ q pn1 _ Hq2 Hrec).
  f_equal. unfold pn1. rewrite expose_overwrites.
  rewrite (insert_insert_ne _ c q) by congruence.
  by rewrite insert_insert_eq.
Qed.

(** X8.  [move] puts the object at the given position, or shifts it by the
    given amounts if [relative] is set, and touches no other member of the
    object.  An object without a container is the only one changed.  For an
    object in a container that records what is exposed to it, the container
    is left with the new bounds of the object as its exposed area: the old
    bounds, recorded first, are overwritten. *)
Theorem move_exposes_new_bounds :
  forall (fuel : nat) (st : heap) (c : loc) (n : node) (x0 y0 : Z) (relative : bool),
    st !! c = Some n ->
    let n' :=
      onBase (fun b => set_y (if relative then y b + y0 else y0)
                         (set_x (if relative then x b + x0 else x0) b)) n in
    (parent (base n) = None -> move fuel st c x0 y0 relative = Some (<[c := n']> st))
    /\ (forall (q : loc) (pn : node),
           parent (base n) = Some q -> q <> c -> st !! q = Some pn ->
           recordsExposure pn = true ->
           move (S fuel) st c x0 y0 relative
           = Some (<[q := onBase (UiObj.expose (UiObj.getArea (base n'))) pn]>
                     (<[c := n']> st))).
Proof.
  intros fuel st c n x0 y0 relative Hc n'. split.
  - intros Hroot. unfold move, UiObj.move. rewrite Hc. cbn [mbind option_bind].
    rewrite Hroot. cbn [mbind option_bind]. rewrite Hc. cbn [mbind option_bind].
    unfold n'. destruct relative; cbn [onBase base parent set_x set_y];
      by rewrite Hroot.
  - intros q pn Hparent Hne Hq Hrec.
    exact (move_recording fuel st c q n pn x0 y0 relative Hc Hparent Hne Hq Hrec).
Qed.

Lemma move_exposes_new_bounds_witness :
  exists (n pn : node),
    nestedFrames !! 2%nat = Some n /\ nestedFrames !! 1%nat = Some pn
    /\ move 1 nestedFrames 2%nat 3 1 true
       = Some (<[1%nat := onBase (UiObj.expose (Area.mk 3 1 4 2)) pn]>
                 (<[2%nat := onBase (fun b => set_y 1 (set_x 3 b)) n]> nestedFrames)).
Proof.
  lookup_node nestedFrames 2%nat ipattern:(Hinner).
  lookup_node nestedFrames 1%nat ipattern:(Houter).
  match type of Hinner with
  | _ = Some ?n =>
      match type of Houter with
      | _ = Some ?pn =>
          exists n, pn; split; [exact Hinner |]; split; [exact Houter |];
          exact (proj2 (move_exposes_new_bounds 0 nestedFrames 2%nat n 3 1 true Hinner)
                   1%nat pn eq_refl ltac:(discriminate) Houter eq_refl)
      end
  end.
Defined.

Lemma recording_children_after (st : heap) (c : loc) (n n' : node) (objs : list loc) :
  st !! c = Some n -> recordsExposure n' = recordsExposure n ->
  Forall (fun c0 => exists n0, st !! c0 = Some n0 /\ recordsExposure n0 = true) objs ->
  Forall (fun c0 => exists n0, <[c := n']> st !! c0 = Some n0
                               /\ recordsExposure n0 = true) objs.
Proof.
  intros Hc Hsame Hall. eapply Forall_impl; [exact Hall |].
  intros c0 (n0 & Hc0 & Hrec).
  destruct (decide (c = c0)) as [<- | Hne].
  - rewrite lookup_insert_eq. exists n'. split; [reflexivity |]. congruence.
  - rewrite lookup_insert_ne by assumption. by exists n0.
Qed.

(** X9.  [hide] on a visible child of an object without a container, the
    top-level frame: the child becomes invisible and is flagged
    [visibilityChanged]; every visible object of the frame that lies
    entirely within the bounds the child had records those bounds,
    translated to its own coordinates, as exposed; nothing else changes.
    An object that the child covered only in part is not told. *)
Theorem hide_exposes_covered_siblings :
  forall (fuel : nat) (st : heap) (c r : loc) (n o : node) (f : UiFrameData),
    st !! c = Some n -> visible (base n) = true ->
    parent (base n) = Some r -> r <> c ->
    st !! r = Some o -> parent (base o) = None -> frameOf (cls o) = Some f ->
    Forall (fun s => exists m, st !! s = Some m /\ recordsExposure m = true) (objects f) ->
    let hidden := onBase (fun b => set_visibilityChanged true (set_visible false b)) n in
    exists st' : heap,
      hide (S (S fuel)) st c = Some st'
      /\ st' !! c = Some hidden
      /\ (forall (s : loc) (m : node),
             s ∈ objects f -> s <> c -> st !! s = Some m ->
             st' !! s = Some (exposeChild (UiObj.getArea (base n)) m))
      /\ (forall q : loc, q ∉ objects f -> q <> c -> st' !! q = st !! q).
Proof.
  intros fuel st c r n o f Hc Hvisible Hparent Hne Hr Hroot Hf Hall hidden.
  set (st1 := <[c := hidden]> st).
  assert (Hr1 : st1 !! r = Some o) by (unfold st1; by rewrite lookup_insert_ne by congruence).
  assert (Hc1 : st1 !! c = Some hidden) by (unfold st1; by rewrite lookup_insert_eq).
  assert (Hall1 : Forall (fun s => exists m, st1 !! s = Some m
                                             /\ recordsExposure m = true) (objects f)).
  { apply (recording_children_after st c n hidden _ Hc); [reflexivity | exact Hall]. }
  destruct (expose_distributes fuel st1 r o f (UiObj.getArea (base n)) Hr1 Hf
              (or_intror Hroot) Hall1) as (st' & Hexpose & Hlookup).
  assert (Hhide : hide (S (S fuel)) st c = Some st').
  { unfold hide, UiObj.hide. rewrite Hc. cbn [mbind option_bind]. rewrite Hvisible.
    fold hidden. fold st1.
    assert (Htop : UiObj.topLevel (S (S fuel)) st1 c = Some r).
    { cbn [UiObj.topLevel]. rewrite Hc1. cbn [mbind option_bind].
      change (parent (base hidden)) with (parent (base n)). rewrite Hparent.
      rewrite Hr1. cbn [mbind option_bind]. by rewrite Hroot. }
    rewrite Htop. cbn [mbind option_bind]. exact Hexpose. }
  exists st'. split; [exact Hhide |]. split; [| split].
  - rewrite Hlookup, Hc1. destruct (bool_decide (c ∈ objects f)); reflexivity.
  - intros s m Hin Hsc Hs. rewrite Hlookup, bool_decide_eq_true_2 by assumption.
    unfold st1. rewrite lookup_insert_ne by congruence. by rewrite Hs.
  - intros q Hout Hqc. rewrite Hlookup, bool_decide_eq_false_2 by assumption.
    unfold st1. by rewrite lookup_insert_ne by congruence.
Qed.

Lemma stackedLabels_record :
  Forall (fun s => exists m, stackedLabels !! s = Some m /\ recordsExposure m = true)
    [1%nat; 2%nat; 3%nat; 4%nat].
Proof.
  lookup_at stackedLabels 1%nat ipattern:(H1).
  lookup_at stackedLabels 2%nat ipattern:(H2).
  lookup_at stackedLabels 3%nat ipattern:(H3).
  lookup_at stackedLabels 4%nat ipattern:(H4).
  apply Forall_cons_2.
  { exists (nodeAt stackedLabels 1%nat). split; [exact H1 | vm_compute; reflexivity]. }
  apply Forall_cons_2.
  { exists (nodeAt stackedLabels 2%nat). split; [exact H2 | vm_compute; reflexivity]. }
  apply Forall_cons_2.
  { exists (nodeAt stackedLabels 3%nat). split; [exact H3 | vm_compute; reflexivity]. }
  apply Forall_cons_2.
  { exists (nodeAt stackedLabels 4%nat). split; [exact H4 | vm_compute; reflexivity]. }
  exact (Forall_nil_2 _).
Defined.

Lemma hide_exposes_covered_siblings_witness :
  exists st' : heap,
    hide 2 stackedLabels 1%nat = Some st'
    /\ (visible ∘ base) <$> st' !! 1%nat = Some false
    /\ (exposed ∘ base) <$> st' !! 2%nat = Some true
    /\ (exposeArea ∘ base) <$> st' !! 2%nat = Some (Area.mk (-10) (-10) 60 40)
    /\ st' !! 3%nat = stackedLabels !! 3%nat
    /\ st' !! 4%nat = stackedLabels !! 4%nat
    /\ st' !! 0%nat = stackedLabels !! 0%nat.
Proof.
  lookup_at stackedLabels 0%nat ipattern:(Hframe).
  lookup_at stackedLabels 1%nat ipattern:(Hcover).
  lookup_at stackedLabels 2%nat ipattern:(Hunder).
  lookup_at stackedLabels 3%nat ipattern:(Hpartly).
  lookup_at stackedLabels 4%nat ipattern:(Hbeside).
  assert (Hf : frameOf (cls (nodeAt stackedLabels 0%nat))
               = Some (frameAt stackedLabels 0%nat)) by (vm_compute; reflexivity).
  assert (Hkids : objects (frameAt stackedLabels 0%nat) = [1%nat; 2%nat; 3%nat; 4%nat])
    by (vm_compute; reflexivity).
  assert (Hall : Forall (fun s => exists m, stackedLabels !! s = Some m
                                            /\ recordsExposure m = true)
                   (objects (frameAt stackedLabels 0%nat))).
  { rewrite Hkids. exact stackedLabels_record. }
  assert (Hvis : visible (base (nodeAt stackedLabels 1%nat)) = true)
    by (vm_compute; reflexivity).
  assert (Hparent : parent (base (nodeAt stackedLabels 1%nat)) = Some 0%nat)
    by (vm_compute; reflexivity).
  assert (Hroot : parent (base (nodeAt stackedLabels 0%nat)) = None)
    by (vm_compute; reflexivity).
  assert (Hne : 0%nat <> 1%nat) by discriminate.
  destruct (hide_exposes_covered_siblings 0 stackedLabels 1%nat 0%nat
              (nodeAt stackedLabels 1%nat) (nodeAt stackedLabels 0%nat)
              (frameAt stackedLabels 0%nat) Hcover Hvis Hparent Hne Hframe Hroot Hf Hall)
    as (st' & Hhide & Hhidden & Hsiblings & Hrest).
  rewrite Hkids in Hsiblings, Hrest.
  assert (H2in : 2%nat ∈ [1%nat; 2%nat; 3%nat; 4%nat])
    by (apply (bool_decide_unpack _); vm_compute; exact I).
  assert (H3in : 3%nat ∈ [1%nat; 2%nat; 3%nat; 4%nat])
    by (apply (bool_decide_unpack _); vm_compute; exact I).
  assert (H4in : 4%nat ∈ [1%nat; 2%nat; 3%nat; 4%nat])
    by (apply (bool_decide_unpack _); vm_compute; exact I).
  assert (H0out : 0%nat ∉ [1%nat; 2%nat; 3%nat; 4%nat])
    by (apply (bool_decide_unpack _); vm_compute; exact I).
  assert (Hne2 : 2%nat <> 1%nat) by discriminate.
  assert (Hne3 : 3%nat <> 1%nat) by discriminate.
  assert (Hne4 : 4%nat <> 1%nat) by discriminate.
  pose proof (Hsiblings 2%nat (nodeAt stackedLabels 2%nat) H2in Hne2 Hunder) as Hs2.
  pose proof (Hsiblings 3%nat (nodeAt stackedLabels 3%nat) H3in Hne3 Hpartly) as Hs3.
  pose proof (Hsiblings 4%nat (nodeAt stackedLabels 4%nat) H4in Hne4 Hbeside) as Hs4.
  pose proof (Hrest 0%nat H0out Hne) as Hs0.
  assert (Hkeep3 : exposeChild (UiObj.getArea (base (nodeAt stackedLabels 1%nat)))
                     (nodeAt stackedLabels 3%nat) = nodeAt stackedLabels 3%nat)
    by (vm_compute; reflexivity).
  assert (Hkeep4 : exposeChild (UiObj.getArea (base (nodeAt stackedLabels 1%nat)))
                     (nodeAt stackedLabels 4%nat) = nodeAt stackedLabels 4%nat)
    by (vm_compute; reflexivity).
  assert (Hexposed : exposed (base (exposeChild
                                      (UiObj.getArea (base (nodeAt stackedLabels 1%nat)))
                                      (nodeAt stackedLabels 2%nat))) = true)
    by (vm_compute; reflexivity).
  assert (Harea : exposeArea (base (exposeChild
                                      (UiObj.getArea (base (nodeAt stackedLabels 1%nat)))
                                      (nodeAt stackedLabels 2%nat)))
                  = Area.mk (-10) (-10) 60 40)
    by (vm_compute; reflexivity).
  exists st'. split; [exact Hhide |].
  split; [exact (f_equal (fmap (visible ∘ base)) Hhidden) |].
  split; [exact (eq_trans (f_equal (fmap (exposed ∘ base)) Hs2) (f_equal Some Hexposed)) |].
  split; [exact (eq_trans (f_equal (fmap (exposeArea ∘ base)) Hs2) (f_equal Some Harea)) |].
  split; [exact (eq_trans Hs3 (eq_trans (f_equal Some Hkeep3) (eq_sym Hpartly))) |].
  split; [exact (eq_trans Hs4 (eq_trans (f_equal Some Hkeep4) (eq_sym Hbeside))) |].
  exact Hs0.
Defined.

End MoveAndHide.

(** ** Overlapping children *)

Section UpdateBelow.

Lemma overlaps_geometry (o1 o2 c : UiObjData) :
  UiObj.getArea o1 = UiObj.getArea o2 ->
  UiFrame.overlaps o1 c = UiFrame.overlaps o2 c.
Proof.
  unfold UiObj.getArea, UiFrame.overlaps. intros Harea.
  injection Harea as -> -> -> ->. reflexivity.
Qed.

Lemma markBelow_area (obj : UiObjData) (m : node) :
  UiObj.getArea (base (markBelow obj m)) = UiObj.getArea (base m).
Proof. unfold markBelow. by destruct (UiFrame.overlaps obj (base m)). Qed.

Lemma markBelow_idemp (obj : UiObjData) (m : node) :
  markBelow obj (markBelow obj m) = markBelow obj m.
Proof.
  unfold markBelow. destruct (UiFrame.overlaps obj (base m)) eqn:Hover.
  - change (UiFrame.overlaps obj (base (onBase (set_visibilityChanged true) m)))
      with (UiFrame.overlaps obj (base m)).
    rewrite Hover. by destruct m as [[] ?].
  - by rewrite Hover.
Qed.

Lemma updateBelowLoop_marks (obj : loc) (n0 : UiObjData) :
  forall (objs : list loc) (st : heap),
    (exists n, st !! obj = Some n /\ UiObj.getArea (base n) = UiObj.getArea n0) ->
    Forall (fun c => is_Some (st !! c)) objs ->
    exists st' : heap,
      UiFrame.updateBelowLoop st obj objs = Some st'
      /\ forall q : loc,
           st' !! q = if bool_decide (q ∈ objs)
                      then markBelow n0 <$> st !! q else st !! q.
Proof.
  induction objs as [| c rest IH]; intros st Hobj Hall.
  - exists st. split; [reflexivity |].
    intros q. by rewrite bool_decide_eq_false_2 by apply not_elem_of_nil.
  - apply Forall_cons in Hall as [[m Hc] Hrest].
    destruct Hobj as (n & Hn & Harea).
    set (st1 := <[c := markBelow n0 m]> st).
    assert (Hstep : UiFrame.updateBelowLoop st obj (c :: rest)
                    = UiFrame.updateBelowLoop st1 obj rest).
    { cbn [UiFrame.updateBelowLoop]. rewrite Hn, Hc. cbn [mbind option_bind].
      rewrite (overlaps_geometry (base n) n0 (base m) Harea).
      unfold st1, markBelow. destruct (UiFrame.overlaps n0 (base m));
        [reflexivity | by rewrite insert_id]. }
    assert (Hobj1 : exists n1, st1 !! obj = Some n1
                               /\ UiObj.getArea (base n1) = UiObj.getArea n0).
    { unfold st1. destruct (decide (c = obj)) as [-> | Hne].
      - rewrite lookup_insert_eq. eexists. split; [reflexivity |].
        rewrite markBelow_area. congruence.
      - rewrite lookup_insert_ne by assumption. by exists n. }
    assert (Hrest1 : Forall (fun c0 => is_Some (st1 !! c0)) rest).
    { eapply Forall_impl; [exact Hrest |]. intros c0 Hc0. unfold st1.
      destruct (decide (c = c0)) as [<- | Hne];
        [rewrite lookup_insert_eq; by eexists
        | by rewrite lookup_insert_ne by assumption]. }
    destruct (IH st1 Hobj1 Hrest1) as (st' & Hloop & Hlookup).
    exists st'. split; [by rewrite Hstep |].
    intros q. rewrite Hlookup. unfold st1.
    destruct (decide (c = q)) as [<- | Hne].
    + rewrite lookup_insert_eq, Hc.
      rewrite (bool_decide_eq_true_2 (c ∈ c :: rest)) by apply list_elem_of_here.
      destruct (bool_decide (c ∈ rest)); cbn [fmap option_fmap option_map];
        [by rewrite markBelow_idemp | reflexivity].
    + rewrite lookup_insert_ne by assumption.
      destruct (decide (q ∈ rest)) as [Hin | Hout].
      * rewrite !bool_decide_eq_true_2; [reflexivity | by right | assumption].
      * rewrite !bool_decide_eq_false_2; [reflexivity | | assumption].
        intros Hin. apply elem_of_cons in Hin as [-> | Hin];
          [by destruct Hne | by destruct Hout].
Qed.

(** X10.  [updateBelow(obj)] flags [visibilityChanged] on exactly those
    children of the frame whose bounds overlap or touch the bounds of
    [obj], whatever their layer and whether or not they are visible;
    nothing else changes.  A child of non-negative size overlaps itself, so
    [obj] is flagged too if the frame lists it, and a child that merely
    shares an edge with [obj] is flagged as well. *)
Theorem updateBelow_flags_overlapping :
  forall (st : heap) (p obj : loc) (o n : node) (f : UiFrameData),
    st !! p = Some o -> frameOf (cls o) = Some f -> st !! obj = Some n ->
    Forall (fun c => is_Some (st !! c)) (objects f) ->
    exists st' : heap,
      UiFrame.updateBelow st p obj = Some st'
      /\ (forall q : loc,
             st' !! q = if bool_decide (q ∈ objects f)
                        then markBelow (base n) <$> st !! q else st !! q)
      /\ (0 <= width (base n) -> 0 <= height (base n) ->
          markBelow (base n) n = onBase (set_visibilityChanged true) n)
      /\ (forall m : node,
             x (base m) = x (base n) + width (base n) ->
             y (base m) = y (base n) -> height (base m) = height (base n) ->
             0 <= width (base n) -> 0 <= width (base m) -> 0 <= height (base n) ->
             markBelow (base n) m = onBase (set_visibilityChanged true) m).
Proof.
  intros st p obj o n f Hp Hf Hobj Hall.
  destruct (updateBelowLoop_marks obj (base n) (objects f) st) as (st' & Hloop & Hlookup);
    [by exists n | exact Hall |].
  exists st'. split.
  { unfold UiFrame.updateBelow. rewrite Hp. cbn [mbind option_bind]. rewrite Hf.
    exact Hloop. }
  split; [exact Hlookup |]. split.
  - intros Hw Hh. unfold markBelow, UiFrame.overlaps.
    destruct (Z.ltb_spec (x (base n) + width (base n)) (x (base n))); [lia |].
    destruct (Z.ltb_spec (y (base n) + height (base n)) (y (base n))); [lia |].
    reflexivity.
  - intros m Hx Hy Hh Hwn Hw Hhn. unfold markBelow, UiFrame.overlaps.
    destruct (Z.ltb_spec (x (base n) + width (base n)) (x (base m))); [lia |].
    destruct (Z.ltb_spec (x (base m) + width (base m)) (x (base n))); [lia |].
    destruct (Z.ltb_spec (y (base n) + height (base n)) (y (base m))); [lia |].
    destruct (Z.ltb_spec (y (base m) + height (base m)) (y (base n))); [lia |].
    reflexivity.
Qed.

Lemma updateBelow_flags_overlapping_witness :
  exists st' : heap,
    UiFrame.updateBelow twoLabels 0%nat 1%nat = Some st'
    /\ (visibilityChanged ∘ base) <$> st' !! 1%nat = Some true
    /\ (visibilityChanged ∘ base) <$> st' !! 2%nat = Some false.
Proof.
  lookup_node twoLabels 0%nat ipattern:(Hframe).
  lookup_node twoLabels 1%nat ipattern:(Hfirst).
  lookup_node twoLabels 2%nat ipattern:(Hsecond).
  assert (Hall : Forall (fun c => is_Some (twoLabels !! c)) [1%nat; 2%nat]).
  { repeat (apply Forall_cons; split; [by eexists |]). exact (Forall_nil_2 _). }
  match type of Hfirst with
  | _ = Some ?l =>
      match type of Hframe with
      | _ = Some (mkNode ?b (IsFrame ?lf ?f)) =>
          destruct (updateBelow_flags_overlapping twoLabels 0%nat 1%nat
                      (mkNode b (IsFrame lf f)) l f Hframe eq_refl Hfirst Hall)
            as (st' & Hupdate & Hlookup & _)
      end
  end.
  exists st'. split; [exact Hupdate |].
  rewrite !Hlookup, Hfirst, Hsecond. split; reflexivity.
Defined.

End UpdateBelow.

(** ** The update area of a frame *)

Section UpdateAreaContents.

Lemma updateBelowLoop_outside (obj q : loc) :
  forall (objs : list loc) (st st' : heap),
    UiFrame.updateBelowLoop st obj objs = Some st' -> q ∉ objs ->
    st' !! q = st !! q.
Proof.
  induction objs as [| c rest IH]; intros st st' Hloop Hout.
  - by injection Hloop as <-.
  - apply not_elem_of_cons in Hout as [Hne Hout].
    cbn [UiFrame.updateBelowLoop] in Hloop.
    destruct (st !! obj) as [o1 |]; [| discriminate].
    destruct (st !! c) as [n |]; [| discriminate].
    cbn [mbind option_bind] in Hloop.
    destruct (UiFrame.overlaps (base o1) (base n)).
    + rewrite (IH _ _ Hloop Hout). by rewrite lookup_insert_ne by congruence.
    + exact (IH _ _ Hloop Hout).
Qed.

Lemma hiddenLoop_outside (p : loc) (f : UiFrameData) :
  p ∉ objects f ->
  forall (objs : list loc) (st st' : heap),
    (exists o : node, st !! p = Some o /\ frameOf (cls o) = Some f) ->
    UiFrame.hiddenLoop st p objs = Some st' ->
    forall q : loc, q ∉ objects f -> st' !! q = st !! q.
Proof.
  intros Hself. induction objs as [| c rest IH]; intros st st' Hp Hloop q Hout.
  - by injection Hloop as <-.
  - cbn [UiFrame.hiddenLoop] in Hloop.
    destruct (st !! c) as [n |]; [| discriminate].
    cbn [mbind option_bind] in Hloop.
    destruct (initialised (base n) && visibilityChanged (base n)
              && negb (visible (base n))).
    + destruct (UiFrame.updateBelow st p c) as [st1 |] eqn:Hbelow; [| discriminate].
      cbn [mbind option_bind] in Hloop.
      destruct Hp as (o & Hp & Hf).
      unfold UiFrame.updateBelow in Hbelow. rewrite Hp in Hbelow.
      cbn [mbind option_bind] in Hbelow. rewrite Hf in Hbelow.
      cbn [mbind option_bind] in Hbelow.
      assert (Hp1 : exists o1 : node, st1 !! p = Some o1 /\ frameOf (cls o1) = Some f).
      { exists o. split; [| exact Hf].
        by rewrite (updateBelowLoop_outside c p _ _ _ Hbelow Hself). }
      rewrite (IH st1 st' Hp1 Hloop q Hout).
      exact (updateBelowLoop_outside c q _ _ _ Hbelow Hout).
    + exact (IH st st' Hp Hloop q Hout).
Qed.

Lemma isObjectChanged_local (fuel : nat) (st st' : heap) (c : loc) (n : node) :
  st !! c = Some n -> st' !! c = Some n -> frameOf (cls n) = None ->
  UiFrame.isObjectChanged (isUpdated (S fuel)) st c
  = UiFrame.isObjectChanged (isUpdated (S fuel)) st' c.
Proof.
  intros Hc Hc' Hleaf. unfold UiFrame.isObjectChanged. rewrite Hc, Hc'.
  cbn [mbind option_bind isUpdated]. rewrite Hc, Hc'. cbn [mbind option_bind].
  destruct (cls n); try discriminate; reflexivity.
Qed.

Lemma accumulateLoop_local (fuel : nat) (st st' : heap) :
  forall (objs : list loc) (ua : area),
    Forall (fun c => exists n, st !! c = Some n /\ st' !! c = Some n
                               /\ frameOf (cls n) = None) objs ->
    UiFrame.accumulateLoop (isUpdated (S fuel)) st ua objs
    = UiFrame.accumulateLoop (isUpdated (S fuel)) st' ua objs.
Proof.
  induction objs as [| c rest IH]; intros ua Hall; [reflexivity |].
  apply Forall_cons in Hall as [(n & Hc & Hc' & Hleaf) Hrest].
  cbn [UiFrame.accumulateLoop].
  rewrite (isObjectChanged_local fuel st st' c n Hc Hc' Hleaf), Hc, Hc'.
  destruct (UiFrame.isObjectChanged (isUpdated (S fuel)) st' c) as [b |];
    [| reflexivity].
  cbn [mbind option_bind]. by apply IH.
Qed.

Lemma accumulateLoop_skip (vis : heap -> loc -> option bool) (st : heap) :
  forall (pre rest : list loc) (ua : area),
    Forall (fun c => is_Some (st !! c)
                     /\ UiFrame.isObjectChanged vis st c = Some false) pre ->
    UiFrame.accumulateLoop vis st ua (pre ++ rest)
    = UiFrame.accumulateLoop vis st ua rest.
Proof.
  induction pre as [| c pre IH]; intros rest ua Hall; [reflexivity |].
  apply Forall_cons in Hall as [[[n Hc] Hquiet] Hpre].
  cbn [app UiFrame.accumulateLoop]. rewrite Hquiet, Hc. cbn [mbind option_bind].
  by apply IH.
Qed.

(** Once the area starts at a corner that no changed child lies left of or
    above, the loop keeps the corner and only grows the area, and every
    changed child ends up inside. *)
Lemma accumulateLoop_anchored (vis : heap -> loc -> option bool) (st : heap) :
  forall (objs : list loc) (ua acc : area),
    UiFrame.accumulateLoop vis st ua objs = Some acc ->
    Area.x ua <> -1 -> Area.y ua <> -1 ->
    (forall (c : loc) (n : node),
        c ∈ objs -> st !! c = Some n ->
        UiFrame.isObjectChanged vis st c = Some true ->
        Area.x ua <= x (base n) /\ Area.y ua <= y (base n)) ->
    Area.x acc = Area.x ua /\ Area.y acc = Area.y ua
    /\ Area.width ua <= Area.width acc /\ Area.height ua <= Area.height acc
    /\ forall (c : loc) (n : node),
         c ∈ objs -> st !! c = Some n ->
         UiFrame.isObjectChanged vis st c = Some true ->
         containsChild acc (base n) = true.
Proof.
  induction objs as [| c rest IH]; intros ua acc Hloop Hx Hy Hleft.
  - injection Hloop as <-. repeat split; try lia.
    intros c n Hin. destruct (not_elem_of_nil _ Hin).
  - cbn [UiFrame.accumulateLoop] in Hloop.
    destruct (UiFrame.isObjectChanged vis st c) as [b |] eqn:Hchanged; [| discriminate].
    destruct (st !! c) as [n |] eqn:Hc; [| discriminate].
    cbn [mbind option_bind] in Hloop.
    set (ua1 := if b then UiFrame.accumulate ua (base n) else ua) in Hloop.
    assert (Hstep : Area.x ua1 = Area.x ua /\ Area.y ua1 = Area.y ua
                    /\ Area.width ua <= Area.width ua1
                    /\ Area.height ua <= Area.height ua1
                    /\ (b = true -> x (base n) + width (base n)
                                    <= Area.x ua + Area.width ua1
                                    /\ y (base n) + height (base n)
                                       <= Area.y ua + Area.height ua1)).
    { unfold ua1. destruct b; [| repeat split; try lia; discriminate].
      destruct (Hleft c n (list_elem_of_here _ _) Hc Hchanged) as [Hlx Hly].
      unfold UiFrame.accumulate. cbn [Area.x Area.y Area.width Area.height].
      destruct (Z.eqb_spec (Area.x ua) (-1)); [contradiction |].
      destruct (Z.eqb_spec (Area.y ua) (-1)); [contradiction |].
      repeat split; lia. }
    destruct Hstep as (Hx1 & Hy1 & Hw1 & Hh1 & Hfits).
    destruct (IH ua1 acc Hloop) as (Hax & Hay & Haw & Hah & Hrest).
    { by rewrite Hx1. }
    { by rewrite Hy1. }
    { intros c' n' Hin Hc' Hchanged'. rewrite Hx1, Hy1.
      apply (Hleft c' n'); [by right | assumption | assumption]. }
    split; [lia |]. split; [lia |]. split; [lia |]. split; [lia |].
    intros c' n' Hin Hc' Hchanged'.
    apply elem_of_cons in Hin as [-> | Hin]; [| by apply (Hrest c' n')].
    rewrite Hc in Hc'. injection Hc' as <-.
    rewrite Hchanged in Hchanged'. injection Hchanged' as ->.
    destruct (Hfits eq_refl) as [Hfx Hfy].
    destruct (Hleft c n (list_elem_of_here _ _) Hc Hchanged) as [Hlx Hly].
    unfold containsChild.
    repeat (apply andb_true_iff; split); apply Z.leb_le; lia.
Qed.

Lemma anyChanged_false (vis : heap -> loc -> option bool) (st : heap) :
  forall objs : list loc,
    UiFrame.anyChanged vis st objs = Some false ->
    forall c : loc, c ∈ objs -> UiFrame.isObjectChanged vis st c = Some false.
Proof.
  induction objs as [| c rest IH]; intros Hnone c' Hin.
  - destruct (not_elem_of_nil _ Hin).
  - cbn [UiFrame.anyChanged] in Hnone.
    destruct (UiFrame.isObjectChanged vis st c) as [[] |] eqn:Hc; try discriminate.
    cbn [mbind option_bind] in Hnone.
    apply elem_of_cons in Hin as [-> | Hin]; [exact Hc | by apply IH].
Qed.

Lemma contains_aligned (hw : bool) (acc : area) (n : UiObjData) :
  0 <= Area.x acc -> 0 <= Area.y acc -> containsChild acc n = true ->
  containsChild (UiFrame.alignHw hw (UiFrame.clampOrigin acc)) n = true.
Proof.
  intros Hx Hy Hin. unfold UiFrame.clampOrigin.
  destruct (Z.ltb_spec (Area.x acc) 0); [lia |].
  destruct (Z.ltb_spec (Area.y acc) 0); [lia |]. cbn [orb].
  unfold UiFrame.alignHw. destruct hw; [| exact Hin].
  destruct (alignWidth_spec (Area.width acc)) as (_ & _ & Hwide).
  unfold containsChild in Hin |- *. cbn [Area.x Area.y Area.width Area.height].
  repeat (apply andb_true_iff in Hin as [Hin ?]).
  repeat (apply andb_true_iff; split); apply Z.leb_le; lia.
Qed.

(** X11.  The update area of an initialised frame that is not itself
    flagged [visibilityChanged] contains the bounds of every changed child,
    provided the first changed child in the order of the children has
    non-negative coordinates and no other changed child lies further left
    or further up.  The area is also what the frame keeps in
    [updateArea]. *)
Theorem getUpdateArea_contains_changed_children :
  forall (fuel : nat) (st st' : heap) (p : loc) (o o' : node) (f : UiFrameData)
         (ua : area),
    st !! p = Some o -> frameOf (cls o) = Some f -> frame_initialised f = true ->
    Forall (leafChild st) (objects f) ->
    getUpdateArea (S fuel) st p = Some (st', ua) ->
    st' !! p = Some o' -> visibilityChanged (base o') = false ->
    forall (pre post : list loc) (c0 : loc) (n0 : node),
      objects f = pre ++ c0 :: post ->
      Forall (fun c => UiFrame.isObjectChanged (isUpdated (S fuel)) st' c = Some false)
        pre ->
      st' !! c0 = Some n0 ->
      UiFrame.isObjectChanged (isUpdated (S fuel)) st' c0 = Some true ->
      0 <= x (base n0) -> 0 <= y (base n0) ->
      (forall (c : loc) (n : node),
          c ∈ post -> st' !! c = Some n ->
          UiFrame.isObjectChanged (isUpdated (S fuel)) st' c = Some true ->
          x (base n0) <= x (base n) /\ y (base n0) <= y (base n)) ->
      updateArea (base o') = ua
      /\ forall (c : loc) (n : node),
           c ∈ objects f -> st' !! c = Some n ->
           UiFrame.isObjectChanged (isUpdated (S fuel)) st' c = Some true ->
           containsChild ua (base n) = true.
Proof.
  intros fuel st st' p o o' f ua Hp Hf Hinit Hleaves Hget Hp' Hvis'
    pre post c0 n0 Hobjs Hpre Hc0 Hchanged0 Hx0 Hy0 Hpost.
  assert (Hself : p ∉ objects f).
  { intros Hin. rewrite Forall_forall in Hleaves.
    destruct (Hleaves p Hin) as (n & Hn & Hleaf). congruence. }
  assert (Hin0 : c0 ∈ objects f).
  { rewrite Hobjs. apply elem_of_app. right. apply list_elem_of_here. }
  unfold getUpdateArea, UiFrame.getUpdateArea in Hget.
  rewrite Hp in Hget. cbn [mbind option_bind] in Hget. rewrite Hf in Hget.
  cbn [mbind option_bind] in Hget. rewrite Hinit in Hget. cbn [negb] in Hget.
  destruct (UiFrame.isUpdated (isUpdated (S fuel)) st p) as [u |] eqn:Hupd;
    [| discriminate].
  cbn [mbind option_bind] in Hget.
  destruct u; cbn [negb] in Hget.
  2:{ injection Hget as <- <-. exfalso.
      rewrite Forall_forall in Hleaves.
      destruct (Hleaves c0 Hin0) as (n & Hn & Hleaf).
      assert (Hne : p <> c0) by (intros ->; by destruct Hself).
      rewrite lookup_insert_ne in Hc0 by assumption.
      rewrite Hn in Hc0. injection Hc0 as ->.
      rewrite <- (isObjectChanged_local fuel st _ c0 n0 Hn) in Hchanged0;
        [| by rewrite lookup_insert_ne by assumption | exact Hleaf].
      unfold UiFrame.isUpdated in Hupd. rewrite Hp in Hupd.
      cbn [mbind option_bind] in Hupd. rewrite Hf in Hupd.
      cbn [mbind option_bind] in Hupd. rewrite Hinit in Hupd. cbn [negb] in Hupd.
      destruct (itemsChanged f || visibilityChanged (base o) || newParent (base o));
        [discriminate |].
      rewrite (anyChanged_false _ _ _ Hupd c0 Hin0) in Hchanged0. discriminate. }
  set (o1 := onBase (set_updateArea (Area.mk (-1) (-1) 0 0)) o) in Hget.
  set (st1 := <[p := o1]> st) in Hget.
  destruct (UiFrame.hiddenLoop st1 p (objects f)) as [st2 |] eqn:Hhidden;
    [| discriminate].
  cbn [mbind option_bind] in Hget.
  assert (Hp1 : exists o0 : node, st1 !! p = Some o0 /\ frameOf (cls o0) = Some f).
  { exists o1. split; [apply lookup_insert_eq | exact Hf]. }
  assert (Hp2 : st2 !! p = Some o1).
  { rewrite (hiddenLoop_outside p f Hself _ _ _ Hp1 Hhidden p Hself).
    apply lookup_insert_eq. }
  rewrite Hp2 in Hget. cbn [mbind option_bind] in Hget.
  destruct (visibilityChanged (base o1)) eqn:Hvis.
  { injection Hget as <- <-. rewrite lookup_insert_eq in Hp'.
    injection Hp' as <-. cbn in Hvis'. cbn in Hvis. congruence. }
  destruct (UiFrame.accumulateLoop (isUpdated (S fuel)) st2 (updateArea (base o1))
              (objects f)) as [acc |] eqn:Hacc; [| discriminate].
  cbn [mbind option_bind] in Hget. injection Hget as <- <-.
  rewrite lookup_insert_eq in Hp'. injection Hp' as <-.
  split; [reflexivity |].
  assert (Hsame : sameClasses st st2).
  { pose proof (sameClasses_onBase st p o (set_updateArea (Area.mk (-1) (-1) 0 0)) Hp)
      as Hstep.
    assert (Hkids1 : Forall (fun c => is_Some (st1 !! c)) (objects f)).
    { eapply Forall_impl; [exact Hleaves |]. intros c Hc.
      destruct (sameClasses_leafChild _ _ c Hstep Hc) as (n' & Hn' & _).
      unfold st1, o1. rewrite Hn'. by eexists. }
    destruct (hiddenLoop_returns p f (objects f) st1 Hp1 Hkids1 Hkids1)
      as (st2' & Hhidden' & Hsame2).
    rewrite Hhidden in Hhidden'. injection Hhidden' as <-.
    exact (sameClasses_trans _ _ _ Hstep Hsame2). }
  set (st' := <[p := onBase (set_updateArea
                               (UiFrame.alignHw (hwFrame f) (UiFrame.clampOrigin acc)))
                       o1]> st2) in *.
  assert (Hlocal : Forall (fun c => exists n, st2 !! c = Some n /\ st' !! c = Some n
                                              /\ frameOf (cls n) = None) (objects f)).
  { rewrite Forall_forall in Hleaves |- *. intros c Hin.
    destruct (sameClasses_leafChild _ _ c Hsame (Hleaves c Hin)) as (n & Hn & Hleaf).
    exists n. split; [exact Hn |]. split; [| exact Hleaf].
    unfold st'. rewrite lookup_insert_ne; [exact Hn |].
    intros ->. by destruct Hself. }
  rewrite (accumulateLoop_local fuel st2 st' _ _ Hlocal) in Hacc.
  rewrite Hobjs in Hacc, Hlocal.
  apply Forall_app in Hlocal as [Hlocal_pre _].
  rewrite accumulateLoop_skip in Hacc.
  2:{ rewrite Forall_forall in Hpre, Hlocal_pre |- *. intros c Hin.
      destruct (Hlocal_pre c Hin) as (n & _ & Hn & _).
      split; [by eexists | by apply Hpre]. }
  cbn [UiFrame.accumulateLoop] in Hacc. rewrite Hchanged0, Hc0 in Hacc.
  cbn [mbind option_bind] in Hacc.
  change (updateArea (base o1)) with (Area.mk (-1) (-1) 0 0) in Hacc.
  set (ua0 := UiFrame.accumulate (Area.mk (-1) (-1) 0 0) (base n0)) in Hacc.
  assert (Hua0 : Area.x ua0 = x (base n0) /\ Area.y ua0 = y (base n0)
                 /\ width (base n0) <= Area.width ua0
                 /\ height (base n0) <= Area.height ua0).
  { unfold ua0, UiFrame.accumulate. cbn. lia. }
  destruct Hua0 as (Hux & Huy & Huw & Huh).
  destruct (accumulateLoop_anchored _ st' post ua0 acc Hacc) as (Hax & Hay & Haw & Hah & Hrest).
  { lia. }
  { lia. }
  { intros c n Hin Hn Hchanged. rewrite Hux, Huy. by apply (Hpost c n). }
  intros c n Hin Hn Hchanged.
  apply contains_aligned; [lia | lia |].
  rewrite Hobjs in Hin. apply elem_of_app in Hin as [Hin | Hin].
  - rewrite Forall_forall in Hpre. rewrite (Hpre c Hin) in Hchanged. discriminate.
  - apply elem_of_cons in Hin as [-> | Hin]; [| by apply (Hrest c n)].
    rewrite Hc0 in Hn. injection Hn as <-.
    unfold containsChild.
    repeat (apply andb_true_iff; split); apply Z.leb_le; lia.
Qed.

Lemma getUpdateArea_contains_changed_children_witness :
  exists (st' : heap) (n1 n2 n3 n4 : node),
    getUpdateArea 1 stackedLabels 0%nat = Some (st', Area.mk 10 10 88 40)
    /\ st' !! 1%nat = Some n1 /\ st' !! 2%nat = Some n2
    /\ st' !! 3%nat = Some n3 /\ st' !! 4%nat = Some n4
    /\ containsChild (Area.mk 10 10 88 40) (base n1) = true
    /\ containsChild (Area.mk 10 10 88 40) (base n2) = true
    /\ containsChild (Area.mk 10 10 88 40) (base n3) = true
    /\ containsChild (Area.mk 10 10 88 40) (base n4) = true.
Proof.
  pose (st' := default ∅ (fst <$> getUpdateArea 1 stackedLabels 0%nat)).
  assert (Hget : getUpdateArea 1 stackedLabels 0%nat = Some (st', Area.mk 10 10 88 40))
    by (vm_compute; reflexivity).
  lookup_at stackedLabels 0%nat ipattern:(Hframe).
  lookup_at stackedLabels 1%nat ipattern:(H1).
  lookup_at stackedLabels 2%nat ipattern:(H2).
  lookup_at stackedLabels 3%nat ipattern:(H3).
  lookup_at stackedLabels 4%nat ipattern:(H4).
  lookup_at st' 0%nat ipattern:(Hframe').
  lookup_at st' 1%nat ipattern:(H1').
  lookup_at st' 2%nat ipattern:(H2').
  lookup_at st' 3%nat ipattern:(H3').
  lookup_at st' 4%nat ipattern:(H4').
  assert (Hf : frameOf (cls (nodeAt stackedLabels 0%nat))
               = Some (frameAt stackedLabels 0%nat)) by (vm_compute; reflexivity).
  assert (Hinit : frame_initialised (frameAt stackedLabels 0%nat) = true)
    by (vm_compute; reflexivity).
  assert (Hkids : objects (frameAt stackedLabels 0%nat) = [1%nat; 2%nat; 3%nat; 4%nat])
    by (vm_compute; reflexivity).
  assert (Hleaves : Forall (leafChild stackedLabels) (objects (frameAt stackedLabels 0%nat))).
  { rewrite Hkids.
    apply Forall_cons_2.
    { exists (nodeAt stackedLabels 1%nat). split; [exact H1 | vm_compute; reflexivity]. }
    apply Forall_cons_2.
    { exists (nodeAt stackedLabels 2%nat). split; [exact H2 | vm_compute; reflexivity]. }
    apply Forall_cons_2.
    { exists (nodeAt stackedLabels 3%nat). split; [exact H3 | vm_compute; reflexivity]. }
    apply Forall_cons_2.
    { exists (nodeAt stackedLabels 4%nat). split; [exact H4 | vm_compute; reflexivity]. }
    exact (Forall_nil_2 _). }
  assert (Hvc : visibilityChanged (base (nodeAt st' 0%nat)) = false)
    by (vm_compute; reflexivity).
  assert (Hsplit : objects (frameAt stackedLabels 0%nat)
                   = [] ++ 1%nat :: [2%nat; 3%nat; 4%nat]) by exact Hkids.
  assert (Hchanged : Forall (fun c => UiFrame.isObjectChanged (isUpdated 1) st' c = Some true)
                       [1%nat; 2%nat; 3%nat; 4%nat]).
  { apply Forall_cons_2; [vm_compute; reflexivity |].
    apply Forall_cons_2; [vm_compute; reflexivity |].
    apply Forall_cons_2; [vm_compute; reflexivity |].
    apply Forall_cons_2; [vm_compute; reflexivity |].
    exact (Forall_nil_2 _). }
  assert (Hx0 : 0 <= x (base (nodeAt st' 1%nat))) by (vm_compute; discriminate).
  assert (Hy0 : 0 <= y (base (nodeAt st' 1%nat))) by (vm_compute; discriminate).
  assert (Hlater : Forall (fun c => x (base (nodeAt st' 1%nat)) <= x (base (nodeAt st' c))
                                    /\ y (base (nodeAt st' 1%nat)) <= y (base (nodeAt st' c)))
                     [2%nat; 3%nat; 4%nat]).
  { apply Forall_cons_2; [split; vm_compute; discriminate |].
    apply Forall_cons_2; [split; vm_compute; discriminate |].
    apply Forall_cons_2; [split; vm_compute; discriminate |].
    exact (Forall_nil_2 _). }
  assert (Hnode : forall (c : loc) (n : node),
             c ∈ [1%nat; 2%nat; 3%nat; 4%nat] -> st' !! c = Some n -> n = nodeAt st' c).
  { intros c n Hc Hn. unfold nodeAt. rewrite Hn. reflexivity. }
  destruct (getUpdateArea_contains_changed_children 0 stackedLabels st' 0%nat
              (nodeAt stackedLabels 0%nat) (nodeAt st' 0%nat)
              (frameAt stackedLabels 0%nat) (Area.mk 10 10 88 40)
              Hframe Hf Hinit Hleaves Hget Hframe' Hvc
              [] [2%nat; 3%nat; 4%nat] 1%nat (nodeAt st' 1%nat) Hsplit
              (Forall_nil_2 _) H1'
              (Forall_inv Hchanged) Hx0 Hy0) as [_ Hcontains].
  { intros c n Hc Hn _.
    rewrite (Hnode c n (proj2 (elem_of_cons _ _ _) (or_intror Hc)) Hn).
    rewrite Forall_forall in Hlater. exact (Hlater c Hc). }
  rewrite Hkids in Hcontains. rewrite Forall_forall in Hchanged.
  assert (Hin1 : 1%nat ∈ [1%nat; 2%nat; 3%nat; 4%nat])
    by (apply (bool_decide_unpack _); vm_compute; exact I).
  assert (Hin2 : 2%nat ∈ [1%nat; 2%nat; 3%nat; 4%nat])
    by (apply (bool_decide_unpack _); vm_compute; exact I).
  assert (Hin3 : 3%nat ∈ [1%nat; 2%nat; 3%nat; 4%nat])
    by (apply (bool_decide_unpack _); vm_compute; exact I).
  assert (Hin4 : 4%nat ∈ [1%nat; 2%nat; 3%nat; 4%nat])
    by (apply (bool_decide_unpack _); vm_compute; exact I).
  exists st', (nodeAt st' 1%nat), (nodeAt st' 2%nat), (nodeAt st' 3%nat), (nodeAt st' 4%nat).
  split; [exact Hget |].
  split; [exact H1' |]. split; [exact H2' |]. split; [exact H3' |]. split; [exact H4' |].
  split; [exact (Hcontains 1%nat _ Hin1 H1' (Hchanged _ Hin1)) |].
  split; [exact (Hcontains 2%nat _ Hin2 H2' (Hchanged _ Hin2)) |].
  split; [exact (Hcontains 3%nat _ Hin3 H3' (Hchanged _ Hin3)) |].
  exact (Hcontains 4%nat _ Hin4 H4' (Hchanged _ Hin4)).
Defined.

End UpdateAreaContents.

(** ** Writing an object into the screen buffer *)

Section PackedRows.

Lemma packPairs_app (k : nat) :
  forall px rest : list Z,
    length px = (2 * k)%nat -> packPairs (px ++ rest) = packPairs px ++ packPairs rest.
Proof.
  induction k as [| k IH]; intros px rest Hlen.
  - by destruct px.
  - destruct px as [| a [| b px]]; cbn [length] in Hlen; try lia.
    cbn [app packPairs]. f_equal. apply IH. lia.
Qed.

Variables (k m a b h : nat) (this : UiObjData) (t : area) (own : list Z).
Hypothesis Hwidth : width this = 2 * Z.of_nat k.
Hypothesis Hx : x this - Area.x t = 2 * Z.of_nat a.
Hypothesis Hy : y this - Area.y t = Z.of_nat b.
Hypothesis Htw : Area.width t = 2 * Z.of_nat m.
Hypothesis Hfit : (a + k <= m)%nat.
Hypothesis Hown : length own = (2 * k * h)%nat.

Lemma cell_rows_apart (r r' i i' : nat) :
  (r < r')%nat -> (i < k)%nat -> cell m a b r i <> cell m a b r' i'.
Proof. unfold cell. intros Hr Hi. nia. Qed.

Lemma packRows_blit :
  forall (n r : nat) (out : list Z),
    (r + n = h)%nat -> ((b + h) * m <= length out)%nat ->
    exists out' : list Z,
      UiObj.packRows (S n) (Z.of_nat r) (Area.mk 0 0 (width this) (Z.of_nat h)) t
        this own out = Some out'
      /\ length out' = length out
      /\ (forall (r' i : nat) (hi lo : Z),
             (r <= r' < h)%nat -> (i < k)%nat ->
             own !! (r' * (2 * k) + 2 * i)%nat = Some hi ->
             own !! (r' * (2 * k) + 2 * i + 1)%nat = Some lo ->
             out' !! cell m a b r' i = Some (UiObj.packByte hi lo))
      /\ (forall j : nat,
             (forall r' i : nat, (r <= r' < h)%nat -> (i < k)%nat -> j <> cell m a b r' i) ->
             out' !! j = out !! j).
Proof.
  induction n as [| n IH]; intros r out Hrows Hroom.
  - exists out. cbn [UiObj.packRows Area.height].
    destruct (Z.ltb_spec (Z.of_nat r) (Z.of_nat h)); [lia |].
    split; [reflexivity |]. split; [reflexivity |]. split; [intros; lia | reflexivity].
  - set (before := take (r * (2 * k)) own).
    set (px := take (2 * k) (drop (r * (2 * k)) own)).
    set (after := drop (2 * k) (drop (r * (2 * k)) own)).
    assert (Hsplit : own = before ++ px ++ after).
    { unfold before, px, after. by rewrite !take_drop. }
    assert (Hbefore : length before = (r * (2 * k))%nat).
    { unfold before. rewrite length_take. nia. }
    assert (Hpx : length px = (2 * k)%nat).
    { unfold px. rewrite length_take, length_drop. nia. }
    set (off := cell m a b r 0).
    assert (Hoff : (off + k <= length out)%nat).
    { unfold off, cell. nia. }
    set (written := take off out).
    set (room := drop off out).
    assert (Hout : out = written ++ room) by (unfold written, room; by rewrite take_drop).
    assert (Hwritten : length written = off) by (unfold written; rewrite length_take; lia).
    assert (Hroomlen : (k <= length room)%nat) by (unfold room; rewrite length_drop; lia).
    set (out1 := written ++ packPairs px ++ drop k room).
    assert (Hrow :
      UiObj.packRow (S (Z.to_nat (width this))) 0 (width this) own
        ((Z.of_nat r + 0) * width this + 0) out
        (Z.quot ((Z.of_nat r + y this - Area.y t) * Area.width t + x this - Area.x t) 2)
      = Some out1).
    { replace ((Z.of_nat r + 0) * width this + 0) with (Z.of_nat (length before))
        by (rewrite Hbefore, Hwidth; lia).
      replace (Z.quot ((Z.of_nat r + y this - Area.y t) * Area.width t
                       + x this - Area.x t) 2)
        with (Z.of_nat (length written)).
      2:{ rewrite Hwritten. unfold off, cell.
          replace ((Z.of_nat r + y this - Area.y t) * Area.width t + x this - Area.x t)
            with (Z.of_nat ((r + b) * m + a + 0) * 2) by (rewrite Htw; nia).
          by rewrite Z.quot_mul. }
      rewrite Hsplit at 1. rewrite Hout at 1.
      apply (packRow_pairs k); [exact Hpx | lia | exact Hroomlen | lia]. }
    assert (Hlen1 : length out1 = length out).
    { unfold out1. rewrite !length_app, (packPairs_length k px Hpx), length_drop.
      rewrite Hout. rewrite length_app. lia. }
    destruct (IH (S r) out1) as (out' & Hloop & Hlen' & Hcells & Hother);
      [lia | lia |].
    exists out'. split.
    { cbn [UiObj.packRows Area.height Area.width Area.x Area.y].
      destruct (Z.ltb_spec (Z.of_nat r) (Z.of_nat h)); [| lia].
      rewrite Hrow. cbn [mbind option_bind].
      replace (Z.of_nat r + 1) with (Z.of_nat (S r)) by lia. exact Hloop. }
    split; [lia |]. split.
    + intros r' i hi lo Hr' Hi Hhi Hlo.
      destruct (decide (r' = r)) as [-> | Hne].
      * rewrite Hother.
        2:{ intros r'' i'' Hr'' Hi''. apply cell_rows_apart; lia. }
        unfold out1.
        replace (cell m a b r i) with (length written + i)%nat by (rewrite Hwritten; unfold off, cell; lia).
        rewrite lookup_app_r by lia.
        replace (length written + i - length written)%nat with i by lia.
        rewrite lookup_app_l by (rewrite (packPairs_length k px Hpx); lia).
        apply (packPairs_lookup k px i hi lo Hpx).
        -- unfold px. rewrite lookup_take_lt by lia. rewrite lookup_drop. exact Hhi.
        -- unfold px. rewrite lookup_take_lt by lia. rewrite lookup_drop.
           replace (r * (2 * k) + (2 * i + 1))%nat with (r * (2 * k) + 2 * i + 1)%nat by lia.
           exact Hlo.
      * apply (Hcells r' i hi lo); [lia | assumption | assumption | assumption].
    + intros j Hj. rewrite Hother.
      2:{ intros r' i Hr' Hi. apply Hj; lia. }
      unfold out1. rewrite Hout.
      destruct (decide (j < off)%nat) as [Hlow | Hhigh].
      * rewrite !lookup_app_l by lia. reflexivity.
      * assert (Hpast : (off + k <= j)%nat).
        { destruct (decide (j < off + k)%nat) as [Hin |]; [| lia].
          exfalso. apply (Hj r (j - off)%nat); [lia | lia |]. unfold off, cell in *. lia. }
        rewrite !lookup_app_r by (rewrite ?(packPairs_length k px Hpx); lia).
        rewrite (packPairs_length k px Hpx), lookup_drop. f_equal. lia.
Qed.

End PackedRows.

(** X12.  [packToGrey] on an object of even width, called with the whole
    area of the object as [UiLabel::getUpdateArea] gives it, returns and
    writes the object row by row into the window the top-level object keeps
    in [updateArea]: for an object that starts an even number of pixels
    right of the window and fits into its width, the byte for the pixels
    [2i] and [2i+1] of row [r] is byte [i] of the row of the window the
    object row falls on, two pixels to the byte, high nibble first; every
    other byte of the screen buffer keeps its value and the length of the
    buffer is unchanged. *)
Theorem packToGrey_blits_rows :
  forall (fuel : nat) (st : heap) (p top : loc) (o topObj : node)
         (own out : list Z) (k m a b h : nat),
    st !! p = Some o -> UiObj.topLevel fuel st p = Some top ->
    st !! top = Some topObj ->
    frameBuffer (surface (base o)) = Some own ->
    width (base o) = 2 * Z.of_nat k -> height (base o) = Z.of_nat h ->
    x (base o) - Area.x (updateArea (base topObj)) = 2 * Z.of_nat a ->
    y (base o) - Area.y (updateArea (base topObj)) = Z.of_nat b ->
    Area.width (updateArea (base topObj)) = 2 * Z.of_nat m ->
    (a + k <= m)%nat -> length own = (2 * k * h)%nat ->
    ((b + h) * m <= length out)%nat ->
    exists out' : list Z,
      UiObj.packToGrey fuel st p
        (Area.mk 0 0 (width (base o)) (height (base o))) (Some out)
      = Some (Some out')
      /\ length out' = length out
      /\ (forall (r i : nat) (hi lo : Z),
             (r < h)%nat -> (i < k)%nat ->
             own !! (r * (2 * k) + 2 * i)%nat = Some hi ->
             own !! (r * (2 * k) + 2 * i + 1)%nat = Some lo ->
             out' !! cell m a b r i = Some (UiObj.packByte hi lo))
      /\ (forall j : nat,
             (forall r i : nat, (r < h)%nat -> (i < k)%nat -> j <> cell m a b r i) ->
             out' !! j = out !! j).
Proof.
  intros fuel st p top o topObj own out k m a b h Hp Htop Htopobj Hbuf
    Hwidth Hheight Hx Hy Htw Hfit Hown Hroom.
  destruct (packRows_blit k m a b h (base o) (updateArea (base topObj)) own
              Hwidth Hx Hy Htw Hfit Hown h 0%nat out)
    as (out' & Hrows & Hlen & Hcells & Hother); [lia | exact Hroom |].
  exists out'. split.
  { unfold UiObj.packToGrey. rewrite Hp. cbn [mbind option_bind].
    destruct (topLevel_some fuel st p top Htop) as [[abs Habs] _].
    rewrite Habs. cbn [mbind option_bind]. rewrite Htop. cbn [mbind option_bind].
    rewrite Htopobj. cbn [mbind option_bind]. rewrite Hbuf.
    cbn [Area.height]. rewrite Hheight, Nat2Z.id.
    change (Z.of_nat 0) with 0 in Hrows. rewrite Hrows. reflexivity. }
  split; [exact Hlen |]. split.
  - intros r i hi lo Hr Hi. apply Hcells; lia.
  - intros j Hj. apply Hother. intros r i Hr Hi. apply Hj; lia.
Qed.

Lemma packToGrey_blits_rows_witness :
  exists out' : list Z,
    UiObj.packToGrey 2 paintedLabel 1%nat (Area.mk 0 0 6 2) (Some (replicate 8 255))
    = Some (Some out')
    /\ out' !! 0%nat = Some 18 /\ out' !! 4%nat = Some 120
    /\ out' !! 3%nat = Some 255.
Proof.
  lookup_node paintedLabel 1%nat ipattern:(Hlabel).
  lookup_node paintedLabel 0%nat ipattern:(Hframe).
  match type of Hlabel with
  | _ = Some ?l =>
      match type of Hframe with
      | _ = Some ?f =>
          destruct (packToGrey_blits_rows 2 paintedLabel 1%nat 0%nat l f
                      [1; 2; 3; 4; 5; 6; 7; 8; 9; 10; 11; 12] (replicate 8 255)
                      3 4 0 0 2 Hlabel eq_refl Hframe eq_refl eq_refl eq_refl
                      eq_refl eq_refl eq_refl)
            as (out' & Hpack & _ & Hcells & Hother);
            [cbn; lia | reflexivity | cbn; lia |]
      end
  end.
  exists out'. split; [exact Hpack |]. split; [| split].
  - exact (Hcells 0%nat 0%nat 1 2 ltac:(lia) ltac:(lia) eq_refl eq_refl).
  - exact (Hcells 1%nat 0%nat 7 8 ltac:(lia) ltac:(lia) eq_refl eq_refl).
  - rewrite Hother; [reflexivity |].
    intros r i Hr Hi. unfold cell. lia.
Defined.

(** ** Copying an object into the buffer of its container *)

Section CopiedRows.

Variables (xn yn W bw w : nat) (this : UiObjData) (own : list Z).
Hypothesis Hx : x this = Z.of_nat xn.
Hypothesis Hy : y this = Z.of_nat yn.
Hypothesis Hwidth : width this = Z.of_nat W.
Hypothesis Hclip : (w <= W)%nat.
Hypothesis Hfit : (xn + w <= bw)%nat.

Lemma copyRows_blit :
  forall (n r hh : nat) (dest : list Z),
    (r + n = hh)%nat -> (hh * W <= length own + (W - w))%nat ->
    ((yn + hh) * bw <= length dest)%nat ->
    exists dest' : list Z,
      UiObj.copyRows (S n) (Z.of_nat r) (Z.of_nat hh) (Z.of_nat w) this (Some own)
        (Z.of_nat bw) dest = Some dest'
      /\ length dest' = length dest
      /\ (forall r' i : nat,
             (r <= r' < hh)%nat -> (i < w)%nat ->
             dest' !! cell bw xn yn r' i = own !! (r' * W + i)%nat)
      /\ (forall j : nat,
             (forall r' i : nat, (r <= r' < hh)%nat -> (i < w)%nat ->
                                 j <> cell bw xn yn r' i) ->
             dest' !! j = dest !! j).
Proof.
  induction n as [| n IH]; intros r hh dest Hrows Hown Hroom.
  - exists dest. cbn [UiObj.copyRows].
    destruct (Z.ltb_spec (Z.of_nat r) (Z.of_nat hh)); [lia |].
    split; [reflexivity |]. split; [reflexivity |]. split; [intros; lia | reflexivity].
  - set (off := cell bw xn yn r 0).
    assert (Hoff : (off + w <= length dest)%nat) by (unfold off, cell; nia).
    assert (Hsrc : (r * W + w <= length own)%nat) by nia.
    set (dest1 := take off dest ++ take w (drop (r * W) own) ++ drop (off + w) dest).
    assert (Hcopy :
      memcpy dest ((Z.of_nat r + y this) * Z.of_nat bw + x this) (Some own)
        (Z.of_nat r * width this) (Z.of_nat w)
      = Some (if decide (w = 0%nat) then dest else dest1)).
    { unfold memcpy. destruct (decide (w = 0%nat)) as [-> | Hpos]; [reflexivity |].
      destruct (Z.eqb_spec (Z.of_nat w) 0); [lia |]. cbn [mbind option_bind].
      replace ((Z.of_nat r + y this) * Z.of_nat bw + x this) with (Z.of_nat off)
        by (unfold off, cell; rewrite Hx, Hy; nia).
      replace (Z.of_nat r * width this) with (Z.of_nat (r * W)) by (rewrite Hwidth; nia).
      destruct (Z.ltb_spec 0 (Z.of_nat w)); [| lia].
      destruct (Z.leb_spec 0 (Z.of_nat (r * W))); [| lia].
      destruct (Z.leb_spec (Z.of_nat (r * W) + Z.of_nat w) (Z.of_nat (length own)));
        [| lia].
      destruct (Z.leb_spec 0 (Z.of_nat off)); [| lia].
      destruct (Z.leb_spec (Z.of_nat off + Z.of_nat w) (Z.of_nat (length dest)));
        [| lia].
      cbn [andb]. unfold dest1.
      replace (Z.to_nat (Z.of_nat off + Z.of_nat w)) with (off + w)%nat by lia.
      by rewrite !Nat2Z.id. }
    assert (Hsame : w = 0%nat -> dest1 = dest).
    { intros ->. unfold dest1. cbn [take app]. rewrite Nat.add_0_r. apply take_drop. }
    assert (Hcopy1 :
      memcpy dest ((Z.of_nat r + y this) * Z.of_nat bw + x this) (Some own)
        (Z.of_nat r * width this) (Z.of_nat w) = Some dest1).
    { rewrite Hcopy. destruct (decide (w = 0%nat)) as [Hzero |]; [| reflexivity].
      by rewrite (Hsame Hzero). }
    assert (Hlen1 : length dest1 = length dest).
    { unfold dest1. rewrite !length_app, !length_take, !length_drop. lia. }
    destruct (IH (S r) hh dest1) as (dest' & Hloop & Hlen' & Hcells & Hother);
      [lia | exact Hown | lia |].
    exists dest'. split.
    { cbn [UiObj.copyRows].
      destruct (Z.ltb_spec (Z.of_nat r) (Z.of_nat hh)); [| lia].
      rewrite Hcopy1. cbn [mbind option_bind].
      replace (Z.of_nat r + 1) with (Z.of_nat (S r)) by lia. exact Hloop. }
    split; [lia |]. split.
    + intros r' i Hr' Hi.
      destruct (decide (r' = r)) as [-> | Hne]; [| apply Hcells; lia].
      rewrite Hother.
      2:{ intros r'' i'' Hr'' Hi''. unfold cell. nia. }
      unfold dest1.
      replace (cell bw xn yn r i) with (length (take off dest) + i)%nat
        by (rewrite length_take; unfold off, cell; lia).
      rewrite lookup_app_r by lia.
      replace (length (take off dest) + i - length (take off dest))%nat with i by lia.
      rewrite lookup_app_l by (rewrite length_take, length_drop; lia).
      rewrite lookup_take_lt by lia. by rewrite lookup_drop.
    + intros j Hj. rewrite Hother.
      2:{ intros r' i Hr' Hi. apply Hj; lia. }
      unfold dest1.
      destruct (decide (j < off)%nat) as [Hlow | Hhigh].
      * rewrite lookup_app_l by (rewrite length_take; lia).
        by rewrite lookup_take_lt by lia.
      * assert (Hpast : (off + w <= j)%nat).
        { destruct (decide (j < off + w)%nat) as [Hin |]; [| lia].
          exfalso. apply (Hj r (j - off)%nat); [lia | lia |]. unfold off, cell in *. lia. }
        rewrite lookup_app_r by (rewrite length_take; lia).
        rewrite lookup_app_r by (rewrite !length_take, length_drop; lia).
        rewrite lookup_drop, !length_take, length_drop. f_equal. lia.
Qed.

End CopiedRows.

(** X13.  [copyToParent] on an object that starts inside the buffer of its
    container returns and copies the object row by row to its place in
    that buffer: pixel [i] of row [r] goes to column [x + i] of row
    [y + r].  What sticks out on the right or at the bottom is cut off,
    every other pixel of the container keeps its value, the size of the
    buffer is unchanged and no object but the container is touched. *)
Theorem copyToParent_blits_rows :
  forall (st : heap) (p q : loc) (o po : node) (own dest : list Z)
         (xn yn W H bw bh : nat),
    st !! p = Some o -> parent (base o) = Some q -> st !! q = Some po ->
    surface (base po) = mkSprite (Z.of_nat bw) (Z.of_nat bh) (Some dest) ->
    frameBuffer (surface (base o)) = Some own ->
    x (base o) = Z.of_nat xn -> y (base o) = Z.of_nat yn ->
    width (base o) = Z.of_nat W -> height (base o) = Z.of_nat H ->
    (xn <= bw)%nat -> length own = (W * H)%nat -> length dest = (bw * bh)%nat ->
    exists dest' : list Z,
      UiObj.copyToParent st p
      = Some (<[q := onBase (set_surface
                               (mkSprite (Z.of_nat bw) (Z.of_nat bh) (Some dest')))
                       po]> st)
      /\ length dest' = length dest
      /\ (forall r i : nat,
             (r < Nat.min H (bh - yn))%nat -> (i < Nat.min W (bw - xn))%nat ->
             dest' !! cell bw xn yn r i = own !! (r * W + i)%nat)
      /\ (forall j : nat,
             (forall r i : nat,
                 (r < Nat.min H (bh - yn))%nat -> (i < Nat.min W (bw - xn))%nat ->
                 j <> cell bw xn yn r i) ->
             dest' !! j = dest !! j).
Proof.
  intros st p q o po own dest xn yn W H bw bh Hp Hparent Hq Hsurface Hbuf
    Hx Hy Hwidth Hheight Hin Hown Hdest.
  set (w := Nat.min W (bw - xn)). set (hh := Nat.min H (bh - yn)).
  assert (Hw : Z.min (width (base o)) (Z.of_nat bw - x (base o)) = Z.of_nat w)
    by (rewrite Hwidth, Hx; unfold w; lia).
  assert (Hrun : exists dest' : list Z,
    UiObj.copyRows (S (Z.to_nat (Z.min (height (base o)) (Z.of_nat bh - y (base o)))))
      0 (Z.min (height (base o)) (Z.of_nat bh - y (base o))) (Z.of_nat w) (base o)
      (Some own) (Z.of_nat bw) dest = Some dest'
    /\ length dest' = length dest
    /\ (forall r i : nat, (r < hh)%nat -> (i < w)%nat ->
                          dest' !! cell bw xn yn r i = own !! (r * W + i)%nat)
    /\ (forall j : nat,
           (forall r i : nat, (r < hh)%nat -> (i < w)%nat -> j <> cell bw xn yn r i) ->
           dest' !! j = dest !! j)).
  { destruct (decide (bh < yn)%nat) as [Hbelow | Hinside].
    - exists dest. cbn [UiObj.copyRows].
      destruct (Z.ltb_spec 0 (Z.min (height (base o)) (Z.of_nat bh - y (base o))));
        [lia |].
      split; [reflexivity |]. split; [reflexivity |].
      split; [intros r i Hr; unfold hh in Hr; lia | reflexivity].
    - replace (Z.min (height (base o)) (Z.of_nat bh - y (base o))) with (Z.of_nat hh)
        by (rewrite Hheight, Hy; unfold hh; lia).
      rewrite Nat2Z.id.
      destruct (copyRows_blit xn yn W bw w (base o) own Hx Hy Hwidth
                  ltac:(unfold w; lia) ltac:(unfold w; lia) hh 0%nat hh dest)
        as (dest' & Hloop & Hlen & Hcells & Hother).
      + lia.
      + unfold hh. nia.
      + unfold hh. nia.
      + exists dest'. split; [exact Hloop |]. split; [exact Hlen |]. split.
        * intros r i Hr Hi. apply Hcells; lia.
        * intros j Hj. apply Hother. intros r i Hr Hi. apply Hj; lia. }
  destruct Hrun as (dest' & Hloop & Hlen & Hcells & Hother).
  exists dest'. split.
  { unfold UiObj.copyToParent. rewrite Hp. cbn [mbind option_bind].
    rewrite Hparent. cbn [mbind option_bind]. rewrite Hq. cbn [mbind option_bind].
    rewrite Hsurface. cbn [frameBuffer sprite_width sprite_height].
    rewrite Hbuf, Hw, Hloop. reflexivity. }
  split; [exact Hlen |]. split; [exact Hcells | exact Hother].
Qed.

Lemma copyToParent_blits_rows_witness :
  exists (st' : heap) (dest' : list Z),
    UiObj.copyToParent clippedLabel 1%nat = Some st'
    /\ (frameBuffer ∘ surface ∘ base) <$> st' !! 0%nat = Some (Some dest')
    /\ dest' !! 12%nat = Some 1 /\ dest' !! 23%nat = Some 10
    /\ dest' !! 16%nat = Some 0.
Proof.
  lookup_node clippedLabel 1%nat ipattern:(Hlabel).
  lookup_node clippedLabel 0%nat ipattern:(Hframe).
  match type of Hlabel with
  | _ = Some ?l =>
      match type of Hframe with
      | _ = Some ?f =>
          destruct (copyToParent_blits_rows clippedLabel 1%nat 0%nat l f
                      [1; 2; 3; 4; 5; 6; 7; 8; 9; 10; 11; 12] (replicate 32 0)
                      4 1 6 2 8 4 Hlabel eq_refl Hframe eq_refl eq_refl eq_refl
                      eq_refl eq_refl eq_refl)
            as (dest' & Hcopy & _ & Hcells & Hother);
            [lia | reflexivity | reflexivity |]
      end
  end.
  eexists _, dest'. split; [exact Hcopy |].
  split; [by rewrite lookup_insert_eq |]. split; [| split].
  - exact (Hcells 0%nat 0%nat ltac:(cbn; lia) ltac:(cbn; lia)).
  - exact (Hcells 1%nat 3%nat ltac:(cbn; lia) ltac:(cbn; lia)).
  - rewrite Hother; [reflexivity |].
    intros r i Hr Hi. unfold cell. cbn in Hr, Hi. lia.
Defined.

(** ** Text layout *)

Section TextLayout.

Context `{M : TextMetrics}.

Lemma shrink_fits (t : UiLabel.this_t) (txt : string) (lineStart : Z) (fuel : nat) :
  forall lineEnd e : Z,
    UiLabel.shrink fuel t txt lineStart lineEnd = Some e ->
    textWidth (ArduinoString.substring txt lineStart e) <= UiLabel.textAreaWidth t
    \/ e - lineStart <= 1.
Proof.
  induction fuel as [| fuel IH]; intros lineEnd e Hrun; [discriminate |].
  cbn [UiLabel.shrink] in Hrun.
  destruct ((textWidth (ArduinoString.substring txt lineStart lineEnd)
             <=? UiLabel.textAreaWidth t) || (lineEnd - lineStart <=? 1)) eqn:Hstop.
  - injection Hrun as <-. apply orb_true_iff in Hstop as [Hfit | Hshort].
    + left. by apply Z.leb_le.
    + right. by apply Z.leb_le.
  - destruct (UiLabel.stepBack _ txt lineStart lineEnd) as [e1 |]; [| discriminate].
    exact (IH e1 e Hrun).
Qed.

Lemma lineLimit_bounds (t : UiLabel.this_t) (txt : string) (offset : Z) :
  exists e : Z,
    UiLabel.lineLimit t txt offset = Some e
    /\ e <= candidateEnd txt
    /\ (offset <= candidateEnd txt -> offset <= e)
    /\ (textWidth (ArduinoString.substring txt offset e) <= UiLabel.textAreaWidth t
        \/ e - offset <= 1)
    /\ (textWidth (ArduinoString.substring txt offset (candidateEnd txt))
        <= UiLabel.textAreaWidth t -> e = candidateEnd txt).
Proof.
  unfold UiLabel.lineLimit. fold (candidateEnd txt).
  destruct (shrink_returns t txt offset
              (S (Z.to_nat (candidateEnd txt - offset))) (candidateEnd txt))
    as (e & Hrun & Hle & Hge); [lia |].
  exists e. split; [exact Hrun |]. split; [exact Hle |]. split; [exact Hge |].
  split; [exact (shrink_fits _ _ _ _ _ _ Hrun) |].
  intros Hfit. cbn [UiLabel.shrink] in Hrun.
  apply Z.leb_le in Hfit. rewrite Hfit in Hrun. cbn [orb] in Hrun. by injection Hrun.
Qed.

Lemma indexFrom_range (c : ascii) :
  forall (s : string) (i : Z),
    ArduinoString.indexFrom c s i = -1
    \/ i <= ArduinoString.indexFrom c s i < i + ArduinoString.length s.
Proof.
  induction s as [| d rest IH]; intros i; [by left |].
  cbn [ArduinoString.indexFrom]. unfold ArduinoString.length. cbn [String.length].
  destruct (Ascii.eqb d c); [right; lia |].
  destruct (IH (i + 1)) as [Hnone | Hin]; [by left |].
  right. unfold ArduinoString.length in Hin. lia.
Qed.

Lemma drawLines_stuck (t : UiLabel.this_t) (limit : Z) :
  limit < ArduinoString.length (text (snd t)) ->
  ArduinoString.length (text (snd t)) < 2 ^ 32 ->
  (forall s : Z, 0 <= s <= limit ->
     exists e : Z, UiLabel.lineLimit t (text (snd t)) s = Some e /\ s <= e <= limit) ->
  forall (fuel : nat) (s e : Z),
    0 <= s <= limit -> 0 <= e <= limit -> UiLabel.drawLines fuel t s e = None.
Proof.
  intros Hlimit Hsize Hstep.
  induction fuel as [| fuel IH]; intros s e Hs He; [reflexivity |].
  cbn [UiLabel.drawLines].
  assert (Hin : (ArduinoString.to_unsigned e <? ArduinoString.length (text (snd t)))
                = true).
  { apply Z.ltb_lt. unfold ArduinoString.to_unsigned. rewrite Z.mod_small; lia. }
  rewrite Hin.
  destruct (Hstep s Hs) as (e' & -> & He').
  cbn [mbind option_bind]. rewrite IH by lia. reflexivity.
Qed.

End TextLayout.

(** X14.  [lineLimit] returns for every text and offset.  The end of line
    it returns is not beyond the first line feed of the text (the end of
    the text if there is none) and, if the offset is not beyond that
    position, not before the offset.  The line it delimits fits the width
    left between padding and outline, or else holds at most one character;
    and if the line up to the line feed fits, that whole line is
    returned. *)
Theorem lineLimit_line_fits :
  forall (M : TextMetrics) (t : UiLabel.this_t) (txt : string) (offset : Z),
    exists e : Z,
      UiLabel.lineLimit t txt offset = Some e
      /\ e <= candidateEnd txt
      /\ (offset <= candidateEnd txt -> offset <= e)
      /\ (textWidth (ArduinoString.substring txt offset e) <= UiLabel.textAreaWidth t
          \/ e - offset <= 1)
      /\ (textWidth (ArduinoString.substring txt offset (candidateEnd txt))
          <= UiLabel.textAreaWidth t -> e = candidateEnd txt).
Proof. intros M t txt offset. apply lineLimit_bounds. Qed.

(** X15.  [drawMultilineText] does not return for a text that contains a
    line feed: every line it asks [lineLimit] for ends at or before the
    first line feed, so the end of line never reaches the end of the text
    and the loop draws on.  The same happens, with or without a line feed,
    as soon as [lineLimit] answers an offset inside the text with that same
    offset. *)
Theorem drawMultilineText_never_passes_line_feed :
  forall (M : TextMetrics) (t : UiLabel.this_t),
    ArduinoString.length (text (snd t)) < 2 ^ 32 ->
    (0 <= ArduinoString.indexOf "010" (text (snd t)) ->
     forall fuel : nat, UiLabel.drawMultilineText fuel t = None)
    /\ (forall s : Z,
           0 <= s < ArduinoString.length (text (snd t)) ->
           UiLabel.lineLimit t (text (snd t)) s = Some s ->
           forall fuel : nat, UiLabel.drawLines fuel t s s = None).
Proof.
  intros M t Hsize. split.
  - intros Hfeed fuel. unfold UiLabel.drawMultilineText.
    set (nl := ArduinoString.indexOf "010" (text (snd t))) in *.
    assert (Hcand : candidateEnd (text (snd t)) = nl).
    { unfold candidateEnd. fold nl. destruct (Z.eqb_spec nl (-1)); [lia | reflexivity]. }
    assert (Hinside : nl < ArduinoString.length (text (snd t))).
    { destruct (indexFrom_range "010" (text (snd t)) 0) as [Hnone | Hin];
        unfold nl, ArduinoString.indexOf in *; lia. }
    apply (drawLines_stuck t nl Hinside Hsize); [| lia | lia].
    intros s Hs.
    destruct (lineLimit_bounds t (text (snd t)) s) as (e & Hrun & Hle & Hge & _).
    exists e. split; [exact Hrun |]. rewrite Hcand in Hle, Hge. lia.
  - intros s Hs Hstall fuel.
    assert (Hloop : forall (n : nat) (s' e' : Z),
               0 <= s' <= s -> 0 <= e' <= s -> s' = s ->
               UiLabel.drawLines n t s' e' = None).
    { induction n as [| n IH]; intros s' e' Hs' He' ->; [reflexivity |].
      cbn [UiLabel.drawLines].
      assert (Hin : (ArduinoString.to_unsigned e'
                     <? ArduinoString.length (text (snd t))) = true).
      { apply Z.ltb_lt. unfold ArduinoString.to_unsigned. rewrite Z.mod_small; lia. }
      rewrite Hin, Hstall. cbn [mbind option_bind].
      rewrite IH by lia. reflexivity. }
    apply Hloop; lia.
Qed.

Lemma drawMultilineText_never_passes_line_feed_witness :
  ArduinoString.length (text (snd twoLineLabel)) < 2 ^ 32
  /\ 0 <= ArduinoString.indexOf "010" (text (snd twoLineLabel))
  /\ UiLabel.drawMultilineText (H := fixedPitch 10 14) 1000 twoLineLabel = None.
Proof.
  assert (Hsize : ArduinoString.length (text (snd twoLineLabel)) < 2 ^ 32)
    by (vm_compute; reflexivity).
  assert (Hfeed : 0 <= ArduinoString.indexOf "010" (text (snd twoLineLabel)))
    by (vm_compute; discriminate).
  split; [exact Hsize |]. split; [exact Hfeed |].
  exact (proj1 (drawMultilineText_never_passes_line_feed (fixedPitch 10 14)
                  twoLineLabel Hsize) Hfeed 1000%nat).
Defined.

(** Where [draw] resizes an autosizing label, the text has just been
    measured into the bounds: it fits on one line, so [drawText] neither
    counts nor breaks lines and the call returns whatever the fuel. *)
Lemma draw_resizing `{TextMetrics} {G : SpriteGraphics} (fuel : nat)
    (o : UiObjData) (l : UiLabelData) :
  label_initialised l = true -> hasPreRender l = false ->
  autosize l = true -> resizeNeeded l = true -> 0 <= outlineThickness l ->
  let tr :=
    UiLabel.autoResize false
      (if (width o =? 0) || (height o =? 0) then UiLabel.autoResize true (o, l)
       else (o, l)) in
  let filled :=
    UiLabel.drawFill tr (fillSprite (UiObj.greyToColour16 0) (surface (fst tr))) in
  let pos := Area.mk
               match hAlignment l with
               | ALIGN_LEFT => xPad l + outlineThickness l
               | ALIGN_CENTRE =>
                   Z.quot (width (fst tr)) 2 - Z.quot (textWidth (text l)) 2
               | ALIGN_RIGHT =>
                   width (fst tr) - textWidth (text l) - xPad l - outlineThickness l
               end
               match vAlignment l with
               | ALIGN_TOP => yPad l + outlineThickness l
               | ALIGN_MIDDLE => Z.quot (height (fst tr)) 2 - Z.quot fontHeight 2 + 1
               | ALIGN_BOTTOM =>
                   height (fst tr) - fontHeight - yPad l - outlineThickness l
               end
               (textWidth (text l)) fontHeight in
  width (fst tr) = textWidth (text l) + 2 * xPad l + 2 * outlineThickness l
  /\ height (fst tr) = fontHeight + 2 * yPad l + 2 * outlineThickness l
  /\ snd tr = UiLabel.set_autosize_flags true false l
  /\ updated (fst tr) = true
  /\ (0 < width (fst tr) -> 0 < height (fst tr) ->
      surface (fst tr)
      = mkSprite (width (fst tr)) (height (fst tr))
          (Some (replicate (Z.to_nat (width (fst tr) * height (fst tr))) 0)))
  /\ (forall o' : UiObjData,
         width o' = width (fst tr) -> height o' = height (fst tr) ->
         UiLabel.getTextPos fuel (o', snd tr) = Some pos)
  /\ UiLabel.draw fuel (o, l)
     = Some (set_surface
               (UiLabel.drawOutline tr
                  match text l with
                  | EmptyString => filled
                  | _ => drawString (textColour l) (text l) (Area.x pos) (Area.y pos)
                           filled
                  end)
               (fst tr), snd tr).
Proof.
  intros Hinit Hpre Hauto Hneeded Hthick tr filled pos.
  set (t2 := if (width o =? 0) || (height o =? 0)
             then UiLabel.autoResize true (o, l) else (o, l)) in *.
  assert (Hl2 : snd t2 = l \/ snd t2 = UiLabel.set_autosize_flags true false l).
  { unfold t2. destruct ((_ =? 0) || (_ =? 0)); [right | left]; reflexivity. }
  assert (Hsnd : snd tr = UiLabel.set_autosize_flags true false l).
  { unfold tr. destruct t2 as [o2 l2]. cbn [snd] in Hl2.
    destruct Hl2 as [-> | ->]; reflexivity. }
  assert (Hw : width (fst tr)
               = textWidth (text l) + 2 * xPad l + 2 * outlineThickness l).
  { unfold tr. destruct t2 as [o2 l2]. cbn [snd] in Hl2.
    destruct Hl2 as [-> | ->]; cbn; lia. }
  assert (Hh : height (fst tr) = fontHeight + 2 * yPad l + 2 * outlineThickness l).
  { unfold tr. destruct t2 as [o2 l2]. cbn [snd] in Hl2.
    destruct Hl2 as [-> | ->]; cbn; lia. }
  assert (Hupd : updated (fst tr) = true).
  { unfold tr. destruct t2 as [o2 l2]. reflexivity. }
  assert (Hpos : forall o' : UiObjData,
             width o' = width (fst tr) -> height o' = height (fst tr) ->
             UiLabel.getTextPos fuel (o', snd tr) = Some pos).
  { intros o' Hw' Hh'. unfold UiLabel.getTextPos, UiLabel.textAreaWidth.
    rewrite Hsnd. cbn [fst snd].
    cbn [text xPad yPad outlineThickness hAlignment vAlignment
           UiLabel.set_autosize_flags].
    rewrite Hw', Hh', Hw.
    destruct (Z.ltb_spec (textWidth (text l) + 2 * xPad l + 2 * outlineThickness l
                          - xPad l * 2 - outlineThickness l * 2) (textWidth (text l)));
      [lia |].
    cbn [mbind option_bind]. unfold pos. rewrite Hw, Hh. reflexivity. }
  assert (Hfresh : 0 < width (fst tr) -> 0 < height (fst tr) ->
                   surface (fst tr)
                   = mkSprite (width (fst tr)) (height (fst tr))
                       (Some (replicate (Z.to_nat (width (fst tr) * height (fst tr))) 0))).
  { unfold tr. destruct t2 as [o2 l2]. unfold UiLabel.autoResize, UiLabel.resize.
    cbn [fst snd width height surface set_width set_height set_surface set_updated].
    unfold createSprite. cbn [deleteSprite frameBuffer].
    intros Hwpos Hhpos.
    destruct (Z.ltb_spec (textWidth (text (UiLabel.set_autosize_flags true false l2))
                          + xPad (UiLabel.set_autosize_flags true false l2) * 2
                          + outlineThickness (UiLabel.set_autosize_flags true false l2) * 2)
                1); [lia |].
    destruct (Z.ltb_spec (fontHeight
                          + yPad (UiLabel.set_autosize_flags true false l2) * 2
                          + outlineThickness (UiLabel.set_autosize_flags true false l2) * 2)
                1); [lia |].
    reflexivity. }
  split; [exact Hw |]. split; [exact Hh |]. split; [exact Hsnd |].
  split; [exact Hupd |]. split; [exact Hfresh |]. split; [exact Hpos |].
  unfold UiLabel.draw. rewrite Hinit, Hpre, Hauto, Hneeded. cbn [negb andb].
  fold t2. fold tr. fold filled.
  unfold UiLabel.drawText.
  destruct tr as [o3 l3] eqn:Htr. cbn [fst snd] in *. subst l3.
  cbn [text xPad UiLabel.set_autosize_flags textColour].
  destruct (text l) as [| c rest] eqn:Htext; [reflexivity |].
  rewrite (Hpos o3 eq_refl eq_refl). cbn [mbind option_bind].
  rewrite Hw.
  destruct (Z.ltb_spec (textWidth (String c rest) + 2 * xPad l + 2 * outlineThickness l
                        - xPad l * 2) (textWidth (String c rest))); [lia |].
  reflexivity.
Qed.

(** X16.  A new text shows in the bounds of an autosizing label at its next
    [draw]: [setText] followed by [draw] returns and leaves the label as
    wide as the text plus padding and outline on both sides and as high as
    a line of text plus the same, with no resize pending.  Its buffer has
    been replaced by a fresh one of that size, on which [draw] has painted:
    the background, the fill, the text in one piece at the position
    [getTextPos] gives (no text call for the empty text), then the
    outline.  If a pre-rendering is pending, that [draw] only clears the
    mark: the label keeps its old bounds and surface, and the resize stays
    pending. *)
Theorem draw_after_setText_resizes :
  forall (M : TextMetrics) (G : SpriteGraphics) (fuel : nat)
         (t : UiLabel.this_t) (txt : string),
    label_initialised (snd t) = true -> autosize (snd t) = true ->
    0 <= outlineThickness (snd t) ->
    let w := textWidth txt + 2 * xPad (snd t) + 2 * outlineThickness (snd t) in
    let h := fontHeight + 2 * yPad (snd t) + 2 * outlineThickness (snd t) in
    (hasPreRender (snd t) = false ->
     exists t1 : UiLabel.this_t,
       UiLabel.draw fuel (UiLabel.setText txt t) = Some t1
       /\ width (fst t1) = w /\ height (fst t1) = h
       /\ text (snd t1) = txt /\ resizeNeeded (snd t1) = false
       /\ updated (fst t1) = true
       /\ (0 < w -> 0 < h ->
           let fresh := mkSprite w h (Some (replicate (Z.to_nat (w * h)) 0)) in
           let filled :=
             UiLabel.drawFill t1 (fillSprite (UiObj.greyToColour16 0) fresh) in
           exists pos : area,
             (txt <> EmptyString -> UiLabel.getTextPos fuel t1 = Some pos)
             /\ surface (fst t1)
                = UiLabel.drawOutline t1
                    match txt with
                    | EmptyString => filled
                    | _ => drawString (textColour (snd t1)) txt
                             (Area.x pos) (Area.y pos) filled
                    end))
    /\ (hasPreRender (snd t) = true ->
        exists t1 : UiLabel.this_t,
          UiLabel.draw fuel (UiLabel.setText txt t) = Some t1
          /\ fst t1 = set_updated true (fst t)
          /\ text (snd t1) = txt /\ hasPreRender (snd t1) = false
          /\ resizeNeeded (snd t1) = true).
Proof.
  intros M G fuel [o l] txt Hinit Hauto Hthick. cbn [fst snd] in Hinit, Hauto, Hthick.
  cbn zeta. cbn [fst snd]. split.
  - intros Hpre. unfold UiLabel.setText.
    set (o0 := set_updated true o).
    set (l0 := mkLabel txt _ _ _ _ _ _ _ true _ _ _ _ _ _ _ _ _ _ _ _).
    destruct (draw_resizing fuel o0 l0 Hinit Hpre Hauto eq_refl Hthick)
      as (Hw & Hh & Hsnd & Hupd & Hfresh & Hpos & Hdraw).
    cbv zeta in Hw, Hh, Hsnd, Hupd, Hfresh, Hpos, Hdraw.
    set (tr := UiLabel.autoResize false _) in *.
    eexists. split; [exact Hdraw |]. cbn [fst snd].
    change (text l0) with txt in *. change (xPad l0) with (xPad l) in *.
    change (yPad l0) with (yPad l) in *.
    change (outlineThickness l0) with (outlineThickness l) in *.
    split; [exact Hw |]. split; [exact Hh |].
    split; [rewrite Hsnd; reflexivity |]. split; [rewrite Hsnd; reflexivity |].
    split; [exact Hupd |].
    intros Hwpos Hhpos.
    eexists. split; [intros _; apply Hpos; reflexivity |].
    cbn [surface set_surface].
    rewrite <- Hw in Hwpos |- *. rewrite <- Hh in Hhpos |- *.
    rewrite <- (Hfresh Hwpos Hhpos).
    destruct tr as [o3 l3]. cbn [fst snd] in *. subst l3. reflexivity.
  - intros Hpre. unfold UiLabel.setText, UiLabel.draw.
    cbn [label_initialised hasPreRender].
    rewrite Hinit, Hpre. cbn [negb]. eexists. split; [reflexivity |].
    cbn [fst snd]. repeat split.
Qed.

Lemma draw_after_setText_resizes_witness :
  exists t1 : UiLabel.this_t,
    UiLabel.draw (H := fixedPitch 10 14) (G := blockGraphics (H := fixedPitch 10 14))
      0 (UiLabel.setText "Hello" hiLabel) = Some t1
    /\ width (fst t1) = 90 /\ height (fst t1) = 54
    /\ text (snd t1) = "Hello" /\ resizeNeeded (snd t1) = false.
Proof.
  assert (Hthick : 0 <= outlineThickness (snd hiLabel)) by (vm_compute; discriminate).
  destruct (proj1 (draw_after_setText_resizes (fixedPitch 10 14)
                     (blockGraphics (H := fixedPitch 10 14)) 0 hiLabel "Hello"
                     eq_refl eq_refl Hthick) eq_refl)
    as (t1 & Hdraw & Hw & Hh & Htext & Hneeded & _).
  exists t1. split; [exact Hdraw |].
  split; [exact Hw |]. split; [exact Hh |]. split; [exact Htext | exact Hneeded].
Defined.

(** X17.  A line that fits the width left between padding and outline is
    placed inside that width, whatever the horizontal alignment: it starts
    no further left than padding plus outline and ends no further right
    than the width of the label less padding and outline.  A line that
    does not fit starts at padding plus outline. *)
Theorem getTextHPos_inside_padding :
  forall (M : TextMetrics) (t : UiLabel.this_t) (txt : string),
    0 <= xPad (snd t) -> 0 <= outlineThickness (snd t) -> 0 <= textWidth txt ->
    let inset := xPad (snd t) + outlineThickness (snd t) in
    (textWidth txt <= UiLabel.textAreaWidth t ->
     inset <= UiLabel.getTextHPos t txt
     /\ UiLabel.getTextHPos t txt + textWidth txt <= width (fst t) - inset)
    /\ (UiLabel.textAreaWidth t < textWidth txt -> UiLabel.getTextHPos t txt = inset).
Proof.
  intros M t txt Hpad Hthick Hwide inset. unfold UiLabel.getTextHPos.
  unfold UiLabel.textAreaWidth in *. split.
  - intros Hfits.
    destruct (Z.ltb_spec (width (fst t) - xPad (snd t) * 2 - outlineThickness (snd t) * 2)
                (textWidth txt)); [lia |].
    unfold inset. destruct (hAlignment (snd t)); [lia | | lia].
    pose proof (Z.quot_rem' (width (fst t)) 2) as Hw.
    pose proof (Z.quot_rem' (textWidth txt) 2) as Ht.
    pose proof (Z.rem_bound_pos (width (fst t)) 2 ltac:(lia) ltac:(lia)) as Hwr.
    pose proof (Z.rem_bound_pos (textWidth txt) 2 Hwide ltac:(lia)) as Htr.
    lia.
  - intros Hlong.
    destruct (Z.ltb_spec (width (fst t) - xPad (snd t) * 2 - outlineThickness (snd t) * 2)
                (textWidth txt)); [reflexivity | lia].
Qed.

Lemma getTextHPos_inside_padding_witness :
  20 <= UiLabel.getTextHPos (H := fixedPitch 10 14) hiLabel "Hi"
  /\ UiLabel.getTextHPos (H := fixedPitch 10 14) hiLabel "Hi" + 20 <= 60 - 20.
Proof.
  apply (proj1 (getTextHPos_inside_padding (fixedPitch 10 14) hiLabel "Hi"
                  ltac:(vm_compute; discriminate) ltac:(vm_compute; discriminate)
                  ltac:(vm_compute; discriminate))).
  vm_compute. discriminate.
Defined.

(** ** Buttons and the handlers of a modal *)

Section Handlers.

Context `{A : Application}.

(** X18.  A button whose function pointer [callback] is null answers every
    touch with false and changes nothing, also when it holds a
    [std::function] to call: the test of [touchEvent] looks at the function
    pointer only.  The constructor that takes a [std::function] leaves the
    function pointer as it finds it in the storage, so a button built by
    it on storage with a null pointer there never calls its function. *)
Theorem button_without_function_pointer_never_fires :
  forall (fuel : nat) (st : heap) (p : loc) (px py : Z),
    (forall (o : node) (l : UiLabelData) (b : UiButtonData),
        st !! p = Some o -> cls o = IsButton l b -> callback b = None ->
        touchEvent (S fuel) st p px py = Some (st, false))
    /\ (forall (M : TextMetrics) (x0 y0 : Z) (txt : string) (cb : option handler)
               (raw : UiLabel.this_t) (slot : UiButtonData),
           callback slot = None ->
           st !! p = Some (mkNode (fst (fst (UiButton.ctor_std x0 y0 txt cb raw slot)))
                             (IsButton (snd (fst (UiButton.ctor_std x0 y0 txt cb raw slot)))
                                (snd (UiButton.ctor_std x0 y0 txt cb raw slot)))) ->
           useStdFunction (snd (UiButton.ctor_std x0 y0 txt cb raw slot)) = true
           /\ stdCallback (snd (UiButton.ctor_std x0 y0 txt cb raw slot)) = cb
           /\ touchEvent (S fuel) st p px py = Some (st, false)).
Proof.
  intros fuel st p px py.
  assert (Hnull : forall (o : node) (l : UiLabelData) (b : UiButtonData),
             st !! p = Some o -> cls o = IsButton l b -> callback b = None ->
             touchEvent (S fuel) st p px py = Some (st, false)).
  { intros o l b Hp Hcls Hcb. rewrite touchEvent_unfold, Hp.
    cbn [mbind option_bind]. rewrite Hcls. unfold UiButton.touchEvent.
    rewrite Hp. cbn [mbind option_bind]. rewrite Hcls, Hcb.
    rewrite bool_decide_eq_true_2 by reflexivity. by rewrite orb_true_r. }
  split; [exact Hnull |].
  intros M x0 y0 txt cb raw slot Hslot Hp.
  split; [reflexivity |]. split; [reflexivity |].
  exact (Hnull _ _ _ Hp eq_refl Hslot).
Qed.

(** X19.  The three handlers a modal binds to its buttons, reached through
    a callback, all return true, hide the modal and flag it
    [visibilityChanged]; the Cancel handler leaves 1 in [result], the OK
    handler and the Close handler both leave 0, so that the result does
    not tell a closed message box from a confirmed one.  They return
    whenever the modal hangs below an object without a container whose
    children record their exposure. *)
Theorem modal_handlers_store_result :
  forall (fuel : nat) (st : heap) (md p : loc) (m o : node)
         (lm : UiLabelData) (fm f : UiFrameData) (dm : UiModalData)
         (sender : loc) (event : Z),
    st !! md = Some m -> cls m = IsModal lm fm dm -> visible (base m) = true ->
    parent (base m) = Some p -> st !! p = Some o -> parent (base o) = None ->
    frameOf (cls o) = Some f ->
    Forall (fun c => exists n, st !! c = Some n /\ recordsExposure n = true) (objects f) ->
    forall (h : handler) (r : Z),
      (h = ModalCancel md /\ r = 1) \/ (h = ModalClose md /\ r = 0)
      \/ (h = ModalOk md /\ r = 0) ->
      exists (st' : heap) (m' : node) (dm' : UiModalData),
        runHandler (expose (S (S fuel))) (S (S fuel)) h sender event st = Some (st', true)
        /\ st' !! md = Some m' /\ cls m' = IsModal lm fm dm' /\ result dm' = r
        /\ visible (base m') = false /\ visibilityChanged (base m') = true.
Proof.
  intros fuel st md p m o lm fm f dm sender event Hmd Hcls Hvis Hparent Hp Hroot
    Hf Hall h r Hcase.
  destruct Hcase as [[-> ->] | [[-> ->] | [-> ->]]]; cbn [runHandler];
    [unfold UiModal.cancelPressed | unfold UiModal.closePressed
    | unfold UiModal.okPressed];
    exact (press_hides _ fuel st md p m o lm fm f dm Hmd Hcls Hvis Hparent Hp Hroot
             Hf Hall).
Qed.

End Handlers.

Lemma button_without_function_pointer_never_fires_witness :
  touchEvent (H := idleApplication) 1 looseButton 0%nat 5 5 = Some (looseButton, false).
Proof.
  lookup_at looseButton 0%nat ipattern:(Hbutton).
  assert (Hcls : cls (nodeAt looseButton 0%nat)
                 = IsButton (labelAt looseButton 0%nat) (buttonAt looseButton 0%nat))
    by (vm_compute; reflexivity).
  apply (proj1 (button_without_function_pointer_never_fires (A := idleApplication)
                  0 looseButton 0%nat 5 5) _ _ _ Hbutton Hcls).
  vm_compute. reflexivity.
Defined.

Lemma modal_handlers_store_result_witness :
  exists (st' : heap) (m' : node) (l : UiLabelData) (f : UiFrameData) (d : UiModalData),
    runHandler (H := idleApplication) (expose 2) 2 (ModalCancel 1%nat) 5%nat 101
      messageBoxOpen = Some (st', true)
    /\ st' !! 1%nat = Some m' /\ cls m' = IsModal l f d
    /\ result d = 1 /\ visible (base m') = false.
Proof.
  lookup_at messageBoxOpen 1%nat ipattern:(Hmodal).
  lookup_at messageBoxOpen 0%nat ipattern:(Hroot).
  assert (Hcls : cls (nodeAt messageBoxOpen 1%nat)
                 = IsModal (labelAt messageBoxOpen 1%nat)
                     (frameAt messageBoxOpen 1%nat) (modalAt messageBoxOpen 1%nat))
    by (vm_compute; reflexivity).
  assert (Hvisible : visible (base (nodeAt messageBoxOpen 1%nat)) = true)
    by (vm_compute; reflexivity).
  assert (Hparent : parent (base (nodeAt messageBoxOpen 1%nat)) = Some 0%nat)
    by (vm_compute; reflexivity).
  assert (Htop : parent (base (nodeAt messageBoxOpen 0%nat)) = None)
    by (vm_compute; reflexivity).
  assert (Hframe : frameOf (cls (nodeAt messageBoxOpen 0%nat))
                   = Some (frameAt messageBoxOpen 0%nat))
    by (vm_compute; reflexivity).
  assert (Hall : Forall (fun c => exists n, messageBoxOpen !! c = Some n
                                            /\ recordsExposure n = true)
                   (objects (frameAt messageBoxOpen 0%nat))).
  { replace (objects (frameAt messageBoxOpen 0%nat)) with [1%nat]
      by (vm_compute; reflexivity).
    apply Forall_cons. split; [| exact (Forall_nil_2 _)].
    exists (nodeAt messageBoxOpen 1%nat). split; [exact Hmodal |].
    vm_compute. reflexivity. }
  destruct (modal_handlers_store_result (A := idleApplication) 0 messageBoxOpen
              1%nat 0%nat _ _ _ _ _ _ 5%nat 101 Hmodal Hcls Hvisible Hparent Hroot
              Htop Hframe Hall (ModalCancel 1%nat) 1
              (or_introl (conj eq_refl eq_refl)))
    as (st' & m' & dm' & Hrun & Hm' & Hcls' & Hresult & Hhidden & _).
  exists st', m', (labelAt messageBoxOpen 1%nat), (frameAt messageBoxOpen 1%nat), dm'.
  split; [exact Hrun |]. split; [exact Hm' |]. split; [exact Hcls' |].
  split; [exact Hresult | exact Hhidden].
Defined.

(** ** What exposing, hiding and moving leave alone *)

Section FrameConditions.

Lemma exposureOnly_insert (st st1 : heap) (p : loc) (n n1 : node) :
  exposureOnly st st1 -> sameButExposure n n1 ->
  exposureOnly (<[p := n]> st) (<[p := n1]> st1).
Proof.
  intros Hsame Hnode q. destruct (decide (p = q)) as [<- | Hne].
  - rewrite !lookup_insert_eq. by exists n1.
  - rewrite !lookup_insert_ne by assumption. apply Hsame.
Qed.

Lemma sameButExposure_moved (g : UiObjData -> Z) (g' : UiObjData -> Z) (n n1 : node) :
  (forall b e a, g (set_exposeArea a (set_exposed e b)) = g b) ->
  (forall b e a, g' (set_exposeArea a (set_exposed e b)) = g' b) ->
  sameButExposure n n1 ->
  sameButExposure (onBase (fun b => set_y (g' b) (set_x (g b) b)) n)
    (onBase (fun b => set_y (g' b) (set_x (g b) b)) n1).
Proof.
  intros Hg Hg' [Hcls Hbase]. split; [exact Hcls |].
  cbn [onBase base]. rewrite Hbase at 1 2 3. rewrite Hg, Hg'.
  by destruct (base n).
Qed.

(** X20.  [expose], [hide] and [move] neither create nor remove an object
    and change no member of any object other than these: [expose] the
    marks [exposed] and [exposeArea]; [hide], on top of that, [visible] and
    [visibilityChanged] of the object it is called on; [move], on top of
    the marks, [x] and [y] of the object it is called on.  Sizes, buffers,
    containers, children and all flags that drive the redraw stay as they
    are. *)
Theorem expose_hide_move_leave_the_rest :
  (forall (fuel : nat) (st st' : heap) (p : loc) (xArea : area),
      expose fuel st p xArea = Some st' -> exposureOnly st st')
  /\ (forall (fuel : nat) (st st' : heap) (p : loc),
         hide fuel st p = Some st' ->
         exists o : node,
           st !! p = Some o
           /\ exposureOnly
                (<[p := if visible (base o)
                        then onBase (fun b => set_visibilityChanged true
                                                (set_visible false b)) o
                        else o]> st) st')
  /\ (forall (fuel : nat) (st st' : heap) (p : loc) (x0 y0 : Z) (relative : bool),
         move fuel st p x0 y0 relative = Some st' ->
         exists o : node,
           st !! p = Some o
           /\ exposureOnly
                (<[p := onBase (fun b => set_y (if relative then y b + y0 else y0)
                                           (set_x (if relative then x b + x0 else x0) b))
                          o]> st) st').
Proof.
  split; [| split].
  - intros fuel st st' p xArea. apply expose_exposureOnly.
  - intros fuel st st' p Hhide. unfold hide, UiObj.hide in Hhide.
    destruct (st !! p) as [o |] eqn:Hp; [| discriminate].
    cbn [mbind option_bind] in Hhide. exists o. split; [reflexivity |].
    destruct (visible (base o)).
    + destruct (UiObj.topLevel fuel _ p) as [top |]; [| discriminate].
      cbn [mbind option_bind] in Hhide. exact (expose_exposureOnly _ _ _ _ _ Hhide).
    + injection Hhide as <-. rewrite insert_id by assumption. apply exposureOnly_refl.
  - intros fuel st st' p x0 y0 relative Hmove. unfold move, UiObj.move in Hmove.
    destruct (st !! p) as [o |] eqn:Hp; [| discriminate].
    cbn [mbind option_bind] in Hmove. exists o. split; [reflexivity |].
    set (moved := fun n : node =>
           onBase (fun b => set_y (if relative then y b + y0 else y0)
                              (set_x (if relative then x b + x0 else x0) b)) n).
    assert (Hfirst : exists st1 : heap,
               match parent (base o) with
               | Some q => expose fuel st q (UiObj.getArea (base o))
               | None => Some st
               end = Some st1).
    { destruct (match parent (base o) with
                | Some q => expose fuel st q (UiObj.getArea (base o))
                | None => Some st
                end) as [st1 |]; [by exists st1 | discriminate]. }
    destruct Hfirst as [st1 Hfirst]. rewrite Hfirst in Hmove.
    cbn [mbind option_bind] in Hmove.
    assert (Hsame1 : exposureOnly st st1).
    { destruct (parent (base o)) as [q |].
      - exact (expose_exposureOnly _ _ _ _ _ Hfirst).
      - injection Hfirst as <-. apply exposureOnly_refl. }
    destruct (exposureOnly_lookup _ _ p o Hsame1 Hp) as (o1 & Hp1 & Hnode).
    rewrite Hp1 in Hmove. cbn [mbind option_bind] in Hmove.
    assert (Hmoved : (if relative
                      then onBase (fun b => set_y (y b + y0) (set_x (x b + x0) b)) o1
                      else onBase (fun b => set_y y0 (set_x x0 b)) o1) = moved o1)
      by (unfold moved; by destruct relative).
    rewrite Hmoved in Hmove.
    assert (Hsame2 : exposureOnly (<[p := moved o]> st) (<[p := moved o1]> st1)).
    { apply exposureOnly_insert; [exact Hsame1 |].
      unfold moved. apply sameButExposure_moved; [| | exact Hnode];
        intros b e a; by destruct relative. }
    destruct (parent (base (moved o1))) as [q |].
    + exact (exposureOnly_trans _ _ _ Hsame2 (expose_exposureOnly _ _ _ _ _ Hmove)).
    + by injection Hmove as <-.
Qed.

End FrameConditions.

(** ** Grey levels *)

(** X21.  [greyToColour16] looks at the low four bits of the grey level
    only, maps the sixteen levels to sixteen different colours, black to
    0, and stays within 16 bits, so that storing the colour in a [uint16_t]
    member and handing it back to the drawing calls loses nothing. *)
Theorem greyToColour16_levels :
  (forall g : Z, UiObj.greyToColour16 g = UiObj.greyToColour16 (g mod 16))
  /\ (forall g : Z,
         0 <= UiObj.greyToColour16 g < 65536
         /\ UiLabel.u16 (UiObj.greyToColour16 g) = UiObj.greyToColour16 g)
  /\ (forall a b : Z,
         nibble a -> nibble b ->
         UiObj.greyToColour16 a = UiObj.greyToColour16 b -> a = b)
  /\ UiObj.greyToColour16 0 = 0.
Proof.
  assert (Hlow : forall g : Z, UiObj.greyToColour16 g = UiObj.greyToColour16 (g mod 16)).
  { intros g. unfold UiObj.greyToColour16.
    change 16 with (2 ^ 4). rewrite <- Z.land_ones by lia.
    rewrite <- !Z.land_assoc. reflexivity. }
  assert (Hback : forall a : Z,
             nibble a ->
             Z.lor (Z.land (Z.shiftr (UiObj.greyToColour16 a) 3) 3)
               (Z.land (Z.shiftr (UiObj.greyToColour16 a) 6) 12) = a
             /\ 0 <= UiObj.greyToColour16 a < 65536).
  { intros a Ha. apply nibble_cases in Ha.
    repeat (destruct Ha as [-> | Ha]); try subst a; vm_compute; repeat split;
      discriminate. }
  split; [exact Hlow |]. split; [| split; [| reflexivity]].
  - intros g. rewrite (Hlow g).
    assert (Hn : nibble (g mod 16)) by (unfold nibble; pose proof (Z.mod_pos_bound g 16); lia).
    destruct (Hback _ Hn) as [_ Hrange]. split; [exact Hrange |].
    unfold UiLabel.u16. apply Z.mod_small. exact Hrange.
  - intros a b Ha Hb Hsame.
    destruct (Hback a Ha) as [<- _]. destruct (Hback b Hb) as [<- _].
    by rewrite Hsame.
Qed.

(** ** Pixel buffers *)

Section Buffers.

Lemma createSprite_fits (w h : Z) (o : UiObjData) :
  frameBuffer (surface o) = None ->
  bufferFits (set_surface (createSprite w h (surface o)) (set_height h (set_width w o))).
Proof.
  intros Hnone buf. unfold createSprite. rewrite Hnone.
  cbn [surface set_surface width height set_width set_height].
  destruct (Z.ltb_spec w 1), (Z.ltb_spec h 1); cbn [orb]; try (rewrite Hnone; discriminate).
  cbn [frameBuffer sprite_width sprite_height]. intros [= <-].
  rewrite length_replicate. repeat split; lia.
Qed.

Lemma bufferFits_flags (o o' : UiObjData) :
  surface o' = surface o -> width o' = width o -> height o' = height o ->
  bufferFits o -> bufferFits o'.
Proof.
  intros Hs Hw Hh Hfits buf. rewrite Hs, Hw, Hh. apply Hfits.
Qed.

Lemma init_fits (x0 y0 w h : Z) (unbuf : bool) (o : UiObjData) :
  bufferFits (UiObj.init x0 y0 w h unbuf o).
Proof.
  unfold UiObj.init.
  set (o1 := set_surface noSprite (set_height h (set_width w (set_y y0 (set_x x0 o))))).
  destruct (negb unbuf && (0 <? w) && (0 <? h)).
  - eapply bufferFits_flags;
      [| | | exact (createSprite_fits w h o1 eq_refl)]; reflexivity.
  - intros buf. cbn. discriminate.
Qed.

Lemma resize_fits (w h : Z) (o : UiObjData) : bufferFits (UiLabel.resize w h o).
Proof.
  unfold UiLabel.resize.
  set (o1 := set_surface (deleteSprite (surface o)) o).
  eapply bufferFits_flags; [| | | exact (createSprite_fits w h o1 eq_refl)];
    reflexivity.
Qed.

Lemma createBuffer_fits (w h : Z) (o : UiObjData) :
  frameBuffer (surface o) = None -> bufferFits (UiObj.createBuffer w h o).
Proof.
  intros Hnone. unfold UiObj.createBuffer. destruct (unbuffered o).
  - eapply bufferFits_flags; [| | | exact (createSprite_fits w h o Hnone)];
      reflexivity.
  - intros buf. rewrite Hnone. discriminate.
Qed.

Lemma label_init_fits (x0 y0 w h : Z) (txt : string) (unbuf : bool)
    (t : UiLabel.this_t) :
  bufferFits (fst (UiLabel.init x0 y0 w h txt unbuf t)).
Proof.
  destruct t as [o l]. unfold UiLabel.init.
  eapply bufferFits_flags; [| | | exact (init_fits x0 y0 w h unbuf o)]; reflexivity.
Qed.

(** X22.  The pixel buffer of an object holds exactly [width * height]
    bytes, in a sprite of the object's width and height, whenever the
    object has a buffer: that is so after [UiObj::init], after the
    constructors of [UiLabel] (with or without a given size) and of
    [UiFrame], after [resize], after [autoResize(false)], which is the call
    [draw] makes, and after [createBuffer] or [autoResize(true)] on an
    object that had no buffer.  [autoResize(true)] on a label that has a
    buffer is not among them: it takes the size of the text and keeps the
    sprite it has.  An object of which a dimension is below one has no
    buffer. *)
Theorem buffer_holds_width_times_height :
  (forall (x0 y0 w h : Z) (unbuf : bool) (o : UiObjData),
      bufferFits (UiObj.init x0 y0 w h unbuf o))
  /\ (forall (w h : Z) (o : UiObjData), bufferFits (UiLabel.resize w h o))
  /\ (forall (w h : Z) (o : UiObjData),
         frameBuffer (surface o) = None -> bufferFits (UiObj.createBuffer w h o))
  /\ (forall (x0 y0 w h : Z) (txt : string) (unbuf : bool) (raw : UiLabel.this_t),
         bufferFits (fst (UiLabel.ctor x0 y0 w h txt unbuf raw)))
  /\ (forall (M : TextMetrics) (x0 y0 : Z) (txt : string) (raw : UiLabel.this_t),
         bufferFits (fst (UiLabel.ctor_autosize x0 y0 txt raw)))
  /\ (forall (M : TextMetrics) (t : UiLabel.this_t),
         bufferFits (fst (UiLabel.autoResize false t)))
  /\ (forall (M : TextMetrics) (t : UiLabel.this_t),
         frameBuffer (surface (fst t)) = None ->
         bufferFits (fst (UiLabel.autoResize true t)))
  /\ (forall (M : TextMetrics) (t : UiLabel.this_t) (buf : list Z),
         frameBuffer (surface (fst t)) = Some buf ->
         surface (fst (UiLabel.autoResize true t)) = surface (fst t)
         /\ width (fst (UiLabel.autoResize true t))
            = textWidth (text (snd t)) + xPad (snd t) * 2
              + outlineThickness (snd t) * 2
         /\ height (fst (UiLabel.autoResize true t))
            = fontHeight + yPad (snd t) * 2 + outlineThickness (snd t) * 2)
  /\ (forall (x0 y0 w h : Z) (hw : bool) (raw : UiFrame.this_t),
         bufferFits (fst (fst (UiFrame.ctor x0 y0 w h hw raw))))
  /\ (forall o : UiObjData,
         bufferFits o -> width o < 1 \/ height o < 1 -> frameBuffer (surface o) = None).
Proof.
  split; [exact init_fits |]. split; [exact resize_fits |].
  split; [exact createBuffer_fits |].
  split; [| split; [| split; [| split; [| split; [| split]]]]].
  - intros x0 y0 w h txt unbuf [o l]. unfold UiLabel.ctor. apply label_init_fits.
  - intros M x0 y0 txt [o l]. unfold UiLabel.ctor_autosize, UiLabel.init_autosize.
    set (o1 := set_surface noSprite (UiObj.init x0 y0 0 0 false (UiObj.ctor o))).
    destruct (UiLabel.init x0 y0 0 0 txt false (o1, l)) as [o2 l2] eqn:Hinit.
    assert (Hnone : frameBuffer (surface o2) = None).
    { replace o2 with (fst (UiLabel.init x0 y0 0 0 txt false (o1, l)))
        by (by rewrite Hinit). reflexivity. }
    unfold UiLabel.autoResize. cbn [fst].
    set (wd := textWidth _ + _ + _). set (ht := fontHeight + _ + _).
    eapply bufferFits_flags;
      [| | | exact (createBuffer_fits wd ht (set_height ht (set_width wd o2)) Hnone)];
      reflexivity.
  - intros M [o l]. unfold UiLabel.autoResize. cbn [fst].
    set (wd := textWidth _ + _ + _). set (ht := fontHeight + _ + _).
    eapply bufferFits_flags;
      [| | | exact (resize_fits wd ht (set_height ht (set_width wd o)))]; reflexivity.
  - intros M [o l] Hnone. cbn [fst] in Hnone. unfold UiLabel.autoResize. cbn [fst].
    set (wd := textWidth _ + _ + _). set (ht := fontHeight + _ + _).
    eapply bufferFits_flags;
      [| | | exact (createBuffer_fits wd ht (set_height ht (set_width wd o)) Hnone)];
      reflexivity.
  - intros M [o l] buf Hsome. cbn [fst snd] in *.
    unfold UiLabel.autoResize, UiObj.createBuffer. cbn [fst].
    cbn [unbuffered set_width set_height].
    destruct (unbuffered o); cbn [width height surface set_surface set_updated
                                    set_hardwareDraw set_unbuffered set_width set_height].
    + unfold createSprite. rewrite Hsome. repeat split.
    + repeat split.
  - intros x0 y0 w h hw [[o l] f]. unfold UiFrame.ctor, UiFrame.init.
    cbn [UiLabel.ctor_default].
    destruct (UiLabel.init x0 y0 w h EmptyString hw (UiObj.ctor o, _)) as [o1 l1] eqn:Hinit.
    assert (Hfits : bufferFits o1).
    { replace o1 with (fst (UiLabel.init x0 y0 w h EmptyString hw
                              (UiObj.ctor o,
                               mkLabel (text l) false (hasOutline l) (hasFill l)
                                 (borderRounded l) (fillRounded l) (customFont l)
                                 (autosize l) (resizeNeeded l) (borderRoundingRadius l)
                                 (fillRoundingRadius l) (outlineColour l)
                                 (outlineThickness l) (fillColour l) (textColour l)
                                 (textSize l) (xPad l) (yPad l) (hasPreRender l)
                                 (vAlignment l) (hAlignment l))))
        by (by rewrite Hinit).
      apply label_init_fits. }
    cbn [fst]. eapply bufferFits_flags; [| | | exact Hfits]; reflexivity.
  - intros o Hfits Hsmall. destruct (frameBuffer (surface o)) as [buf |] eqn:Hbuf;
      [| reflexivity].
    destruct (Hfits buf Hbuf) as (_ & _ & Hw & Hh & _). lia.
Qed.

Lemma buffer_holds_width_times_height_witness :
  exists buf : list Z,
    frameBuffer (surface (fst (UiLabel.ctor 0 0 5 2 "x" false (rawObj, rawLabel))))
    = Some buf
    /\ length buf = 10%nat
    /\ frameBuffer (surface (fst (UiLabel.ctor 0 0 0 10 "x" false (rawObj, rawLabel))))
       = None.
Proof.
  pose proof (proj1 (proj2 (proj2 (proj2 buffer_holds_width_times_height)))) as Hctor.
  exists (replicate 10 0). split; [reflexivity |].
  split.
  - exact (proj2 (proj2 (proj2 (proj2
             (Hctor 0 0 5 2 "x" false (rawObj, rawLabel) (replicate 10 0) eq_refl))))).
  - apply (proj2 (proj2 (proj2 (proj2 (proj2 (proj2 (proj2 (proj2 (proj2
             buffer_holds_width_times_height)))))))) _).
    + apply Hctor.
    + left. vm_compute. reflexivity.
Defined.

End Buffers.

(** ** File names of hardware images *)

Section FileNames.

Lemma lastIndexFrom_app (c : ascii) :
  forall (s1 s2 : string) (i found : Z),
    UiHwImage.lastIndexFrom c (s1 +:+ s2) i found
    = UiHwImage.lastIndexFrom c s2 (i + ArduinoString.length s1)
        (UiHwImage.lastIndexFrom c s1 i found).
Proof.
  induction s1 as [| d s1 IH]; intros s2 i found.
  - change (EmptyString +:+ s2) with s2. cbn [UiHwImage.lastIndexFrom].
    f_equal. unfold ArduinoString.length. cbn [String.length]. lia.
  - change (String d s1 +:+ s2) with (String d (s1 +:+ s2)).
    cbn [UiHwImage.lastIndexFrom]. rewrite IH. f_equal.
    unfold ArduinoString.length. cbn [String.length]. lia.
Qed.

Lemma lastIndexFrom_absent (c : ascii) :
  forall (s : string) (j : Z),
    0 <= j -> ArduinoString.indexFrom c s j = -1 ->
    forall i found : Z, UiHwImage.lastIndexFrom c s i found = found.
Proof.
  induction s as [| d s IH]; intros j Hj Habsent i found; [reflexivity |].
  cbn [ArduinoString.indexFrom] in Habsent. cbn [UiHwImage.lastIndexFrom].
  destruct (Ascii.eqb d c); [lia |].
  apply (IH (j + 1)); [lia | exact Habsent].
Qed.

Lemma substring_tail (stem ext : string) :
  String.substring (String.length stem) (String.length ext) (stem +:+ ext) = ext.
Proof.
  induction stem as [| d stem IH].
  - change (EmptyString +:+ ext) with ext. cbn [String.length].
    induction ext as [| e ext IHe]; [reflexivity |].
    cbn [String.length String.substring]. by rewrite IHe.
  - change (String d stem +:+ ext) with (String d (stem +:+ ext)).
    cbn [String.length String.substring]. exact IH.
Qed.

Lemma length_append (s1 s2 : string) :
  String.length (s1 +:+ s2) = (String.length s1 + String.length s2)%nat.
Proof.
  induction s1 as [| d s1 IH]; [reflexivity |].
  change (String d s1 +:+ s2) with (String d (s1 +:+ s2)).
  cbn [String.length]. by rewrite IH.
Qed.

Lemma prefix_append (p rest : string) : String.prefix p (p +:+ rest) = true.
Proof.
  induction p as [| d p IH]; [by destruct rest |].
  change (String d p +:+ rest) with (String d (p +:+ rest)).
  cbn [String.prefix]. destruct (ascii_dec d d) as [_ | Hne]; [exact IH | by destruct Hne].
Qed.

Lemma prefix_split (p s : string) :
  String.prefix p s = true -> exists rest : string, s = p +:+ rest.
Proof.
  revert s. induction p as [| d p IH]; intros s Hprefix; [by exists s |].
  destruct s as [| e s]; [discriminate |].
  cbn [String.prefix] in Hprefix.
  destruct (ascii_dec d e) as [<- | Hne]; [| discriminate].
  destruct (IH s Hprefix) as [rest ->]. by exists rest.
Qed.

Lemma append_cons_middle (stem ext : string) (d : ascii) :
  stem +:+ String d ext = (stem +:+ String d EmptyString) +:+ ext.
Proof.
  induction stem as [| e stem IH]; [reflexivity |].
  change (String e stem +:+ String d ext) with (String e (stem +:+ String d ext)).
  change ((String e stem +:+ String d EmptyString) +:+ ext)
    with (String e ((stem +:+ String d EmptyString) +:+ ext)).
  by rewrite IH.
Qed.

End FileNames.

(** X23.  [getFileExtension] returns the text after the last dot of the
    file name: for a name made of any stem, a dot and an extension without
    a dot it returns that extension, and for a name without a dot the empty
    text.  A dot in a directory name or a query string after the extension
    is not told apart from the dot of the extension.  [isWebUrl] holds
    exactly for the names that start with "http://" or "https://", in
    lower case. *)
Theorem getFileExtension_is_text_after_last_dot :
  (forall filename : string,
      ArduinoString.indexOf "."%char filename = -1 ->
      UiHwImage.getFileExtension filename = EmptyString)
  /\ (forall stem ext : string,
         ArduinoString.indexOf "."%char ext = -1 ->
         ArduinoString.length (stem +:+ String "."%char ext) < 2 ^ 32 ->
         UiHwImage.getFileExtension (stem +:+ String "."%char ext) = ext)
  /\ (forall filename : string,
         UiHwImage.isWebUrl filename = true
         <-> exists rest : string,
               filename = "http://" +:+ rest \/ filename = "https://" +:+ rest).
Proof.
  split; [| split].
  - intros filename Hnone. unfold UiHwImage.getFileExtension, UiHwImage.lastIndexOf.
    by rewrite (lastIndexFrom_absent "." filename 0 ltac:(lia) Hnone).
  - intros stem ext Hnone Hsize.
    unfold UiHwImage.getFileExtension, UiHwImage.lastIndexOf.
    rewrite lastIndexFrom_app. cbn [UiHwImage.lastIndexFrom].
    change (Ascii.eqb "." ".") with true. cbv iota.
    rewrite (lastIndexFrom_absent "." ext 0 ltac:(lia) Hnone).
    unfold ArduinoString.length in *. rewrite length_append in *.
    cbn [String.length] in *.
    destruct (Z.eqb_spec (0 + Z.of_nat (String.length stem)) (-1)); [lia |].
    unfold ArduinoString.substring, ArduinoString.to_unsigned, ArduinoString.length.
    rewrite length_append. cbn [String.length].
    rewrite !Z.mod_small by lia.
    rewrite Z.min_l, Z.max_r by lia.
    destruct (Z.leb_spec (Z.of_nat (String.length stem + S (String.length ext)))
                (0 + Z.of_nat (String.length stem) + 1)) as [Hempty | Hsome].
    + destruct ext; [reflexivity | cbn [String.length] in Hempty; lia].
    + rewrite Z.min_id.
      replace (Z.to_nat (0 + Z.of_nat (String.length stem) + 1))
        with (String.length (stem +:+ String "." EmptyString))
        by (rewrite length_append; cbn [String.length]; lia).
      replace (Z.to_nat (Z.of_nat (String.length stem + S (String.length ext))
                         - (0 + Z.of_nat (String.length stem) + 1)))
        with (String.length ext) by lia.
      rewrite (append_cons_middle stem ext). apply substring_tail.
  - intros filename. unfold UiHwImage.isWebUrl. split.
    + intros Hurl. apply orb_true_iff in Hurl as [Hplain | Hsecure].
      * destruct (prefix_split _ _ Hplain) as [rest ->]. exists rest. by left.
      * destruct (prefix_split _ _ Hsecure) as [rest ->]. exists rest. by right.
    + intros [rest [-> | ->]]; apply orb_true_iff;
        [left | right]; apply prefix_append.
Qed.

Lemma getFileExtension_is_text_after_last_dot_witness :
  UiHwImage.getFileExtension "sd.card/logo.png" = "png"
  /\ UiHwImage.getFileExtension "http://host/a.png?w=1" = "png?w=1".
Proof.
  split.
  - apply (proj1 (proj2 getFileExtension_is_text_after_last_dot) "sd.card/logo" "png");
      vm_compute; reflexivity.
  - apply (proj1 (proj2 getFileExtension_is_text_after_last_dot) "http://host/a" "png?w=1");
      vm_compute; reflexivity.
Defined.

(** ** The update area of a frame that has been shown *)

(** X24.  [getUpdateArea] on an initialised frame that is flagged
    [visibilityChanged], as [show] and [hide] flag it, returns the whole
    frame, whichever of its children have changed: the area starts at
    (0, 0), in the frame's own coordinates, and has the frame's width and
    height.  The frame keeps it in [updateArea]; apart from that only
    children of the frame can have changed. *)
Theorem getUpdateArea_of_shown_frame :
  forall (fuel : nat) (st : heap) (p : loc) (o : node) (f : UiFrameData),
    st !! p = Some o -> frameOf (cls o) = Some f -> frame_initialised f = true ->
    visibilityChanged (base o) = true ->
    Forall (leafChild st) (objects f) ->
    exists st' : heap,
      getUpdateArea (S fuel) st p
      = Some (st', Area.mk 0 0 (width (base o)) (height (base o)))
      /\ st' !! p
         = Some (onBase (set_updateArea (Area.mk 0 0 (width (base o)) (height (base o))))
                   o)
      /\ (forall q : loc, q ∉ objects f -> q <> p -> st' !! q = st !! q).
Proof.
  intros fuel st p o f Hp Hf Hinit Hshown Hleaves.
  assert (Hself : p ∉ objects f).
  { intros Hin. rewrite Forall_forall in Hleaves.
    destruct (Hleaves p Hin) as (n & Hn & Hleaf). congruence. }
  set (o1 := onBase (set_updateArea (Area.mk (-1) (-1) 0 0)) o).
  set (st1 := <[p := o1]> st).
  assert (Hp1 : exists o0 : node, st1 !! p = Some o0 /\ frameOf (cls o0) = Some f).
  { exists o1. split; [apply lookup_insert_eq | exact Hf]. }
  assert (Hkids1 : Forall (fun c => is_Some (st1 !! c)) (objects f)).
  { rewrite Forall_forall in Hleaves |- *. intros c Hin.
    destruct (Hleaves c Hin) as (n & Hn & _). unfold st1.
    rewrite lookup_insert_ne; [by eexists |]. intros ->. by destruct Hself. }
  destruct (hiddenLoop_returns p f (objects f) st1 Hp1 Hkids1 Hkids1)
    as (st2 & Hhidden & _).
  assert (Hp2 : st2 !! p = Some o1).
  { rewrite (hiddenLoop_outside p f Hself _ _ _ Hp1 Hhidden p Hself).
    apply lookup_insert_eq. }
  set (ua := Area.mk 0 0 (width (base o)) (height (base o))).
  exists (<[p := onBase (set_updateArea ua) o1]> st2).
  split; [| split].
  - unfold getUpdateArea, UiFrame.getUpdateArea. rewrite Hp. cbn [mbind option_bind].
    rewrite Hf. cbn [mbind option_bind]. rewrite Hinit. cbn [negb].
    unfold UiFrame.isUpdated. rewrite Hp. cbn [mbind option_bind]. rewrite Hf.
    cbn [mbind option_bind]. rewrite Hinit, Hshown. cbn [negb].
    rewrite orb_true_r. cbn [orb mbind option_bind negb].
    fold o1. fold st1. rewrite Hhidden. cbn [mbind option_bind]. rewrite Hp2.
    cbn [mbind option_bind].
    change (visibilityChanged (base o1)) with (visibilityChanged (base o)).
    rewrite Hshown. reflexivity.
  - rewrite lookup_insert_eq. reflexivity.
  - intros q Hout Hne. rewrite lookup_insert_ne by congruence.
    rewrite (hiddenLoop_outside p f Hself _ _ _ Hp1 Hhidden q Hout).
    unfold st1. by rewrite lookup_insert_ne by congruence.
Qed.

Lemma getUpdateArea_of_shown_frame_witness :
  exists st' : heap, getUpdateArea 1 shownHwFrame 0%nat = Some (st', Area.mk 0 0 10 5).
Proof.
  lookup_node shownHwFrame 0%nat ipattern:(Hframe).
  match type of Hframe with
  | _ = Some (mkNode ?b (IsFrame ?lf ?f)) =>
      destruct (getUpdateArea_of_shown_frame 0 shownHwFrame 0%nat
                  (mkNode b (IsFrame lf f)) f Hframe eq_refl eq_refl eq_refl
                  (Forall_nil_2 _))
        as (st' & Hget & _)
  end.
  exists st'. exact Hget.
Defined.

(** ** Message boxes *)

Section MessageBox.

Lemma onLabel_text (txt : string) (n : node) :
  text <$> labelOf (cls (onLabel (UiLabel.setText txt) n))
  = (fun _ => txt) <$> labelOf (cls n).
Proof. unfold onLabel. by destruct n as [b []]. Qed.

Lemma sameButExposure_exposeChild (a : area) (k : node) :
  sameButExposure k (exposeChild a k).
Proof.
  unfold exposeChild. destruct (visible (base k) && UiFrame.withinArea a (base k));
    [apply sameButExposure_expose | apply sameButExposure_refl].
Qed.

(** [hide] on an object two containers below the top-level frame. *)
Lemma hide_grandchild (fuel : nat) (st : heap) (c md r : loc) (n m o : node)
    (f : UiFrameData) :
  st !! c = Some n -> parent (base n) = Some md -> st !! md = Some m ->
  parent (base m) = Some r -> st !! r = Some o -> parent (base o) = None ->
  frameOf (cls o) = Some f ->
  Forall (fun s => exists k, st !! s = Some k /\ recordsExposure k = true) (objects f) ->
  c ∉ objects f -> c <> md -> c <> r ->
  exists (st' : heap) (n' : node),
    hide (S (S (S fuel))) st c = Some st'
    /\ st' !! c = Some n' /\ visible (base n') = false
    /\ (forall q : loc, q ∉ objects f -> q <> c -> st' !! q = st !! q)
    /\ (forall (q : loc) (k : node),
           q <> c -> st !! q = Some k ->
           exists k', st' !! q = Some k' /\ sameButExposure k k').
Proof.
  intros Hc Hparent Hmd Hmparent Hr Hroot Hf Hall Hout Hcmd Hcr.
  destruct (visible (base n)) eqn:Hvisible.
  - set (hidden := onBase (fun b => set_visibilityChanged true (set_visible false b)) n).
    set (st1 := <[c := hidden]> st).
    assert (Hall1 : Forall (fun s => exists k, st1 !! s = Some k
                                               /\ recordsExposure k = true) (objects f)).
    { rewrite Forall_forall in Hall |- *. intros s Hin.
      destruct (Hall s Hin) as (k & Hs & Hrec). exists k. split; [| exact Hrec].
      unfold st1. rewrite lookup_insert_ne; [exact Hs |].
      intros ->. by destruct Hout. }
    assert (Hr1 : st1 !! r = Some o)
      by (unfold st1; by rewrite lookup_insert_ne by congruence).
    assert (Hmd1 : st1 !! md = Some m)
      by (unfold st1; by rewrite lookup_insert_ne by congruence).
    assert (Hc1 : st1 !! c = Some hidden) by (unfold st1; by rewrite lookup_insert_eq).
    destruct (expose_distributes (S fuel) st1 r o f (UiObj.getArea (base n)) Hr1 Hf
                (or_intror Hroot) Hall1) as (st' & Hexpose & Hlookup).
    exists st', hidden. split.
    { unfold hide, UiObj.hide. rewrite Hc. cbn [mbind option_bind]. rewrite Hvisible.
      fold hidden. fold st1.
      assert (Htop : UiObj.topLevel (S (S (S fuel))) st1 c = Some r).
      { cbn [UiObj.topLevel]. rewrite Hc1. cbn [mbind option_bind].
        change (parent (base hidden)) with (parent (base n)). rewrite Hparent.
        rewrite Hmd1. cbn [mbind option_bind]. rewrite Hmparent.
        rewrite Hr1. cbn [mbind option_bind]. by rewrite Hroot. }
      rewrite Htop. cbn [mbind option_bind]. exact Hexpose. }
    split; [by rewrite Hlookup, bool_decide_eq_false_2, Hc1 by assumption |].
    split; [reflexivity |]. split.
    + intros q Hq Hqc. rewrite Hlookup, bool_decide_eq_false_2 by assumption.
      unfold st1. by rewrite lookup_insert_ne by congruence.
    + intros q k Hqc Hq. rewrite Hlookup. unfold st1.
      rewrite lookup_insert_ne by congruence. rewrite Hq.
      destruct (bool_decide (q ∈ objects f)); cbn [fmap option_fmap option_map].
      * eexists. split; [reflexivity | apply sameButExposure_exposeChild].
      * eexists. split; [reflexivity | apply sameButExposure_refl].
  - exists st, n. split.
    { unfold hide, UiObj.hide. rewrite Hc. cbn [mbind option_bind]. by rewrite Hvisible. }
    split; [exact Hc |]. split; [exact Hvisible |]. split; [reflexivity |].
    intros q k _ Hq. exists k. split; [exact Hq | apply sameButExposure_refl].
Qed.


(** X25.  [msgbox] of a manager, with its modal below it: the call
    returns; the titlebar and the content of the modal hold the two texts;
    the Cancel button is invisible; the OK button is visible and sits
    centred, ten pixels from the lower edge of the modal, less the ten
    pixels the code takes off the width; the modal is visible, flagged
    [visibilityChanged], and its [result] is -1.  The parts of the modal
    are different objects, none of them a child of the manager itself. *)
Theorem msgbox_shows_ok_only :
  forall (fuel : nat) (st : heap) (p md : loc) (o m tb ct ok cn : node)
         (lo lm : UiLabelData) (f fm : UiFrameData) (d : UiModalData)
         (title message : string),
    st !! p = Some o -> cls o = IsManager lo f (Some md) -> parent (base o) = None ->
    Forall (fun s => exists k, st !! s = Some k /\ recordsExposure k = true) (objects f) ->
    st !! md = Some m -> cls m = IsModal lm fm d -> parent (base m) = Some p ->
    hwFrame fm = false ->
    st !! titlebar d = Some tb -> st !! content d = Some ct ->
    st !! okButton d = Some ok -> st !! cancelButton d = Some cn ->
    parent (base ok) = Some md -> parent (base cn) = Some md ->
    NoDup [p; md; titlebar d; content d; okButton d; cancelButton d] ->
    okButton d ∉ objects f -> cancelButton d ∉ objects f ->
    titlebar d ∉ objects f -> content d ∉ objects f ->
    exists st' : heap,
      UiManager.msgbox (hide (3 + fuel)) (move (1 + fuel)) st p title message = Some st'
      /\ (exists (m' : node) (dm' : UiModalData),
             st' !! md = Some m' /\ cls m' = IsModal lm fm dm' /\ result dm' = -1
             /\ visible (base m') = true /\ visibilityChanged (base m') = true)
      /\ (exists ok' : node,
             st' !! okButton d = Some ok' /\ visible (base ok') = true
             /\ x (base ok') = Z.quot (width (base m) - width (base ok) - 10) 2
             /\ y (base ok') = height (base m) - height (base ok) - 10)
      /\ (exists cn' : node,
             st' !! cancelButton d = Some cn' /\ visible (base cn') = false)
      /\ (exists tb' : node,
             st' !! titlebar d = Some tb'
             /\ text <$> labelOf (cls tb') = (fun _ => title) <$> labelOf (cls tb))
      /\ (exists ct' : node,
             st' !! content d = Some ct'
             /\ text <$> labelOf (cls ct') = (fun _ => message) <$> labelOf (cls ct)).
Proof.
  intros fuel st p md o m tb ct ok cn lo lm f fm d title message
    Hp Hocls Hroot Hall Hmd Hmcls Hmparent Hsoft Htb Hct Hok Hcn Hokparent Hcnparent
    Hnodup Hokout Hcnout Htbout Hctout.
  assert (Hdistinct := Hnodup).
  repeat (apply NoDup_cons in Hdistinct as [?Hnot Hdistinct]).
  rewrite ?not_elem_of_cons in *. destruct_and!.
  set (tbA := titlebar d) in *. set (ctA := content d) in *.
  set (okA := okButton d) in *. set (cnA := cancelButton d) in *.
  (* the two texts *)
  set (st1 := <[tbA := onLabel (UiLabel.setText title) tb]> st).
  set (st2 := <[ctA := onLabel (UiLabel.setText message) ct]> st1).
  assert (Hsame2 : forall q : loc, q <> tbA -> q <> ctA -> st2 !! q = st !! q).
  { intros q Hq1 Hq2. unfold st2, st1. by rewrite !lookup_insert_ne by congruence. }
  assert (Hall2 : Forall (fun s => exists k, st2 !! s = Some k
                                             /\ recordsExposure k = true) (objects f)).
  { rewrite Forall_forall in Hall |- *. intros s Hin.
    destruct (Hall s Hin) as (k & Hs & Hrec). exists k. split; [| exact Hrec].
    rewrite Hsame2; [exact Hs | |]; intros ->; contradiction. }
  (* the Cancel button goes *)
  assert (Hcn2 : st2 !! cnA = Some cn) by (by rewrite Hsame2 by congruence).
  assert (Hmd2 : st2 !! md = Some m) by (by rewrite Hsame2 by congruence).
  assert (Hp2 : st2 !! p = Some o) by (by rewrite Hsame2 by congruence).
  assert (Hf : frameOf (cls o) = Some f) by (by rewrite Hocls).
  assert (Hcnmd : cnA <> md) by congruence.
  assert (Hcnp : cnA <> p) by congruence.
  destruct (hide_grandchild fuel st2 cnA md p cn m o f Hcn2 Hcnparent Hmd2 Hmparent
              Hp2 Hroot Hf Hall2 Hcnout Hcnmd Hcnp)
    as (st3 & cn3 & Hhide & Hcn3 & Hcnhidden & Hout3 & Hsame3).
  assert (Hok3 : st3 !! okA = Some ok).
  { rewrite Hout3 by (assumption || congruence). by rewrite Hsame2 by congruence. }
  assert (Htb3 : st3 !! tbA = Some (onLabel (UiLabel.setText title) tb)).
  { rewrite Hout3 by (assumption || congruence). unfold st2.
    rewrite lookup_insert_ne by congruence. unfold st1. by rewrite lookup_insert_eq. }
  assert (Hct3 : st3 !! ctA = Some (onLabel (UiLabel.setText message) ct)).
  { rewrite Hout3 by (assumption || congruence). unfold st2. by rewrite lookup_insert_eq. }
  destruct (Hsame3 md m ltac:(congruence) Hmd2) as (m3 & Hmd3 & Hm3).
  destruct Hm3 as [Hm3cls Hm3base].
  (* the OK button shows and moves *)
  set (st4 := <[okA := onBase UiObj.show ok]> st3).
  assert (Hmd4 : st4 !! md = Some m3)
    by (unfold st4; by rewrite lookup_insert_ne by congruence).
  assert (Hok4 : st4 !! okA = Some (onBase UiObj.show ok))
    by (unfold st4; by rewrite lookup_insert_eq).
  assert (Hrec3 : recordsExposure m3 = true).
  { unfold recordsExposure. rewrite Hm3cls, Hmcls, Hm3base. cbn.
    rewrite Hmparent, Hsoft. by rewrite bool_decide_eq_true_2. }
  set (mx := Z.quot (width (base m3) - width (base (onBase UiObj.show ok)) - 10) 2).
  set (my := height (base m3) - height (base (onBase UiObj.show ok)) - 10).
  pose proof (move_recording fuel st4 okA md (onBase UiObj.show ok) m3 mx my false
                Hok4 Hokparent ltac:(congruence) Hmd4 Hrec3) as Hmove.
  cbv zeta in Hmove.
  set (ok5 := onBase (fun b => set_y my (set_x mx b)) (onBase UiObj.show ok)) in Hmove.
  set (m5 := onBase (UiObj.expose (UiObj.getArea (base ok5))) m3) in Hmove.
  set (st5 := <[md := m5]> (<[okA := ok5]> st4)) in Hmove.
  set (dm' := mkModal (-1) (modal_initialised d) (titlebar d) (content d)
                (closeButton d) (okButton d) (cancelButton d)).
  set (m6 := mkNode (base m5) (IsModal lm fm dm')).
  exists (<[md := onBase UiObj.show m6]> st5).
  split.
  { unfold UiManager.msgbox. rewrite Hp. cbn [mbind option_bind]. rewrite Hocls.
    unfold UiModal.msgbox. rewrite Hmd. cbn [mbind option_bind]. rewrite Hmcls.
    fold tbA ctA okA cnA. rewrite Htb. cbn [mbind option_bind]. fold st1.
    assert (Hct1 : st1 !! ctA = Some ct)
      by (unfold st1; by rewrite lookup_insert_ne by congruence).
    rewrite Hct1. cbn [mbind option_bind]. fold st2.
    change (3 + fuel)%nat with (S (S (S fuel))). rewrite Hhide.
    cbn [mbind option_bind]. rewrite Hok3. cbn [mbind option_bind]. fold st4.
    rewrite Hmd4. cbn [mbind option_bind]. rewrite Hok4. cbn [mbind option_bind].
    fold mx my. change (1 + fuel)%nat with (S fuel). rewrite Hmove.
    cbn [mbind option_bind].
    assert (Hmd5 : st5 !! md = Some m5) by (unfold st5; by rewrite lookup_insert_eq).
    rewrite Hmd5. cbn [mbind option_bind].
    unfold UiModal.setResult.
    assert (Hm5cls : cls m5 = IsModal lm fm d) by (unfold m5; cbn; congruence).
    rewrite Hm5cls. cbn [mbind option_bind]. reflexivity. }
  split.
  { exists (onBase UiObj.show m6), dm'. rewrite lookup_insert_eq. repeat split. }
  split.
  { exists ok5. split.
    - rewrite lookup_insert_ne by congruence. unfold st5.
      rewrite lookup_insert_ne by congruence. by rewrite lookup_insert_eq.
    - split; [reflexivity |]. unfold ok5, mx, my. cbn. rewrite Hm3base. cbn.
      split; reflexivity. }
  split.
  { exists cn3. split; [| exact Hcnhidden].
    rewrite lookup_insert_ne by congruence. unfold st5.
    rewrite !lookup_insert_ne by congruence. unfold st4.
    by rewrite lookup_insert_ne by congruence. }
  split.
  - eexists. split.
    + rewrite lookup_insert_ne by congruence. unfold st5.
      rewrite !lookup_insert_ne by congruence. unfold st4.
      rewrite lookup_insert_ne by congruence. exact Htb3.
    + apply onLabel_text.
  - eexists. split.
    + rewrite lookup_insert_ne by congruence. unfold st5.
      rewrite !lookup_insert_ne by congruence. unfold st4.
      rewrite lookup_insert_ne by congruence. exact Hct3.
    + apply onLabel_text.
Qed.


(** X26.  [confirm] of a manager, with its modal below it: the call
    returns; the titlebar and the content of the modal hold the two texts;
    both buttons are visible, the OK button a quarter and the Cancel button
    half of the width of the modal from its left edge, both at the height
    of the modal less the height of the OK button less ten; the modal is
    visible, flagged [visibilityChanged], and its [result] is -1. *)
Theorem confirm_shows_both_buttons :
  forall (fuel : nat) (st : heap) (p md : loc) (o m tb ct ok cn : node)
         (lo lm : UiLabelData) (f fm : UiFrameData) (d : UiModalData)
         (title message : string),
    st !! p = Some o -> cls o = IsManager lo f (Some md) ->
    st !! md = Some m -> cls m = IsModal lm fm d -> parent (base m) = Some p ->
    hwFrame fm = false ->
    st !! titlebar d = Some tb -> st !! content d = Some ct ->
    st !! okButton d = Some ok -> st !! cancelButton d = Some cn ->
    parent (base ok) = Some md -> parent (base cn) = Some md ->
    NoDup [md; titlebar d; content d; okButton d; cancelButton d] ->
    exists st' : heap,
      UiManager.confirm (move (1 + fuel)) st p title message = Some st'
      /\ (exists (m' : node) (dm' : UiModalData),
             st' !! md = Some m' /\ cls m' = IsModal lm fm dm' /\ result dm' = -1
             /\ visible (base m') = true /\ visibilityChanged (base m') = true)
      /\ (exists ok' : node,
             st' !! okButton d = Some ok' /\ visible (base ok') = true
             /\ x (base ok') = Z.quot (width (base m)) 4
             /\ y (base ok') = height (base m) - height (base ok) - 10)
      /\ (exists cn' : node,
             st' !! cancelButton d = Some cn' /\ visible (base cn') = true
             /\ x (base cn') = Z.quot (width (base m)) 2
             /\ y (base cn') = height (base m) - height (base ok) - 10)
      /\ (exists tb' : node,
             st' !! titlebar d = Some tb'
             /\ text <$> labelOf (cls tb') = (fun _ => title) <$> labelOf (cls tb))
      /\ (exists ct' : node,
             st' !! content d = Some ct'
             /\ text <$> labelOf (cls ct') = (fun _ => message) <$> labelOf (cls ct)).
Proof.
  intros fuel st p md o m tb ct ok cn lo lm f fm d title message
    Hp Hocls Hmd Hmcls Hmparent Hsoft Htb Hct Hok Hcn Hokparent Hcnparent Hnodup.
  assert (Hdistinct := Hnodup).
  repeat (apply NoDup_cons in Hdistinct as [?Hnot Hdistinct]).
  rewrite ?not_elem_of_cons in *. destruct_and!.
  set (tbA := titlebar d) in *. set (ctA := content d) in *.
  set (okA := okButton d) in *. set (cnA := cancelButton d) in *.
  set (st1 := <[tbA := onLabel (UiLabel.setText title) tb]> st).
  set (st2 := <[ctA := onLabel (UiLabel.setText message) ct]> st1).
  set (st3 := <[cnA := onBase UiObj.show cn]> st2).
  set (st4 := <[okA := onBase UiObj.show ok]> st3).
  assert (Hct1 : st1 !! ctA = Some ct)
    by (unfold st1; by rewrite lookup_insert_ne by congruence).
  assert (Hcn2 : st2 !! cnA = Some cn)
    by (unfold st2, st1; by rewrite !lookup_insert_ne by congruence).
  assert (Hok3 : st3 !! okA = Some ok)
    by (unfold st3, st2, st1; by rewrite !lookup_insert_ne by congruence).
  assert (Hmd4 : st4 !! md = Some m)
    by (unfold st4, st3, st2, st1; by rewrite !lookup_insert_ne by congruence).
  assert (Hok4 : st4 !! okA = Some (onBase UiObj.show ok))
    by (unfold st4; by rewrite lookup_insert_eq).
  assert (Hcn4 : st4 !! cnA = Some (onBase UiObj.show cn)).
  { unfold st4. rewrite lookup_insert_ne by congruence. unfold st3.
    by rewrite lookup_insert_eq. }
  assert (Hrec : recordsExposure m = true).
  { unfold recordsExposure. rewrite Hmcls. cbn. rewrite Hmparent, Hsoft.
    by rewrite bool_decide_eq_true_2. }
  set (by0 := height (base m) - height (base (onBase UiObj.show ok)) - 10).
  pose proof (move_recording fuel st4 cnA md (onBase UiObj.show cn) m
                (Z.quot (width (base m)) 2) by0 false
                Hcn4 Hcnparent ltac:(congruence) Hmd4 Hrec) as Hmove1.
  cbv zeta in Hmove1.
  set (cn5 := onBase (fun b => set_y by0 (set_x (Z.quot (width (base m)) 2) b))
                (onBase UiObj.show cn)) in Hmove1.
  set (m5 := onBase (UiObj.expose (UiObj.getArea (base cn5))) m) in Hmove1.
  set (st5 := <[md := m5]> (<[cnA := cn5]> st4)) in Hmove1.
  assert (Hmd5 : st5 !! md = Some m5) by (unfold st5; by rewrite lookup_insert_eq).
  assert (Hok5 : st5 !! okA = Some (onBase UiObj.show ok)).
  { unfold st5. by rewrite !lookup_insert_ne by congruence. }
  assert (Hrec5 : recordsExposure m5 = true) by exact Hrec.
  pose proof (move_recording fuel st5 okA md (onBase UiObj.show ok) m5
                (Z.quot (width (base m5)) 4) by0 false
                Hok5 Hokparent ltac:(congruence) Hmd5 Hrec5) as Hmove2.
  cbv zeta in Hmove2.
  set (ok6 := onBase (fun b => set_y by0 (set_x (Z.quot (width (base m5)) 4) b))
                (onBase UiObj.show ok)) in Hmove2.
  set (m6 := onBase (UiObj.expose (UiObj.getArea (base ok6))) m5) in Hmove2.
  set (st6 := <[md := m6]> (<[okA := ok6]> st5)) in Hmove2.
  set (dm' := mkModal (-1) (modal_initialised d) (titlebar d) (content d)
                (closeButton d) (okButton d) (cancelButton d)).
  set (m7 := mkNode (base m6) (IsModal lm fm dm')).
  exists (<[md := onBase UiObj.show m7]> st6).
  split.
  { unfold UiManager.confirm. rewrite Hp. cbn [mbind option_bind]. rewrite Hocls.
    unfold UiModal.confirm. rewrite Hmd. cbn [mbind option_bind]. rewrite Hmcls.
    fold tbA ctA okA cnA. rewrite Htb. cbn [mbind option_bind]. fold st1.
    rewrite Hct1. cbn [mbind option_bind]. fold st2.
    rewrite Hcn2. cbn [mbind option_bind]. fold st3.
    rewrite Hok3. cbn [mbind option_bind]. fold st4.
    rewrite Hmd4. cbn [mbind option_bind]. rewrite Hok4. cbn [mbind option_bind].
    fold by0. change (1 + fuel)%nat with (S fuel). rewrite Hmove1.
    cbn [mbind option_bind]. rewrite Hmd5. cbn [mbind option_bind].
    rewrite Hok5. cbn [mbind option_bind].
    change (height (base m5)) with (height (base m)). fold by0.
    rewrite Hmove2. cbn [mbind option_bind].
    assert (Hmd6 : st6 !! md = Some m6) by (unfold st6; by rewrite lookup_insert_eq).
    rewrite Hmd6. cbn [mbind option_bind].
    unfold UiModal.setResult.
    assert (Hm6cls : cls m6 = IsModal lm fm d) by exact Hmcls.
    rewrite Hm6cls. cbn [mbind option_bind]. reflexivity. }
  split.
  { exists (onBase UiObj.show m7), dm'. rewrite lookup_insert_eq. repeat split. }
  split.
  { exists ok6. split; [| repeat split].
    rewrite lookup_insert_ne by congruence. unfold st6.
    rewrite lookup_insert_ne by congruence. by rewrite lookup_insert_eq. }
  split.
  { exists cn5. split; [| repeat split].
    rewrite lookup_insert_ne by congruence. unfold st6.
    rewrite !lookup_insert_ne by congruence. unfold st5.
    rewrite lookup_insert_ne by congruence. by rewrite lookup_insert_eq. }
  split.
  - eexists. split; [| apply onLabel_text].
    rewrite lookup_insert_ne by congruence. unfold st6.
    rewrite !lookup_insert_ne by congruence. unfold st5.
    rewrite !lookup_insert_ne by congruence. unfold st4, st3, st2.
    rewrite !lookup_insert_ne by congruence. unfold st1. by rewrite lookup_insert_eq.
  - eexists. split; [| apply onLabel_text].
    rewrite lookup_insert_ne by congruence. unfold st6.
    rewrite !lookup_insert_ne by congruence. unfold st5.
    rewrite !lookup_insert_ne by congruence. unfold st4, st3.
    rewrite !lookup_insert_ne by congruence. unfold st2. by rewrite lookup_insert_eq.
Qed.

End MessageBox.

Lemma freshManager_parts :
  titlebar (modalAt freshManager 1%nat) = 2%nat
  /\ content (modalAt freshManager 1%nat) = 3%nat
  /\ okButton (modalAt freshManager 1%nat) = 5%nat
  /\ cancelButton (modalAt freshManager 1%nat) = 6%nat
  /\ objects (frameAt freshManager 0%nat) = [1%nat].
Proof. vm_compute. repeat split; reflexivity. Qed.

Lemma msgbox_shows_ok_only_witness :
  exists st' : heap,
    UiManager.msgbox (hide 3) (move 1) freshManager 0%nat "Hello" "Message here!"
    = Some st'
    /\ (visible ∘ base) <$> st' !! 1%nat = Some true
    /\ (visible ∘ base) <$> st' !! 6%nat = Some false.
Proof.
  destruct freshManager_parts as (Htitle & Hcontent & Hokay & Hcancel & Hkids).
  lookup_at freshManager 0%nat ipattern:(Hmanager).
  lookup_at freshManager 1%nat ipattern:(Hmodal).
  lookup_at freshManager 2%nat ipattern:(H2).
  lookup_at freshManager 3%nat ipattern:(H3).
  lookup_at freshManager 5%nat ipattern:(H5).
  lookup_at freshManager 6%nat ipattern:(H6).
  rewrite <- Htitle in H2. rewrite <- Hcontent in H3.
  rewrite <- Hokay in H5. rewrite <- Hcancel in H6.
  assert (Hocls : cls (nodeAt freshManager 0%nat)
                  = IsManager (labelAt freshManager 0%nat) (frameAt freshManager 0%nat)
                      (Some 1%nat)) by (vm_compute; reflexivity).
  assert (Htop : parent (base (nodeAt freshManager 0%nat)) = None)
    by (vm_compute; reflexivity).
  assert (Hmcls : cls (nodeAt freshManager 1%nat)
                  = IsModal (labelAt freshManager 1%nat) (frameAt freshManager 1%nat)
                      (modalAt freshManager 1%nat)) by (vm_compute; reflexivity).
  assert (Hmparent : parent (base (nodeAt freshManager 1%nat)) = Some 0%nat)
    by (vm_compute; reflexivity).
  assert (Hsoft : hwFrame (frameAt freshManager 1%nat) = false)
    by (vm_compute; reflexivity).
  assert (Hokparent : parent (base (nodeAt freshManager 5%nat)) = Some 1%nat)
    by (vm_compute; reflexivity).
  assert (Hcnparent : parent (base (nodeAt freshManager 6%nat)) = Some 1%nat)
    by (vm_compute; reflexivity).
  assert (Hall : Forall (fun s => exists k, freshManager !! s = Some k
                                            /\ recordsExposure k = true)
                   (objects (frameAt freshManager 0%nat))).
  { rewrite Hkids. apply Forall_cons. split; [| exact (Forall_nil_2 _)].
    exists (nodeAt freshManager 1%nat). split; [exact Hmodal |].
    vm_compute. reflexivity. }
  assert (Hnodup : NoDup [0%nat; 1%nat; titlebar (modalAt freshManager 1%nat);
                          content (modalAt freshManager 1%nat);
                          okButton (modalAt freshManager 1%nat);
                          cancelButton (modalAt freshManager 1%nat)]).
  { rewrite Htitle, Hcontent, Hokay, Hcancel.
    apply (bool_decide_unpack _). vm_compute. exact I. }
  assert (Hout : forall k : loc, k <> 1%nat -> k ∉ objects (frameAt freshManager 0%nat)).
  { intros k Hk. rewrite Hkids. intros Hin.
    apply elem_of_cons in Hin as [Heq | Hin]; [contradiction |].
    destruct (not_elem_of_nil _ Hin). }
  destruct (msgbox_shows_ok_only 0 freshManager 0%nat 1%nat _ _ _ _ _ _ _ _ _ _ _
              "Hello" "Message here!"
              Hmanager Hocls Htop Hall Hmodal Hmcls Hmparent Hsoft H2 H3 H5 H6
              Hokparent Hcnparent Hnodup)
    as (st' & Hrun & (m' & dm' & Hm' & _ & _ & Hshown & _)
        & _ & (cn' & Hcn' & Hhidden) & _).
  - apply Hout. rewrite Hokay. discriminate.
  - apply Hout. rewrite Hcancel. discriminate.
  - apply Hout. rewrite Htitle. discriminate.
  - apply Hout. rewrite Hcontent. discriminate.
  - exists st'. split; [exact Hrun |]. rewrite Hcancel in Hcn'.
    rewrite Hm', Hcn'. cbn [fmap option_fmap option_map compose].
    rewrite Hshown, Hhidden. split; reflexivity.
Defined.

Lemma confirm_shows_both_buttons_witness :
  exists st' : heap,
    UiManager.confirm (move 1) freshManager 0%nat "Sure?" "Really?" = Some st'
    /\ (visible ∘ base) <$> st' !! 5%nat = Some true
    /\ (visible ∘ base) <$> st' !! 6%nat = Some true
    /\ (x ∘ base) <$> st' !! 5%nat = Some 100
    /\ (x ∘ base) <$> st' !! 6%nat = Some 200.
Proof.
  destruct freshManager_parts as (Htitle & Hcontent & Hokay & Hcancel & Hkids).
  lookup_at freshManager 0%nat ipattern:(Hmanager).
  lookup_at freshManager 1%nat ipattern:(Hmodal).
  lookup_at freshManager 2%nat ipattern:(H2).
  lookup_at freshManager 3%nat ipattern:(H3).
  lookup_at freshManager 5%nat ipattern:(H5).
  lookup_at freshManager 6%nat ipattern:(H6).
  rewrite <- Htitle in H2. rewrite <- Hcontent in H3.
  rewrite <- Hokay in H5. rewrite <- Hcancel in H6.
  assert (Hocls : cls (nodeAt freshManager 0%nat)
                  = IsManager (labelAt freshManager 0%nat) (frameAt freshManager 0%nat)
                      (Some 1%nat)) by (vm_compute; reflexivity).
  assert (Hmcls : cls (nodeAt freshManager 1%nat)
                  = IsModal (labelAt freshManager 1%nat) (frameAt freshManager 1%nat)
                      (modalAt freshManager 1%nat)) by (vm_compute; reflexivity).
  assert (Hmparent : parent (base (nodeAt freshManager 1%nat)) = Some 0%nat)
    by (vm_compute; reflexivity).
  assert (Hsoft : hwFrame (frameAt freshManager 1%nat) = false)
    by (vm_compute; reflexivity).
  assert (Hokparent : parent (base (nodeAt freshManager 5%nat)) = Some 1%nat)
    by (vm_compute; reflexivity).
  assert (Hcnparent : parent (base (nodeAt freshManager 6%nat)) = Some 1%nat)
    by (vm_compute; reflexivity).
  assert (Hnodup : NoDup [1%nat; titlebar (modalAt freshManager 1%nat);
                          content (modalAt freshManager 1%nat);
                          okButton (modalAt freshManager 1%nat);
                          cancelButton (modalAt freshManager 1%nat)]).
  { rewrite Htitle, Hcontent, Hokay, Hcancel.
    apply (bool_decide_unpack _). vm_compute. exact I. }
  assert (Hwidth : width (base (nodeAt freshManager 1%nat)) = 400)
    by (vm_compute; reflexivity).
  destruct (confirm_shows_both_buttons 0 freshManager 0%nat 1%nat _ _ _ _ _ _ _ _ _ _ _
              "Sure?" "Really?"
              Hmanager Hocls Hmodal Hmcls Hmparent Hsoft H2 H3 H5 H6
              Hokparent Hcnparent Hnodup)
    as (st' & Hrun & _ & (ok' & Hok' & Hokshown & Hokx & _)
        & (cn' & Hcn' & Hcnshown & Hcnx & _) & _).
  exists st'. split; [exact Hrun |]. rewrite Hokay in Hok'. rewrite Hcancel in Hcn'.
  rewrite Hok', Hcn'. cbn [fmap option_fmap option_map compose].
  rewrite Hokshown, Hcnshown, Hokx, Hcnx, Hwidth. repeat split.
Defined.

(** ** Children that have just been hidden *)

Section HiddenChildren.

Lemma flaggedOnly_refl (st : heap) : flaggedOnly st st.
Proof.
  intros q. destruct (st !! q) as [n |]; [| reflexivity].
  exists n. split; [reflexivity |]. split; [reflexivity |].
  split; [by destruct n as [[] ?] | tauto].
Qed.

Lemma flaggedOnly_trans (st1 st2 st3 : heap) :
  flaggedOnly st1 st2 -> flaggedOnly st2 st3 -> flaggedOnly st1 st3.
Proof.
  intros H12 H23 q. specialize (H12 q). specialize (H23 q).
  destruct (st1 !! q) as [n1 |].
  - destruct H12 as (n2 & Hq2 & Hcls2 & Hbase2 & Hmono2). rewrite Hq2 in H23.
    destruct H23 as (n3 & Hq3 & Hcls3 & Hbase3 & Hmono3).
    exists n3. split; [exact Hq3 |]. split; [congruence |]. split; [| tauto].
    rewrite Hbase3, Hbase2. by destruct (base n1).
  - by rewrite H12 in H23.
Qed.

Lemma flaggedOnly_marks (st st' : heap) (objs : list loc) (obj : UiObjData) :
  (forall q : loc,
      st' !! q = if bool_decide (q ∈ objs) then markBelow obj <$> st !! q else st !! q) ->
  flaggedOnly st st'.
Proof.
  intros Hlookup q. rewrite Hlookup.
  destruct (st !! q) as [n |]; [| by destruct (bool_decide _)].
  destruct (bool_decide (q ∈ objs)); cbn [fmap option_fmap option_map].
  - exists (markBelow obj n). split; [reflexivity |]. unfold markBelow.
    destruct (UiFrame.overlaps obj (base n)).
    + split; [reflexivity |]. split; [by destruct n as [[] ?] | reflexivity].
    + split; [reflexivity |]. split; [by destruct n as [[] ?] | tauto].
  - exists n. split; [reflexivity |]. split; [reflexivity |].
    split; [by destruct n as [[] ?] | tauto].
Qed.

Lemma flaggedOnly_lookup (st st' : heap) (q : loc) (n : node) :
  flaggedOnly st st' -> st !! q = Some n ->
  exists n', st' !! q = Some n' /\ cls n' = cls n
             /\ base n' = set_visibilityChanged (visibilityChanged (base n')) (base n)
             /\ (visibilityChanged (base n) = true -> visibilityChanged (base n') = true).
Proof. intros Hsame Hq. specialize (Hsame q). by rewrite Hq in Hsame. Qed.

Lemma flagged_geometry (n n' : node) :
  base n' = set_visibilityChanged (visibilityChanged (base n')) (base n) ->
  UiObj.getArea (base n') = UiObj.getArea (base n)
  /\ visible (base n') = visible (base n)
  /\ initialised (base n') = initialised (base n).
Proof. intros ->. by destruct (base n). Qed.

(** The first loop of [getUpdateArea]: it returns, it sets nothing but
    flags, and whatever overlaps a child that has just been hidden is
    flagged at the end. *)
Lemma hiddenLoop_flags (p : loc) (f : UiFrameData) :
  forall (objs : list loc) (st : heap),
    (exists o : node, st !! p = Some o /\ frameOf (cls o) = Some f) ->
    Forall (fun c => is_Some (st !! c)) (objects f) ->
    Forall (fun c => is_Some (st !! c)) objs ->
    exists st' : heap,
      UiFrame.hiddenLoop st p objs = Some st'
      /\ flaggedOnly st st'
      /\ forall (c s : loc) (n m : node),
           c ∈ objs -> st !! c = Some n -> justHidden n = true ->
           s ∈ objects f -> st !! s = Some m ->
           UiFrame.overlaps (base n) (base m) = true ->
           exists m', st' !! s = Some m' /\ visibilityChanged (base m') = true.
Proof.
  induction objs as [| c0 rest IH]; intros st Hp Hkids Hall.
  - exists st. split; [reflexivity |]. split; [apply flaggedOnly_refl |].
    intros c s n m Hin. destruct (not_elem_of_nil _ Hin).
  - apply Forall_cons in Hall as [[n0 Hc0] Hrest].
    destruct (justHidden n0) eqn:Hcond.
    + destruct Hp as (o & Hp & Hf).
      destruct (updateBelowLoop_marks c0 (base n0) (objects f) st) as
        (st1 & Hbelow & Hlookup); [by exists n0 | exact Hkids |].
      pose proof (flaggedOnly_marks st st1 _ _ Hlookup) as Hstep.
      assert (Hp1 : exists o1 : node, st1 !! p = Some o1 /\ frameOf (cls o1) = Some f).
      { destruct (flaggedOnly_lookup _ _ p o Hstep Hp) as (o1 & Hp1 & Hcls & _).
        exists o1. split; [exact Hp1 | by rewrite Hcls]. }
      assert (Hkeep : forall cs : list loc,
                 Forall (fun c => is_Some (st !! c)) cs ->
                 Forall (fun c => is_Some (st1 !! c)) cs).
      { intros cs Hcs. eapply Forall_impl; [exact Hcs |]. intros c [k Hk].
        destruct (flaggedOnly_lookup _ _ c k Hstep Hk) as (k' & -> & _). by eexists. }
      destruct (IH st1 Hp1 (Hkeep _ Hkids) (Hkeep _ Hrest))
        as (st' & Hloop & Hsame & Hflags).
      exists st'. split.
      { cbn [UiFrame.hiddenLoop]. rewrite Hc0. cbn [mbind option_bind].
        unfold justHidden in Hcond. rewrite Hcond.
        unfold UiFrame.updateBelow. rewrite Hp. cbn [mbind option_bind]. rewrite Hf.
        cbn [mbind option_bind]. rewrite Hbelow. exact Hloop. }
      split; [exact (flaggedOnly_trans _ _ _ Hstep Hsame) |].
      intros c s n m Hin Hc Hhidden Hs Hm Hover.
      destruct (flaggedOnly_lookup _ _ c n Hstep Hc) as (n1 & Hc1 & _ & Hbase1 & Hmono1).
      destruct (flaggedOnly_lookup _ _ s m Hstep Hm) as (m1 & Hm1 & _ & Hmbase1 & _).
      destruct (flagged_geometry n n1 Hbase1) as (Harea & Hvis & Hinit).
      destruct (flagged_geometry m m1 Hmbase1) as (Hmarea & _ & _).
      apply elem_of_cons in Hin as [-> | Hin].
      * rewrite Hc0 in Hc. injection Hc as <-.
        assert (Hflag : visibilityChanged (base m1) = true).
        { rewrite Hlookup, bool_decide_eq_true_2, Hm in Hm1 by assumption.
          injection Hm1 as <-. unfold markBelow. by rewrite Hover. }
        destruct (flaggedOnly_lookup _ _ s m1 Hsame Hm1) as (m' & Hm' & _ & _ & Hmono).
        exists m'. split; [exact Hm' | by apply Hmono].
      * apply (Hflags c s n1 m1 Hin Hc1); [| exact Hs | exact Hm1 |].
        -- unfold justHidden in *. rewrite Hvis, Hinit.
           apply andb_true_iff in Hhidden as [Hhidden Hinvisible].
           apply andb_true_iff in Hhidden as [Hinitialised Hchanged].
           rewrite Hinitialised, Hinvisible, (Hmono1 Hchanged). reflexivity.
        -- rewrite <- Hover. unfold UiFrame.overlaps, UiObj.getArea in *.
           injection Harea as -> -> -> ->. injection Hmarea as -> -> -> ->. reflexivity.
    + destruct (IH st Hp Hkids Hrest) as (st' & Hloop & Hsame & Hflags).
      exists st'. split.
      { cbn [UiFrame.hiddenLoop]. rewrite Hc0. cbn [mbind option_bind].
        unfold justHidden in Hcond. by rewrite Hcond. }
      split; [exact Hsame |].
      intros c s n m Hin Hc Hhidden Hs Hm Hover.
      apply elem_of_cons in Hin as [-> | Hin]; [congruence |].
      exact (Hflags c s n m Hin Hc Hhidden Hs Hm Hover).
Qed.

Lemma anyChanged_found (fuel : nat) (st : heap) :
  forall (objs : list loc) (c : loc),
    Forall (leafChild st) objs -> c ∈ objs ->
    UiFrame.isObjectChanged (isUpdated (S fuel)) st c = Some true ->
    UiFrame.anyChanged (isUpdated (S fuel)) st objs = Some true.
Proof.
  induction objs as [| c0 rest IH]; intros c Hleaves Hin Hchanged.
  - destruct (not_elem_of_nil _ Hin).
  - apply Forall_cons in Hleaves as [Hleaf Hrest]. cbn [UiFrame.anyChanged].
    destruct (isObjectChanged_leaf fuel st c0 Hleaf) as [b Hb]. rewrite Hb.
    cbn [mbind option_bind]. destruct b; [reflexivity |].
    apply elem_of_cons in Hin as [-> | Hin]; [congruence |].
    exact (IH c Hrest Hin Hchanged).
Qed.

End HiddenChildren.

(** X27.  [getUpdateArea] on an initialised frame one of whose children has
    just been hidden (it is initialised, invisible and flagged
    [visibilityChanged]) returns, and afterwards every child of the frame
    whose bounds overlap or touch those of the hidden child is flagged
    [visibilityChanged], so that it counts as changed and is drawn again.
    The frame itself changes in its [updateArea] only, which holds the
    area returned, and no other object changes in anything but that
    flag. *)
Theorem getUpdateArea_flags_what_a_hidden_child_covered :
  forall (fuel : nat) (st : heap) (p c : loc) (o n : node) (f : UiFrameData),
    st !! p = Some o -> frameOf (cls o) = Some f -> frame_initialised f = true ->
    Forall (leafChild st) (objects f) ->
    c ∈ objects f -> st !! c = Some n -> justHidden n = true ->
    exists (st' : heap) (ua : area),
      getUpdateArea (S fuel) st p = Some (st', ua)
      /\ st' !! p = Some (onBase (set_updateArea ua) o)
      /\ (forall (s : loc) (m : node),
             s ∈ objects f -> st !! s = Some m ->
             UiFrame.overlaps (base n) (base m) = true ->
             exists m' : node,
               st' !! s = Some m' /\ visibilityChanged (base m') = true)
      /\ (forall (q : loc) (k : node),
             q <> p -> st !! q = Some k ->
             exists k' : node,
               st' !! q = Some k' /\ cls k' = cls k
               /\ base k' = set_visibilityChanged (visibilityChanged (base k')) (base k)).
Proof.
  intros fuel st p c o n f Hp Hf Hinit Hleaves Hin Hc Hhidden.
  assert (Hself : p ∉ objects f).
  { intros Hmem. rewrite Forall_forall in Hleaves.
    destruct (Hleaves p Hmem) as (k & Hk & Hleaf). congruence. }
  assert (Hchanged : UiFrame.isObjectChanged (isUpdated (S fuel)) st c = Some true).
  { rewrite Forall_forall in Hleaves. destruct (Hleaves c Hin) as (k & Hk & Hleaf).
    rewrite Hc in Hk. injection Hk as <-.
    unfold UiFrame.isObjectChanged. rewrite Hc. cbn [mbind option_bind].
    unfold justHidden in Hhidden.
    apply andb_true_iff in Hhidden as [Hhidden _].
    apply andb_true_iff in Hhidden as [-> Hflag].
    destruct (isUpdated_leaf_value fuel st c n Hc Hleaf) as (u & -> & _).
    cbn [mbind option_bind]. rewrite Hflag. f_equal.
    by rewrite orb_true_r. }
  assert (Hupdated : UiFrame.isUpdated (isUpdated (S fuel)) st p = Some true).
  { unfold UiFrame.isUpdated. rewrite Hp. cbn [mbind option_bind]. rewrite Hf.
    cbn [mbind option_bind]. rewrite Hinit. cbn [negb].
    destruct (itemsChanged f || visibilityChanged (base o) || newParent (base o));
      [reflexivity |].
    exact (anyChanged_found fuel st _ c Hleaves Hin Hchanged). }
  set (o1 := onBase (set_updateArea (Area.mk (-1) (-1) 0 0)) o).
  set (st1 := <[p := o1]> st).
  assert (Hfar : forall q : loc, q <> p -> st1 !! q = st !! q).
  { intros q Hq. unfold st1. by rewrite lookup_insert_ne by congruence. }
  assert (Hp1 : exists o0 : node, st1 !! p = Some o0 /\ frameOf (cls o0) = Some f).
  { exists o1. split; [apply lookup_insert_eq | exact Hf]. }
  assert (Hkids1 : Forall (fun s => is_Some (st1 !! s)) (objects f)).
  { rewrite Forall_forall in Hleaves |- *. intros s Hs.
    destruct (Hleaves s Hs) as (k & Hk & _).
    rewrite Hfar; [by eexists |]. intros ->. by destruct Hself. }
  destruct (hiddenLoop_flags p f (objects f) st1 Hp1 Hkids1 Hkids1)
    as (st2 & Hloop & Hsame & Hflags).
  assert (Hp2 : st2 !! p = Some o1).
  { rewrite (hiddenLoop_outside p f Hself _ _ _ Hp1 Hloop p Hself).
    apply lookup_insert_eq. }
  assert (Hrun : exists ua : area,
             getUpdateArea (S fuel) st p
             = Some (<[p := onBase (set_updateArea ua) o1]> st2, ua)).
  { unfold getUpdateArea, UiFrame.getUpdateArea. rewrite Hp. cbn [mbind option_bind].
    rewrite Hf. cbn [mbind option_bind]. rewrite Hinit. cbn [negb].
    rewrite Hupdated. cbn [mbind option_bind negb]. fold o1. fold st1.
    rewrite Hloop. cbn [mbind option_bind]. rewrite Hp2. cbn [mbind option_bind].
    destruct (visibilityChanged (base o1)); [by eexists |].
    assert (Hleaves2 : Forall (leafChild st2) (objects f)).
    { rewrite Forall_forall in Hleaves |- *. intros s Hs.
      destruct (Hleaves s Hs) as (k & Hk & Hleaf).
      assert (Hk1 : st1 !! s = Some k).
      { rewrite Hfar; [exact Hk |]. intros ->. by destruct Hself. }
      destruct (flaggedOnly_lookup _ _ s k Hsame Hk1) as (k' & Hk' & Hcls & _).
      exists k'. split; [exact Hk' | by rewrite Hcls]. }
    destruct (accumulateLoop_leaves fuel st2 (objects f) Hleaves2 (updateArea (base o1)))
      as [acc ->].
    cbn [mbind option_bind]. by eexists. }
  destruct Hrun as [ua Hrun].
  exists (<[p := onBase (set_updateArea ua) o1]> st2), ua.
  split; [exact Hrun |]. split; [apply lookup_insert_eq |]. split.
  - intros s m Hs Hm Hover.
    assert (Hsp : s <> p) by (intros ->; by destruct Hself).
    assert (Hcp : c <> p) by (intros ->; by destruct Hself).
    destruct (Hflags c s n m Hin) as (m' & Hm' & Hflag); try assumption;
      try (by rewrite Hfar by assumption).
    exists m'. split; [| exact Hflag]. by rewrite lookup_insert_ne by congruence.
  - intros q k Hq Hk.
    assert (Hk1 : st1 !! q = Some k) by (by rewrite Hfar by assumption).
    destruct (flaggedOnly_lookup _ _ q k Hsame Hk1) as (k' & Hk' & Hcls & Hbase & _).
    exists k'. split; [by rewrite lookup_insert_ne by congruence |].
    split; assumption.
Qed.

Lemma getUpdateArea_flags_what_a_hidden_child_covered_witness :
  (visibilityChanged ∘ base) <$> coverHidden !! 2%nat = Some false
  /\ (visibilityChanged ∘ base) <$> coverHidden !! 3%nat = Some false
  /\ exists (st' : heap) (ua : area) (n2 n3 : node),
       getUpdateArea 1 coverHidden 0%nat = Some (st', ua)
       /\ (updateArea ∘ base) <$> st' !! 0%nat = Some ua
       /\ st' !! 2%nat = Some n2 /\ visibilityChanged (base n2) = true
       /\ st' !! 3%nat = Some n3 /\ visibilityChanged (base n3) = true.
Proof.
  lookup_at coverHidden 0%nat ipattern:(Hframe).
  lookup_at coverHidden 1%nat ipattern:(H1).
  lookup_at coverHidden 2%nat ipattern:(H2).
  lookup_at coverHidden 3%nat ipattern:(H3).
  lookup_at coverHidden 4%nat ipattern:(H4).
  assert (Hf : frameOf (cls (nodeAt coverHidden 0%nat))
               = Some (frameAt coverHidden 0%nat)) by (vm_compute; reflexivity).
  assert (Hinit : frame_initialised (frameAt coverHidden 0%nat) = true)
    by (vm_compute; reflexivity).
  assert (Hkids : objects (frameAt coverHidden 0%nat) = [1%nat; 2%nat; 3%nat; 4%nat])
    by (vm_compute; reflexivity).
  assert (Hleaves : Forall (leafChild coverHidden) (objects (frameAt coverHidden 0%nat))).
  { rewrite Hkids.
    apply Forall_cons_2.
    { exists (nodeAt coverHidden 1%nat). split; [exact H1 | vm_compute; reflexivity]. }
    apply Forall_cons_2.
    { exists (nodeAt coverHidden 2%nat). split; [exact H2 | vm_compute; reflexivity]. }
    apply Forall_cons_2.
    { exists (nodeAt coverHidden 3%nat). split; [exact H3 | vm_compute; reflexivity]. }
    apply Forall_cons_2.
    { exists (nodeAt coverHidden 4%nat). split; [exact H4 | vm_compute; reflexivity]. }
    exact (Forall_nil_2 _). }
  assert (Hin1 : 1%nat ∈ objects (frameAt coverHidden 0%nat))
    by (rewrite Hkids; apply (bool_decide_unpack _); vm_compute; exact I).
  assert (Hin2 : 2%nat ∈ objects (frameAt coverHidden 0%nat))
    by (rewrite Hkids; apply (bool_decide_unpack _); vm_compute; exact I).
  assert (Hin3 : 3%nat ∈ objects (frameAt coverHidden 0%nat))
    by (rewrite Hkids; apply (bool_decide_unpack _); vm_compute; exact I).
  assert (Hhidden : justHidden (nodeAt coverHidden 1%nat) = true)
    by (vm_compute; reflexivity).
  assert (Hover2 : UiFrame.overlaps (base (nodeAt coverHidden 1%nat))
                     (base (nodeAt coverHidden 2%nat)) = true)
    by (vm_compute; reflexivity).
  assert (Hover3 : UiFrame.overlaps (base (nodeAt coverHidden 1%nat))
                     (base (nodeAt coverHidden 3%nat)) = true)
    by (vm_compute; reflexivity).
  split; [vm_compute; reflexivity |]. split; [vm_compute; reflexivity |].
  destruct (getUpdateArea_flags_what_a_hidden_child_covered 0 coverHidden 0%nat 1%nat
              (nodeAt coverHidden 0%nat) (nodeAt coverHidden 1%nat)
              (frameAt coverHidden 0%nat) Hframe Hf Hinit Hleaves Hin1 H1 Hhidden)
    as (st' & ua & Hget & Hown & Hflags & _).
  destruct (Hflags 2%nat (nodeAt coverHidden 2%nat) Hin2 H2 Hover2)
    as (n2 & Hn2 & Hflag2).
  destruct (Hflags 3%nat (nodeAt coverHidden 3%nat) Hin3 H3 Hover3)
    as (n3 & Hn3 & Hflag3).
  exists st', ua, n2, n3.
  split; [exact Hget |].
  split; [exact (f_equal (fmap (updateArea ∘ base)) Hown) |].
  split; [exact Hn2 |]. split; [exact Hflag2 |]. split; [exact Hn3 | exact Hflag3].
Defined.

Lemma finiteBelow_allocated (st : heap) (d : nat) (objs : list loc) :
  forallb (finiteBelow st d) objs = true ->
  Forall (fun c => is_Some (st !! c)) objs.
Proof.
  intros Hall. apply Forall_forall. intros c Hc.
  rewrite forallb_forall in Hall.
  assert (Hin : In c objs) by (apply list_elem_of_In; exact Hc).
  specialize (Hall c Hin). destruct d as [| d]; [discriminate Hall |].
  cbn [finiteBelow] in Hall. destruct (st !! c); [eauto | discriminate Hall].
Qed.

Lemma frame_touch_quiet (vtouch : heap -> loc -> Z -> Z -> option (heap * bool))
    (st : heap) (p : loc) (o : node) (f : UiFrameData) (px py : Z) :
  st !! p = Some o -> frameOf (cls o) = Some f ->
  Forall (fun c => is_Some (st !! c)) (objects f) ->
  (forall (c : loc) (x0 y0 : Z), c ∈ objects f -> vtouch st c x0 y0 = Some (st, false)) ->
  UiFrame.touchEvent vtouch st p px py = Some (st, false).
Proof.
  intros Hp Hf Hvalid Hkids. unfold UiFrame.touchEvent.
  rewrite Hp. cbn [mbind option_bind]. rewrite Hf. cbn [mbind option_bind].
  destruct (frame_initialised f); cbn [negb]; [| reflexivity].
  destruct (scanLayers_target st px py (objects f) Hvalid)
    as [(i & c & n & Hscan & Hi & Hc & _) | [Hscan _]];
    rewrite Hscan; cbn [mbind option_bind]; [| reflexivity].
  rewrite Hc. cbn [mbind option_bind]. apply Hkids.
  apply list_elem_of_lookup. exists i. exact Hi.
Qed.

Lemma frame_touch_inert (vtouch : heap -> loc -> Z -> Z -> option (heap * bool))
    (st st' : heap) (p : loc) (px py : Z) (b : bool) :
  (forall (c : loc) (x0 y0 : Z) (st1 : heap) (b1 : bool),
      vtouch st c x0 y0 = Some (st1, b1) -> st1 = st /\ b1 = false) ->
  UiFrame.touchEvent vtouch st p px py = Some (st', b) -> st' = st /\ b = false.
Proof.
  intros Hkids. unfold UiFrame.touchEvent.
  destruct (st !! p) as [o |]; cbn [mbind option_bind]; [| discriminate].
  destruct (frameOf (cls o)) as [f |]; cbn [mbind option_bind]; [| discriminate].
  destruct (frame_initialised f); cbn [negb];
    [| intros Heq; injection Heq as <- <-; split; reflexivity].
  destruct (UiFrame.scanLayers st px py (objects f) UiFrame.layersDown) as [[c |] |];
    cbn [mbind option_bind]; [| intros Heq; injection Heq as <- <-; split; reflexivity
                              | discriminate].
  destruct (st !! c) as [n |]; cbn [mbind option_bind]; [| discriminate].
  apply Hkids.
Qed.

Lemma leaf_touch_quiet `{Application} (fuel : nat) (st : heap) (p : loc) (o : node)
    (px py : Z) :
  silent st -> st !! p = Some o -> frameOf (cls o) = None \/ (exists l f cb, cls o = IsIcon l f cb) ->
  touchEvent (S fuel) st p px py = Some (st, false).
Proof.
  intros Hsilent Hp Hleaf. rewrite touchEvent_unfold, Hp. cbn [mbind option_bind].
  pose proof (map_Forall_lookup_1 _ _ _ _ Hsilent Hp) as Hquiet.
  unfold silentNode in Hquiet.
  destruct (cls o) as [l | l b | l f | l f cb | l f d | l f md | i | i] eqn:Hcls;
    try reflexivity;
    try (destruct Hleaf as [Hleaf | (l' & f' & cb' & Hleaf)]; discriminate Hleaf).
  - unfold UiButton.touchEvent. rewrite Hp. cbn [mbind option_bind]. rewrite Hcls.
    rewrite Hquiet. rewrite orb_true_r. reflexivity.
  - unfold UiIcon.touchEvent. rewrite Hp. cbn [mbind option_bind]. rewrite Hcls.
    apply bool_decide_eq_true in Hquiet. subst cb. reflexivity.
Qed.

Lemma touch_quiet `{Application} (st : heap) :
  silent st ->
  forall (d fuel : nat) (p : loc) (px py : Z),
    finiteBelow st d p = true ->
    touchEvent (d + fuel) st p px py = Some (st, false).
Proof.
  intros Hsilent. induction d as [| d IH]; intros fuel p px py Hfin;
    [discriminate Hfin |].
  cbn [finiteBelow] in Hfin.
  destruct (st !! p) as [o |] eqn:Hp; [| discriminate Hfin].
  assert (Hframe : forall f : UiFrameData,
             frameOf (cls o) = Some f ->
             forallb (finiteBelow st d) (objects f) = true ->
             UiFrame.touchEvent (touchEvent (d + fuel)) st p px py = Some (st, false)).
  { intros f Hf Hall.
    apply (frame_touch_quiet _ st p o f px py Hp Hf (finiteBelow_allocated st d _ Hall)).
    intros c x0 y0 Hc. apply IH.
    rewrite forallb_forall in Hall. apply Hall, list_elem_of_In, Hc. }
  change (S d + fuel)%nat with (S (d + fuel)).
  destruct (cls o) as [l | l b | l f | l f cb | l f dm | l f md | i | i] eqn:Hcls;
    try (apply (leaf_touch_quiet (d + fuel) st p o px py Hsilent Hp);
         rewrite Hcls; solve [left; reflexivity | right; eauto]).
  - rewrite (touchEvent_unfold (d + fuel) st p px py), Hp.
    cbn [mbind option_bind]. rewrite Hcls.
    apply (Hframe f); [reflexivity | exact Hfin].
  - rewrite (touchEvent_unfold (d + fuel) st p px py), Hp.
    cbn [mbind option_bind]. rewrite Hcls.
    apply (Hframe f); [reflexivity | exact Hfin].
  - rewrite (touchEvent_unfold (d + fuel) st p px py), Hp. cbn [mbind option_bind]. rewrite Hcls.
    apply andb_true_iff in Hfin. destruct Hfin as [Hall Hmodal].
    unfold UiManager.touchEvent. rewrite Hp. cbn [mbind option_bind]. rewrite Hcls.
    destruct md as [md |]; [| apply (Hframe f); [reflexivity | exact Hall]].
    destruct (st !! md) as [m |] eqn:Hmd; cbn [mbind option_bind].
    + destruct (visible (base m));
        [| apply (Hframe f); [reflexivity | exact Hall]].
      destruct ((x (base m) <? px) && (px <? x (base m) + width (base m))
                && (y (base m) <? py) && (py <? y (base m) + height (base m)));
        [apply IH; exact Hmodal | reflexivity].
    + destruct d as [| d']; [discriminate Hmodal |].
      cbn [finiteBelow] in Hmodal. rewrite Hmd in Hmodal. discriminate Hmodal.
Qed.

Lemma touch_inert `{Application} (st : heap) :
  silent st ->
  forall (fuel : nat) (p : loc) (px py : Z) (st' : heap) (b : bool),
    touchEvent fuel st p px py = Some (st', b) -> st' = st /\ b = false.
Proof.
  intros Hsilent. induction fuel as [| fuel IH]; intros p px py st' b;
    [discriminate |].
  rewrite touchEvent_unfold.
  destruct (st !! p) as [o |] eqn:Hp; cbn [mbind option_bind]; [| discriminate].
  destruct (cls o) as [l | l b0 | l f | l f cb | l f dm | l f md | i | i] eqn:Hcls.
  - intros Heq; injection Heq as <- <-; split; reflexivity.
  - assert (Hq : touchEvent (S fuel) st p px py = Some (st, false)).
    { apply (leaf_touch_quiet fuel st p o px py Hsilent Hp). left. rewrite Hcls. reflexivity. }
    rewrite touchEvent_unfold, Hp in Hq. cbn [mbind option_bind] in Hq.
    rewrite Hcls in Hq. rewrite Hq.
    intros Heq; injection Heq as <- <-; split; reflexivity.
  - apply frame_touch_inert. intros c x0 y0 st1 b1. apply IH.
  - assert (Hq : touchEvent (S fuel) st p px py = Some (st, false)).
    { apply (leaf_touch_quiet fuel st p o px py Hsilent Hp). right. eauto. }
    rewrite touchEvent_unfold, Hp in Hq. cbn [mbind option_bind] in Hq.
    rewrite Hcls in Hq. rewrite Hq.
    intros Heq; injection Heq as <- <-; split; reflexivity.
  - apply frame_touch_inert. intros c x0 y0 st1 b1. apply IH.
  - unfold UiManager.touchEvent. rewrite Hp. cbn [mbind option_bind]. rewrite Hcls.
    assert (Hframe : UiFrame.touchEvent (touchEvent fuel) st p px py = Some (st', b) ->
                     st' = st /\ b = false).
    { apply frame_touch_inert. intros c x0 y0 st1 b1. apply IH. }
    destruct md as [md |]; [| exact Hframe].
    destruct (st !! md) as [m |]; cbn [mbind option_bind]; [| discriminate].
    destruct (visible (base m)); [| exact Hframe].
    destruct ((x (base m) <? px) && (px <? x (base m) + width (base m))
              && (y (base m) <? py) && (py <? y (base m) + height (base m)));
      [apply IH | intros Heq; injection Heq as <- <-; split; reflexivity].
  - intros Heq; injection Heq as <- <-; split; reflexivity.
  - intros Heq; injection Heq as <- <-; split; reflexivity.
Qed.

(** X28.  A touch changes the objects only through a callback.  In a heap
    in which no button holds a function pointer and no icon a callback,
    [touchEvent] on any object, if it returns, answers false and leaves
    every object as it was; and it does return on every object below which
    the children of frames and the modal of a manager are allocated and
    finitely deep, whatever the point touched. *)
Theorem touch_without_callbacks_changes_nothing :
  forall (A : Application) (st : heap) (p : loc) (px py : Z),
    silent st ->
    (forall (fuel : nat) (st' : heap) (b : bool),
        touchEvent fuel st p px py = Some (st', b) -> st' = st /\ b = false)
    /\ (forall d fuel : nat,
           finiteBelow st d p = true ->
           touchEvent (d + fuel) st p px py = Some (st, false)).
Proof.
  intros A st p px py Hsilent. split.
  - intros fuel st' b. apply (touch_inert st Hsilent).
  - intros d fuel. apply (touch_quiet st Hsilent).
Qed.

Lemma touch_without_callbacks_changes_nothing_witness :
  silent panelWithLooseButton
  /\ finiteBelow panelWithLooseButton 2 0%nat = true
  /\ touchEvent (H := idleApplication) 2 panelWithLooseButton 0%nat 5 5
     = Some (panelWithLooseButton, false).
Proof.
  assert (Hsilent : silent panelWithLooseButton).
  { apply (bool_decide_unpack _). vm_compute. exact I. }
  assert (Hfin : finiteBelow panelWithLooseButton 2 0%nat = true)
    by (vm_compute; reflexivity).
  split; [exact Hsilent |]. split; [exact Hfin |].
  exact (proj2 (touch_without_callbacks_changes_nothing idleApplication
                  panelWithLooseButton 0%nat 5 5 Hsilent) 2%nat 0%nat Hfin).
Defined.
